(* ===== verification/_CoqProject ===== *)
-Q . S2P
Prelude.v
GoStrings.v
GoHttp.v
GoTime.v
Config.v
Sha256.v
GoJson.v
EnvCheck.v
GoNet.v
Catalog.v
Identity.v
FileStore.v
Backoff.v
Repository.v
Migrate.v
AssetPath.v
FsSecure.v
MaxBytes.v
ProxyGuard.v
Float64.v
RateLimit.v
Cors.v
AssetHandler.v
OriginAuth.v
Middleware.v
Server.v
Scanner.v
Jobs.v
Runner.v
InternalApi.v
Health.v
ApiDocs.v
Mux.v
Metrics.v
Main.v
