(* ===== verification/Prelude.v ===== *)
(** * A verification library for audistro-provider

    audistro-provider serves the HLS files of audio assets (playlists and media segments) from a
    directory, from an upstream origin, or from both, keeps an index of its assets in SQLite, and
    announces them to a catalog. This library models the Go code under [src/] as executable Rocq
    definitions with the names of the source, and proves the properties that make each part
    correct.

    ** The program and where it is modelled

    A request passes the middleware of [internal/httpserver] (metrics, access log, panic recovery,
    OpenAPI validation, request id) and reaches the mux; [/assets/<id>/<file>] goes through the rate
    limiter and the CORS layer to the asset handler, which validates the path, and then serves the
    file from disk or proxies it from the origin. In the background, a rescan compares the directory
    with the database, a sweep announces the active assets to the catalog under a back-off, and a
    clean-up marks expired announcements. [main] brings these parts up in order, after checking the
    environment and the configuration, loading the provider's identity and migrating the database, and
    takes them down on a signal.

    - [Prelude]: results of fallible code, 64-bit integers, byte strings and their order, tactics.
    - [GoStrings], [GoHttp], [GoTime], [GoNet]: what the code uses of Go's [strings], [path/filepath],
      [net/http], [net], [net/netip], [time] and [strconv]. [Sha256]: the digests, and hexadecimal.
      [GoJson]: [encoding/json], printing and a complete parser.
    - [EnvCheck]: [internal/envcheck/envcheck.go].
    - [Config]: [internal/config/config.go], [Load] and [Validate].
    - [Catalog]: [internal/catalog], the client, its errors, signed announcements, health state.
    - [Identity], [FileStore]: [internal/identity], the format of the identity file, and loading,
      creating and saving it over a file system in which any call may fail.
    - [Backoff]: [internal/jobs/backoff.go].
    - [Repository]: [internal/repository], the tables and every statement on them.
    - [Migrate]: [internal/db/db.go], opening the database and migrating its schema and rows.
    - [AssetPath]: [internal/assets/validate.go] and the path handling of [handler.go].
    - [FsSecure]: [internal/fssecure/fssecure.go] over a file system with symbolic links that may
      change between any two calls.
    - [MaxBytes]: [maxBytesReadCloser] of [handler.go] over an arbitrary reader.
    - [ProxyGuard]: [internal/proxyguard/limit.go] and its use in [ServeProxy], as a step relation with
      a step for each operation on the semaphore and on the gauge.
    - [Float64]: IEEE 754 binary64, with the error bounds of its operations. [RateLimit], [Cors]:
      [internal/assets/ratelimit.go] and [cors.go].
    - [AssetHandler]: the rest of [internal/assets/handler.go].
    - [OriginAuth]: [internal/originauth/hmac.go] and the loading of its secret in [main].
    - [Middleware], [Server]: [internal/httpserver], the layers in front of the mux and the wiring
      of the asset endpoint.
    - [Scanner]: [internal/scanner/scanner.go].
    - [Jobs]: [internal/jobs], the rescan, the sweep and the clean-up. [Runner]: the goroutines that
      repeat them, with their tickers, the cancellation and the wait group, as a step relation.
    - [InternalApi]: [internal/internalapi], the address allow-list, the rescan and announce endpoints.
    - [Health], [ApiDocs]: [internal/health] with the checks that [main] hands to it, and
      [internal/httpserver/apidocs.go]. [Mux]: the routes of [internal/httpserver/server.go] and how
      [http.ServeMux] dispatches to them.
    - [Metrics]: [internal/metrics], with [internal/buildinfo] and [internal/logging].
    - [Main]: [cmd/audistro-provider/main.go], start-up as one function with its exits, serving and
      shut-down as a step relation on top of [Runner].

    ** Conventions

    Fallible code returns [result]; a panic is an outcome of its own ([run_end]). Stateful code
    passes its state explicitly; database code runs in the monad [DB] of [Repository], whose state
    has a schedule of faults, so that every statement about a job holds when any calls fail. Integers
    are [Z], wrapped to 64 bits wherever the code can overflow. Times are nanoseconds since the Unix
    epoch, strings are byte strings. What comes from outside the repository (the origin, the catalog,
    the operating system, [url.Parse], the OpenAPI library, regular expressions, secp256k1 and UUIDs, random
    numbers, the Prometheus registry) is an argument or a class of operations with laws ([BtcecLaws],
    [UuidLaws], [RegistryLaws]); what the code relies on from it is a named hypothesis of the theorem that needs it
    ([jitter_ok], [honest_length]), and witnesses instantiate it. ASCII case mapping is computed, the
    case mapping of other strings is the class [UnicodeLower]; the lenient path of [time.Parse], which
    no string written by the provider takes, is the class [TimeParseLenient].

    ** What the theorems show

    - Requests: an accepted path stays inside its asset's directory ([AssetPath]); opening a file is
      safe against races with symbolic links and leaks no descriptor ([FsSecure]); only validated asset
      files are opened or requested from the configured origin, each storage mode touches only what it
      may, answers in filesystem mode are characterised completely, hop-by-hop headers are removed
      exactly, and the upstream slot is always returned ([AssetHandler], [MaxBytes], [ProxyGuard]); of
      a proxied segment a client gets at most the limit, with the text of an error behind it if that was
      not all ([Middleware]); a client gets at most its burst plus rate times window, up to the rounding
      of binary64, independently of other clients ([RateLimit]); CORS answers exactly the configured
      origins ([Cors]); every request is answered and accounted for once ([Middleware]); with [hmac]
      configured every request to the origin carries a signature that verifies and that a client can
      neither forge nor add to, and the signed text determines the request ([OriginAuth]).
    - Internal endpoints: exactly the clients in the configured networks are admitted, forwarded
      addresses count only from trusted proxies, membership is agreement of address prefixes, and
      the allow-list applied is the one that was validated; an announce request tries each asset
      once, counts it once and records what was counted; the rescan endpoint does what the rescan job
      does ([InternalApi]).
    - Configuration: the internal endpoints are closed unless opened, and a validated configuration
      wires an endpoint that works ([Config], [Server]).
    - Database and jobs: the tables stay consistent under any operations and faults, scans are
      stored atomically, expiry by TEXT comparison is expiry by time, rows round-trip ([Repository]); a
      scan finds exactly the playable assets and its hash identifies their files ([Scanner]); a rescan
      makes the database mirror the disk, a sweep announces exactly what is due and its counters add up
      ([Jobs]); delays are exponential, capped and a function of each asset's own outcomes ([Backoff]);
      the signed text of an announcement determines it but for priority and lifetime ([Catalog]).
    - Identity: a save leaves the old file or the complete new one at every moment, with the key never
      readable by others; the identity is the same on every later start, is never replaced, and is well
      formed ([FileStore]).
    - Schema: a migration changes nothing or keeps every row, is idempotent, and turns tables of older
      versions into those that [Repository] reads ([Migrate]).
    - The whole server: each method and path has the answer that a table of the routes gives ([Mux]), only
      admitted clients can change database or health state over HTTP ([Mux]), health and readiness report
      the state they read ([Health]), metrics fit their descriptors, do not panic on ASCII labels and
      count exactly ([Metrics]).
    - The whole program: the environment check names the first variable that is wrong ([EnvCheck]);
      what is served is served with a validated configuration, a stable identity, a migrated database and
      a fresh index; the catalog cannot keep the provider down; a missing signing secret keeps it from
      being ready ([Main]); stopping the jobs is safe and always ends ([Runner]), and the database is
      closed when nothing uses it any more ([Main]).
    - Where the code does not do what it means to, a theorem says what it does: a limit of [2^63-1]
      empties bodies ([MaxBytes]), a nil signer panics ([AssetHandler]), an over-long segment is
      delivered as if complete ([Middleware]), request ids are never logged ([Middleware]), rows with
      NULL times are never announced ([Jobs]), a client behind an appending proxy chooses the address
      it is judged by ([InternalApi]), and clients can create metric series without bound ([Metrics]).

    ** Fuel and bounds

    Recursion is structural almost everywhere. [copyLoop] ([MaxBytes]) and symbolic-link resolution
    ([FsSecure]) take fuel: the former is proved to finish with the length of the body plus two, the
    latter has the kernel's own limit of links. [blocks] ([Sha256]) takes the length of its input, which
    is more than the number of blocks; the JSON parser takes twice the length of its input and two, proved enough
    ([parse_json_fuel]); the loop of the IPv6 parser ([GoNet]) has one unit per group of
    an address. Printing an integer takes its base-two logarithm, proved enough
    ([width_ok]). Dates are proved correct for the years 0 to 9999, which RFC 3339 has four digits for;
    back-off settings below [2^62] ns (146 years) cannot overflow. The rate bound is for limits below
    [2^52], with a relative error of [2^-52] per floating-point operation.

    The runner needs no fuel: a run has at most eleven steps and three more per tick of a ticker.

    ** Not modelled

    Log lines; the help texts and buckets of the metrics; the start-up audit for symbolic links, which
    only logs; the listener, the connections and the timeouts of [net/http], of which [Main] keeps
    whether requests are accepted and how many run; the two functions that locate source files for a
    test of the API documents. The effect of a run of a background loop is taken at its end: runs follow
    each other in any order, but their statements are not interleaved, and neither are those of a
    request with them. The SQL that the provider does not issue itself (triggers, views, other writers)
    is outside the model of the database; a COMMIT that fails is taken not to have taken effect, which is
    what SQLite promises (the deferred Rollback of [database/sql] does nothing after it). *)

From Stdlib Require Export Ascii ZArith Lia.
From stdpp Require Export base list gmap strings sorting.

(** ** Fallible code

    Go's [(value, error)] returns: [Ok] carries the value of a nil error. *)

Inductive result (E A : Type) : Type :=
| Ok (a : A)
| Err (e : E).
Arguments Ok {E A} a.
Arguments Err {E A} e.

#[export] Instance result_ret {E} : MRet (result E) := fun A a => Ok a.
#[export] Instance result_bind {E} : MBind (result E) :=
  fun A B f m => match m with Ok a => f a | Err e => Err e end.

(** A Go guard [if cond { return err }]. *)
Definition guard_err {E} (bad : bool) (e : E) : result E unit :=
  if bad then Err e else Ok tt.

Definition is_ok {E A} (r : result E A) : bool :=
  match r with Ok _ => true | Err _ => false end.

Lemma bind_Ok {E A B} (m : result E A) (f : A -> result E B) b :
  (m ≫= f) = Ok b <-> exists a, m = Ok a /\ f a = Ok b.
Proof. destruct m; cbn; naive_solver. Qed.

Lemma bind_Err {E A B} (m : result E A) (f : A -> result E B) e :
  (m ≫= f) = Err e <-> m = Err e \/ exists a, m = Ok a /\ f a = Err e.
Proof. destruct m; cbn; naive_solver. Qed.

Lemma guard_err_Ok {E} bad (e : E) u : guard_err bad e = Ok u <-> bad = false.
Proof. destruct bad, u; cbn; naive_solver. Qed.

Lemma is_ok_true {E A} (r : result E A) : is_ok r = true <-> exists a, r = Ok a.
Proof. destruct r; cbn; naive_solver. Qed.

Lemma elem_of_mapM_option {A B} (f : A -> option B) l k y :
  mapM f l = Some k -> y ∈ k <-> exists x, x ∈ l /\ f x = Some y.
Proof.
  intros H%mapM_Some. induction H as [|x z l k Hx _ IH]; [set_solver|].
  rewrite elem_of_cons, IH. setoid_rewrite elem_of_cons. naive_solver.
Qed.

(** ** Machine integers

    Go's [int], [int64] and [time.Duration] are 64-bit two's complement. *)

Definition int64_min : Z := -(2 ^ 63).
Definition int64_max : Z := 2 ^ 63 - 1.
Definition wrap64 (z : Z) : Z := (z + 2 ^ 63) mod 2 ^ 64 - 2 ^ 63.
Definition in_int64 (z : Z) : Prop := (int64_min <= z <= int64_max)%Z.

Lemma wrap64_range z : in_int64 (wrap64 z).
Proof.
  unfold in_int64, wrap64, int64_min, int64_max.
  pose proof (Z.mod_pos_bound (z + 2 ^ 63) (2 ^ 64) ltac:(lia)). lia.
Qed.

Lemma wrap64_id z : in_int64 z -> wrap64 z = z.
Proof.
  unfold in_int64, wrap64, int64_min, int64_max; intros.
  rewrite Z.mod_small by lia. lia.
Qed.

(** ** Byte strings

    Go strings are byte sequences; [string] is the same, one [ascii] a byte. *)

Global Arguments String.append : simpl nomatch.
Global Arguments Nat.ltb : simpl never.
Global Arguments Nat.leb : simpl never.
Global Arguments Z.eqb : simpl never.
Global Arguments Z.ltb : simpl never.
Global Arguments Z.leb : simpl never.

Definition byte_of (c : Ascii.ascii) : Z := Z.of_N (Ascii.N_of_ascii c).
Definition char_of (z : Z) : Ascii.ascii := Ascii.ascii_of_N (Z.to_N z).
Notation slen := String.length (only parsing).

Fixpoint sall (p : Ascii.ascii -> bool) (s : string) : bool :=
  match s with
  | EmptyString => true
  | String c s' => p c && sall p s'
  end.

Lemma byte_of_range c : (0 <= byte_of c < 256)%Z.
Proof. unfold byte_of. pose proof (Ascii.N_ascii_bounded c). lia. Qed.

Lemma char_of_byte_of c : char_of (byte_of c) = c.
Proof. unfold char_of, byte_of. rewrite N2Z.id. apply Ascii.ascii_N_embedding. Qed.

Lemma byte_of_inj c d : byte_of c = byte_of d -> c = d.
Proof. intros H. rewrite <- (char_of_byte_of c), <- (char_of_byte_of d). congruence. Qed.

Lemma byte_of_char_of z : (0 <= z < 256)%Z -> byte_of (char_of z) = z.
Proof. intros. unfold char_of, byte_of. rewrite Ascii.N_ascii_embedding; lia. Qed.

Lemma sapp_nil_r s : s +:+ "" = s.
Proof. induction s; cbn; congruence. Qed.

Lemma sapp_assoc s t u : (s +:+ t) +:+ u = s +:+ (t +:+ u).
Proof. induction s; cbn; congruence. Qed.

Lemma slen_app s t : slen (s +:+ t) = slen s + slen t.
Proof. induction s; cbn; congruence. Qed.

Lemma sapp_inj_r s t u : s +:+ u = t +:+ u -> s = t.
Proof.
  revert t; induction s as [|c s IH]; intros [|d t]; cbn; intros H; [done|..].
  - apply (f_equal String.length) in H. cbn in H. rewrite slen_app in H. lia.
  - apply (f_equal String.length) in H. cbn in H. rewrite slen_app in H. lia.
  - injection H as -> H. f_equal. eauto.
Qed.

Lemma sall_app p s t : sall p (s +:+ t) = sall p s && sall p t.
Proof. induction s; cbn; [done|]. rewrite IHs. by rewrite andb_assoc. Qed.

Lemma sall_impl (p q : Ascii.ascii -> bool) s :
  (forall c, p c = true -> q c = true) -> sall p s = true -> sall q s = true.
Proof.
  intros Hpq; induction s; cbn; [done|].
  rewrite !andb_true_iff. naive_solver.
Qed.

Lemma slen_0 s : slen s = 0 -> s = "".
Proof. destruct s; done. Qed.

(** ** Byte-wise comparison

    Go's [<] on strings, SQLite's BINARY collation. *)

Definition slt (s t : string) : bool :=
  match String.compare s t with Lt => true | _ => false end.

Lemma slt_cons c s d t :
  slt (String c s) (String d t) =
  ((byte_of c <? byte_of d)%Z || ((byte_of c =? byte_of d)%Z && slt s t)).
Proof.
  unfold slt, byte_of; cbn. unfold Ascii.compare.
  destruct (N.compare_spec (Ascii.N_of_ascii c) (Ascii.N_of_ascii d)) as [E|E|E].
  - rewrite E. rewrite Z.ltb_irrefl, Z.eqb_refl. done.
  - replace (_ <? _)%Z with true by (symmetry; apply Z.ltb_lt; lia). done.
  - replace (_ <? _)%Z with false by (symmetry; apply Z.ltb_ge; lia).
    replace (_ =? _)%Z with false by (symmetry; apply Z.eqb_neq; lia). done.
Qed.

Lemma slt_irrefl s : slt s s = false.
Proof. induction s; [done|]. rewrite slt_cons, Z.ltb_irrefl, Z.eqb_refl. done. Qed.

Lemma slt_app_same p s t : slt (p +:+ s) (p +:+ t) = slt s t.
Proof. induction p; [done|]. cbn. rewrite slt_cons, Z.ltb_irrefl, Z.eqb_refl. done. Qed.

Lemma slt_trans s t u : slt s t = true -> slt t u = true -> slt s u = true.
Proof.
  revert t u; induction s as [|c s IH]; intros [|d t] [|e u]; try done.
  rewrite !slt_cons, !orb_true_iff, !andb_true_iff, !Z.ltb_lt, !Z.eqb_eq.
  intros [?|[? ?]] [?|[? ?]]; [left; lia..|right; split; [lia|eauto]].
Qed.

Lemma slt_total s t : slt s t = false -> slt t s = false -> s = t.
Proof.
  revert t; induction s as [|c s IH]; intros [|d t]; try done.
  rewrite !slt_cons, !orb_false_iff, !andb_false_iff, !Z.ltb_ge, !Z.eqb_neq.
  intros [H1 H2] [H3 H4]. assert (byte_of c = byte_of d) as E by lia.
  destruct H2 as [|H2], H4 as [|H4]; [congruence..|]. apply byte_of_inj in E as ->. f_equal. eauto.
Qed.

Lemma slt_asym s t : slt s t = true -> slt t s = false.
Proof.
  intros H. destruct (slt t s) eqn:E; [|done].
  pose proof (slt_trans _ _ _ H E) as Hs. by rewrite slt_irrefl in Hs.
Qed.

(** [s <= t] in byte order, as the sorting routines use it. *)
Definition sle (s t : string) : Prop := slt t s = false.
#[export] Instance sle_dec s t : Decision (sle s t).
Proof. unfold sle. apply _. Defined.

#[export] Instance sle_total : Total sle.
Proof.
  intros s t. unfold sle. destruct (slt t s) eqn:E; [right; by apply slt_asym|by left].
Qed.

#[export] Instance sle_trans : Transitive sle.
Proof.
  intros s t u. unfold sle. intros H1 H2. destruct (slt u s) eqn:E; [|done].
  destruct (slt s t) eqn:E1.
  - by rewrite (slt_trans _ _ _ E E1) in H2.
  - assert (s = t) as -> by (by apply slt_total). congruence.
Qed.

#[export] Instance sle_anti : AntiSymm (=) sle.
Proof. intros s t. unfold sle. intros H1 H2. by apply slt_total. Qed.

(** ** Proof automation *)

Create HintDb go.
#[export] Hint Rewrite sapp_nil_r sapp_assoc slen_app sall_app : go.
#[export] Hint Rewrite @bind_Ok @guard_err_Ok : go_result.

(** Split boolean conjunctions and reflect integer tests in all hypotheses. *)
Ltac breflect :=
  repeat match goal with
  | H : _ && _ = true |- _ => apply andb_true_iff in H as [? ?]
  | H : _ || _ = false |- _ => apply orb_false_iff in H as [? ?]
  | H : negb _ = true |- _ => apply negb_true_iff in H
  | H : negb _ = false |- _ => apply negb_false_iff in H
  | H : (_ <? _)%Z = true |- _ => apply Z.ltb_lt in H
  | H : (_ <? _)%Z = false |- _ => apply Z.ltb_ge in H
  | H : (_ <=? _)%Z = true |- _ => apply Z.leb_le in H
  | H : (_ <=? _)%Z = false |- _ => apply Z.leb_gt in H
  | H : (_ =? _)%Z = true |- _ => apply Z.eqb_eq in H
  | H : (_ =? _)%Z = false |- _ => apply Z.eqb_neq in H
  | H : bool_decide _ = true |- _ => apply bool_decide_eq_true in H
  | H : bool_decide _ = false |- _ => apply bool_decide_eq_false in H
  end.

(** Invert a successful run of fallible code, one bind and one guard at a time. *)
Ltac inv_ok :=
  repeat match goal with
  | H : (_ ≫= _) = Ok _ |- _ => apply bind_Ok in H as (? & ? & ?)
  | H : guard_err _ _ = Ok _ |- _ => apply guard_err_Ok in H
  | H : Ok _ = Ok _ |- _ => injection H as H; subst
  | H : Err _ = Ok _ |- _ => discriminate H
  | H : Ok _ = Err _ |- _ => discriminate H
  end.
