(* ===== verification/GoStrings.v ===== *)
(** * Go's [strings] and [path/filepath], as the provider uses them

    Byte-level models of the standard-library routines that the provider's
    own code calls (Unix build: the separator is ['/']), with the facts about
    lexical paths that the confinement theorems rest on. *)

From S2P Require Import Prelude.

(** ** Package strings *)

Definition slash : Ascii.ascii := "/"%char.
Definition dot : Ascii.ascii := "."%char.
Definition comma : Ascii.ascii := ","%char.

Definition HasPrefix (s p : string) : bool := String.prefix p s.

Fixpoint sdrop (n : nat) (s : string) : string :=
  match n, s with
  | S n', String _ s' => sdrop n' s'
  | _, _ => s
  end.

Definition TrimPrefix (s p : string) : string :=
  if HasPrefix s p then sdrop (slen p) s else s.

Definition HasSuffix (s p : string) : bool :=
  (slen p <=? slen s) && String.eqb (sdrop (slen s - slen p) s) p.

Fixpoint Contains (s sub : string) : bool :=
  HasPrefix s sub ||
  match s with
  | EmptyString => false
  | String _ s' => Contains s' sub
  end.

Definition has_char (c : Ascii.ascii) (s : string) : bool :=
  negb (sall (fun d => negb (Ascii.eqb d c)) s).

(** [strings.Split] with a one-byte separator. *)
Fixpoint split_on (c : Ascii.ascii) (s : string) : list string :=
  match s with
  | EmptyString => [""]
  | String d s' =>
      if Ascii.eqb d c then "" :: split_on c s'
      else match split_on c s' with
           | [] => [String d ""]
           | w :: ws => String d w :: ws
           end
  end.

Definition Split (s : string) (c : Ascii.ascii) : list string := split_on c s.

(** The two halves around the first separator, if there is one. *)
Fixpoint cut (c : Ascii.ascii) (s : string) : option (string * string) :=
  match s with
  | EmptyString => None
  | String d s' =>
      if Ascii.eqb d c then Some ("", s')
      else match cut c s' with
           | Some (a, b) => Some (String d a, b)
           | None => None
           end
  end.

(** [strings.SplitN(s, c, 2)]. *)
Definition SplitN2 (s : string) (c : Ascii.ascii) : list string :=
  match cut c s with
  | Some (a, b) => [a; b]
  | None => [s]
  end.

Fixpoint TrimRightFunc (p : Ascii.ascii -> bool) (s : string) : string :=
  match s with
  | EmptyString => ""
  | String c s' =>
      let r := TrimRightFunc p s' in
      if String.eqb r "" && p c then "" else String c r
  end.

Definition ascii_space (c : Ascii.ascii) : bool :=
  let b := byte_of c in ((9 <=? b) && (b <=? 13) || (b =? 32))%Z.

(** The non-ASCII runes for which [unicode.IsSpace] holds, by their UTF-8 bytes:
    U+0085, U+00A0; U+1680, U+2000 to U+200A, U+2028, U+2029, U+202F, U+205F, U+3000. *)
Definition space2 (c d : Ascii.ascii) : bool :=
  ((byte_of c =? 194) && ((byte_of d =? 133) || (byte_of d =? 160)))%Z.

Definition space3 (c d e : Ascii.ascii) : bool :=
  let x := byte_of e in
  (((byte_of c =? 225) && (byte_of d =? 154) && (x =? 128)) ||
   ((byte_of c =? 226) && (byte_of d =? 128) &&
      ((128 <=? x) && (x <=? 138) || (x =? 168) || (x =? 169) || (x =? 175))) ||
   ((byte_of c =? 226) && (byte_of d =? 129) && (x =? 159)) ||
   ((byte_of c =? 227) && (byte_of d =? 128) && (x =? 128)))%Z.

Fixpoint trim_left_space (s : string) : string :=
  match s with
  | EmptyString => ""
  | String c s1 =>
      if ascii_space c then trim_left_space s1
      else match s1 with
           | EmptyString => s
           | String d s2 =>
               if space2 c d then trim_left_space s2
               else match s2 with
                    | EmptyString => s
                    | String e s3 => if space3 c d e then trim_left_space s3 else s
                    end
           end
  end.

(** The same on a reversed string: the bytes of a rune come last to first. *)
Fixpoint trim_left_space_rev (s : string) : string :=
  match s with
  | EmptyString => ""
  | String c s1 =>
      if ascii_space c then trim_left_space_rev s1
      else match s1 with
           | EmptyString => s
           | String d s2 =>
               if space2 d c then trim_left_space_rev s2
               else match s2 with
                    | EmptyString => s
                    | String e s3 => if space3 e d c then trim_left_space_rev s3 else s
                    end
           end
  end.

Definition TrimSpace (s : string) : string :=
  String.rev (trim_left_space_rev (String.rev (trim_left_space s))).

(** [strings.ToLower] maps ASCII bytes directly; a string with a byte above 127 goes
    through the Unicode case tables, which are a parameter. *)
Class UnicodeLower := lower_nonascii : string -> string.

Definition is_ascii (s : string) : bool := sall (fun c => byte_of c <? 128)%Z s.

Definition lower_char (c : Ascii.ascii) : Ascii.ascii :=
  let b := byte_of c in
  if ((65 <=? b) && (b <=? 90))%Z then char_of (b + 32) else c.

Fixpoint smap (f : Ascii.ascii -> Ascii.ascii) (s : string) : string :=
  match s with
  | EmptyString => ""
  | String c s' => String (f c) (smap f s')
  end.

Definition ToLower `{UnicodeLower} (s : string) : string :=
  if is_ascii s then smap lower_char s else lower_nonascii s.

(** [strings.EqualFold(s, t)] for an ASCII [t]: the only non-ASCII runes that fold to an
    ASCII letter are U+017F (to s) and U+212A (to k). *)
Fixpoint EqualFold (s t : string) : bool :=
  match s, t with
  | EmptyString, EmptyString => true
  | String c s1, String d t1 =>
      if (byte_of c <? 128)%Z then Ascii.eqb (lower_char c) (lower_char d) && EqualFold s1 t1
      else match s1 with
           | EmptyString => false
           | String c2 s2 =>
               if ((byte_of c =? 197) && (byte_of c2 =? 191))%Z
               then Ascii.eqb (lower_char d) "s"%char && EqualFold s2 t1
               else match s2 with
                    | EmptyString => false
                    | String c3 s3 =>
                        if ((byte_of c =? 226) && (byte_of c2 =? 132) && (byte_of c3 =? 170))%Z
                        then Ascii.eqb (lower_char d) "k"%char && EqualFold s3 t1
                        else false
                    end
           end
  | _, _ => false
  end.

(** ** Package path/filepath *)

Definition rooted (s : string) : bool := HasPrefix s "/".

(** One path element against the stack of elements kept so far (innermost first). *)
Definition clean_step (r : bool) (st : list string) (c : string) : list string :=
  if String.eqb c "" || String.eqb c "." then st
  else if String.eqb c ".." then
    match st with
    | [] => if r then [] else [".."]
    | top :: st' => if String.eqb top ".." then ".." :: st else st'
    end
  else c :: st.

Definition clean_comps (r : bool) (l : list string) : list string :=
  rev (foldl (clean_step r) [] l).

Definition render (r : bool) (l : list string) : string :=
  if r then "/" +:+ String.concat "/" l
  else match l with [] => "." | _ => String.concat "/" l end.

Definition path_parts (s : string) : list string := clean_comps (rooted s) (split_on slash s).

Definition Clean (s : string) : string :=
  if String.eqb s "" then "." else render (rooted s) (path_parts s).

Fixpoint Join (elems : list string) : string :=
  match elems with
  | [] => ""
  | e :: es => if String.eqb e "" then Join es else Clean (String.concat "/" elems)
  end.

Definition last_comp (s : string) : string := default "" (last (split_on slash s)).

Definition Base (s : string) : string :=
  if String.eqb s "" then "."
  else let b := last_comp (TrimRightFunc (Ascii.eqb slash) s) in
       if String.eqb b "" then "/" else b.

(** [filepath.Dir]. *)
Fixpoint upto_last_slash (s : string) : string :=
  match s with
  | EmptyString => ""
  | String c s' => if has_char slash s then String c (upto_last_slash s') else ""
  end.

Definition Dir (s : string) : string := Clean (upto_last_slash s).

Fixpoint last_dot (s : string) : option string :=
  match s with
  | EmptyString => None
  | String c s' =>
      match last_dot s' with
      | Some e => Some e
      | None => if Ascii.eqb c dot then Some s else None
      end
  end.

Definition Ext (s : string) : string := default "" (last_dot (last_comp s)).

(** [filepath.Abs]: [getwd] is what [os.Getwd] returns. *)
Definition Abs {E} (getwd : result E string) (s : string) : result E string :=
  if rooted s then Ok (Clean s) else wd ← getwd; Ok (Join [wd; s]).

Example clean_ex1 : Clean "/a//b/./../c/" = "/a/c". Proof. reflexivity. Qed.
Example clean_ex2 : Clean "../x/../../y" = "../../y". Proof. reflexivity. Qed.
Example clean_ex3 : Clean "/.." = "/". Proof. reflexivity. Qed.
Example dir_ex1 : Dir "/a/b//c.json" = "/a/b". Proof. reflexivity. Qed.
Example dir_ex2 : Dir "c.json" = "." /\ Dir "/c.json" = "/". Proof. split; reflexivity. Qed.
Example join_ex : Join ["./data"; "assets"] = "data/assets". Proof. reflexivity. Qed.
Example ext_ex : Ext "a/b.c/seg.0.ts" = ".ts". Proof. reflexivity. Qed.
Example base_ex : Base "/a/b//" = "b". Proof. reflexivity. Qed.
Example trim_ex : TrimSpace "  a b	" = "a b". Proof. reflexivity. Qed.

(** ** Facts about prefixes, suffixes and splitting *)

Lemma HasPrefix_spec s p : HasPrefix s p = true <-> exists t, s = p +:+ t.
Proof.
  unfold HasPrefix. revert s; induction p as [|c p IH]; intros s.
  - split; [intros _; by exists s|]. by destruct s.
  - destruct s as [|d s]; cbn.
    + split; [done|]. by intros [t ?].
    + destruct (Ascii.ascii_dec c d) as [->|Hne].
      * rewrite IH. split; intros [t Ht]; exists t; cbn in *; congruence.
      * split; [done|]. intros [t Ht]; cbn in Ht. congruence.
Qed.

Lemma sdrop_app p t : sdrop (slen p) (p +:+ t) = t.
Proof. induction p; cbn; done. Qed.

Lemma TrimPrefix_app p t : TrimPrefix (p +:+ t) p = t.
Proof.
  unfold TrimPrefix. replace (HasPrefix _ _) with true; [apply sdrop_app|].
  symmetry. apply HasPrefix_spec. by exists t.
Qed.

Lemma sdrop_split n s : n <= slen s -> exists a, slen a = n /\ s = a +:+ sdrop n s.
Proof.
  revert s; induction n as [|n IH]; intros s Hn.
  - by exists "".
  - destruct s as [|c s]; cbn in *; [lia|].
    destruct (IH s ltac:(lia)) as (a & Ha & Hs). exists (String c a). cbn. split; congruence.
Qed.

Lemma HasSuffix_spec s p : HasSuffix s p = true <-> exists t, s = t +:+ p.
Proof.
  unfold HasSuffix. rewrite andb_true_iff, Nat.leb_le, String.eqb_eq. split.
  - intros [Hl He]. destruct (sdrop_split (slen s - slen p) s ltac:(lia)) as (a & _ & Hs).
    exists a. congruence.
  - intros [t ->]. rewrite slen_app. split; [lia|].
    replace (slen t + slen p - slen p) with (slen t) by lia. apply sdrop_app.
Qed.

Lemma has_char_app c s t : has_char c (s +:+ t) = has_char c s || has_char c t.
Proof. unfold has_char. rewrite sall_app. by rewrite negb_andb. Qed.

Lemma has_char_cons c d s : has_char c (String d s) = Ascii.eqb d c || has_char c s.
Proof. unfold has_char; cbn. by destruct (Ascii.eqb d c). Qed.

Lemma sall_has_char p c s : p c = false -> sall p s = true -> has_char c s = false.
Proof.
  intros Hp. induction s as [|d s IH]; [done|]. cbn [sall].
  rewrite has_char_cons, andb_true_iff. intros [Hd Hs].
  destruct (Ascii.eqb_spec d c); [congruence|]. by apply IH.
Qed.

Lemma Contains_app_l a s t : Contains s t = true -> Contains (a +:+ s) t = true.
Proof. intros. induction a; [done|]. cbn. rewrite IHa. apply orb_true_r. Qed.

Lemma Contains_spec s t : Contains s t = true <-> exists a b, s = a +:+ t +:+ b.
Proof.
  split.
  - induction s as [|c s IH]; cbn [Contains]; rewrite orb_true_iff, HasPrefix_spec.
    + intros [[b Hb]|]; [|done]. by exists "", b.
    + intros [[b Hb]|H]; [by exists "", b|].
      destruct (IH H) as (a & b & ->). by exists (String c a), b.
  - intros (a & b & ->). apply Contains_app_l.
    assert (H : HasPrefix (t +:+ b) t = true) by (apply HasPrefix_spec; by exists b).
    by destruct (t +:+ b); cbn [Contains]; rewrite H.
Qed.

Lemma Contains_char c s : Contains s (String c "") = has_char c s.
Proof.
  induction s as [|d s IH]; [done|]. cbn [Contains]. rewrite IH, has_char_cons.
  f_equal. unfold HasPrefix; cbn. destruct (Ascii.ascii_dec c d), (Ascii.eqb_spec d c); congruence || by destruct s.
Qed.

Lemma cut_Some c s a b :
  cut c s = Some (a, b) <-> s = a +:+ String c b /\ has_char c a = false.
Proof.
  revert a b; induction s as [|d s IH]; intros a b; cbn.
  - split; [done|]. intros [H _]. by destruct a.
  - destruct (Ascii.eqb_spec d c) as [->|Hne].
    + split; [intros [= <- <-]; done|]. intros [H Hc]. destruct a as [|e a]; cbn in H.
      * by injection H as ->.
      * injection H as <- _. rewrite has_char_cons, Ascii.eqb_refl in Hc. done.
    + destruct (cut c s) as [[a' b']|]; split.
      * intros [= <- <-]. destruct (proj1 (IH a' b') eq_refl) as [-> Hc]. cbn.
        rewrite has_char_cons, Hc. by destruct (Ascii.eqb_spec d c).
      * intros [H Hc]. destruct a as [|e a]; cbn in H; injection H as -> H; [done|].
        rewrite has_char_cons in Hc. breflect.
        pose proof (proj2 (IH a b) (conj H ltac:(done))). congruence.
      * done.
      * intros [H Hc]. destruct a as [|e a]; cbn in H; injection H as -> H; [done|].
        rewrite has_char_cons in Hc. breflect.
        pose proof (proj2 (IH a b) (conj H ltac:(done))). congruence.
Qed.

Lemma cut_None c s : cut c s = None -> has_char c s = false.
Proof.
  induction s as [|d s IH]; [done|]. cbn [cut]. rewrite has_char_cons. destruct (Ascii.eqb d c); [done|].
  destruct (cut c s) as [[? ?]|]; [done|]. intros _. by apply IH.
Qed.

Lemma split_on_nonnil c s : split_on c s <> [].
Proof. destruct s as [|d s]; cbn; [done|]. repeat case_match; done. Qed.

Lemma split_on_app c s t : split_on c (s +:+ String c t) = split_on c s ++ split_on c t.
Proof.
  induction s as [|d s IH]; cbn.
  - by rewrite Ascii.eqb_refl.
  - rewrite IH. destruct (Ascii.eqb d c); [done|].
    pose proof (split_on_nonnil c s). by destruct (split_on c s).
Qed.

Lemma split_on_nosep c s : has_char c s = false -> split_on c s = [s].
Proof.
  induction s as [|d s IH]; [done|]. rewrite has_char_cons. intros H; breflect.
  cbn. rewrite H, IH by done. done.
Qed.

Lemma split_on_no_char c s : Forall (fun w => has_char c w = false) (split_on c s).
Proof.
  induction s as [|d s IH]; cbn; [by repeat constructor|].
  destruct (Ascii.eqb d c) eqn:E; [by constructor|].
  pose proof (split_on_nonnil c s). destruct (split_on c s) as [|w ws]; [done|].
  inversion IH; subst. constructor; [|done]. by rewrite has_char_cons, E.
Qed.

Lemma split_on_concat c l :
  l <> [] -> Forall (fun w => has_char c w = false) l ->
  split_on c (String.concat (String c "") l) = l.
Proof.
  induction l as [|w l IH]; [done|]. intros _ HF. inversion HF as [|? ? Hw Hl]; subst.
  destruct l as [|v l]; [by apply split_on_nosep|].
  change (String.concat (String c "") (w :: v :: l))
    with (w +:+ String c (String.concat (String c "") (v :: l))).
  rewrite split_on_app, IH by done. by rewrite split_on_nosep.
Qed.

Lemma concat_snoc sep l w :
  l <> [] -> String.concat sep (l ++ [w]) = String.concat sep l +:+ sep +:+ w.
Proof.
  induction l as [|v l IH]; [done|]. intros _. destruct l as [|u l]; [done|].
  change (String.concat sep ((v :: u :: l) ++ [w]))
    with (v +:+ sep +:+ String.concat sep ((u :: l) ++ [w])).
  rewrite IH by done.
  change (String.concat sep (v :: u :: l)) with (v +:+ sep +:+ String.concat sep (u :: l)).
  by autorewrite with go.
Qed.

(** ** Lexical paths

    A plain element is one that [Clean] keeps as it is. [path_parts] is the list of
    elements of a cleaned path; joining a plain element appends it to that list. *)

Definition plain (c : string) : Prop :=
  c <> "" /\ c <> "." /\ c <> ".." /\ has_char slash c = false.

(** The element lists [Clean] produces: leading [..] only when not rooted. *)
Definition normal (r : bool) (l : list string) : Prop :=
  exists n l', l = replicate n ".." ++ l' /\ Forall plain l' /\ (r = true -> n = 0).

Lemma clean_step_plain r st c : plain c -> clean_step r st c = c :: st.
Proof.
  intros (H1 & H2 & H3 & _). unfold clean_step.
  by rewrite (proj2 (String.eqb_neq _ _) H1), (proj2 (String.eqb_neq _ _) H2),
    (proj2 (String.eqb_neq _ _) H3).
Qed.

Lemma foldl_plain r l st : Forall plain l -> foldl (clean_step r) st l = rev l ++ st.
Proof.
  intros Hl; revert st; induction Hl as [|c l Hc Hl IH]; intros st; [done|].
  cbn. rewrite clean_step_plain, IH by done. by rewrite <- app_assoc.
Qed.

Lemma clean_step_stack r n l' c :
  has_char slash c = false -> Forall plain l' -> (r = true -> n = 0) ->
  exists m k, clean_step r (l' ++ replicate n "..") c = k ++ replicate m ".." /\
              Forall plain k /\ (r = true -> m = 0).
Proof.
  intros Hc Hl Hr. unfold clean_step.
  destruct (String.eqb_spec c ""); [by eauto|].
  destruct (String.eqb_spec c "."); [by eauto|]. cbn.
  destruct (String.eqb_spec c "..") as [->|].
  - destruct Hl as [|x l' Hx Hl']; cbn.
    + destruct r; [rewrite (Hr eq_refl); by exists 0, []|].
      by destruct n as [|n]; [exists 1, []|exists (S (S n)), []].
    + destruct (String.eqb_spec x "..") as [->|]; [by destruct Hx as (_ & _ & [] & _)|].
      by exists n, l'.
  - exists n, (c :: l'). split; [done|]. split; [|done]. constructor; [|done]. unfold plain. by split_and!.
Qed.

Lemma foldl_clean_stack r l :
  Forall (fun w => has_char slash w = false) l ->
  forall n l', Forall plain l' -> (r = true -> n = 0) ->
  exists m k, foldl (clean_step r) (l' ++ replicate n "..") l = k ++ replicate m ".." /\
              Forall plain k /\ (r = true -> m = 0).
Proof.
  induction 1 as [|c l Hc _ IH]; intros n l' Hl Hr; cbn; [by eauto|].
  destruct (clean_step_stack r n l' c Hc Hl Hr) as (m & k & -> & Hk & Hm). by apply IH.
Qed.

Lemma rev_replicate {A} n (x : A) : rev (replicate n x) = replicate n x.
Proof. rewrite rev_alt. apply reverse_replicate. Qed.

Lemma path_parts_normal s : normal (rooted s) (path_parts s).
Proof.
  unfold path_parts, clean_comps.
  destruct (foldl_clean_stack (rooted s) (split_on slash s) (split_on_no_char _ _) 0 [])
    as (m & k & Heq & Hk & Hm); [done..|].
  cbn in Heq. rewrite Heq. exists m, (rev k). split; [|split; [|done]].
  - by rewrite rev_app_distr, rev_replicate.
  - by apply Forall_rev.
Qed.

Lemma foldl_dotdot n m :
  foldl (clean_step false) (replicate m "..") (replicate n "..") = replicate (n + m) "..".
Proof.
  revert m; induction n as [|n IH]; intros m; [done|].
  change (foldl (clean_step false) (clean_step false (replicate m "..") "..") (replicate n "..")
          = replicate (S n + m) "..").
  replace (clean_step false (replicate m "..") "..") with (replicate (S m) "..")
    by (by destruct m).
  rewrite IH. f_equal. lia.
Qed.

Lemma clean_comps_normal r l : normal r l -> clean_comps r l = l.
Proof.
  intros (n & l' & -> & Hl & Hr). unfold clean_comps. rewrite foldl_app, foldl_plain by done.
  destruct r.
  - rewrite (Hr eq_refl). cbn. by rewrite app_nil_r, rev_involutive.
  - change (@nil string) with (replicate 0 ".."). rewrite foldl_dotdot, Nat.add_0_r.
    by rewrite rev_app_distr, rev_involutive, rev_replicate.
Qed.

Lemma clean_comps_snoc r l c : plain c -> clean_comps r (l ++ [c]) = clean_comps r l ++ [c].
Proof. intros. unfold clean_comps. rewrite foldl_app; cbn. by rewrite clean_step_plain. Qed.

Lemma normal_snoc r l c : normal r l -> plain c -> normal r (l ++ [c]).
Proof.
  intros (n & l' & -> & Hl & Hr) Hc. exists n, (l' ++ [c]). rewrite app_assoc.
  split; [done|]. split; [|done]. apply Forall_app; split; [done|]. by constructor.
Qed.

Lemma normal_no_slash r l : normal r l -> Forall (fun w => has_char slash w = false) l.
Proof.
  intros (n & l' & -> & Hl & _). apply Forall_app; split.
  - apply Forall_replicate. done.
  - eapply Forall_impl; [exact Hl|]. by intros ? (_ & _ & _ & ?).
Qed.

Lemma rooted_cons c w : rooted (String c w) = Ascii.eqb c slash.
Proof.
  unfold rooted, HasPrefix, String.prefix.
  destruct (ascii_dec "/" c), (Ascii.eqb_spec c slash); by destruct w || congruence.
Qed.

Lemma rooted_app s t : s <> "" -> rooted (s +:+ t) = rooted s.
Proof. destruct s as [|c s]; [done|]. intros _. change (String c s +:+ t) with (String c (s +:+ t)). by rewrite !rooted_cons. Qed.

Lemma normal_head_rooted r l : l <> [] -> normal r l -> rooted (String.concat "/" l) = false.
Proof.
  intros Hne Hn. pose proof (normal_no_slash _ _ Hn) as Hs.
  destruct Hn as (n & l' & Heq & Hl & _).
  assert (exists c w l0, l = String c w :: l0) as (c & w & l0 & ->).
  { destruct n; cbn in Heq; [|by subst; eauto].
    subst. destruct Hl as [|x l0 Hx _]; [done|]. destruct x; [by destruct Hx|eauto]. }
  apply Forall_cons in Hs as [Hs _]. rewrite has_char_cons in Hs. breflect.
  change (String.concat "/" (String c w :: l0)) with
    (match l0 with [] => String c w | _ => String c w +:+ "/" +:+ String.concat "/" l0 end).
  destruct l0; [|rewrite rooted_app by done]; by rewrite rooted_cons.
Qed.

Lemma render_rooted r l : l <> [] -> normal r l -> rooted (render r l) = r.
Proof.
  intros Hne Hn. unfold render. destruct r.
  - change ("/" +:+ String.concat "/" l) with (String slash (String.concat "/" l)).
    by rewrite rooted_cons.
  - destruct l; [done|]. by eapply normal_head_rooted.
Qed.

Lemma render_nonempty r l : l <> [] -> normal r l -> render r l <> "".
Proof.
  intros Hne (n & l' & Heq & Hl & _). unfold render. destruct r; [done|].
  destruct l as [|w l0]; [done|]. intros H.
  assert (w = "") by (destruct w, l0; done). subst w.
  destruct n; cbn in Heq; [|done]. subst. inversion Hl as [|? ? Hx]; subst. by destruct Hx.
Qed.

(** Splitting a rendered path gives back its elements (after an empty one if rooted). *)
Lemma split_render r l :
  l <> [] -> normal r l ->
  split_on slash (render r l) = (if r then [""] else []) ++ l.
Proof.
  intros Hne Hn. pose proof (normal_no_slash _ _ Hn). unfold render. destruct r.
  - change ("/" +:+ String.concat "/" l) with ("" +:+ String slash (String.concat "/" l)).
    rewrite split_on_app. f_equal. by apply split_on_concat.
  - destruct l; [done|]. by apply split_on_concat.
Qed.

Lemma foldl_skip_empty r l st : foldl (clean_step r) st ("" :: l) = foldl (clean_step r) st l.
Proof. done. Qed.

Lemma path_parts_render r l : l <> [] -> normal r l -> path_parts (render r l) = l.
Proof.
  intros Hne Hn. unfold path_parts. rewrite render_rooted, split_render by done.
  transitivity (clean_comps r l); [by destruct r|]. by apply clean_comps_normal.
Qed.

Lemma Clean_render r l : l <> [] -> normal r l -> Clean (render r l) = render r l.
Proof.
  intros Hne Hn. unfold Clean.
  rewrite (proj2 (String.eqb_neq _ _) (render_nonempty _ _ Hne Hn)).
  by rewrite render_rooted, path_parts_render.
Qed.

Lemma render_snoc r l c : l <> [] -> render r (l ++ [c]) = render r l +:+ "/" +:+ c.
Proof.
  intros Hne. unfold render. destruct r.
  - rewrite concat_snoc by done. by autorewrite with go.
  - destruct l; [done|]. by rewrite <- concat_snoc.
Qed.

(** Joining a plain element appends it to the elements of the cleaned path. *)
Lemma Join_plain a c :
  plain c -> Join [a; c] = render (rooted a) (path_parts a ++ [c]).
Proof.
  intros Hc. pose proof Hc as (H1 & _ & _ & Hs). cbn [Join].
  destruct (String.eqb_spec a "") as [->|Ha].
  - cbn. rewrite (proj2 (String.eqb_neq _ _) H1). unfold Clean.
    rewrite (proj2 (String.eqb_neq _ _) H1). unfold path_parts.
    rewrite (split_on_nosep slash c Hs).
    assert (Hr : rooted c = false).
    { destruct c as [|x c]; [done|]. rewrite has_char_cons in Hs. breflect.
      by rewrite rooted_cons. }
    rewrite Hr. change [c] with ([] ++ [c]). by rewrite clean_comps_snoc.
  - change (String.concat "/" [a; c]) with (a +:+ String slash c). unfold Clean.
    replace (String.eqb (a +:+ String slash c) "") with false by (by destruct a).
    unfold path_parts. rewrite rooted_app by done.
    rewrite split_on_app, (split_on_nosep slash c Hs), clean_comps_snoc by done. done.
Qed.

Lemma snoc_nonnil {A} (l : list A) x : l ++ [x] <> [].
Proof. by destruct l. Qed.

(** A plain element joined to a path that itself ends in a plain element is one level
    below it, textually. *)
Lemma Join_Join a c d :
  plain c -> plain d -> Join [Join [a; c]; d] = Join [a; c] +:+ "/" +:+ d.
Proof.
  intros Hc Hd. rewrite (Join_plain a c Hc).
  pose proof (normal_snoc _ _ _ (path_parts_normal a) Hc) as Hn.
  pose proof (snoc_nonnil (path_parts a) c) as Hne.
  rewrite Join_plain by done. rewrite render_rooted, path_parts_render by done.
  by rewrite render_snoc.
Qed.

(** Joining a relative cleaned path to a working directory. *)
Lemma Join_render w l x :
  normal false (l ++ [x]) -> plain x ->
  Join [w; render false (l ++ [x])] =
  render (rooted w) (clean_comps (rooted w) (split_on slash w ++ l) ++ [x]).
Proof.
  intros Hl Hx. pose proof (snoc_nonnil l x) as Hne. cbn [Join].
  destruct (String.eqb_spec w "") as [->|Hw].
  - rewrite (proj2 (String.eqb_neq _ _) (render_nonempty _ _ Hne Hl)).
    change (String.concat "/" [render false (l ++ [x])]) with (render false (l ++ [x])).
    rewrite Clean_render, <- clean_comps_snoc by done.
    change (clean_comps (rooted "") ((split_on slash "" ++ l) ++ [x]))
      with (clean_comps false (l ++ [x])).
    by rewrite clean_comps_normal.
  - change (String.concat "/" [w; render false (l ++ [x])])
      with (w +:+ String slash (render false (l ++ [x]))).
    unfold Clean. replace (String.eqb _ "") with false by (by destruct w).
    unfold path_parts. rewrite rooted_app, split_on_app by done.
    rewrite split_render by done. cbn [app].
    by rewrite app_assoc, clean_comps_snoc.
Qed.

(** The same for absolute paths, whatever the working directory is. *)
Lemma Abs_Join {E} (wd : result E string) a c d absroot :
  plain c -> plain d -> Abs wd (Join [a; c]) = Ok absroot ->
  Abs wd (Join [Join [a; c]; d]) = Ok (absroot +:+ "/" +:+ d).
Proof.
  intros Hc Hd. pose proof (normal_snoc _ _ _ (path_parts_normal a) Hc) as Hn.
  pose proof (snoc_nonnil (path_parts a) c) as Hne.
  rewrite Join_Join, (Join_plain a c Hc) by done. unfold Abs.
  rewrite rooted_app by (by apply render_nonempty).
  pose proof (normal_snoc _ _ _ Hn Hd) as Hn2.
  rewrite render_rooted by done. destruct (rooted a) eqn:Hr.
  - rewrite <- render_snoc by done. rewrite !Clean_render by (done || apply snoc_nonnil).
    intros H. assert (absroot = render true (path_parts a ++ [c])) as -> by congruence.
    by rewrite render_snoc.
  - intros (w & -> & Heq)%bind_Ok. rewrite <- render_snoc by done.
    assert (absroot = Join [w; render false (path_parts a ++ [c])]) as -> by congruence.
    change (Ok (Join [w; render false ((path_parts a ++ [c]) ++ [d])]) =
      @Ok E _ (Join [w; render false (path_parts a ++ [c])] +:+ "/" +:+ d)). f_equal.
    rewrite !Join_render by done. rewrite app_assoc, clean_comps_snoc by done.
    apply render_snoc, snoc_nonnil.
Qed.

(** ** Names without a separator *)

Lemma TrimRightFunc_none p s : sall (fun c => negb (p c)) s = true -> TrimRightFunc p s = s.
Proof.
  induction s as [|c s IH]; [done|]. cbn. intros [Hc Hs]%andb_true_iff. rewrite IH by done.
  apply negb_true_iff in Hc. by rewrite Hc, andb_false_r.
Qed.

Lemma last_comp_nosep s : has_char slash s = false -> last_comp s = s.
Proof. intros Hs. unfold last_comp. by rewrite split_on_nosep. Qed.

Lemma Base_nosep s : s <> "" -> has_char slash s = false -> Base s = s.
Proof.
  intros Hne Hs. unfold Base. rewrite (proj2 (String.eqb_neq _ _) Hne).
  rewrite TrimRightFunc_none, last_comp_nosep by done || (unfold has_char in Hs; breflect;
    eapply sall_impl; [|exact Hs]; cbn; intros c; by rewrite Ascii.eqb_sym).
  by rewrite (proj2 (String.eqb_neq _ _) Hne).
Qed.

Lemma Base_plain s : plain s -> Base s = s.
Proof. intros (? & _ & _ & ?). by apply Base_nosep. Qed.

(** Clients reason about paths through the lemmas above. *)
Global Arguments Join : simpl never.
Global Arguments Clean : simpl never.
Global Arguments Abs : simpl never.
Global Arguments rooted : simpl never.
Global Arguments path_parts : simpl never.

(** ** Fields between separators *)

Lemma sep_left_inj c a a' s s' :
  has_char c a = false -> has_char c a' = false ->
  a +:+ String c s = a' +:+ String c s' -> a = a' /\ s = s'.
Proof.
  revert a'; induction a as [|d a IH]; intros [|d' a']; cbn; rewrite ?has_char_cons; intros Ha Ha' E.
  - by injection E.
  - injection E as <- _. by rewrite Ascii.eqb_refl in Ha'.
  - injection E as -> _. by rewrite Ascii.eqb_refl in Ha.
  - apply orb_false_iff in Ha as [_ Ha], Ha' as [_ Ha']. injection E as -> E.
    destruct (IH a' Ha Ha' E) as [-> ->]. done.
Qed.

Lemma sep_right_inj c s s' b b' :
  has_char c b = false -> has_char c b' = false ->
  s +:+ String c b = s' +:+ String c b' -> s = s' /\ b = b'.
Proof.
  assert (Hno : forall t u, has_char c (t +:+ String c u) = true).
  { intros t u. rewrite has_char_app, has_char_cons, Ascii.eqb_refl. by rewrite orb_true_r. }
  revert s'; induction s as [|d s IH]; intros [|d' s']; cbn; intros Hb Hb' E.
  - by injection E.
  - injection E as _ E. subst b. by rewrite Hno in Hb.
  - injection E as _ E. subst b'. by rewrite Hno in Hb'.
  - injection E as -> E. destruct (IH s' Hb Hb' E) as [-> ->]. done.
Qed.

Lemma TrimRightFunc_suffix c s : HasSuffix (TrimRightFunc (Ascii.eqb c) s) (String c "") = false.
Proof.
  destruct (HasSuffix _ _) eqn:E; [|done]. apply HasSuffix_spec in E as [t E]. exfalso.
  revert t E; induction s as [|d s IH]; intros t; cbn; [by destruct t|].
  destruct (String.eqb_spec (TrimRightFunc (Ascii.eqb c) s) "") as [Er|Er]; cbn [andb].
  - rewrite Er. destruct (Ascii.eqb_spec c d) as [|Hne]; [by destruct t|].
    destruct t as [|e [|]]; cbn; congruence.
  - destruct t as [|e t]; cbn; [congruence|]. intros [= _ E]. by apply (IH t).
Qed.

(** ** Trimming and separators *)

(** A concatenation of space runes. *)
Inductive ws : string -> Prop :=
| ws_nil : ws ""
| ws_1 c w : ascii_space c = true -> ws w -> ws (String c w)
| ws_2 c d w : space2 c d = true -> ws w -> ws (String c (String d w))
| ws_3 c d e w : space3 c d e = true -> ws w -> ws (String c (String d (String e w))).

(** The first byte of a space rune is never a later byte of one. *)
Definition later_byte (c : Ascii.ascii) : bool := (128 <=? byte_of c)%Z && (byte_of c <=? 175)%Z.

Ltac space_bytes := unfold space2, space3, ascii_space, later_byte in *;
  repeat match goal with
  | H : _ || _ = true |- _ => apply orb_true_iff in H as [H|H]
  | |- _ || _ = false => apply orb_false_iff; split
  | |- _ && _ = false => apply andb_false_iff
  | |- _ && _ = true => apply andb_true_iff; split
  end; breflect;
  rewrite ?orb_false_iff, ?andb_false_iff, ?Z.eqb_neq, ?Z.leb_gt, ?Z.leb_le in *; try lia.

Lemma ascii_not_later c : ascii_space c = true -> later_byte c = false.
Proof. intros. space_bytes. Qed.
Lemma space2_later c d : space2 c d = true -> ascii_space c = false /\ later_byte c = false /\ later_byte d = true.
Proof. intros. split_and!; space_bytes. Qed.
Lemma space3_later c d e : space3 c d e = true ->
  ascii_space c = false /\ later_byte c = false /\ later_byte d = true /\ later_byte e = true /\ space2 c d = false.
Proof. intros. split_and!; space_bytes. Qed.
Lemma later_not_ascii c : later_byte c = true -> ascii_space c = false.
Proof. intros. space_bytes. Qed.

Lemma space2_not_later c d : later_byte d = false -> space2 c d = false.
Proof. intros Hd. destruct (space2 c d) eqn:E; [|done]. apply space2_later in E as (_ & _ & ?). congruence. Qed.
Lemma space3_not_later c d e : later_byte d = false \/ later_byte e = false -> space3 c d e = false.
Proof. intros Hd. destruct (space3 c d e) eqn:E; [|done]. apply space3_later in E as (_ & _ & ? & ? & _). destruct Hd; congruence. Qed.

(** Induction on a string, three bytes at a time at most. *)
Lemma string_ind3 (P : string -> Prop) :
  (forall s, (forall s', (slen s' < slen s)%nat -> P s') -> P s) -> forall s, P s.
Proof. intros H s. apply (well_founded_ind (Wf_nat.well_founded_ltof string String.length)). exact H. Qed.

Lemma trim_left_ws w t : ws w -> trim_left_space (w +:+ t) = trim_left_space t.
Proof.
  induction 1 as [|c w Hc _ IH|c d w Hc _ IH|c d e w Hc _ IH]; cbn; [done|by rewrite Hc| |].
  - destruct (space2_later _ _ Hc) as (-> & _). by rewrite Hc.
  - destruct (space3_later _ _ _ Hc) as (-> & _ & _ & _ & ->). by rewrite Hc.
Qed.

Lemma trim_left_split s : exists w, ws w /\ s = w +:+ trim_left_space s.
Proof.
  induction s as [s IH] using string_ind3. destruct s as [|c s]; [exists ""; split; [constructor|done]|]. cbn [trim_left_space].
  assert (Hnone : exists w, ws w /\ String c s = w +:+ String c s) by (exists ""; split; [constructor|done]).
  destruct (ascii_space c) eqn:Hc.
  { destruct (IH s) as (w & Hw & E); [cbn; lia|]. exists (String c w). split; [by constructor|]. cbn. congruence. }
  destruct s as [|d s]; [done|]. destruct (space2 c d) eqn:Hd.
  { destruct (IH s) as (w & Hw & E); [cbn; lia|]. exists (String c (String d w)). split; [by constructor|]. cbn. congruence. }
  destruct s as [|e s]; [done|]. destruct (space3 c d e) eqn:He; [|done].
  destruct (IH s) as (w & Hw & E); [cbn; lia|]. exists (String c (String d (String e w))).
  split; [by constructor|]. cbn. congruence.
Qed.

Lemma rev_app_acc s t : String.rev_app s t = String.rev s +:+ t.
Proof.
  unfold String.rev. revert t; induction s as [|c s IH]; intros t; [done|]. cbn.
  rewrite IH, (IH (String c "")), sapp_assoc. done.
Qed.

Lemma rev_cons c s : String.rev (String c s) = String.rev s +:+ String c "".
Proof. unfold String.rev. cbn. by rewrite rev_app_acc. Qed.

#[local] Arguments String.rev : simpl never.

Lemma rev_app_str a b : String.rev (a +:+ b) = String.rev b +:+ String.rev a.
Proof.
  induction a as [|c a IH]; cbn [String.append]; [by rewrite sapp_nil_r|]. by rewrite !rev_cons, IH, sapp_assoc.
Qed.

Lemma rev_rev s : String.rev (String.rev s) = s.
Proof. induction s as [|c s IH]; [done|]. by rewrite rev_cons, rev_app_str, IH. Qed.

Lemma ws_app v w : ws v -> ws w -> ws (v +:+ w).
Proof. induction 1; cbn; intros; [done|constructor; solve [auto]..]. Qed.

Lemma trim_rev_ws w u : ws w -> trim_left_space_rev (String.rev w +:+ u) = trim_left_space_rev u.
Proof.
  intros Hw. revert u; induction Hw as [|c w Hc _ IH|c d w Hc _ IH|c d e w Hc _ IH]; intros u; [done|..];
    rewrite !rev_cons, !sapp_assoc, IH; cbn [String.append trim_left_space_rev].
  - by rewrite Hc.
  - destruct (space2_later _ _ Hc) as (_ & _ & Hd). by rewrite (later_not_ascii _ Hd), Hc.
  - destruct (space3_later _ _ _ Hc) as (_ & _ & Hd & He & _).
    rewrite (later_not_ascii _ He), Hc. destruct (space2 d e) eqn:E2; [|done].
    apply space2_later in E2 as (_ & Hd' & _). congruence.
Qed.

Lemma trim_rev_split u : exists w, ws w /\ u = String.rev w +:+ trim_left_space_rev u.
Proof.
  induction u as [u IH] using string_ind3. destruct u as [|c s]; [exists ""; split; [constructor|done]|].
  cbn [trim_left_space_rev].
  assert (Hnone : exists w, ws w /\ String c s = String.rev w +:+ String c s) by (exists ""; split; [constructor|done]).
  destruct (ascii_space c) eqn:Hc.
  { destruct (IH s) as (w & Hw & E); [cbn; lia|]. exists (w +:+ String c ""). split.
    - apply ws_app; [done|]. repeat constructor. done.
    - rewrite rev_app_str. change (String.rev (String c "")) with (String c ""). cbn. by f_equal. }
  destruct s as [|d s]; [done|]. destruct (space2 d c) eqn:Hd.
  { destruct (IH s) as (w & Hw & E); [cbn; lia|]. exists (w +:+ String d (String c "")). split.
    - apply ws_app; [done|]. by apply ws_2; [|constructor].
    - rewrite rev_app_str. change (String.rev (String d (String c ""))) with (String c (String d "")). cbn. by do 2 f_equal. }
  destruct s as [|e s]; [done|]. destruct (space3 e d c) eqn:He; [|done].
  destruct (IH s) as (w & Hw & E); [cbn; lia|]. exists (w +:+ String e (String d (String c ""))). split.
  - apply ws_app; [done|]. by apply ws_3; [|constructor].
  - rewrite rev_app_str. change (String.rev (String e (String d (String c "")))) with (String c (String d (String e ""))).
    cbn. by do 3 f_equal.
Qed.

Lemma ws_head w c w' : ws w -> w = String c w' -> later_byte c = false.
Proof.
  intros Hw E. destruct Hw as [|x w Hx _|x y w Hx _|x y z w Hx _]; [done|..]; injection E as -> _;
    [by apply ascii_not_later|by apply space2_later in Hx as (_ & ? & _)|by apply space3_later in Hx as (_ & ? & _)].
Qed.

(** Left trimming does not reach into trailing space unless nothing else is left. *)
Lemma trim_left_app p w : ws w ->
  trim_left_space (p +:+ w) = if String.eqb (trim_left_space p) "" then "" else trim_left_space p +:+ w.
Proof.
  intros Hw. induction p as [p IH] using string_ind3.
  assert (Hstart : forall c w', w = String c w' -> later_byte c = false) by (intros c w'; by apply ws_head).
  destruct p as [|c p]; [cbn; pose proof (trim_left_ws w "" Hw) as E; by rewrite sapp_nil_r in E|].
  cbn [String.append trim_left_space]. destruct (ascii_space c); [apply IH; cbn; lia|].
  destruct p as [|d p].
  { cbn. destruct w as [|d w]; [done|]. rewrite (space2_not_later c d) by eauto.
    destruct w as [|e w]; [done|]. rewrite (space3_not_later c d e) by eauto. done. }
  cbn [String.append]. destruct (space2 c d); [apply IH; cbn; lia|].
  destruct p as [|e p].
  { cbn. destruct w as [|e w]; [done|]. rewrite (space3_not_later c d e) by eauto. done. }
  cbn [String.append]. destruct (space3 c d e); [apply IH; cbn; lia|]. done.
Qed.

Lemma TrimSpace_ws_l w s : ws w -> TrimSpace (w +:+ s) = TrimSpace s.
Proof. intros Hw. unfold TrimSpace. by rewrite trim_left_ws. Qed.

Lemma TrimSpace_ws_r s w : ws w -> TrimSpace (s +:+ w) = TrimSpace s.
Proof.
  intros Hw. unfold TrimSpace. rewrite trim_left_app by done.
  destruct (String.eqb_spec (trim_left_space s) "") as [->|]; [done|]. by rewrite rev_app_str, trim_rev_ws.
Qed.

(** A string is its trimmed part between spaces. *)
Lemma TrimSpace_split s : exists v w, ws v /\ ws w /\ s = v +:+ TrimSpace s +:+ w.
Proof.
  destruct (trim_left_split s) as (v & Hv & E). destruct (trim_rev_split (String.rev (trim_left_space s))) as (w & Hw & E').
  exists v, w. split; [done|]. split; [done|]. rewrite E at 1. f_equal. unfold TrimSpace.
  apply (f_equal String.rev) in E'. rewrite rev_app_str, !rev_rev in E'. exact E'.
Qed.

Lemma ws_no_comma w : ws w -> has_char comma w = false.
Proof.
  assert (Hl : forall c, later_byte c = true -> Ascii.eqb c comma = false).
  { intros c Hc. destruct (Ascii.eqb_spec c comma) as [->|]; done. }
  induction 1 as [|c w Hc _ IH|c d w Hc _ IH|c d e w Hc _ IH]; [done|..]; rewrite !has_char_cons, IH, orb_false_r.
  - destruct (Ascii.eqb_spec c comma) as [->|]; done.
  - destruct (space2_later _ _ Hc) as (_ & _ & ?). rewrite (Hl d) by done.
    destruct (Ascii.eqb_spec c comma) as [->|]; done.
  - destruct (space3_later _ _ _ Hc) as (_ & _ & ? & ? & _). rewrite (Hl d), (Hl e) by done.
    destruct (Ascii.eqb_spec c comma) as [->|]; done.
Qed.

(** Text without the separator at either end stays in the first or last field. *)
Lemma split_on_prepend c v s : has_char c v = false ->
  exists p l, split_on c s = p :: l /\ split_on c (v +:+ s) = (v +:+ p) :: l.
Proof.
  intros Hv. destruct (split_on c s) as [|p l] eqn:E; [by destruct (split_on_nonnil c s)|]. exists p, l. split; [done|].
  induction v as [|d v IH]; [done|]. rewrite has_char_cons in Hv. apply orb_false_iff in Hv as [Hd Hv].
  cbn [String.append split_on]. rewrite (IH Hv), Hd. done.
Qed.

Lemma split_on_append c s w : has_char c w = false ->
  exists l p, split_on c s = l ++ [p] /\ split_on c (s +:+ w) = l ++ [p +:+ w].
Proof.
  intros Hw. induction s as [|d s (l & p & E1 & E2)].
  { exists [], "". split; [done|]. cbn. by apply split_on_nosep. }
  cbn [String.append split_on]. rewrite E1, E2. destruct (Ascii.eqb d c); [by exists ("" :: l), p|].
  destruct l as [|q l]; [by exists [], (String d p)|by exists (String d q :: l), p].
Qed.

(** Trimming a list before splitting it at commas changes no trimmed field. *)
Lemma TrimSpace_idem s : TrimSpace (TrimSpace s) = TrimSpace s.
Proof.
  destruct (TrimSpace_split s) as (v & w & Hv & Hw & E). rewrite E at 2.
  by rewrite TrimSpace_ws_l, TrimSpace_ws_r by done.
Qed.

Lemma trim_split s : TrimSpace <$> Split (TrimSpace s) comma = TrimSpace <$> Split s comma.
Proof.
  unfold Split. destruct (TrimSpace_split s) as (v & w & Hv & Hw & E). rewrite E at 2.
  destruct (split_on_prepend comma v (TrimSpace s +:+ w)) as (p & l & E1 & ->); [by apply ws_no_comma|].
  cbn [fmap list_fmap]. rewrite (TrimSpace_ws_l v p Hv).
  change (TrimSpace p :: (TrimSpace <$> l)) with (TrimSpace <$> (p :: l)). rewrite <- E1.
  destruct (split_on_append comma (TrimSpace s) w) as (l' & q & -> & ->); [by apply ws_no_comma|].
  rewrite !fmap_app. cbn. by rewrite TrimSpace_ws_r.
Qed.
