(* ===== verification/GoHttp.v ===== *)
(** * Go's [net/http] and [net], as the provider uses them

    Header maps with canonical keys, requests, the response writer (the first status wins,
    headers are frozen when it is sent), and [net.SplitHostPort]. *)

From S2P Require Import Prelude GoStrings.

(** What the provider uses of a parsed [url.URL]. *)
Record URL := MkURL { u_scheme : string; u_host : string; u_path : string }.

(** ** Headers *)

Definition valid_header_byte (c : Ascii.ascii) : bool :=
  let b := byte_of c in
  ((97 <=? b) && (b <=? 122) || (65 <=? b) && (b <=? 90) || (48 <=? b) && (b <=? 57) ||
   (b =? 33) || (35 <=? b) && (b <=? 39) || (b =? 42) || (b =? 43) || (b =? 45) || (b =? 46) ||
   (b =? 94) || (b =? 95) || (b =? 96) || (b =? 124) || (b =? 126))%Z.

Definition upper_char (c : Ascii.ascii) : Ascii.ascii :=
  let b := byte_of c in
  if ((97 <=? b) && (b <=? 122))%Z then char_of (b - 32) else c.

Fixpoint canon (upper : bool) (s : string) : string :=
  match s with
  | EmptyString => ""
  | String c s' => String (if upper then upper_char c else lower_char c) (canon (Ascii.eqb c "-"%char) s')
  end.

(** [textproto.CanonicalMIMEHeaderKey]. *)
Definition CanonicalHeaderKey (s : string) : string :=
  if sall valid_header_byte s then canon true s else s.

Notation Header := (gmap string (list string)).

Definition hGet (h : Header) (k : string) : string :=
  match h !! CanonicalHeaderKey k with
  | Some (v :: _) => v
  | _ => ""
  end.

Definition hSet (k v : string) (h : Header) : Header := <[CanonicalHeaderKey k := [v]]> h.

Definition hAdd (k v : string) (h : Header) : Header :=
  let k' := CanonicalHeaderKey k in <[k' := default [] (h !! k') ++ [v]]> h.

Definition hDel (k : string) (h : Header) : Header := delete (CanonicalHeaderKey k) h.

(** ** Requests and responses *)

Record Request := MkRequest {
  r_method : string;
  r_path : string;
  r_rawquery : string;
  r_header : Header;
  r_remote : string;
  r_tls : bool;
  r_ctx_done : bool;
}.

(** What the handlers write: bytes, or a file handed to [http.ServeContent]. *)
Inductive chunk := Bytes (s : string) | FileContent (ino size : Z).

Record RW := MkRW {
  rw_header : Header;
  rw_sent : option (Z * Header);
  rw_body : list chunk;
  rw_calls : list Z;
}.

Definition new_rw : RW := MkRW ∅ None [] [].

Definition with_header (f : Header -> Header) (w : RW) : RW :=
  MkRW (f (rw_header w)) (rw_sent w) (rw_body w) (rw_calls w).

(** The status line and headers go out once; a later status is superfluous. *)
Definition send (status : Z) (w : RW) : RW :=
  match rw_sent w with
  | Some _ => w
  | None => MkRW (rw_header w) (Some (status, rw_header w)) (rw_body w) (rw_calls w)
  end.

(** Every explicit call is seen by the wrappers around the writer, effective or not. *)
Definition WriteHeader (status : Z) (w : RW) : RW :=
  let w' := send status w in MkRW (rw_header w') (rw_sent w') (rw_body w') (rw_calls w' ++ [status]).

(** The first [Write] sends status 200 by itself. *)
Definition Write (c : chunk) (w : RW) : RW :=
  let w' := send 200 w in MkRW (rw_header w') (rw_sent w') (rw_body w' ++ [c]) (rw_calls w').

Definition rw_status (w : RW) : option Z := fst <$> rw_sent w.
Definition sent_header (w : RW) : Header := match rw_sent w with Some (_, h) => h | None => ∅ end.

(** [json.NewEncoder(w).Encode] of a one-field object with a plain ASCII value. *)
Definition quote : string := String (char_of 34) "".
Definition newline : string := String (char_of 10) "".
Definition json_field (k v : string) : string :=
  "{" +:+ quote +:+ k +:+ quote +:+ ":" +:+ quote +:+ v +:+ quote +:+ "}" +:+ newline.

(** [writeJSONError] of [internal/assets/errors.go] and [internal/internalapi]. *)
Definition writeJSONError (status : Z) (code : string) (w : RW) : RW :=
  Write (Bytes (json_field "error" code))
    (WriteHeader status (with_header (hSet "Content-Type" "application/json") w)).

(** ** net.SplitHostPort *)

Definition colon : Ascii.ascii := ":"%char.
Definition lbracket : Ascii.ascii := "["%char.
Definition rbracket : Ascii.ascii := "]"%char.

(** The two halves around the last separator. *)
Fixpoint cut_last (c : Ascii.ascii) (s : string) : option (string * string) :=
  match s with
  | EmptyString => None
  | String d s' =>
      match cut_last c s' with
      | Some (a, b) => Some (String d a, b)
      | None => if Ascii.eqb d c then Some ("", s') else None
      end
  end.

Definition SplitHostPort (hostport : string) : option (string * string) :=
  match cut_last colon hostport with
  | None => None
  | Some (pre, port) =>
      if HasPrefix hostport "[" then
        match cut rbracket hostport with
        | None => None
        | Some (a, b) =>
            if negb (String.eqb pre (a +:+ "]")) then None
            else if has_char lbracket (sdrop 1 hostport) || has_char rbracket b then None
            else Some (sdrop 1 a, port)
        end
      else if has_char colon pre then None
      else if has_char lbracket hostport || has_char rbracket hostport then None
      else Some (pre, port)
  end.

Example shp1 : SplitHostPort "10.0.0.1:443" = Some ("10.0.0.1", "443"). Proof. reflexivity. Qed.
Example shp2 : SplitHostPort "[::1]:80" = Some ("::1", "80"). Proof. reflexivity. Qed.
Example shp3 : SplitHostPort "::1" = None. Proof. reflexivity. Qed.
Example shp4 : SplitHostPort "[::1]" = None. Proof. reflexivity. Qed.
Example canon_ex : CanonicalHeaderKey "x-audistroprovider-keyid" = "X-Audistroprovider-Keyid".
Proof. vm_compute; reflexivity. Qed.

(** The three identical helpers [clientIP] (ratelimit.go), [remoteHost] (handler.go) and
    [remoteIP] (middleware.go). *)
Definition host_or_self (remoteAddr : string) : string :=
  match SplitHostPort remoteAddr with
  | Some (host, _) => host
  | None => remoteAddr
  end.

(** ** Lemmas *)

Lemma hGet_hSet k v h : hGet (hSet k v h) k = v.
Proof. unfold hGet, hSet. by rewrite lookup_insert_eq. Qed.

Lemma lookup_hSet_ne k v k' (h : Header) :
  CanonicalHeaderKey k <> k' -> hSet k v h !! k' = h !! k'.
Proof. intros. unfold hSet. by rewrite lookup_insert_ne. Qed.

Lemma lookup_hDel k (h : Header) : hDel k h !! CanonicalHeaderKey k = None.
Proof. apply lookup_delete_eq. Qed.

Lemma lookup_hDel_ne k k' (h : Header) :
  CanonicalHeaderKey k <> k' -> hDel k h !! k' = h !! k'.
Proof. intros. unfold hDel. by rewrite lookup_delete_ne. Qed.

Lemma lookup_hDel_None k k' (h : Header) : h !! k' = None -> hDel k h !! k' = None.
Proof. intros. unfold hDel. apply lookup_delete_None. by right. Qed.

Lemma send_sent st w p : rw_sent w = Some p -> send st w = w.
Proof. intros H. unfold send. by rewrite H. Qed.

Lemma WriteHeader_rw_sent st w : rw_sent (WriteHeader st w) = rw_sent (send st w).
Proof. done. Qed.

Lemma writeJSONError_fresh st code w :
  rw_sent w = None ->
  rw_status (writeJSONError st code w) = Some st /\
  rw_body (writeJSONError st code w) = rw_body w ++ [Bytes (json_field "error" code)].
Proof. destruct w as [h [p|] b c]; cbn; [done|]. intros _. done. Qed.

Lemma cut_last_Some c s a b :
  cut_last c s = Some (a, b) -> s = a +:+ String c b /\ has_char c b = false.
Proof.
  revert a b; induction s as [|d s IH]; intros a b; [done|]. cbn.
  destruct (cut_last c s) as [[a' b']|] eqn:E.
  - intros [= <- <-]. destruct (IH _ _ eq_refl) as [-> ?]. done.
  - destruct (Ascii.eqb_spec d c) as [->|]; [|done]. intros [= <- <-]. split; [done|].
    clear IH. induction s as [|e s IHs]; [done|]. cbn in E.
    destruct (cut_last c s) as [[? ?]|]; [done|].
    rewrite has_char_cons. destruct (Ascii.eqb e c); [done|]. by apply IHs.
Qed.
#[export] Hint Rewrite hGet_hSet lookup_hDel : go.
