(* ===== verification/GoTime.v ===== *)
(** * Go's [time] and [strconv], as the provider uses them

    A [time.Time] is the number of nanoseconds since the Unix epoch (every time the provider
    keeps went through [UTC()], which drops the monotonic reading), a [time.Duration] a 64-bit
    count of nanoseconds. [FormatRFC3339] and [ParseRFC3339] are the two directions in which
    times reach the database. The theorems: formatting a second and parsing it back is the
    identity, and the byte order of formatted times is the order of the times, on which the
    expiry query ([expires_at < ?] on TEXT columns) rests. *)

From S2P Require Import Prelude GoStrings.
Open Scope Z_scope.

(** ** Durations and instants *)

Definition Nanosecond : Z := 1.
Definition Millisecond : Z := 1000000.
Definition Second : Z := 1000000000.
Definition Minute : Z := 60 * Second.
Definition Hour : Z := 60 * Minute.

(** [time.Duration(n) * unit]. *)
Definition durationOf (n unit : Z) : Z := wrap64 (n * unit).

Definition TimeAdd (t d : Z) : Z := t + d.
Definition After (t u : Z) : bool := u <? t.
Definition Before (t u : Z) : bool := t <? u.

(** [time.Unix(s, 0)] and [t.Unix()]. *)
Definition TimeUnix (s : Z) : Z := s * Second.
Definition Unix (t : Z) : Z := t / Second.

(** The zero [time.Time]: 0001-01-01T00:00:00Z. *)
Definition zero_time : Z := TimeUnix (-62135596800).
Definition IsZero (t : Z) : bool := t =? zero_time.

(** ** Decimal numbers *)

(** The [w] last decimal digits of [n]. *)
Fixpoint dig (w : nat) (n : Z) : string :=
  match w with
  | O => ""
  | S w' => dig w' (n / 10) +:+ String (char_of (48 + n mod 10)) ""
  end.

Fixpoint width_from (fuel w : nat) (n : Z) : nat :=
  match fuel with
  | O => w
  | S fuel' => if n <? 10 then w else width_from fuel' (S w) (n / 10)
  end.

(** The number of decimal digits of [n >= 0]: one more per division by ten. *)
Definition width (n : Z) : nat := width_from (Z.to_nat (Z.log2 n)) 1 n.

(** [appendInt(b, x, w)]: at least [w] digits, with the sign in front of them. *)
Definition appendInt (x : Z) (w : nat) : string :=
  let a := Z.abs x in
  (if x <? 0 then "-" else "") +:+ dig (Nat.max w (width a)) a.

(** [%d] of a signed integer. *)
Definition Itoa (x : Z) : string := appendInt x 1.

(** ** Civil dates *)

(** Proleptic Gregorian calendar, counted in 400-year eras from 1 March of year 0. *)
Definition era_days : Z := 146097.

(** Year of the era and day of that year, both counted from March: centuries, then
    four-year cycles, then years. *)
Definition doe_split (doe : Z) : Z * Z :=
  let c := Z.min (doe / 36524) 3 in
  let r := doe - 36524 * c in
  let q := r / 1461 in
  let r := r - 1461 * q in
  let y := Z.min (r / 365) 3 in
  (100 * c + 4 * q + y, r - 365 * y).

(** Month and day of a day of the March year. *)
Definition doy_date (doy : Z) : Z * Z :=
  let mp := (5 * doy + 2) / 153 in
  (if mp <? 10 then mp + 3 else mp - 9, doy - (153 * mp + 2) / 5 + 1).

Definition doe_date (doe : Z) : Z * Z * Z :=
  let '(yoe, doy) := doe_split doe in
  let '(m, d) := doy_date doy in
  (yoe + (if m <=? 2 then 1 else 0), m, d).

Definition date_doe (y m d : Z) : Z :=
  let mp := if m <=? 2 then m + 9 else m - 3 in
  let doy := (153 * mp + 2) / 5 + d - 1 in
  y * 365 + y / 4 - y / 100 + doy.

(** Days since 1970-01-01 to year, month, day, and back. *)
Definition civil (days : Z) : Z * Z * Z :=
  let z := days + 719468 in
  let '(y, m, d) := doe_date (z mod era_days) in
  (y + 400 * (z / era_days), m, d).

Definition days_of_civil (y m d : Z) : Z :=
  let y' := if m <=? 2 then y - 1 else y in
  y' / 400 * era_days + date_doe (y' mod 400) m d - 719468.

Definition leap (y : Z) : bool :=
  (y mod 4 =? 0) && (negb (y mod 100 =? 0) || (y mod 400 =? 0)).

Definition daysIn (m y : Z) : Z :=
  if m =? 2 then (if leap y then 29 else 28)
  else if (m =? 4) || (m =? 6) || (m =? 9) || (m =? 11) then 30 else 31.

(** ** RFC 3339 *)

Definition day_secs : Z := 86400.

Definition date_string (days : Z) : string :=
  let '(y, m, d) := civil days in
  appendInt y 4 +:+ "-" +:+ dig 2 m +:+ "-" +:+ dig 2 d.

Definition clock_string (sod : Z) : string :=
  dig 2 (sod / 3600) +:+ ":" +:+ dig 2 (sod / 60 mod 60) +:+ ":" +:+ dig 2 (sod mod 60).

(** [t.UTC().Format(time.RFC3339)]: the fraction of a second is dropped. *)
Definition FormatRFC3339 (t : Z) : string :=
  let s := Unix t in
  date_string (s / day_secs) +:+ "T" +:+ clock_string (s mod day_secs) +:+ "Z".

(** [parseUint]: decimal digits only. *)
Fixpoint undig (acc : Z) (s : string) : option Z :=
  match s with
  | EmptyString => Some acc
  | String c s' =>
      let b := byte_of c in
      if (48 <=? b) && (b <=? 57) then undig (acc * 10 + (b - 48)) s' else None
  end.

Definition parseUint (s : string) (lo hi : Z) : option Z :=
  match undig 0 s with
  | Some x => if (lo <=? x) && (x <=? hi) then Some x else None
  | None => None
  end.

Definition ssub (a b : nat) (s : string) : string := String.substring a (b - a) s.

Lemma slen_ssub n s : (n <= slen s)%nat -> slen (ssub 0 n s) = n.
Proof.
  unfold ssub. rewrite Nat.sub_0_r. revert n. induction s as [|c s IH]; intros [|n] Hn; cbn in *; try done; [lia|].
  by rewrite IH by lia.
Qed.

Lemma sall_ssub p n s : sall p s = true -> sall p (ssub 0 n s) = true.
Proof.
  unfold ssub. rewrite Nat.sub_0_r. revert n. induction s as [|c s IH]; intros [|n]; cbn; try done.
  rewrite !andb_true_iff. intros [-> Hs]. auto.
Qed.

Definition char_at (n : nat) (s : string) (c : Ascii.ascii) : bool :=
  match String.get n s with Some d => Ascii.eqb c d | None => false end.

Definition is_digit (c : Ascii.ascii) : bool := (48 <=? byte_of c) && (byte_of c <=? 57).

Fixpoint span_digits (s : string) : string * string :=
  match s with
  | String c s' => if is_digit c then let '(a, b) := span_digits s' in (String c a, b) else ("", s)
  | EmptyString => ("", "")
  end.

(** Up to nine digits of a fraction count. *)
Definition parse_fraction (s : string) : Z * string :=
  match s with
  | String "." s' =>
      let '(ds, rest) := span_digits s' in
      if String.eqb ds "" then (0, s)
      else
        let nine := String.substring 0 9 ds in
        (default 0 (undig 0 nine) * 10 ^ (9 - Z.of_nat (slen nine)), rest)
  | _ => (0, s)
  end.

(** The zone, as an offset in seconds. *)
Definition parse_zone (s : string) : option Z :=
  if String.eqb s "Z" then Some 0
  else if negb (slen s =? 6)%nat then None
  else
    hr ← parseUint (ssub 1 3 s) 0 23;
    mm ← parseUint (ssub 4 6 s) 0 59;
    if (char_at 0 s "-" || char_at 0 s "+") && char_at 3 s ":" then
      Some ((hr * 60 + mm) * 60 * (if char_at 0 s "-" then -1 else 1))
    else None.

(** The strict parser of RFC 3339 that [time.Parse] tries first. *)
Definition parseStrictRFC3339 (s : string) : option Z :=
  if (slen s <? 19)%nat then None
  else
    year ← parseUint (ssub 0 4 s) 0 9999;
    month ← parseUint (ssub 5 7 s) 1 12;
    day ← parseUint (ssub 8 10 s) 1 (daysIn month year);
    hour ← parseUint (ssub 11 13 s) 0 23;
    min ← parseUint (ssub 14 16 s) 0 59;
    sec ← parseUint (ssub 17 19 s) 0 59;
    if char_at 4 s "-" && char_at 7 s "-" && char_at 10 s "T" && char_at 13 s ":" && char_at 16 s ":" then
      let '(nsec, rest) := parse_fraction (sdrop 19 s) in
      off ← parse_zone rest;
      Some (TimeUnix (days_of_civil year month day * day_secs + hour * 3600 + min * 60 + sec - off) + nsec)
    else None.

(** What the general, more lenient parser makes of a string the strict one refuses. *)
Class TimeParseLenient := parse_lenient : string -> option Z.

(** [time.Parse(time.RFC3339, s)]. *)
Definition ParseRFC3339 `{TimeParseLenient} (s : string) : option Z :=
  match parseStrictRFC3339 s with
  | Some t => Some t
  | None => parse_lenient s
  end.

Example format_epoch : FormatRFC3339 0 = "1970-01-01T00:00:00Z".
Proof. vm_compute. reflexivity. Qed.
Example format_2023 : FormatRFC3339 (TimeUnix 1700000000) = "2023-11-14T22:13:20Z".
Proof. vm_compute. reflexivity. Qed.
Example format_zero : FormatRFC3339 zero_time = "0001-01-01T00:00:00Z".
Proof. vm_compute. reflexivity. Qed.
Example parse_2024 : parseStrictRFC3339 "2024-02-29T12:00:00.25+01:30" = Some (TimeUnix 1709202600 + 250000000).
Proof. vm_compute. reflexivity. Qed.
Example parse_not_leap : parseStrictRFC3339 "2023-02-29T12:00:00Z" = None.
Proof. vm_compute. reflexivity. Qed.
Example itoa_ex : (Itoa 0, Itoa (-120), Itoa 1700000000000000001) = ("0", "-120", "1700000000000000001").
Proof. vm_compute. reflexivity. Qed.

(** ** Decimal strings *)

Lemma slen_dig w n : slen (dig w n) = w.
Proof. revert n; induction w as [|w IH]; intros n; cbn; [done|]. rewrite slen_app, IH. cbn. lia. Qed.

Lemma digit_byte k : byte_of (char_of (48 + k mod 10)) = 48 + k mod 10.
Proof. apply byte_of_char_of. pose proof (Z.mod_pos_bound k 10). lia. Qed.

Lemma undig_app acc s t : undig acc (s +:+ t) = (undig acc s ≫= fun a => undig a t).
Proof. revert acc; induction s as [|c s IH]; intros acc; cbn; [done|]. by destruct (_ && _). Qed.

Lemma undig_digit acc k : undig acc (String (char_of (48 + k mod 10)) "") = Some (acc * 10 + k mod 10).
Proof.
  cbn. rewrite digit_byte. pose proof (Z.mod_pos_bound k 10).
  replace (_ && _) with true; [f_equal; lia|]. symmetry. rewrite andb_true_iff, !Z.leb_le. lia.
Qed.

Lemma undig_dig w n acc : 0 <= n < 10 ^ Z.of_nat w -> undig acc (dig w n) = Some (acc * 10 ^ Z.of_nat w + n).
Proof.
  revert n acc; induction w as [|w IH]; intros n acc Hn.
  - change (10 ^ Z.of_nat 0) with 1 in *. cbn. f_equal. lia.
  - assert (Hp : 10 ^ Z.of_nat (S w) = 10 * 10 ^ Z.of_nat w).
    { rewrite Nat2Z.inj_succ, Z.pow_succ_r by lia. done. }
    rewrite Hp in *. cbn [dig]. rewrite undig_app, IH.
    + cbn [mbind option_bind]. rewrite undig_digit. f_equal. pose proof (Z.div_mod n 10). nia.
    + split; [apply Z.div_pos; lia|apply Z.div_lt_upper_bound; lia].
Qed.

Lemma parseUint_dig w n lo hi :
  0 <= n < 10 ^ Z.of_nat w -> lo <= n <= hi -> parseUint (dig w n) lo hi = Some n.
Proof.
  intros Hn Hr. unfold parseUint. rewrite undig_dig by done.
  replace (0 * _ + n) with n by lia. replace (_ && _) with true; [done|].
  symmetry. rewrite andb_true_iff, !Z.leb_le. lia.
Qed.

(** Digit strings of one width compare as numbers. *)
Lemma slt_dig w n m s t :
  0 <= n < 10 ^ Z.of_nat w -> 0 <= m < 10 ^ Z.of_nat w ->
  slt (dig w n +:+ s) (dig w m +:+ t) = (n <? m) || ((n =? m) && slt s t).
Proof.
  revert n m s t; induction w as [|w IH]; intros n m s t Hn Hm.
  - change (10 ^ Z.of_nat 0) with 1 in *. replace n with 0 by lia. replace m with 0 by lia. done.
  - assert (Hp : 10 ^ Z.of_nat (S w) = 10 * 10 ^ Z.of_nat w).
    { rewrite Nat2Z.inj_succ, Z.pow_succ_r by lia. done. }
    rewrite Hp in *. cbn [dig]. rewrite !sapp_assoc, IH.
    + cbn [String.append]. rewrite slt_cons, !digit_byte.
      pose proof (Z.div_mod n 10). pose proof (Z.div_mod m 10).
      pose proof (Z.mod_pos_bound n 10). pose proof (Z.mod_pos_bound m 10).
      apply eq_true_iff_eq. rewrite !orb_true_iff, !andb_true_iff, !orb_true_iff, !andb_true_iff.
      rewrite !Z.ltb_lt, !Z.eqb_eq. intuition lia.
    + split; [apply Z.div_pos; lia|apply Z.div_lt_upper_bound; lia].
    + split; [apply Z.div_pos; lia|apply Z.div_lt_upper_bound; lia].
Qed.

Lemma width_from_le fuel w n k :
  (1 <= k)%nat -> 0 <= n < 10 ^ Z.of_nat k -> (width_from fuel w n <= w + k - 1)%nat.
Proof.
  revert w n k; induction fuel as [|fuel IH]; intros w n k Hk Hn; cbn; [lia|].
  destruct (Z.ltb_spec n 10); [lia|].
  destruct k as [|[|k]]; [lia|change (10 ^ Z.of_nat 1) with 10 in Hn; lia|].
  etrans; [apply (IH _ _ (S k)); [lia|]|lia].
  rewrite (Nat2Z.inj_succ (S k)), Z.pow_succ_r in Hn by lia.
  split; [apply Z.div_pos; lia|apply Z.div_lt_upper_bound; lia].
Qed.

Lemma appendInt_small x w : (1 <= w)%nat -> 0 <= x < 10 ^ Z.of_nat w -> appendInt x w = dig w x.
Proof.
  intros Hw Hx. unfold appendInt, width. rewrite Z.abs_eq by lia.
  pose proof (width_from_le (Z.to_nat (Z.log2 x)) 1 x w Hw Hx).
  rewrite Nat.max_l by lia. destruct (Z.ltb_spec x 0); [lia|done].
Qed.

(** ** Civil dates *)

(** A date as one number, in date order. *)
Definition ckey (ymd : Z * Z * Z) : Z := let '(y, m, d) := ymd in (y * 13 + m) * 32 + d.

Definition date_ok (ymd : Z * Z * Z) : bool :=
  let '(y, m, d) := ymd in (1 <=? m) && (m <=? 12) && (1 <=? d) && (d <=? daysIn m y).

Definition mar_year (y m : Z) : Z := if m <=? 2 then y - 1 else y.

Lemma doe_split_spec doe yoe doy :
  0 <= doe < era_days -> doe_split doe = (yoe, doy) ->
  doe = yoe * 365 + yoe / 4 - yoe / 100 + doy /\ 0 <= yoe < 400 /\ 0 <= doy <= 365 /\
  (doy = 365 -> leap (yoe + 1) = true).
Proof.
  unfold era_days, doe_split. intros Hd [= <- <-].
  set (c := Z.min (doe / 36524) 3). set (r := doe - 36524 * c).
  set (q := r / 1461). set (r' := r - 1461 * q). set (y := Z.min (r' / 365) 3).
  assert (0 <= c <= 3 /\ 0 <= r <= 36524 /\ (r = 36524 -> c = 3)) as (Hc & Hr & Hr4).
  { subst r c. pose proof (Z.div_mod doe 36524). pose proof (Z.mod_pos_bound doe 36524).
    pose proof (Z.div_pos doe 36524). lia. }
  assert (0 <= q <= 24 /\ 0 <= r' <= 1460 /\ (q = 24 -> r' = 1460 -> c = 3)) as (Hq & Hr' & Hr5).
  { subst r' q. pose proof (Z.div_mod r 1461). pose proof (Z.mod_pos_bound r 1461).
    pose proof (Z.div_pos r 1461). lia. }
  assert (0 <= y <= 3 /\ 0 <= r' - 365 * y <= 365 /\ (r' - 365 * y = 365 -> y = 3)) as (Hy & Hdoy & Hl).
  { subst y. pose proof (Z.div_mod r' 365). pose proof (Z.mod_pos_bound r' 365).
    pose proof (Z.div_pos r' 365). lia. }
  assert (E4 : (100 * c + 4 * q + y) / 4 = 25 * c + q) by (symmetry; apply (Z.div_unique _ _ _ y); lia).
  assert (E100 : (100 * c + 4 * q + y) / 100 = c)
    by (symmetry; apply (Z.div_unique _ _ _ (4 * q + y)); lia).
  rewrite E4, E100. repeat split; [subst r' r; lia|lia..|]. intros H365.
  specialize (Hl H365). unfold leap. rewrite Hl.
  assert (q = 24 -> c = 3) by lia.
  destruct (Z.eq_dec q 24) as [->|Hq24].
  - replace c with 3 by lia. done.
  - rewrite <- (Z.mod_unique (100 * c + 4 * q + 3 + 1) 4 (25 * c + q + 1) 0) by lia.
    rewrite <- (Z.mod_unique (100 * c + 4 * q + 3 + 1) 100 c (4 * q + 4)) by lia.
    replace (4 * q + 4 =? 0) with false by (symmetry; apply Z.eqb_neq; lia). done.
Qed.

(** The table of one year: dates are in range and give the day back. *)
Definition doy_check (doy : Z) : bool :=
  let '(m, d) := doy_date doy in
  let mp := if m <=? 2 then m + 9 else m - 3 in
  (1 <=? m) && (m <=? 12) && (1 <=? d) && (d <=? (if doy =? 365 then 29 else daysIn m 1)) &&
  ((153 * mp + 2) / 5 + d - 1 =? doy) && (negb (doy =? 365) || (m =? 2)).

Lemma doy_check_ok doy : 0 <= doy <= 365 -> doy_check doy = true.
Proof.
  intros Hd. assert (Hall : forallb (fun n => doy_check (Z.of_nat n)) (seq 0 366) = true) by (vm_compute; done).
  rewrite forallb_forall in Hall. specialize (Hall (Z.to_nat doy) ltac:(apply in_seq; lia)).
  cbn beta in Hall. by rewrite Z2Nat.id in Hall by lia.
Qed.

Lemma daysIn_common m y : daysIn m 1 <= daysIn m y.
Proof. unfold daysIn. change (leap 1) with false. repeat case_match; lia. Qed.

Lemma doe_date_ok doe y m d :
  0 <= doe < era_days -> doe_date doe = (y, m, d) ->
  date_ok (y, m, d) = true /\ 0 <= mar_year y m < 400 /\ date_doe (mar_year y m) m d = doe.
Proof.
  intros Hd. unfold doe_date. destruct (doe_split doe) as [yoe doy] eqn:Hs.
  destruct (doe_split_spec _ _ _ Hd Hs) as (Hdoe & Hy & Hdoy & Hleap).
  pose proof (doy_check_ok doy Hdoy) as Hc. unfold doy_check in Hc.
  destruct (doy_date doy) as [m0 d0]. intros [= <- <- <-].
  breflect. unfold date_ok, mar_year, date_doe.
  assert (Hyr : forall a b : Z, (if m0 <=? 2 then yoe + (if m0 <=? 2 then 1 else 0) - 1
                                 else yoe + (if m0 <=? 2 then 1 else 0)) = yoe).
  { intros. destruct (m0 <=? 2); lia. }
  rewrite Hyr by exact 0. split; [|split; [lia|]].
  - rewrite !andb_true_iff, !Z.leb_le. repeat split; [lia..|].
    destruct (Z.eqb_spec doy 365) as [E|E]; [|pose proof (daysIn_common m0 (yoe + (if m0 <=? 2 then 1 else 0))); lia].
    assert (m0 = 2) as -> by (cbn in *; breflect; lia).
    change (if 2 <=? 2 then 1 else 0) with 1.
    assert (daysIn 2 (yoe + 1) = 29) as -> by (unfold daysIn; rewrite Hleap by done; done). lia.
  - rewrite Hdoe. lia.
Qed.

Lemma leap_era y k : leap (y + 400 * k) = leap y.
Proof.
  assert (forall a b, b <> 0 -> (y + b * a) mod b = y mod b) as Hm.
  { intros a b Hb. rewrite (Z.mul_comm b a). by apply Z.mod_add. }
  unfold leap. rewrite (Hm k 400) by done.
  replace (y + 400 * k) with (y + 4 * (100 * k)) by lia. rewrite Hm by done.
  replace (y + 4 * (100 * k)) with (y + 100 * (4 * k)) by lia. by rewrite Hm.
Qed.

Lemma daysIn_era m y k : daysIn m (y + 400 * k) = daysIn m y.
Proof. unfold daysIn. by rewrite leap_era. Qed.

Lemma civil_ok days y m d :
  civil days = (y, m, d) -> date_ok (y, m, d) = true /\ days_of_civil y m d = days.
Proof.
  unfold civil. set (z := days + 719468).
  pose proof (Z.mod_pos_bound z era_days ltac:(unfold era_days; lia)) as Hb.
  pose proof (Z.div_mod z era_days ltac:(unfold era_days; lia)) as Hz.
  destruct (doe_date (z mod era_days)) as [[y0 m0] d0] eqn:Hdate. intros [= <- <- <-].
  destruct (doe_date_ok _ _ _ _ Hb Hdate) as (Hok & Hy & Hd). split.
  - unfold date_ok in *. by rewrite daysIn_era.
  - unfold days_of_civil. change (if m0 <=? 2 then ?a - 1 else ?a) with (mar_year a m0).
    replace (mar_year (y0 + 400 * (z / era_days)) m0) with (mar_year y0 m0 + (z / era_days) * 400)
      by (unfold mar_year; destruct (m0 <=? 2); lia).
    rewrite Z.div_add, Z.mod_add, Z.div_small, Z.mod_small by lia. rewrite Hd. lia.
Qed.

(** Days before 1 March of a year, counted from 1 March of year 0. *)
Definition year_start (y : Z) : Z := 365 * y + y / 4 - y / 100 + y / 400.

Lemma year_start_next y : year_start (y + 1) = year_start y + 365 + (if leap (y + 1) then 1 else 0).
Proof.
  unfold year_start, leap.
  pose proof (Z.div_mod y 4). pose proof (Z.mod_pos_bound y 4). pose proof (Z.div_mod (y + 1) 4).
  pose proof (Z.mod_pos_bound (y + 1) 4). pose proof (Z.div_mod y 100). pose proof (Z.mod_pos_bound y 100).
  pose proof (Z.div_mod (y + 1) 100). pose proof (Z.mod_pos_bound (y + 1) 100). pose proof (Z.div_mod y 400).
  pose proof (Z.mod_pos_bound y 400). pose proof (Z.div_mod (y + 1) 400). pose proof (Z.mod_pos_bound (y + 1) 400).
  destruct (Z.eqb_spec ((y + 1) mod 4) 0), (Z.eqb_spec ((y + 1) mod 100) 0), (Z.eqb_spec ((y + 1) mod 400) 0);
    cbn; lia.
Qed.

Lemma year_start_mono y y' : y <= y' -> year_start y <= year_start y'.
Proof.
  intros H. replace y' with (y + Z.of_nat (Z.to_nat (y' - y))) by lia.
  induction (Z.to_nat (y' - y)) as [|n IH]; [by rewrite Z.add_0_r|].
  rewrite Nat2Z.inj_succ. replace (y + Z.succ (Z.of_nat n)) with (y + Z.of_nat n + 1) by lia.
  rewrite year_start_next. destruct (leap _); lia.
Qed.

Definition mar_month (m : Z) : Z := if m <=? 2 then m + 9 else m - 3.
Definition month_start (mp : Z) : Z := (153 * mp + 2) / 5.

Lemma days_of_civil_alt y m d :
  days_of_civil y m d = year_start (mar_year y m) + month_start (mar_month m) + d - 719469.
Proof.
  unfold days_of_civil, date_doe, year_start, month_start, mar_month.
  change (if m <=? 2 then y - 1 else y) with (mar_year y m). generalize (mar_year y m) as Y. intros Y.
  pose proof (Z.div_mod Y 400) as HY. pose proof (Z.mod_pos_bound Y 400).
  assert (E4 : Y / 4 = 100 * (Y / 400) + (Y mod 400) / 4).
  { rewrite HY at 1 by lia. replace (400 * (Y / 400) + Y mod 400) with (Y mod 400 + 100 * (Y / 400) * 4) by lia.
    rewrite Z.div_add by lia. lia. }
  assert (E100 : Y / 100 = 4 * (Y / 400) + (Y mod 400) / 100).
  { rewrite HY at 1 by lia. replace (400 * (Y / 400) + Y mod 400) with (Y mod 400 + 4 * (Y / 400) * 100) by lia.
    rewrite Z.div_add by lia. lia. }
  unfold era_days. lia.
Qed.

Lemma month_ends m y : 1 <= m <= 12 -> m <> 2 ->
  month_start (mar_month m) + daysIn m y = month_start (mar_month m + 1).
Proof.
  intros Hm H2. assert (m = 1 \/ m = 3 \/ m = 4 \/ m = 5 \/ m = 6 \/ m = 7 \/ m = 8 \/ m = 9 \/ m = 10
    \/ m = 11 \/ m = 12) as Hcase by lia.
  repeat (destruct Hcase as [->|Hcase]; [reflexivity|]). subst. reflexivity.
Qed.

(** Day numbers follow the calendar order of valid dates. *)
Lemma days_of_civil_mono x x' :
  date_ok x = true -> date_ok x' = true -> ckey x <= ckey x' ->
  (let '(y, m, d) := x in days_of_civil y m d) <= (let '(y, m, d) := x' in days_of_civil y m d).
Proof.
  destruct x as [[y m] d], x' as [[y' m'] d']. unfold date_ok, ckey. intros Hx Hx' Hk. breflect.
  assert (Hd : daysIn m y <= 31) by (unfold daysIn; repeat case_match; lia).
  assert (Hd' : daysIn m' y' <= 31) by (unfold daysIn; repeat case_match; lia).
  rewrite !days_of_civil_alt.
  assert (Hmar : mar_year y m < mar_year y' m' \/
    mar_year y m = mar_year y' m' /\ (mar_month m < mar_month m' \/ m = m' /\ d <= d')).
  { unfold mar_year, mar_month. destruct (Z.leb_spec m 2), (Z.leb_spec m' 2); lia. }
  assert (Hs0 : 0 <= month_start (mar_month m')).
  { apply Z.div_pos; [|lia]. unfold mar_month. destruct (Z.leb_spec m' 2); lia. }
  destruct Hmar as [Hlt|[Heq [Hlt|[-> Hle]]]]; [|rewrite Heq|rewrite Heq; lia].
  - assert (Hy : year_start (mar_year y m) + 365 + (if leap (mar_year y m + 1) then 1 else 0)
               <= year_start (mar_year y' m')) by (rewrite <- year_start_next; apply year_start_mono; lia).
    destruct (Z.eq_dec m 2) as [->|Hfeb].
    + change (mar_year y 2) with (y - 1) in *. replace (y - 1 + 1) with y in Hy by lia.
      assert (daysIn 2 y = 28 + (if leap y then 1 else 0)) by (unfold daysIn; by destruct (leap y)).
      change (month_start (mar_month 2)) with 337. destruct (leap y); lia.
    + pose proof (month_ends m y ltac:(lia) Hfeb).
      assert (month_start (mar_month m + 1) <= month_start 11).
      { apply Z.div_le_mono; [lia|]. unfold mar_month. destruct (Z.leb_spec m 2); lia. }
      change (month_start 11) with 337 in *. destruct (leap _); lia.
  - destruct (Z.eq_dec m 2) as [->|Hfeb]; [exfalso; change (mar_month 2) with 11 in Hlt; unfold mar_month in Hlt; destruct (Z.leb_spec m' 2); lia|].
    pose proof (month_ends m y ltac:(lia) Hfeb).
    assert (month_start (mar_month m + 1) <= month_start (mar_month m')) by (apply Z.div_le_mono; lia). lia.
Qed.

Lemma civil_mono a b : a < b -> ckey (civil a) < ckey (civil b).
Proof.
  intros Hab. destruct (Z.lt_ge_cases (ckey (civil a)) (ckey (civil b))) as [|Hge]; [done|].
  destruct (civil a) as [[y m] d] eqn:Ha, (civil b) as [[y' m'] d'] eqn:Hb.
  destruct (civil_ok _ _ _ _ Ha) as [Hoka Hda], (civil_ok _ _ _ _ Hb) as [Hokb Hdb].
  pose proof (days_of_civil_mono _ _ Hokb Hoka Hge) as Hle. cbn in Hle. lia.
Qed.

(** ** Formatted times *)

(** The seconds of years 0 to 9999, which the format gives twenty bytes. *)
Definition four_digit_year (t : Z) : Prop := -62167219200 <= Unix t < 253402300800.

Lemma civil_year s y m d :
  -719528 <= s < 2932897 -> civil s = (y, m, d) -> 0 <= y <= 9999.
Proof.
  intros Hs Hc. destruct (civil_ok _ _ _ _ Hc) as [Hok _].
  assert (Hlo : ckey (civil (-719529)) < ckey (civil s)) by (apply civil_mono; lia).
  assert (Hhi : ckey (civil s) < ckey (civil 2932897)) by (apply civil_mono; lia).
  rewrite Hc in Hlo, Hhi. vm_compute (civil _) in Hlo. vm_compute (civil _) in Hhi.
  unfold ckey, date_ok in *. breflect.
  assert (daysIn m y <= 31) by (unfold daysIn; repeat case_match; lia). lia.
Qed.

Lemma date_fields days y m d :
  civil days = (y, m, d) -> 1 <= m <= 12 /\ 1 <= d <= 31 /\ d <= daysIn m y.
Proof.
  intros [Hok _]%civil_ok. unfold date_ok in Hok. breflect.
  assert (daysIn m y <= 31) by (unfold daysIn; repeat case_match; lia). lia.
Qed.

Lemma day_split t :
  four_digit_year t ->
  -719528 <= Unix t / day_secs < 2932897 /\ 0 <= Unix t mod day_secs < day_secs /\
  Unix t = Unix t / day_secs * day_secs + Unix t mod day_secs.
Proof.
  unfold four_digit_year, day_secs. intros Ht.
  pose proof (Z.div_mod (Unix t) 86400). pose proof (Z.mod_pos_bound (Unix t) 86400).
  split; [|lia]. split; [apply Z.div_le_lower_bound; lia|apply Z.div_lt_upper_bound; lia].
Qed.

Lemma clock_fields sod :
  0 <= sod < day_secs ->
  0 <= sod / 3600 <= 23 /\ 0 <= sod / 60 mod 60 <= 59 /\ 0 <= sod mod 60 <= 59 /\
  sod = sod / 3600 * 3600 + sod / 60 mod 60 * 60 + sod mod 60.
Proof.
  unfold day_secs. intros Hs. pose proof (Z.div_mod sod 60). pose proof (Z.mod_pos_bound sod 60).
  pose proof (Z.div_mod (sod / 60) 60). pose proof (Z.mod_pos_bound (sod / 60) 60).
  replace (sod / 3600) with (sod / 60 / 60) by (rewrite Z.div_div by lia; done).
  assert (0 <= sod / 60 / 60 < 24).
  { split; [repeat apply Z.div_pos; lia|]. repeat apply Z.div_lt_upper_bound; lia. }
  lia.
Qed.

Lemma format_four_digits t y m d :
  four_digit_year t -> civil (Unix t / day_secs) = (y, m, d) ->
  FormatRFC3339 t = dig 4 y +:+ "-" +:+ dig 2 m +:+ "-" +:+ dig 2 d +:+ "T" +:+
                    clock_string (Unix t mod day_secs) +:+ "Z".
Proof.
  intros Ht Hc. destruct (day_split _ Ht) as (Hd & _). pose proof (civil_year _ _ _ _ Hd Hc).
  unfold FormatRFC3339, date_string. rewrite Hc, appendInt_small by (cbn; lia).
  by rewrite !sapp_assoc.
Qed.

(** Round trip, for every instant of the years 0 to 9999: what comes back is the instant
    without its fraction of a second. *)
Lemma parse_format t :
  four_digit_year t -> parseStrictRFC3339 (FormatRFC3339 t) = Some (TimeUnix (Unix t)).
Proof.
  intros Ht. destruct (civil (Unix t / day_secs)) as [[y m] d] eqn:Hc.
  destruct (day_split _ Ht) as (Hd & Hs & Heq).
  pose proof (civil_year _ _ _ _ Hd Hc). pose proof (date_fields _ _ _ _ Hc).
  destruct (civil_ok _ _ _ _ Hc) as [_ Hdays].
  destruct (clock_fields _ Hs) as (Hh & Hm & Hsec & Hsod).
  rewrite (format_four_digits _ _ _ _ Ht Hc). unfold clock_string.
  set (sod := Unix t mod day_secs) in *.
  unfold parseStrictRFC3339, ssub.
  cbn [slen dig String.append String.substring String.get char_at Nat.sub Nat.ltb Nat.leb sdrop].
  change (if (20 <? 19)%nat then ?a else ?b) with b.
  change (String (char_of (48 + y / 10 / 10 / 10 mod 10)) _) with (dig 4 y).
  change (String (char_of (48 + m / 10 mod 10)) _) with (dig 2 m).
  change (String (char_of (48 + d / 10 mod 10)) _) with (dig 2 d).
  change (String (char_of (48 + sod / 3600 / 10 mod 10)) _) with (dig 2 (sod / 3600)).
  change (String (char_of (48 + sod / 60 mod 60 / 10 mod 10)) _) with (dig 2 (sod / 60 mod 60)).
  change (String (char_of (48 + sod mod 60 / 10 mod 10)) _) with (dig 2 (sod mod 60)).
  rewrite (parseUint_dig 4 y), (parseUint_dig 2 m) by (cbn; lia). cbn [mbind option_bind].
  rewrite (parseUint_dig 2 d) by (cbn; lia). cbn [mbind option_bind].
  rewrite !parseUint_dig by (cbn; lia). cbn [mbind option_bind andb Ascii.eqb Bool.eqb].
  cbn. rewrite Hdays. f_equal. unfold TimeUnix. lia.
Qed.

Lemma slt_char c s t : slt (String c s) (String c t) = slt s t.
Proof. rewrite slt_cons, Z.ltb_irrefl, Z.eqb_refl. done. Qed.

Lemma slt_clock a b :
  0 <= a < day_secs -> 0 <= b < day_secs ->
  slt (clock_string a +:+ "Z") (clock_string b +:+ "Z") = (a <? b).
Proof.
  intros Ha Hb. destruct (clock_fields _ Ha) as (? & ? & ? & Ea), (clock_fields _ Hb) as (? & ? & ? & Eb).
  unfold clock_string. rewrite !sapp_assoc.
  rewrite slt_dig by (change (10 ^ Z.of_nat 2) with 100; lia). rewrite slt_app_same.
  rewrite slt_dig by (change (10 ^ Z.of_nat 2) with 100; lia). rewrite slt_app_same.
  rewrite slt_dig by (change (10 ^ Z.of_nat 2) with 100; lia). rewrite slt_irrefl.
  apply eq_true_iff_eq. rewrite !orb_true_iff, !andb_true_iff, !orb_true_iff, !andb_true_iff, orb_true_iff, andb_true_iff.
  rewrite !Z.ltb_lt, !Z.eqb_eq. intuition (try discriminate); lia.
Qed.

(** The byte order of formatted times is the order of their seconds. *)
Lemma format_order t u :
  four_digit_year t -> four_digit_year u ->
  slt (FormatRFC3339 t) (FormatRFC3339 u) = (Unix t <? Unix u).
Proof.
  intros Ht Hu.
  destruct (civil (Unix t / day_secs)) as [[y m] d] eqn:Hc, (civil (Unix u / day_secs)) as [[y' m'] d'] eqn:Hc'.
  destruct (day_split _ Ht) as (Hd & Hs & Eq), (day_split _ Hu) as (Hd' & Hs' & Eq').
  pose proof (civil_year _ _ _ _ Hd Hc). pose proof (date_fields _ _ _ _ Hc).
  pose proof (civil_year _ _ _ _ Hd' Hc'). pose proof (date_fields _ _ _ _ Hc').
  rewrite (format_four_digits _ _ _ _ Ht Hc), (format_four_digits _ _ _ _ Hu Hc').
  rewrite slt_dig by (change (10 ^ Z.of_nat 4) with 10000; lia). rewrite slt_app_same.
  rewrite slt_dig by (change (10 ^ Z.of_nat 2) with 100; lia). rewrite slt_app_same.
  rewrite slt_dig by (change (10 ^ Z.of_nat 2) with 100; lia). rewrite slt_app_same, slt_clock by done.
  pose proof (civil_mono (Unix t / day_secs) (Unix u / day_secs)) as Hlt.
  pose proof (civil_mono (Unix u / day_secs) (Unix t / day_secs)) as Hgt.
  rewrite Hc, Hc' in Hlt, Hgt. unfold ckey in Hlt, Hgt. unfold day_secs in *.
  destruct (Z.lt_trichotomy (Unix t / 86400) (Unix u / 86400)) as [L|[E|G]].
  - specialize (Hlt L). apply eq_true_iff_eq.
    rewrite !orb_true_iff, !andb_true_iff, !orb_true_iff, !andb_true_iff, !Z.ltb_lt, !Z.eqb_eq. lia.
  - rewrite E, Hc' in Hc. injection Hc as -> -> ->. rewrite !Z.ltb_irrefl, !Z.eqb_refl. cbn.
    apply eq_true_iff_eq. rewrite !Z.ltb_lt. lia.
  - specialize (Hgt G). apply eq_true_iff_eq.
    rewrite !orb_true_iff, !andb_true_iff, !orb_true_iff, !andb_true_iff, !Z.ltb_lt, !Z.eqb_eq. lia.
Qed.

Lemma format_nonempty t : FormatRFC3339 t <> "".
Proof.
  unfold FormatRFC3339, date_string. destruct (civil _) as [[y m] d]. unfold appendInt.
  intros E%(f_equal String.length). rewrite !slen_app, slen_dig in E. cbn in E. lia.
Qed.

Lemma Unix_TimeUnix s : Unix (TimeUnix s) = s.
Proof. unfold Unix, TimeUnix. apply Z.div_mul. done. Qed.

Lemma FormatRFC3339_seconds t : FormatRFC3339 (TimeUnix (Unix t)) = FormatRFC3339 t.
Proof. unfold FormatRFC3339. by rewrite Unix_TimeUnix. Qed.

Lemma ParseRFC3339_format `{TimeParseLenient} t :
  four_digit_year t -> ParseRFC3339 (FormatRFC3339 t) = Some (TimeUnix (Unix t)).
Proof. intros Ht. unfold ParseRFC3339. by rewrite parse_format. Qed.

(** ** Printed integers *)

Lemma dig_digits w n : sall is_digit (dig w n) = true.
Proof.
  revert n; induction w as [|w IH]; intros n; cbn; [done|]. rewrite sall_app, IH. cbn.
  unfold is_digit. rewrite digit_byte. pose proof (Z.mod_pos_bound n 10).
  rewrite andb_true_r, andb_true_iff, !Z.leb_le. lia.
Qed.

Lemma width_from_ok fuel w n :
  (1 <= w)%nat -> 0 <= n < 10 ^ Z.of_nat (S fuel) ->
  (w <= width_from fuel w n)%nat /\ n < 10 ^ Z.of_nat (width_from fuel w n - w + 1).
Proof.
  revert w n; induction fuel as [|fuel IH]; intros w n Hw Hn.
  - cbn [width_from]. rewrite Nat.sub_diag. split; [lia|]. exact (proj2 Hn).
  - cbn [width_from]. destruct (Z.ltb_spec n 10); [rewrite Nat.sub_diag; split; [lia|]; change (10 ^ _) with 10; lia|].
    rewrite Nat2Z.inj_succ, Z.pow_succ_r in Hn by lia.
    destruct (IH (S w) (n / 10) ltac:(lia)) as [Hle Hlt].
    { split; [apply Z.div_pos; lia|apply Z.div_lt_upper_bound; lia]. }
    split; [lia|].
    replace (width_from fuel (S w) (n / 10) - w + 1)%nat with (S (width_from fuel (S w) (n / 10) - S w + 1)) by lia.
    rewrite Nat2Z.inj_succ, Z.pow_succ_r by lia. pose proof (Z.div_mod n 10). pose proof (Z.mod_pos_bound n 10). lia.
Qed.

Lemma width_ok n : 0 <= n -> (1 <= width n)%nat /\ n < 10 ^ Z.of_nat (width n).
Proof.
  intros Hn. unfold width.
  destruct (width_from_ok (Z.to_nat (Z.log2 n)) 1 n) as [Hw Hlt]; [lia| |].
  - split; [lia|]. rewrite Nat2Z.inj_succ, Z2Nat.id by apply Z.log2_nonneg.
    destruct (Z.eq_dec n 0) as [->|]; [done|].
    destruct (Z.log2_spec n) as [_ Hs]; [lia|].
    eapply Z.lt_le_trans; [exact Hs|]. apply Z.pow_le_mono_l. lia.
  - split; [exact Hw|].
    replace (width_from (Z.to_nat (Z.log2 n)) 1 n - 1 + 1)%nat with (width_from (Z.to_nat (Z.log2 n)) 1 n) in Hlt by lia.
    exact Hlt.
Qed.

Lemma Itoa_abs x : Itoa x = (if x <? 0 then "-" else "") +:+ dig (width (Z.abs x)) (Z.abs x).
Proof. unfold Itoa, appendInt. destruct (width_ok (Z.abs x)); [lia|]. by rewrite Nat.max_r by lia. Qed.

Lemma dig_width_inj a b : 0 <= a -> 0 <= b -> dig (width a) a = dig (width b) b -> a = b.
Proof.
  intros Ha Hb E. destruct (width_ok a Ha) as [_ Ha'], (width_ok b Hb) as [_ Hb'].
  assert (Hw : width a = width b) by (rewrite <- (slen_dig (width a) a), E, slen_dig; done).
  assert (Some a = Some b) as [= ->]; [|done].
  transitivity (undig 0 (dig (width a) a)); [rewrite undig_dig by lia; f_equal; lia|].
  rewrite E, undig_dig by lia. f_equal; lia.
Qed.

Lemma Itoa_inj x y : Itoa x = Itoa y -> x = y.
Proof.
  rewrite !Itoa_abs. intros E.
  pose proof (dig_digits (width (Z.abs x)) (Z.abs x)) as Hx.
  pose proof (dig_digits (width (Z.abs y)) (Z.abs y)) as Hy.
  destruct (Z.ltb_spec x 0), (Z.ltb_spec y 0); cbn in E.
  - injection E as E. apply dig_width_inj in E; lia.
  - rewrite <- E in Hy. done.
  - rewrite E in Hx. done.
  - apply dig_width_inj in E; lia.
Qed.

Lemma Itoa_chars x : sall (fun c => is_digit c || Ascii.eqb c "-") (Itoa x) = true.
Proof.
  rewrite Itoa_abs, sall_app, andb_true_iff. split; [by destruct (x <? 0)|].
  eapply sall_impl; [|apply dig_digits]. intros c ->. done.
Qed.

Global Arguments FormatRFC3339 : simpl never.
Global Arguments ParseRFC3339 : simpl never.
Global Arguments parseStrictRFC3339 : simpl never.

(** Printed numbers have no leading zero. *)
Lemma width_from_min fuel w n : (1 <= w)%nat -> 0 < n ->
  10 ^ Z.of_nat (width_from fuel w n - w) <= n.
Proof.
  revert w n; induction fuel as [|fuel IH]; intros w n Hw Hn; cbn [width_from].
  - rewrite Nat.sub_diag. cbn. lia.
  - destruct (Z.ltb_spec n 10); [rewrite Nat.sub_diag; cbn; lia|].
    assert (0 < n / 10) by (apply Z.div_str_pos; lia). specialize (IH (S w) (n / 10) ltac:(lia) ltac:(lia)).
    assert (S w <= width_from fuel (S w) (n / 10))%nat.
    { clear. generalize (S w) (n / 10). induction fuel as [|f IHf]; intros v m; cbn; [lia|].
      destruct (m <? 10); [lia|]. specialize (IHf (S v) (m / 10)). lia. }
    replace (width_from fuel (S w) (n / 10) - w)%nat with (S (width_from fuel (S w) (n / 10) - S w)) by lia.
    rewrite Nat2Z.inj_succ, Z.pow_succ_r by lia. pose proof (Z.div_mod n 10). pose proof (Z.mod_pos_bound n 10). lia.
Qed.

Lemma dig_head w n : 10 ^ Z.of_nat w <= n < 10 ^ Z.of_nat (S w) ->
  exists c s, dig (S w) n = String c s /\ Ascii.eqb c "0" = false /\ is_digit c = true.
Proof.
  revert n; induction w as [|w IH]; intros n Hn.
  - exists (char_of (48 + n mod 10)), "". change (10 ^ Z.of_nat 0) with 1 in Hn. change (10 ^ Z.of_nat 1) with 10 in Hn.
    rewrite Z.mod_small by lia. split; [cbn; by rewrite Z.mod_small by lia|]. unfold is_digit.
    rewrite byte_of_char_of by lia. rewrite !(proj2 (Z.leb_le _ _)) by lia. split; [|done].
    destruct (Ascii.eqb_spec (char_of (48 + n)) "0") as [E|]; [|done].
    apply (f_equal byte_of) in E. rewrite byte_of_char_of in E by lia. change (byte_of "0") with 48 in E. lia.
  - rewrite !Nat2Z.inj_succ, !Z.pow_succ_r in Hn by lia.
    destruct (IH (n / 10)) as (c & s & Hd & Hc).
    { rewrite Nat2Z.inj_succ, Z.pow_succ_r by lia.
      split; [apply Z.div_le_lower_bound; lia|apply Z.div_lt_upper_bound; lia]. }
    exists c. eexists. change (dig (S (S w)) n) with (dig (S w) (n / 10) +:+ String (char_of (48 + n mod 10)) "").
    rewrite Hd. split; [done|exact Hc].
Qed.

Lemma dig_width_head n : 0 < n ->
  exists c s, dig (width n) n = String c s /\ Ascii.eqb c "0" = false /\ is_digit c = true.
Proof.
  intros Hn. destruct (width_ok n ltac:(lia)) as [H1 H2]. pose proof (width_from_min (Z.to_nat (Z.log2 n)) 1 n ltac:(lia) Hn) as H3.
  fold (width n) in H3. destruct (width n) as [|w]; [lia|]. apply dig_head.
  replace (S w - 1)%nat with w in H3 by lia. done.
Qed.

(** ** ASCII *)

Lemma is_ascii_sub p s : (forall c, p c = true -> byte_of c < 128) -> sall p s = true -> is_ascii s = true.
Proof. intros Hp. apply sall_impl. intros c Hc. apply Z.ltb_lt. auto. Qed.

Lemma FormatRFC3339_ascii t : four_digit_year t -> is_ascii (FormatRFC3339 t) = true.
Proof.
  intros Ht. destruct (civil (Unix t / day_secs)) as [[y m] d] eqn:Hc.
  assert (Hd : forall w n, is_ascii (dig w n) = true).
  { intros w n. eapply is_ascii_sub, dig_digits. intros c. unfold is_digit.
    rewrite andb_true_iff, !Z.leb_le. lia. }
  rewrite (format_four_digits _ _ _ _ Ht Hc). unfold clock_string, is_ascii in *.
  by rewrite !sall_app, !Hd.
Qed.
