(* ===== verification/Config.v ===== *)
(** * Configuration

    [internal/config/config.go]: [Load] reads the environment, [Validate] refuses what the
    provider must not start with. The parsers of URLs and CIDR blocks, and what the
    operating system answers, are arguments. The theorems say when the internal endpoints
    can be enabled and what a configuration that passed guarantees to the other components. *)

From S2P Require Import Prelude GoStrings GoHttp GoTime.
Open Scope Z_scope.

(** ** The environment *)

Definition environ := gmap string string.

Definition Getenv (e : environ) (key : string) : string := default "" (e !! key).

Definition getenv (e : environ) (key fallback : string) : string := default fallback (e !! key).

Definition getenvWithExplicit (e : environ) (key : string) : string * bool :=
  match e !! key with Some value => (value, true) | None => ("", false) end.

(** [strconv.ParseInt(s, 10, 64)], which [strconv.Atoi] agrees with on 64-bit platforms. *)
Definition ParseInt (s : string) : option Z :=
  let '(neg, ds) := match s with
                    | String "-" r => (true, r)
                    | String "+" r => (false, r)
                    | _ => (false, s)
                    end in
  if String.eqb ds "" then None
  else n ← undig 0 ds;
       let v := if neg : bool then - n else n in
       if (int64_min <=? v) && (v <=? int64_max) then Some v else None.

(** [strconv.ParseBool]. *)
Definition ParseBool (s : string) : option bool :=
  if bool_decide (s ∈ ["1"; "t"; "T"; "TRUE"; "true"; "True"]) then Some true
  else if bool_decide (s ∈ ["0"; "f"; "F"; "FALSE"; "false"; "False"]) then Some false
  else None.

Definition getenvInt (e : environ) (key : string) (fallback : Z) : Z :=
  let value := Getenv e key in
  if String.eqb value "" then fallback
  else match ParseInt value with Some n => n | None => fallback end.

Definition getenvInt64 (e : environ) (key : string) (fallback : Z) : Z :=
  let value := Getenv e key in
  if String.eqb value "" then fallback
  else match ParseInt value with Some n => n | None => fallback end.

Definition getenvBool (e : environ) (key : string) (fallback : bool) : bool :=
  let value := Getenv e key in
  if String.eqb value "" then fallback
  else match ParseBool value with Some b => b | None => fallback end.

Definition getenvBoolWithExplicit (e : environ) (key : string) (fallback : bool) : bool * bool :=
  match e !! key with
  | None => (fallback, false)
  | Some _ => (getenvBool e key fallback, true)
  end.

(** ** The configuration *)

Definition StorageModeFilesystem : string := "filesystem".
Definition StorageModeProxy : string := "proxy".
Definition StorageModeHybrid : string := "hybrid".

Record Config := MkConfig {
  Env : string;
  HTTPAddr : string;
  PublicBaseURL : string;
  AllowInsecurePublicURL : bool;
  DataPath : string;
  IdentityPath : string;
  DBPath : string;
  ScanOnStartup : bool;
  EnableJobs : bool;
  InternalEnable : bool;
  InternalAllowedCIDRs : string;
  TrustProxyHeaders : bool;
  TrustedProxyCIDRs : string;
  ShutdownTimeoutSeconds : Z;
  AssetsSubdir : string;
  MaxSegmentBytes : Z;
  RateLimitRPS : Z;
  RateLimitBurst : Z;
  EnableCORS : bool;
  CORSAllowedOrigins : string;
  CORSAllowCredentials : bool;
  EnforceNoSymlinks : bool;
  TrustProxyAddresses : bool;
  RescanIntervalSeconds : Z;
  AnnounceSweepIntervalSeconds : Z;
  ReannounceThresholdSeconds : Z;
  BackoffBaseMillis : Z;
  BackoffMaxSeconds : Z;
  RejectedRetrySeconds : Z;
  UnauthorizedRetrySeconds : Z;
  AnnouncementExpiryGraceSeconds : Z;
  StorageMode : string;
  OriginBaseURL : string;
  OriginAuthMode : string;
  OriginHMACSecretPath : string;
  OriginHMACKeyID : string;
  OriginAuthIncludeQuery : bool;
  ProxyMaxUpstreamConcurrency : Z;
  Transport : string;
  AnnouncePriority : Z;
  AnnounceExpiresSeconds : Z;
  CatalogTimeoutSeconds : Z;
  CatalogBaseURL : string;
  AnnounceInterval : string;
  Region : string;
  PrivateKeyPath : string;
  InternalEnableExplicit : bool;
  InternalAllowedCIDRsExplicit : bool;
}.

Section Config.
Context `{UnicodeLower}.

(** The deployment environment: anything unknown is production. *)
Definition load_env (e : environ) : string :=
  let env := ToLower (TrimSpace (Getenv e "AUDISTRO_ENV")) in
  let env := if String.eqb env "" then ToLower (TrimSpace (getenv e "PROVIDER_ENV" "prod")) else env in
  if negb (String.eqb env "dev") && negb (String.eqb env "prod") && negb (String.eqb env "test")
  then "prod" else env.

Definition Load (e : environ) : Config :=
  let env := load_env e in
  let dataPath := getenv e "PROVIDER_DATA_PATH" "./data" in
  let identityPath := Getenv e "PROVIDER_IDENTITY_PATH" in
  let identityPath := if String.eqb identityPath "" then Join [dataPath; "provider_identity.json"]
                      else identityPath in
  let dbPath := Getenv e "PROVIDER_DB_PATH" in
  let dbPath := if String.eqb dbPath "" then Join [dataPath; "provider.db"] else dbPath in
  let internalEnableDefault := String.eqb env "dev" || String.eqb env "test" in
  let '(internalEnable, internalEnableExplicit) :=
    getenvBoolWithExplicit e "PROVIDER_INTERNAL_ENABLE" internalEnableDefault in
  let '(internalAllowedCIDRs, internalAllowedCIDRsExplicit) :=
    getenvWithExplicit e "PROVIDER_INTERNAL_ALLOWED_CIDRS" in
  let internalAllowedCIDRs :=
    if String.eqb (TrimSpace internalAllowedCIDRs) "" && String.eqb env "dev"
    then "127.0.0.1/32,::1/128" else internalAllowedCIDRs in
  {| Env := env;
     HTTPAddr := getenv e "PROVIDER_HTTP_ADDR" ":8080";
     PublicBaseURL := Getenv e "PROVIDER_PUBLIC_BASE_URL";
     AllowInsecurePublicURL := getenvBool e "PROVIDER_ALLOW_INSECURE_PUBLIC_URL" false;
     DataPath := dataPath;
     IdentityPath := identityPath;
     DBPath := dbPath;
     ScanOnStartup := getenvBool e "PROVIDER_SCAN_ON_STARTUP" true;
     EnableJobs := getenvBool e "PROVIDER_ENABLE_JOBS" true;
     InternalEnable := internalEnable;
     InternalAllowedCIDRs := internalAllowedCIDRs;
     TrustProxyHeaders := getenvBool e "PROVIDER_TRUST_PROXY_HEADERS" false;
     TrustedProxyCIDRs := TrimSpace (Getenv e "PROVIDER_TRUSTED_PROXY_CIDRS");
     ShutdownTimeoutSeconds := getenvInt e "PROVIDER_SHUTDOWN_TIMEOUT_SECONDS" 15;
     AssetsSubdir := getenv e "PROVIDER_ASSETS_SUBDIR" "assets";
     MaxSegmentBytes := getenvInt64 e "PROVIDER_MAX_SEGMENT_BYTES" 67108864;
     RateLimitRPS := getenvInt e "PROVIDER_RATE_LIMIT_RPS" 20;
     RateLimitBurst := getenvInt e "PROVIDER_RATE_LIMIT_BURST" 40;
     EnableCORS := getenvBool e "PROVIDER_ENABLE_CORS" false;
     CORSAllowedOrigins := Getenv e "PROVIDER_CORS_ALLOWED_ORIGINS";
     CORSAllowCredentials := getenvBool e "PROVIDER_CORS_ALLOW_CREDENTIALS" false;
     EnforceNoSymlinks := getenvBool e "PROVIDER_ENFORCE_NO_SYMLINKS" true;
     TrustProxyAddresses := false;
     RescanIntervalSeconds := getenvInt e "PROVIDER_RESCAN_INTERVAL_SECONDS" 300;
     AnnounceSweepIntervalSeconds := getenvInt e "PROVIDER_ANNOUNCE_SWEEP_INTERVAL_SECONDS" 300;
     ReannounceThresholdSeconds := getenvInt e "PROVIDER_REANNOUNCE_THRESHOLD_SECONDS" 86400;
     BackoffBaseMillis := getenvInt e "PROVIDER_BACKOFF_BASE_MILLIS" 2000;
     BackoffMaxSeconds := getenvInt e "PROVIDER_BACKOFF_MAX_SECONDS" 600;
     RejectedRetrySeconds := getenvInt e "PROVIDER_REJECTED_RETRY_SECONDS" 86400;
     UnauthorizedRetrySeconds := getenvInt e "PROVIDER_UNAUTHORIZED_RETRY_SECONDS" 3600;
     AnnouncementExpiryGraceSeconds := getenvInt e "PROVIDER_ANNOUNCEMENT_EXPIRY_GRACE_SECONDS" 86400;
     StorageMode := ToLower (TrimSpace (getenv e "PROVIDER_STORAGE_MODE" StorageModeFilesystem));
     OriginBaseURL := TrimSpace (Getenv e "PROVIDER_ORIGIN_BASE_URL");
     OriginAuthMode := ToLower (TrimSpace (getenv e "PROVIDER_ORIGIN_AUTH_MODE" "none"));
     OriginHMACSecretPath := TrimSpace (Getenv e "PROVIDER_ORIGIN_HMAC_SECRET_PATH");
     OriginHMACKeyID := getenv e "PROVIDER_ORIGIN_HMAC_KEY_ID" "v1";
     OriginAuthIncludeQuery := getenvBool e "PROVIDER_ORIGIN_AUTH_INCLUDE_QUERY" true;
     ProxyMaxUpstreamConcurrency := getenvInt e "PROVIDER_PROXY_MAX_UPSTREAM_CONCURRENCY" 64;
     Transport := getenv e "PROVIDER_TRANSPORT" "https";
     AnnouncePriority := getenvInt e "PROVIDER_ANNOUNCE_PRIORITY" 10;
     AnnounceExpiresSeconds := getenvInt e "PROVIDER_ANNOUNCE_EXPIRES_SECONDS" 604800;
     CatalogTimeoutSeconds := getenvInt e "PROVIDER_CATALOG_TIMEOUT_SECONDS" 10;
     CatalogBaseURL := Getenv e "PROVIDER_CATALOG_BASE_URL";
     AnnounceInterval := Getenv e "PROVIDER_ANNOUNCE_INTERVAL";
     Region := Getenv e "PROVIDER_REGION";
     PrivateKeyPath := Getenv e "PROVIDER_PRIVATE_KEY_PATH";
     InternalEnableExplicit := internalEnableExplicit;
     InternalAllowedCIDRsExplicit := internalAllowedCIDRsExplicit |}.

(** ** Validation *)

(** One constructor per error the code builds. *)
Inductive config_err :=
| ErrStorageMode (mode : string)
| ErrMaxSegmentBytes | ErrRateLimitRPS | ErrRateLimitBurst | ErrShutdownTimeout
| ErrProxyConcurrency | ErrDataPathEmpty
| ErrMkdirData (msg : string) | ErrMkdirAssets (msg : string)
| ErrURLParse (field : string) | ErrURLNoHost (field : string) | ErrURLScheme (field : string)
| ErrPublicNotHTTPS | ErrOriginRequired (mode : string)
| ErrHMACPathRequired | ErrHMACRead (msg : string) | ErrHMACShort | ErrOriginAuthMode (mode : string)
| ErrPublicRequired | ErrCORSEmpty | ErrCORSWildcard
| ErrInternalCIDRsRequired | ErrInternalCIDRs | ErrTrustedCIDRs.

Definition splitCSV (csv : string) : list string :=
  filter (fun t => t <> "") (map TrimSpace (Split csv comma)).

(** What [Validate] asks of the operating system and of the parsers. *)
Record validate_env (N : Type) := ValidateEnv {
  mkdirAll : string -> result string unit;
  readFile : string -> result string string;
  url_parse : string -> option URL;
  parse_cidr : string -> option N;
}.
Global Arguments mkdirAll {N} _ _.
Global Arguments readFile {N} _ _.
Global Arguments url_parse {N} _ _.
Global Arguments parse_cidr {N} _ _.

Section Validate.
Context {N : Type} (ve : validate_env N).

Definition validateURL (raw field : string) : result config_err URL :=
  match url_parse ve (TrimSpace raw) with
  | None => Err (ErrURLParse field)
  | Some parsed =>
      if String.eqb (u_host parsed) "" then Err (ErrURLNoHost field)
      else
        let scheme := ToLower (u_scheme parsed) in
        if String.eqb scheme "http" || String.eqb scheme "https" then Ok parsed
        else Err (ErrURLScheme field)
  end.

(** [parseCIDRs]: the first entry that does not parse fails the whole list. *)
Definition parseCIDRs (csv : string) : option (list N) :=
  match splitCSV csv with
  | [] => None
  | entries => mapM (parse_cidr ve) entries
  end.

Definition lift_io {A} (f : string -> config_err) (r : result string A) : result config_err A :=
  match r with Ok a => Ok a | Err m => Err (f m) end.

Definition require {A} (o : option A) (e : config_err) : result config_err unit :=
  match o with Some _ => Ok tt | None => Err e end.

(** [bytes.TrimRight(secret, cutset)] with carriage return and line feed. *)
Definition trim_eol (s : string) : string :=
  TrimRightFunc (fun c => (byte_of c =? 13) || (byte_of c =? 10)) s.

Definition resolve_mode (m : string) : option string :=
  let mode := ToLower (TrimSpace m) in
  if String.eqb mode "" || String.eqb mode StorageModeFilesystem then Some StorageModeFilesystem
  else if String.eqb mode StorageModeProxy || String.eqb mode StorageModeHybrid then Some mode
  else None.

Definition validate_limits (c : Config) : result config_err unit :=
  guard_err (MaxSegmentBytes c <=? 0) ErrMaxSegmentBytes;;
  guard_err (RateLimitRPS c <=? 0) ErrRateLimitRPS;;
  guard_err (RateLimitBurst c <=? 0) ErrRateLimitBurst;;
  guard_err (ShutdownTimeoutSeconds c <=? 0) ErrShutdownTimeout;;
  guard_err (ProxyMaxUpstreamConcurrency c <=? 0) ErrProxyConcurrency.

Definition validate_paths (c : Config) : result config_err unit :=
  guard_err (String.eqb (TrimSpace (DataPath c)) "") ErrDataPathEmpty;;
  lift_io ErrMkdirData (mkdirAll ve (DataPath c));;
  lift_io ErrMkdirAssets (mkdirAll ve (Join [DataPath c; AssetsSubdir c])).

(** The public URL, if one is set. *)
Definition validate_public (c : Config) : result config_err (option URL) :=
  if String.eqb (TrimSpace (PublicBaseURL c)) "" then Ok None
  else
    u ← validateURL (PublicBaseURL c) "PROVIDER_PUBLIC_BASE_URL";
    guard_err (negb (EqualFold (u_scheme u) "https") && negb (AllowInsecurePublicURL c)) ErrPublicNotHTTPS;;
    Ok (Some u).

Definition validate_origin (c : Config) (mode : string) : result config_err unit :=
  if String.eqb mode StorageModeProxy || String.eqb mode StorageModeHybrid then
    guard_err (String.eqb (TrimSpace (OriginBaseURL c)) "") (ErrOriginRequired mode);;
    validateURL (OriginBaseURL c) "PROVIDER_ORIGIN_BASE_URL";; Ok tt
  else Ok tt.

Definition validate_auth (c : Config) : result config_err unit :=
  let mode := ToLower (TrimSpace (OriginAuthMode c)) in
  if String.eqb mode "" || String.eqb mode "none" then Ok tt
  else if String.eqb mode "hmac" then
    let secretPath := TrimSpace (OriginHMACSecretPath c) in
    guard_err (String.eqb secretPath "") ErrHMACPathRequired;;
    secret ← lift_io ErrHMACRead (readFile ve secretPath);
    guard_err (slen (trim_eol secret) <? 16)%nat ErrHMACShort
  else Err (ErrOriginAuthMode (OriginAuthMode c)).

Definition validate_catalog (c : Config) (publicURL : option URL) : result config_err unit :=
  if String.eqb (TrimSpace (CatalogBaseURL c)) "" then Ok tt
  else
    validateURL (CatalogBaseURL c) "PROVIDER_CATALOG_BASE_URL";;
    guard_err (match publicURL with None => true | Some _ => false end) ErrPublicRequired.

Definition validate_cors (c : Config) : result config_err unit :=
  if EnableCORS c then
    let allowed := splitCSV (CORSAllowedOrigins c) in
    guard_err (bool_decide (allowed = [])) ErrCORSEmpty;;
    guard_err (existsb (String.eqb "*") allowed) ErrCORSWildcard
  else Ok tt.

Definition validate_cidrs (c : Config) : result config_err unit :=
  (if InternalEnable c then
     guard_err (String.eqb (TrimSpace (InternalAllowedCIDRs c)) "") ErrInternalCIDRsRequired;;
     require (parseCIDRs (InternalAllowedCIDRs c)) ErrInternalCIDRs
   else Ok tt);;
  if String.eqb (TrimSpace (TrustedProxyCIDRs c)) "" then Ok tt
  else require (parseCIDRs (TrustedProxyCIDRs c)) ErrTrustedCIDRs.

Definition Validate (c : Config) : result config_err unit :=
  mode ← match resolve_mode (StorageMode c) with
         | Some m => Ok m
         | None => Err (ErrStorageMode (StorageMode c))
         end;
  validate_limits c;;
  validate_paths c;;
  publicURL ← validate_public c;
  validate_origin c mode;;
  validate_auth c;;
  validate_catalog c publicURL;;
  validate_cors c;;
  validate_cidrs c.

(** ** Lemmas *)

Lemma Validate_Ok c :
  Validate c = Ok tt ->
  exists mode publicURL,
    resolve_mode (StorageMode c) = Some mode /\
    validate_limits c = Ok tt /\ validate_paths c = Ok tt /\ validate_public c = Ok publicURL /\
    validate_origin c mode = Ok tt /\ validate_auth c = Ok tt /\ validate_catalog c publicURL = Ok tt /\
    validate_cors c = Ok tt /\ validate_cidrs c = Ok tt.
Proof.
  unfold Validate. intros Hv. inv_ok.
  repeat match goal with u : unit |- _ => destruct u end.
  destruct (resolve_mode _) as [m|]; inv_ok. eauto 12.
Qed.

Lemma validate_limits_Ok c :
  validate_limits c = Ok tt ->
  0 < MaxSegmentBytes c /\ 0 < RateLimitRPS c /\ 0 < RateLimitBurst c /\
  0 < ShutdownTimeoutSeconds c /\ 0 < ProxyMaxUpstreamConcurrency c.
Proof. unfold validate_limits. intros Hv. inv_ok. breflect. lia. Qed.

Lemma validateURL_Ok raw field u :
  validateURL raw field = Ok u ->
  url_parse ve (TrimSpace raw) = Some u /\ u_host u <> "" /\
  (ToLower (u_scheme u) = "http" \/ ToLower (u_scheme u) = "https").
Proof.
  unfold validateURL. destruct (url_parse _ _) as [p|]; [|done].
  destruct (String.eqb_spec (u_host p) ""); [done|].
  destruct (String.eqb_spec (ToLower (u_scheme p)) "http");
    [|destruct (String.eqb_spec (ToLower (u_scheme p)) "https")]; cbn; intros [= <-]; auto.
Qed.

Lemma parseCIDRs_nonempty csv l : parseCIDRs csv = Some l -> l <> [].
Proof.
  unfold parseCIDRs. destruct (splitCSV csv) as [|x xs]; [done|]. intros Hm Hl. subst.
  cbn in Hm. destruct (parse_cidr ve x); [|done]. cbn in Hm. by destruct (mapM _ xs).
Qed.

Lemma validate_cidrs_Ok c :
  validate_cidrs c = Ok tt -> InternalEnable c = true ->
  TrimSpace (InternalAllowedCIDRs c) <> "" /\
  exists nets, parseCIDRs (InternalAllowedCIDRs c) = Some nets /\ nets <> [].
Proof.
  unfold validate_cidrs. intros Hv Hi. rewrite Hi in Hv. inv_ok.
  split; [by apply String.eqb_neq|].
  destruct (parseCIDRs _) as [nets|] eqn:E; [|done]. exists nets. eauto using parseCIDRs_nonempty.
Qed.

Lemma validate_cors_Ok c :
  validate_cors c = Ok tt -> EnableCORS c = true ->
  splitCSV (CORSAllowedOrigins c) <> [] /\ "*" ∉ splitCSV (CORSAllowedOrigins c).
Proof.
  unfold validate_cors. intros Hv Hc. rewrite Hc in Hv. inv_ok. breflect. split; [done|].
  intros Hin%list_elem_of_In.
  assert (existsb (String.eqb "*") (splitCSV (CORSAllowedOrigins c)) = true) by (apply existsb_exists; eauto).
  congruence.
Qed.

Lemma elem_of_splitCSV csv o :
  o ∈ splitCSV csv <-> o <> "" /\ exists p, p ∈ Split csv comma /\ TrimSpace p = o.
Proof.
  unfold splitCSV. rewrite list_elem_of_filter, list_elem_of_fmap. naive_solver.
Qed.

(** ** Theorems *)

(** The internal endpoints are closed unless they were opened. If a configuration read
    from the environment enables them, either the environment is dev or test or
    [PROVIDER_INTERNAL_ENABLE] is set to a true value; and if it also passes validation, there
    is a non-empty list of CIDR blocks, all of which parse, which outside dev was written into
    [PROVIDER_INTERNAL_ALLOWED_CIDRS] by the operator. *)
Theorem internal_endpoints_closed e :
  InternalEnable (Load e) = true ->
  (load_env e = "dev" \/ load_env e = "test" \/
   exists v, e !! "PROVIDER_INTERNAL_ENABLE" = Some v /\ ParseBool v = Some true) /\
  (Validate (Load e) = Ok tt ->
   (exists nets, parseCIDRs (InternalAllowedCIDRs (Load e)) = Some nets /\ nets <> []) /\
   (load_env e <> "dev" ->
    exists v, e !! "PROVIDER_INTERNAL_ALLOWED_CIDRS" = Some v /\ TrimSpace v <> "" /\
              InternalAllowedCIDRs (Load e) = v)).
Proof.
  intros Hi. split.
  - revert Hi. unfold Load, getenvBoolWithExplicit, getenvBool, Getenv.
    destruct (getenvWithExplicit _ _). destruct (e !! "PROVIDER_INTERNAL_ENABLE") as [v|] eqn:Ev; cbn.
    + destruct (String.eqb_spec v ""); cbn;
        [intros [Hd|Hd]%orb_true_iff; apply String.eqb_eq in Hd; auto|].
      destruct (ParseBool v) as [[]|] eqn:Eb; cbn; [eauto 6|done|].
      intros [Hd|Hd]%orb_true_iff; apply String.eqb_eq in Hd; auto.
    + intros [Hd|Hd]%orb_true_iff; apply String.eqb_eq in Hd; auto.
  - intros Hv. destruct (Validate_Ok _ Hv) as (_ & _ & _ & _ & _ & _ & _ & _ & _ & _ & Hc).
    destruct (validate_cidrs_Ok _ Hc Hi) as [Hne Hnets]. split; [exact Hnets|]. intros Hdev.
    revert Hne. unfold Load. destruct (getenvBoolWithExplicit _ _ _).
    unfold getenvWithExplicit. apply String.eqb_neq in Hdev.
    destruct (e !! "PROVIDER_INTERNAL_ALLOWED_CIDRS") as [v|]; cbn; rewrite Hdev, ?andb_false_r; [|done].
    eauto.
Qed.
End Validate.
End Config.

(** ** Witnesses *)

Module ConfigDemo.
#[local] Instance demo_lower : UnicodeLower := fun s => s.
Definition demo_ve : validate_env string :=
  ValidateEnv _ (fun _ => Ok tt) (fun _ => Ok "0123456789abcdef") (fun s => Some (MkURL "https" s "")) Some.
Definition demo_e : environ :=
  {[ "PROVIDER_INTERNAL_ENABLE" := "1"; "PROVIDER_INTERNAL_ALLOWED_CIDRS" := "10.0.0.0/8, 192.168.1.0/24" ]}.

Lemma internal_endpoints_closed_witness :
  InternalEnable (Load demo_e) = true /\ Validate demo_ve (Load demo_e) = Ok tt /\
  exists v, demo_e !! "PROVIDER_INTERNAL_ALLOWED_CIDRS" = Some v /\ TrimSpace v <> "" /\
            InternalAllowedCIDRs (Load demo_e) = v.
Proof.
  assert (Hi : InternalEnable (Load demo_e) = true) by (vm_compute; reflexivity).
  assert (Hv : Validate demo_ve (Load demo_e) = Ok tt) by (vm_compute; reflexivity).
  split; [exact Hi|]. split; [exact Hv|].
  apply (proj2 (proj2 (internal_endpoints_closed demo_ve demo_e Hi) Hv)). vm_compute. discriminate.
Defined.
End ConfigDemo.
