(* ===== verification/Sha256.v ===== *)
(** * SHA-256, HMAC and hexadecimal

    The digests the provider computes ([crypto/sha256], [crypto/hmac], [encoding/hex]), as
    executable functions on byte strings with 32-bit words kept as [Z] modulo [2^32], checked
    against published test vectors. The theorems on hexadecimal say that encoding is
    injective, of twice the length, and over the alphabet [0-9a-f]. *)

From S2P Require Import Prelude GoStrings.
Open Scope Z_scope.

(** ** Words *)

Definition w32 (z : Z) : Z := z mod 2 ^ 32.
Definition add32 (a b : Z) : Z := w32 (a + b).
Definition rotr (n x : Z) : Z := Z.lor (Z.shiftr x n) (w32 (Z.shiftl x (32 - n))).
Definition not32 (x : Z) : Z := Z.lxor x (2 ^ 32 - 1).

Definition Ch (x y z : Z) : Z := Z.lxor (Z.land x y) (Z.land (not32 x) z).
Definition Maj (x y z : Z) : Z := Z.lxor (Z.lxor (Z.land x y) (Z.land x z)) (Z.land y z).
Definition bsig0 (x : Z) : Z := Z.lxor (Z.lxor (rotr 2 x) (rotr 13 x)) (rotr 22 x).
Definition bsig1 (x : Z) : Z := Z.lxor (Z.lxor (rotr 6 x) (rotr 11 x)) (rotr 25 x).
Definition ssig0 (x : Z) : Z := Z.lxor (Z.lxor (rotr 7 x) (rotr 18 x)) (Z.shiftr x 3).
Definition ssig1 (x : Z) : Z := Z.lxor (Z.lxor (rotr 17 x) (rotr 19 x)) (Z.shiftr x 10).

(** The constants of FIPS 180-4 come from the primes: the round constants are the first 32
    bits of the fractional parts of the cube roots of the first 64 primes, the initial state
    those of the square roots of the first 8. They are computed here from that description,
    once ([Eval vm_compute]), rather than listed. *)

Definition primes : list Z :=
  filter (λ p, forallb (λ d, negb (p mod d =? 0)) (seqZ 2 (p - 2)) = true) (seqZ 2 310).

(** The integer cube root, one bit at a time from bit [n - 1] down, starting from [r]. *)
Fixpoint cbrt_bits (n : nat) (r x : Z) : Z :=
  match n with
  | O => r
  | S n' => let r' := r + 2 ^ Z.of_nat n' in
            cbrt_bits n' (if r' * r' * r' <=? x then r' else r) x
  end.

Definition K256 : list Z :=
  Eval vm_compute in map (λ p, w32 (cbrt_bits 36 0 (p * 2 ^ 96))) primes.

Definition H256 : list Z :=
  Eval vm_compute in map (λ p, w32 (Z.sqrt (p * 2 ^ 64))) (take 8 primes).

(** [cbrt_bits] is the integer cube root: the largest [c] whose cube is at most [x]. *)
Lemma cbrt_bits_spec n r x :
  0 ≤ r → r * r * r ≤ x → x < (r + 2 ^ Z.of_nat n) * (r + 2 ^ Z.of_nat n) * (r + 2 ^ Z.of_nat n) →
  let c := cbrt_bits n r x in c * c * c ≤ x < (c + 1) * (c + 1) * (c + 1).
Proof.
  revert r. induction n as [|n IH]; intros r Hr Hlo Hhi; [done|].
  cbn [cbrt_bits]. apply IH.
  - case_match; lia.
  - case_match; [by apply Z.leb_le|done].
  - rewrite Nat2Z.inj_succ, Z.pow_succ_r in Hhi by lia. case_match.
    + replace (r + 2 ^ Z.of_nat n + 2 ^ Z.of_nat n) with (r + 2 * 2 ^ Z.of_nat n) by lia. done.
    + by apply Z.leb_gt.
Qed.

(** ** Blocks *)

Definition be_word (a b c d : Z) : Z := a * 2 ^ 24 + b * 2 ^ 16 + c * 2 ^ 8 + d.

Fixpoint words (bs : list Z) : list Z :=
  match bs with
  | a :: b :: c :: d :: bs' => be_word a b c d :: words bs'
  | _ => []
  end.

(** The message schedule, newest word first. *)
Fixpoint schedule (n : nat) (rev_w : list Z) : list Z :=
  match n with
  | O => rev_w
  | S n' =>
      let at_ k := nth k rev_w 0 in
      let w := add32 (add32 (ssig1 (at_ 1%nat)) (at_ 6%nat)) (add32 (ssig0 (at_ 14%nat)) (at_ 15%nat)) in
      schedule n' (w :: rev_w)
  end.

Definition round (st : list Z) (kw : Z * Z) : list Z :=
  match st with
  | [a; b; c; d; e; f; g; h] =>
      let t1 := add32 (add32 h (bsig1 e)) (add32 (Ch e f g) (add32 kw.1 kw.2)) in
      let t2 := add32 (bsig0 a) (Maj a b c) in
      [add32 t1 t2; a; b; c; add32 d t1; e; f; g]
  | _ => st
  end.

Definition compress (st : list Z) (block : list Z) : list Z :=
  let w := rev (schedule 48 (rev (words block))) in
  zip_with add32 st (foldl round st (zip K256 w)).

Fixpoint blocks (fuel : nat) (st bs : list Z) : list Z :=
  match fuel with
  | O => st
  | S fuel' => match bs with
               | [] => st
               | _ => blocks fuel' (compress st (take 64 bs)) (drop 64 bs)
               end
  end.

(** [n] big-endian bytes of [z]. *)
Fixpoint be_bytes (n : nat) (z : Z) : list Z :=
  match n with
  | O => []
  | S n' => be_bytes n' (z / 256) ++ [z mod 256]
  end.

Definition pad (bs : list Z) : list Z :=
  let zeros := Z.to_nat ((55 - Z.of_nat (length bs)) mod 64) in
  bs ++ [128] ++ replicate zeros 0 ++ be_bytes 8 (8 * Z.of_nat (length bs)).

Definition sha256 (bs : list Z) : list Z :=
  let p := pad bs in
  blocks (length p) H256 p ≫= be_bytes 4.

(** ** HMAC *)

Definition hmac_key (key : list Z) : list Z :=
  let k := if (64 <? length key)%nat then sha256 key else key in
  k ++ replicate (64 - length k) 0.

Definition hmac_sha256 (key msg : list Z) : list Z :=
  let k := hmac_key key in
  sha256 (map (Z.lxor 0x5c) k ++ sha256 (map (Z.lxor 0x36) k ++ msg)).

(** ** Bytes, strings and hexadecimal *)

Definition bytes_of (s : string) : list Z := map byte_of (String.list_ascii_of_string s).

Definition hex_digit (n : Z) : Ascii.ascii := char_of (if n <? 10 then 48 + n else 87 + n).

Fixpoint hexEncode (bs : list Z) : string :=
  match bs with
  | [] => ""
  | b :: bs' => String (hex_digit (b / 16)) (String (hex_digit (b mod 16)) (hexEncode bs'))
  end.

Example sha256_empty :
  hexEncode (sha256 []) = "e3b0c44298fc1c149afbf4c8996fb92427ae41e4649b934ca495991b7852b855".
Proof. vm_compute. reflexivity. Qed.
Example sha256_abc :
  hexEncode (sha256 (bytes_of "abc")) = "ba7816bf8f01cfea414140de5dae2223b00361a396177a9cb410ff61f20015ad".
Proof. vm_compute. reflexivity. Qed.
Example sha256_two_blocks :
  hexEncode (sha256 (bytes_of "abcdbcdecdefdefgefghfghighijhijkijkljklmklmnlmnomnopnopq")) =
  "248d6a61d20638b8e5c026930c3e6039a33ce45964ff2167f6ecedd419db06c1".
Proof. vm_compute. reflexivity. Qed.
Example hmac_jefe :
  hexEncode (hmac_sha256 (bytes_of "Jefe") (bytes_of "what do ya want for nothing?")) =
  "5bdcc146bf60754e6a042426089575c75a003f089d2739839dec58b964ec3843".
Proof. vm_compute. reflexivity. Qed.

(** ** Lemmas *)

Definition is_byte (b : Z) : Prop := 0 <= b < 256.
Definition is_hex (c : Ascii.ascii) : bool :=
  let b := byte_of c in ((48 <=? b) && (b <=? 57)) || ((97 <=? b) && (b <=? 102)).

Lemma bytes_of_app s t : bytes_of (s +:+ t) = bytes_of s ++ bytes_of t.
Proof. induction s; cbn; [done|]. f_equal. exact IHs. Qed.

Lemma bytes_of_inj s t : bytes_of s = bytes_of t -> s = t.
Proof.
  revert t; induction s as [|c s IH]; intros [|d t]; cbn; [done..|].
  intros [= E%byte_of_inj Et]. f_equal; auto.
Qed.

Lemma hex_digit_byte n : 0 <= n < 16 -> byte_of (hex_digit n) = if n <? 10 then 48 + n else 87 + n.
Proof. intros Hn. unfold hex_digit. apply byte_of_char_of. case_match; breflect; lia. Qed.

Lemma hex_digit_inj n m : 0 <= n < 16 -> 0 <= m < 16 -> hex_digit n = hex_digit m -> n = m.
Proof.
  intros Hn Hm E%(f_equal byte_of). rewrite !hex_digit_byte in E by done.
  destruct (Z.ltb_spec n 10), (Z.ltb_spec m 10); lia.
Qed.

Lemma nibbles b : is_byte b -> 0 <= b / 16 < 16 /\ 0 <= b mod 16 < 16 /\ b = 16 * (b / 16) + b mod 16.
Proof.
  unfold is_byte. intros. pose proof (Z.div_mod b 16). pose proof (Z.mod_pos_bound b 16).
  split; [|lia]. split; [apply Z.div_pos; lia|apply Z.div_lt_upper_bound; lia].
Qed.

Lemma slen_hexEncode bs : slen (hexEncode bs) = (2 * length bs)%nat.
Proof. induction bs; cbn; lia. Qed.

Lemma hexEncode_hex bs : Forall is_byte bs -> sall is_hex (hexEncode bs) = true.
Proof.
  induction 1 as [|b bs Hb _ IH]; cbn; [done|]. rewrite IH. destruct (nibbles b Hb) as (H1 & H2 & _).
  unfold is_hex. rewrite !hex_digit_byte by done.
  assert (Hd : forall n, 0 <= n < 16 ->
    (((48 <=? (if n <? 10 then 48 + n else 87 + n)) && ((if n <? 10 then 48 + n else 87 + n) <=? 57)) ||
     ((97 <=? (if n <? 10 then 48 + n else 87 + n)) && ((if n <? 10 then 48 + n else 87 + n) <=? 102))) = true).
  { intros n Hn. destruct (Z.ltb_spec n 10); rewrite orb_true_iff, !andb_true_iff, !Z.leb_le; lia. }
  by rewrite !Hd.
Qed.

Lemma hexEncode_inj a b : Forall is_byte a -> Forall is_byte b -> hexEncode a = hexEncode b -> a = b.
Proof.
  intros Ha; revert b; induction Ha as [|x a Hx _ IH]; intros b Hb; destruct Hb as [|y b Hy Hb]; cbn; [done..|].
  intros [= E1 E2 E3]. destruct (nibbles x Hx) as (? & ? & ?), (nibbles y Hy) as (? & ? & ?).
  apply hex_digit_inj in E1; [|done..]. apply hex_digit_inj in E2; [|done..].
  f_equal; [lia|by apply IH].
Qed.

(** ** The shape of a digest *)

Lemma round_length st kw : length (round st kw) = length st.
Proof. unfold round. by repeat case_match. Qed.

Lemma blocks_length fuel st bs : length (blocks fuel st bs) = length st.
Proof.
  revert st bs. induction fuel as [|n IH]; intros st bs; [done|]. cbn. destruct bs; [done|].
  rewrite IH. unfold compress. rewrite length_zip_with.
  assert (forall l, length (foldl round st l) = length st) as ->; [|lia].
  intros l. generalize st. induction l as [|kw l IHl]; intros st'; [done|]. cbn. by rewrite IHl, round_length.
Qed.

Lemma be_bytes_spec n z : length (be_bytes n z) = n /\ Forall is_byte (be_bytes n z).
Proof.
  revert z. induction n as [|n IH]; intros z; [done|]. cbn. destruct (IH (z / 256)) as [Hl HF].
  rewrite length_app, Hl. split; [cbn; lia|]. apply Forall_app. split; [done|]. constructor; [|done].
  unfold is_byte. apply Z.mod_pos_bound. lia.
Qed.

Lemma sha256_bytes bs : length (sha256 bs) = 32%nat /\ Forall is_byte (sha256 bs).
Proof.
  unfold sha256. pose proof (blocks_length (length (pad bs)) H256 (pad bs)) as Hl.
  set (ws := blocks _ _ _) in *. assert (length ws = 8%nat) as Hw by (rewrite Hl; reflexivity).
  clearbody ws. clear Hl. split.
  - assert (forall l, length (l ≫= be_bytes 4) = (4 * length l)%nat) as ->; [|lia].
    induction l as [|w l IH]; [done|].
    change ((w :: l) ≫= be_bytes 4) with (be_bytes 4 w ++ (l ≫= be_bytes 4)).
    rewrite length_app, IH, (proj1 (be_bytes_spec 4 w)). cbn [length]. lia.
  - clear Hw. induction ws as [|w ws IH]; [done|].
    change ((w :: ws) ≫= be_bytes 4) with (be_bytes 4 w ++ (ws ≫= be_bytes 4)).
    apply Forall_app. split; [apply be_bytes_spec|done].
Qed.
