(* ===== verification/GoJson.v ===== *)
(** * Go's [encoding/json], as the provider uses it

    The escaping of strings, [MarshalIndent] of a struct of strings, and the decoder: its grammar with
    the limit on nesting, the unquoting of strings with surrogate pairs and repair of invalid UTF-8,
    and the assignment of object members to struct fields. *)

From S2P Require Import Prelude GoStrings GoHttp GoTime Sha256.

Open Scope Z_scope.

(** ** UTF-8 *)

Definition between (lo hi : Z) (c : Ascii.ascii) : bool := (lo <=? byte_of c) && (byte_of c <=? hi).

(** The length of the UTF-8 sequence a string starts with, 0 if there is none ([utf8.DecodeRune] then
    consumes one byte as U+FFFD). *)
Definition utf8_size (s : string) : nat :=
  match s with
  | EmptyString => 0%nat
  | String c s1 =>
      let b := byte_of c in
      if b <? 128 then 1%nat
      else if between 194 223 c then
        match s1 with String d _ => if between 128 191 d then 2%nat else 0%nat | _ => 0%nat end
      else if between 224 239 c then
        match s1 with
        | String d (String e _) =>
            if between (if b =? 224 then 160 else 128) (if b =? 237 then 159 else 191) d &&
               between 128 191 e then 3%nat else 0%nat
        | _ => 0%nat
        end
      else if between 240 244 c then
        match s1 with
        | String d (String e (String f _)) =>
            if between (if b =? 240 then 144 else 128) (if b =? 244 then 143 else 191) d &&
               between 128 191 e && between 128 191 f then 4%nat else 0%nat
        | _ => 0%nat
        end
      else 0%nat
  end.

Definition chars (l : list Z) : string := String.string_of_list_ascii (char_of <$> l).

(** U+FFFD. *)
Definition RuneError : string := chars [239; 191; 189].

(** [utf8.EncodeRune] of a code point that is not a surrogate. *)
Definition EncodeRune (r : Z) : string :=
  if r <? 0x80 then chars [r]
  else if r <? 0x800 then chars [192 + r / 64; 128 + r mod 64]
  else if r <? 0x10000 then chars [224 + r / 4096; 128 + r / 64 mod 64; 128 + r mod 64]
  else chars [240 + r / 262144; 128 + r / 4096 mod 64; 128 + r / 64 mod 64; 128 + r mod 64].

(** ** Encoding *)

Definition backslash : Ascii.ascii := char_of 92.

(** One byte below 128, with HTML escaping on, as it is by default. *)
Definition escape_char (c : Ascii.ascii) : string :=
  let b := byte_of c in
  if (b =? 34) || (b =? 92) then String backslash (String c "")
  else if b =? 8 then String backslash "b"
  else if b =? 12 then String backslash "f"
  else if b =? 10 then String backslash "n"
  else if b =? 13 then String backslash "r"
  else if b =? 9 then String backslash "t"
  else if (b <? 32) || (b =? 38) || (b =? 60) || (b =? 62)
  then String backslash ("u00" +:+ String (hex_digit (b / 16)) (String (hex_digit (b mod 16)) ""))
  else String c "".

Definition line_separator (c d e : Ascii.ascii) : bool :=
  (byte_of c =? 226) && (byte_of d =? 128) && ((byte_of e =? 168) || (byte_of e =? 169)).

Fixpoint json_escape (s : string) : string :=
  match s with
  | EmptyString => ""
  | String c s1 =>
      if byte_of c <? 128 then escape_char c +:+ json_escape s1
      else match utf8_size s, s1 with
           | 2%nat, String d s2 => String c (String d (json_escape s2))
           | 3%nat, String d (String e s3) =>
               (if line_separator c d e
                then String backslash ("u202" +:+ String (hex_digit (byte_of e mod 16)) "")
                else String c (String d (String e ""))) +:+ json_escape s3
           | 4%nat, String d (String e (String f s4)) => String c (String d (String e (String f (json_escape s4))))
           | _, _ => String backslash "ufffd" +:+ json_escape s1
           end
  end.

Definition marshal_string (s : string) : string := quote +:+ json_escape s +:+ quote.

(** [json.MarshalIndent(v, "", "  ")] of a struct whose fields are strings. *)
Definition indent_field (f : string * string) : string :=
  "  " +:+ quote +:+ f.1 +:+ quote +:+ ": " +:+ marshal_string f.2.

Fixpoint indent_fields (fs : list (string * string)) : string :=
  match fs with
  | [] => ""
  | [f] => indent_field f
  | f :: fs' => indent_field f +:+ "," +:+ newline +:+ indent_fields fs'
  end.

Definition MarshalIndent (fs : list (string * string)) : string :=
  match fs with
  | [] => "{}"
  | _ => "{" +:+ newline +:+ indent_fields fs +:+ newline +:+ "}"
  end.

Inductive scalar_value := SString (s : string) | SBool (b : bool) | SInt (z : Z).

(** [json.NewEncoder(w).Encode] of a struct with scalar fields, the omitted ones left out. *)
Definition marshal_scalar (v : scalar_value) : string :=
  match v with
  | SString s => marshal_string s
  | SBool b => if b then "true" else "false"
  | SInt z => Itoa z
  end.

Definition compact_field (f : string * scalar_value) : string :=
  quote +:+ f.1 +:+ quote +:+ ":" +:+ marshal_scalar f.2.

Fixpoint compact_fields (fs : list (string * scalar_value)) : string :=
  match fs with
  | [] => ""
  | [f] => compact_field f
  | f :: fs' => compact_field f +:+ "," +:+ compact_fields fs'
  end.

Definition Encode (fs : list (string * scalar_value)) : string := "{" +:+ compact_fields fs +:+ "}" +:+ newline.

(** ** Decoding strings *)

Inductive item := IByte (c : Ascii.ascii) | IChar (c : Ascii.ascii) | IUnit (u : Z).

Definition hex_value (c : Ascii.ascii) : option Z :=
  let b := byte_of c in
  if between 48 57 c then Some (b - 48)
  else if between 97 102 c then Some (b - 87)
  else if between 65 70 c then Some (b - 55)
  else None.

Definition hex4 (a b c d : Ascii.ascii) : option Z :=
  w ← hex_value a; x ← hex_value b; y ← hex_value c; z ← hex_value d;
  Some (((w * 16 + x) * 16 + y) * 16 + z).

Definition unescape_char (c : Ascii.ascii) : option Ascii.ascii :=
  let b := byte_of c in
  if (b =? 34) || (b =? 92) || (b =? 47) then Some c
  else if b =? 98 then Some (char_of 8)
  else if b =? 102 then Some (char_of 12)
  else if b =? 110 then Some (char_of 10)
  else if b =? 114 then Some (char_of 13)
  else if b =? 116 then Some (char_of 9)
  else None.

Definition push {A B} (x : A) (r : option (list A * B)) : option (list A * B) :=
  '(l, rest) ← r; Some (x :: l, rest).

(** The items of a string literal after its opening quote, and what follows the closing one. *)
Fixpoint lex_string (s : string) : option (list item * string) :=
  match s with
  | EmptyString => None
  | String c s1 =>
      if byte_of c =? 34 then Some ([], s1)
      else if byte_of c <? 32 then None
      else if byte_of c =? 92 then
        match s1 with
        | EmptyString => None
        | String e s2 =>
            if Ascii.eqb e "u" then
              match s2 with
              | String h1 (String h2 (String h3 (String h4 s3))) =>
                  u ← hex4 h1 h2 h3 h4; push (IUnit u) (lex_string s3)
              | _ => None
              end
            else x ← unescape_char e; push (IChar x) (lex_string s2)
        end
      else push (IByte c) (lex_string s1)
  end.

(** The unescaped bytes ahead; an json_escape starts with a backslash, which continues no sequence. *)
Fixpoint raw_bytes (l : list item) : string :=
  match l with
  | IByte c :: l' => String c (raw_bytes l')
  | _ => ""
  end.

Definition surrogate (u : Z) : bool := (0xd800 <=? u) && (u <? 0xe000).
Definition high_surrogate (u : Z) : bool := (0xd800 <=? u) && (u <? 0xdc00).
Definition low_surrogate (u : Z) : bool := (0xdc00 <=? u) && (u <? 0xe000).

Fixpoint assemble (l : list item) : string :=
  match l with
  | [] => ""
  | IChar c :: l1 => String c (assemble l1)
  | IUnit u :: l1 =>
      if negb (surrogate u) then EncodeRune u +:+ assemble l1
      else match l1 with
           | IUnit v :: l2 =>
               if high_surrogate u && low_surrogate v
               then EncodeRune (0x10000 + (u - 0xd800) * 1024 + (v - 0xdc00)) +:+ assemble l2
               else RuneError +:+ assemble l1
           | _ => RuneError +:+ assemble l1
           end
  | IByte c :: l1 =>
      match utf8_size (raw_bytes l), l1 with
      | 1%nat, _ => String c (assemble l1)
      | 2%nat, IByte d :: l2 => String c (String d (assemble l2))
      | 3%nat, IByte d :: IByte e :: l3 => String c (String d (String e (assemble l3)))
      | 4%nat, IByte d :: IByte e :: IByte f :: l4 => String c (String d (String e (String f (assemble l4))))
      | _, _ => RuneError +:+ assemble l1
      end
  end.

(** ** Decoding values *)

Inductive jvalue :=
| JNull
| JBool (b : bool)
| JNum (text : string)
| JStr (s : string)
| JArr (l : list jvalue)
| JObj (l : list (string * jvalue)).

Definition json_space (c : Ascii.ascii) : bool :=
  let b := byte_of c in (b =? 32) || (b =? 9) || (b =? 10) || (b =? 13).

Fixpoint skip_space (s : string) : string :=
  match s with
  | EmptyString => ""
  | String c s' => if json_space c then skip_space s' else s
  end.

(** At least one digit. *)
Definition digits1 (s : string) : option (string * string) :=
  let '(d, r) := span_digits s in if String.eqb d "" then None else Some (d, r).

Definition parse_int (s : string) : option (string * string) :=
  match s with
  | String c s1 => if Ascii.eqb c "0" then Some ("0", s1) else digits1 s
  | EmptyString => None
  end.

Definition parse_frac (s : string) : option (string * string) :=
  match s with
  | String c s1 => if Ascii.eqb c "." then '(d, r) ← digits1 s1; Some (String c d, r) else Some ("", s)
  | EmptyString => Some ("", s)
  end.

Definition sign_of (s : string) : string * string :=
  match s with
  | String c s1 => if Ascii.eqb c "+" || Ascii.eqb c "-" then (String c "", s1) else ("", s)
  | EmptyString => ("", s)
  end.

Definition parse_exp (s : string) : option (string * string) :=
  match s with
  | String c s1 =>
      if Ascii.eqb c "e" || Ascii.eqb c "E"
      then let '(sg, s2) := sign_of s1 in '(d, r) ← digits1 s2; Some (String c sg +:+ d, r)
      else Some ("", s)
  | EmptyString => Some ("", s)
  end.

Definition parse_number (s : string) : option (string * string) :=
  let '(sg, s0) := match s with
                   | String c s1 => if Ascii.eqb c "-" then ("-", s1) else ("", s)
                   | EmptyString => ("", s)
                   end in
  '(i, s1) ← parse_int s0;
  '(f, s2) ← parse_frac s1;
  '(e, s3) ← parse_exp s2;
  Some (sg +:+ i +:+ f +:+ e, s3).

Definition parse_literal (w : string) (v : jvalue) (s : string) : option (jvalue * string) :=
  if HasPrefix s w then Some (v, sdrop (slen w) s) else None.

Definition maxNestingDepth : Z := 10000.

(** [n] is fuel; [depth] the number of containers that may still be opened. *)
Fixpoint parse_value (n : nat) (depth : Z) (s : string) : option (jvalue * string) :=
  match n with
  | O => None
  | S n' =>
      match skip_space s with
      | EmptyString => None
      | String c s1 =>
          if Ascii.eqb c "{" then
            if depth <=? 0 then None
            else match skip_space s1 with
                 | String c' s2 =>
                     if Ascii.eqb c' "}" then Some (JObj [], s2)
                     else '(ms, r) ← parse_members n' (depth - 1) (String c' s2); Some (JObj ms, r)
                 | EmptyString => None
                 end
          else if Ascii.eqb c "[" then
            if depth <=? 0 then None
            else match skip_space s1 with
                 | String c' s2 =>
                     if Ascii.eqb c' "]" then Some (JArr [], s2)
                     else '(vs, r) ← parse_elements n' (depth - 1) (String c' s2); Some (JArr vs, r)
                 | EmptyString => None
                 end
          else if byte_of c =? 34 then '(l, r) ← lex_string s1; Some (JStr (assemble l), r)
          else if Ascii.eqb c "t" then parse_literal "true" (JBool true) (String c s1)
          else if Ascii.eqb c "f" then parse_literal "false" (JBool false) (String c s1)
          else if Ascii.eqb c "n" then parse_literal "null" JNull (String c s1)
          else '(t, r) ← parse_number (String c s1); Some (JNum t, r)
      end
  end
with parse_members (n : nat) (depth : Z) (s : string) : option (list (string * jvalue) * string) :=
  match n with
  | O => None
  | S n' =>
      match skip_space s with
      | EmptyString => None
      | String c s1 =>
          if negb (byte_of c =? 34) then None
          else
            '(k, r) ← lex_string s1;
            match skip_space r with
            | EmptyString => None
            | String c1 r1 =>
                if negb (Ascii.eqb c1 ":") then None
                else
                  '(v, r2) ← parse_value n' depth r1;
                  match skip_space r2 with
                  | EmptyString => None
                  | String c3 r3 =>
                      if Ascii.eqb c3 "}" then Some ([(assemble k, v)], r3)
                      else if Ascii.eqb c3 "," then push (assemble k, v) (parse_members n' depth r3)
                      else None
                  end
            end
      end
  end
with parse_elements (n : nat) (depth : Z) (s : string) : option (list jvalue * string) :=
  match n with
  | O => None
  | S n' =>
      '(v, r) ← parse_value n' depth s;
      match skip_space r with
      | EmptyString => None
      | String c1 r1 =>
          if Ascii.eqb c1 "]" then Some ([v], r1)
          else if Ascii.eqb c1 "," then push v (parse_elements n' depth r1)
          else None
      end
  end.

Definition parse_fuel (s : string) : nat := (2 * slen s + 2)%nat.

(** What one [Decoder.Decode] reads: the first value of the input, and the input behind it. *)
Definition parse_json (s : string) : option (jvalue * string) := parse_value (parse_fuel s) maxNestingDepth s.

(** [json.Unmarshal] accepts nothing but space behind the value. *)
Definition Unmarshal (s : string) : option jvalue :=
  '(v, r) ← parse_json s; if String.eqb (skip_space r) "" then Some v else None.

(** ** Objects into structs

    A member goes to the field of its exact name, else to the first field whose name is equal under
    case folding; among the fields here no two are. *)

Definition field_of (names : list string) (k : string) : option string :=
  match list_find (fun n => n = k) names with
  | Some (_, n) => Some n
  | None => snd <$> list_find (fun n => EqualFold k n = true) names
  end.

(** A JSON value into a [string] or [bool] field: null changes nothing; [None] is a type error. *)
Definition into_string (v : jvalue) (old : string) : option string :=
  match v with
  | JStr s => Some s
  | JNull => Some old
  | _ => None
  end.

Definition into_bool (v : jvalue) (old : bool) : option bool :=
  match v with
  | JBool b => Some b
  | JNull => Some old
  | _ => None
  end.

(** ** Lemmas on the encoder and decoder of strings *)

Lemma lex_escape_char c : byte_of c < 128 ->
  exists it, (forall rest, lex_string (escape_char c +:+ rest) = push it (lex_string rest)) /\
             (forall l, assemble (it :: l) = String c (assemble l)).
Proof.
  intros H. assert (forall r, (if byte_of c <? 128 then True else r) : Prop) as Hc.
  { intros r. by rewrite (proj2 (Z.ltb_lt _ _) H). }
  clear H. specialize (Hc False). destruct c as [[] [] [] [] [] [] [] []]; (destruct Hc + clear Hc);
    (eexists; split; [intros rest; reflexivity|intros l; reflexivity]).
Qed.

Lemma lex_escape s r : is_ascii s = true ->
  exists l, lex_string (json_escape s +:+ quote +:+ r) = Some (l, r) /\ assemble l = s.
Proof.
  induction s as [|c s IH]; [by exists []|]. unfold is_ascii. cbn [sall]. intros [Hc Hs]%andb_true_iff.
  destruct (IH Hs) as (l & Hl & Ha). cbn [json_escape]. rewrite Hc. apply Z.ltb_lt in Hc.
  destruct (lex_escape_char c Hc) as (it & Hlex & Has).
  exists (it :: l). by rewrite sapp_assoc, Hlex, Hl, Has, Ha.
Qed.

(** Bytes that are written as they are. *)
Definition plain_byte (c : Ascii.ascii) : bool :=
  (32 <=? byte_of c) && (byte_of c <? 128) &&
  negb (existsb (fun b => byte_of c =? b) [34; 38; 60; 62; 92]).

Lemma escape_plain s : sall plain_byte s = true -> json_escape s = s /\ is_ascii s = true.
Proof.
  induction s as [|c s IH]; [done|]. cbn [sall]. intros [Hc Hs]%andb_true_iff.
  destruct (IH Hs) as [IH1 IH2]. unfold is_ascii in *. cbn [sall json_escape]. rewrite IH1, IH2.
  unfold plain_byte in Hc. apply andb_true_iff in Hc as [[Hlo Hhi]%andb_true_iff Hb]. breflect.
  rewrite (proj2 (Z.ltb_lt _ _) Hhi). split; [|done]. cbn in Hb. breflect.
  unfold escape_char. by rewrite !(proj2 (Z.eqb_neq _ _)), (proj2 (Z.ltb_ge _ _)) by lia.
Qed.

(** ** [MarshalIndent] read back *)

Definition string_field (f : string * string) : string * jvalue := (f.1, JStr f.2).

Lemma parse_value_quote n d s :
  parse_value (S n) d (" " +:+ quote +:+ s) = '(l, r) ← lex_string s; Some (JStr (assemble l), r).
Proof. done. Qed.

Lemma parse_members_quote n d s :
  parse_members (S n) d ("  " +:+ quote +:+ s) =
  '(k, r) ← lex_string s;
  match skip_space r with
  | EmptyString => None
  | String c1 r1 =>
      if negb (Ascii.eqb c1 ":") then None
      else '(v, r2) ← parse_value n d r1;
           match skip_space r2 with
           | EmptyString => None
           | String c3 r3 =>
               if Ascii.eqb c3 "}" then Some ([(assemble k, v)], r3)
               else if Ascii.eqb c3 "," then push (assemble k, v) (parse_members n d r3)
               else None
           end
  end.
Proof. done. Qed.

Lemma parse_string_value n d s r : is_ascii s = true ->
  parse_value (S n) d (" " +:+ marshal_string s +:+ r) = Some (JStr s, r).
Proof.
  intros Hs. destruct (lex_escape s r Hs) as (l & Hl & Ha). unfold marshal_string.
  rewrite !sapp_assoc, parse_value_quote, Hl. cbn. by rewrite Ha.
Qed.

Definition plain_field (f : string * string) : Prop := sall plain_byte f.1 = true /\ is_ascii f.2 = true.

Lemma parse_indent_field n d f t c r :
  plain_field f -> skip_space t = String c r -> (c = "}" \/ c = ",")%char ->
  parse_members (S (S n)) d (indent_field f +:+ t) =
  if Ascii.eqb c "}" then Some ([string_field f], r)
  else push (string_field f) (parse_members (S n) d r).
Proof.
  destruct f as [k v]. intros [[Hk Hka]%escape_plain Hv] Ht Hc. cbn [fst snd] in *. unfold indent_field. cbn [fst snd].
  destruct (lex_escape k (": " +:+ marshal_string v +:+ t) Hka) as (l & Hl & Ha).
  rewrite Hk in Hl. rewrite !sapp_assoc. pose proof (parse_string_value n d v t Hv) as Hp.
  rewrite parse_members_quote, Hl. cbn [mbind option_bind]. rewrite Ha.
  change (skip_space (": " +:+ marshal_string v +:+ t)) with (String ":" (" " +:+ marshal_string v +:+ t)).
  change (negb (Ascii.eqb ":" ":")) with false. cbn iota. rewrite Hp. cbn [mbind option_bind].
  rewrite Ht. by destruct Hc as [-> | ->].
Qed.

Lemma skip_newline n d s : parse_members n d (newline +:+ s) = parse_members n d s.
Proof. by destruct n. Qed.

Lemma parse_indent_fields fs n d r : fs <> [] -> Forall plain_field fs -> (S (length fs) <= n)%nat ->
  parse_members n d (indent_fields fs +:+ newline +:+ "}" +:+ r) = Some (string_field <$> fs, r).
Proof.
  intros Hne HF. revert n. induction HF as [|f fs Hf HF IH]; [done|]. intros n Hn.
  destruct n as [|[|n]]; cbn in Hn; [lia..|]. destruct fs as [|f' fs].
  - cbn [indent_fields]. rewrite (parse_indent_field n d f _ "}" r); auto.
  - change (indent_fields (f :: f' :: fs)) with (indent_field f +:+ "," +:+ newline +:+ indent_fields (f' :: fs)).
    rewrite !sapp_assoc. erewrite parse_indent_field by (auto; reflexivity).
    change (Ascii.eqb "," "}") with false. cbn [String.append].
    rewrite skip_newline, IH; [done|done|cbn in *; lia].
Qed.

Lemma length_indent_fields fs : (length fs <= slen (indent_fields fs))%nat.
Proof.
  induction fs as [|f fs IH]; [done|]. destruct fs as [|f' fs]; [cbn; lia|].
  change (indent_fields (f :: f' :: fs)) with (indent_field f +:+ "," +:+ newline +:+ indent_fields (f' :: fs)).
  rewrite !slen_app. cbn [length] in *. cbn [slen]. lia.
Qed.

Lemma parse_value_brace n s :
  parse_value (S n) maxNestingDepth ("{" +:+ newline +:+ s) =
  match skip_space s with
  | String c' s2 =>
      if Ascii.eqb c' "}" then Some (JObj [], s2)
      else '(ms, r) ← parse_members n (maxNestingDepth - 1) (String c' s2); Some (JObj ms, r)
  | EmptyString => None
  end.
Proof. done. Qed.

(** Decoding what [MarshalIndent] wrote gives the fields, and leaves what follows. *)
Lemma parse_MarshalIndent fs r : fs <> [] -> Forall plain_field fs ->
  parse_json (MarshalIndent fs +:+ r) = Some (JObj (string_field <$> fs), r).
Proof.
  intros Hne HF. unfold parse_json, parse_fuel. pose proof (length_indent_fields fs) as HL.
  destruct fs as [|f fs]; [done|]. unfold MarshalIndent. remember (f :: fs) as l eqn:El.
  rewrite !sapp_assoc, !slen_app. set (n := (2 * _ + 2)%nat).
  assert (Hn : (S (S (length l)) <= n)%nat) by (subst n; cbn; lia). clearbody n.
  destruct n as [|n]; [lia|]. rewrite parse_value_brace.
  assert (exists c s, skip_space (indent_fields l +:+ newline +:+ "}" +:+ r) = String c s /\
    (byte_of c = 34) /\
    (parse_members n (maxNestingDepth - 1) (String c s) =
     parse_members n (maxNestingDepth - 1) (indent_fields l +:+ newline +:+ "}" +:+ r))) as (c & s & Hs & Hc & Hp).
  { subst l. exists (char_of 34). destruct n; [lia|].
    destruct fs; cbn [indent_fields]; unfold indent_field; rewrite !sapp_assoc; eexists; (split; [reflexivity|]); by split. }
  rewrite (parse_indent_fields l n _ r) in Hp by (auto; lia). rewrite Hs.
  replace (Ascii.eqb c "}") with false by (destruct (Ascii.eqb_spec c "}") as [->|]; [discriminate Hc|done]).
  by rewrite Hp.
Qed.

(** ** [Encode] read back *)

Definition scalar_json (v : scalar_value) : jvalue :=
  match v with SString s => JStr s | SBool b => JBool b | SInt z => JNum (Itoa z) end.

Definition scalar_ok (v : scalar_value) : Prop :=
  match v with SString s => is_ascii s = true | _ => True end.

(** What may follow a value inside an object. *)
Definition ends_value (c : Ascii.ascii) : Prop := c = ","%char \/ c = "}"%char.

Lemma span_digits_stop d c r : sall is_digit d = true -> is_digit c = false ->
  span_digits (d +:+ String c r) = (d, String c r).
Proof.
  intros Hd Hc. induction d as [|e d IH]; cbn in *; [by rewrite Hc|]. apply andb_true_iff in Hd as [-> Hd].
  by rewrite IH.
Qed.

Lemma parse_int_dig n c r : 0 <= n -> is_digit c = false ->
  parse_int (dig (width n) n +:+ String c r) = Some (dig (width n) n, String c r).
Proof.
  intros Hn Hc. destruct (Z.eq_dec n 0) as [->|Hne]; [done|].
  destruct (dig_width_head n ltac:(lia)) as (e & s & Hd & He & Hdig). pose proof (dig_digits (width n) n) as Hall.
  rewrite Hd in *. cbn [String.append parse_int]. rewrite He. unfold digits1.
  change (String e (s +:+ String c r)) with (String e s +:+ String c r).
  by rewrite span_digits_stop.
Qed.

Lemma parse_number_Itoa x c r : ends_value c ->
  parse_number (Itoa x +:+ String c r) = Some (Itoa x, String c r).
Proof.
  intros Hc. rewrite Itoa_abs. assert (Hd : is_digit c = false) by (by destruct Hc as [-> | ->]).
  pose proof (parse_int_dig (Z.abs x) c r ltac:(lia) Hd) as Hi.
  assert (Hrest : parse_frac (String c r) = Some ("", String c r) /\ parse_exp (String c r) = Some ("", String c r))
    by (by destruct Hc as [-> | ->]). destruct Hrest as [Hf He]. unfold parse_number.
  destruct (Z.ltb_spec x 0).
  - cbn [String.append]. change (Ascii.eqb "-" "-") with true. cbn iota. rewrite Hi. cbn [mbind option_bind].
    rewrite Hf. cbn [mbind option_bind]. rewrite He. cbn. by rewrite sapp_nil_r.
  - cbn [String.append].
    assert (exists e s, dig (width (Z.abs x)) (Z.abs x) +:+ String c r = String e s /\ Ascii.eqb e "-" = false) as (e & s & Hs & Hne).
    { destruct (Z.eq_dec x 0) as [->|]; [by eexists _, _|].
      destruct (dig_width_head (Z.abs x) ltac:(lia)) as (e & s & Hd' & _ & Hdig). rewrite Hd'. eexists e, _. split; [done|].
      destruct (Ascii.eqb_spec e "-") as [->|]; [discriminate Hdig|done]. }
    rewrite Hs in *. rewrite Hne. rewrite Hi. cbn [mbind option_bind]. rewrite Hf. cbn [mbind option_bind].
    rewrite He. cbn. by rewrite sapp_nil_r.
Qed.

Lemma parse_scalar n d v c r : scalar_ok v -> ends_value c ->
  parse_value (S n) d (marshal_scalar v +:+ String c r) = Some (scalar_json v, String c r).
Proof.
  intros Hv Hc. destruct v as [s|b|z].
  - exact (parse_string_value n d s (String c r) Hv).
  - by destruct b.
  - pose proof (parse_number_Itoa z c r Hc) as Hp. cbn [marshal_scalar scalar_json].
    assert (exists e s, Itoa z +:+ String c r = String e s /\ (e = "-"%char \/ is_digit e = true)) as (e & s & Hs & He).
    { rewrite Itoa_abs. destruct (Z.ltb_spec z 0); [eexists _, _; split; [reflexivity|by left]|].
      destruct (Z.eq_dec z 0) as [->|]; [eexists _, _; split; [reflexivity|by right]|].
      destruct (dig_width_head (Z.abs z) ltac:(lia)) as (e & s & -> & _ & Hdig). eexists _, _. split; [reflexivity|by right]. }
    rewrite Hs in *. assert (Hsk : skip_space (String e s) = String e s).
    { cbn. destruct He as [->|He]; [done|]. unfold is_digit in He. breflect. unfold json_space.
      by rewrite !(proj2 (Z.eqb_neq _ _)) by lia. }
    cbn [parse_value]. rewrite Hsk.
    assert (Hne : forall k, (byte_of k <? 45) || (57 <? byte_of k) = true -> Ascii.eqb e k = false).
    { intros k Hk. destruct (Ascii.eqb_spec e k) as [->|]; [|done]. exfalso.
      destruct He as [->|He]; [done|]. unfold is_digit in He. breflect.
      apply orb_true_iff in Hk as [Hk|Hk]; breflect; lia. }
    rewrite !Hne by done. replace (byte_of e =? 34) with false.
    + by rewrite Hp.
    + symmetry. apply Z.eqb_neq. destruct He as [->|He]; [done|]. unfold is_digit in He. breflect. lia.
Qed.

Definition scalar_field (f : string * scalar_value) : string * jvalue := (f.1, scalar_json f.2).
Definition plain_scalar (f : string * scalar_value) : Prop := sall plain_byte f.1 = true /\ scalar_ok f.2.

Lemma parse_members_compact n d s :
  parse_members (S n) d (quote +:+ s) = parse_members (S n) d ("  " +:+ quote +:+ s).
Proof. done. Qed.

Lemma parse_compact_field n d f c r : plain_scalar f -> ends_value c ->
  parse_members (S (S n)) d (compact_field f +:+ String c r) =
  if Ascii.eqb c "}" then Some ([scalar_field f], r)
  else push (scalar_field f) (parse_members (S n) d r).
Proof.
  destruct f as [k v]. intros [[Hk Hka]%escape_plain Hv] Hc. cbn [fst snd] in *. unfold compact_field. cbn [fst snd].
  destruct (lex_escape k (":" +:+ marshal_scalar v +:+ String c r) Hka) as (l & Hl & Ha). rewrite Hk in Hl.
  rewrite !sapp_assoc, parse_members_compact, parse_members_quote, Hl. cbn [mbind option_bind]. rewrite Ha.
  change (skip_space (":" +:+ marshal_scalar v +:+ String c r)) with (String ":" (marshal_scalar v +:+ String c r)).
  change (negb (Ascii.eqb ":" ":")) with false. cbn iota. rewrite parse_scalar by done. cbn [mbind option_bind].
  by destruct Hc as [-> | ->].
Qed.

Lemma parse_compact_fields fs n d r : fs <> [] -> Forall plain_scalar fs -> (S (length fs) <= n)%nat ->
  parse_members n d (compact_fields fs +:+ "}" +:+ r) = Some (scalar_field <$> fs, r).
Proof.
  intros Hne HF. revert n. induction HF as [|f fs Hf HF IH]; [done|]. intros n Hn.
  destruct n as [|[|n]]; cbn in Hn; [lia..|]. destruct fs as [|f' fs].
  - cbn [compact_fields]. change ("}" +:+ r) with (String "}" r).
    rewrite (parse_compact_field n d f "}" r); [done|done|by right].
  - change (compact_fields (f :: f' :: fs)) with (compact_field f +:+ "," +:+ compact_fields (f' :: fs)).
    rewrite !sapp_assoc. change ("," +:+ ?x) with (String "," x).
    rewrite (parse_compact_field n d f ","); [|done|by left]. change (Ascii.eqb "," "}") with false. cbn iota.
    rewrite IH; [done|done|cbn in *; lia].
Qed.

(** What [Encode] writes is one JSON object with the fields, and nothing behind it. *)
Lemma Unmarshal_Encode fs : fs <> [] -> Forall plain_scalar fs ->
  Unmarshal (Encode fs) = Some (JObj (scalar_field <$> fs)).
Proof.
  intros Hne HF. unfold Unmarshal.
  assert (HL : (length fs <= slen (compact_fields fs))%nat).
  { clear. induction fs as [|f fs IH]; [done|]. destruct fs as [|f' fs]; [cbn; lia|].
    change (compact_fields (f :: f' :: fs)) with (compact_field f +:+ "," +:+ compact_fields (f' :: fs)).
    rewrite !slen_app. cbn [length] in *. cbn [slen]. lia. }
  assert (parse_json (Encode fs) = Some (JObj (scalar_field <$> fs), newline)) as ->; [|done].
  unfold parse_json, parse_fuel. set (n := (2 * _ + 2)%nat).
  assert (Hn : (S (S (length fs)) <= n)%nat) by (subst n; unfold Encode; rewrite !slen_app; cbn; lia). clearbody n.
  destruct n as [|n]; [lia|]. pose proof (parse_compact_fields fs n (maxNestingDepth - 1) newline Hne HF ltac:(lia)) as Hp.
  unfold Encode. assert (exists s, compact_fields fs +:+ "}" +:+ newline = quote +:+ s) as [s Hs].
  { destruct fs as [|f [|f' fs]]; [done|..]; cbn [compact_fields]; unfold compact_field; rewrite !sapp_assoc; by eexists. }
  rewrite Hs in *. change (parse_value (S n) maxNestingDepth ("{" +:+ quote +:+ s)) with
    ('(ms, r) ← parse_members n (maxNestingDepth - 1) (quote +:+ s); Some (JObj ms, r)).
  by rewrite Hp.
Qed.

(** ** The fuel is enough *)

Lemma push_Some {A B} (x : A) (m : option (list A * B)) l r :
  push x m = Some (l, r) -> exists l', m = Some (l', r).
Proof. destruct m as [[l' r']|]; cbn; [|done]. intros [= <- <-]. by eexists. Qed.

Lemma skip_space_le s : (slen (skip_space s) <= slen s)%nat.
Proof. induction s as [|c s IH]; [done|]. cbn. destruct (json_space c); cbn; lia. Qed.

Lemma skip_space_cons s c s1 : skip_space s = String c s1 -> (slen s1 < slen s)%nat.
Proof. intros H. pose proof (skip_space_le s) as Hle. rewrite H in Hle. cbn in Hle. lia. Qed.

Lemma lex_string_lt s l r : lex_string s = Some (l, r) -> (slen r < slen s)%nat.
Proof.
  remember (slen s) as k eqn:Ek. revert s Ek l r.
  induction k as [k IH] using lt_wf_ind. intros [|c s] -> l r H; [done|].
  assert (Hrec : forall t l' r', (slen t <= slen s)%nat -> lex_string t = Some (l', r') -> (slen r' < slen (String c s))%nat).
  { intros t l' r' Ht Hl. cbn in IH. specialize (IH (slen t) ltac:(lia) t eq_refl _ _ Hl). cbn. lia. }
  cbn [lex_string] in H. repeat case_match; simplify_eq; cbn; try lia;
    repeat match goal with
    | H : (_ ≫= _) = Some _ |- _ => apply bind_Some in H as (? & ? & H)
    | H : push _ _ = Some _ |- _ => apply push_Some in H as [? H]
    end; cbn in Hrec; eapply Hrec; try eassumption; cbn; lia.
Qed.

Lemma span_digits_len s d r : span_digits s = (d, r) -> slen s = (slen d + slen r)%nat.
Proof.
  revert d r. induction s as [|c s IH]; intros d r; cbn; [by intros [= <- <-]|].
  destruct (is_digit c); [|by intros [= <- <-]]. destruct (span_digits s) as [d' r'] eqn:E.
  intros [= <- <-]. cbn. rewrite (IH _ _ eq_refl). lia.
Qed.

Lemma digits1_lt s d r : digits1 s = Some (d, r) -> (slen r < slen s)%nat.
Proof.
  unfold digits1. destruct (span_digits s) as [d' r'] eqn:E. apply span_digits_len in E.
  destruct (String.eqb_spec d' ""); [done|]. intros [= -> ->]. destruct d; [done|]. cbn in E. lia.
Qed.

Lemma parse_number_lt s t r : parse_number s = Some (t, r) -> (slen r < slen s)%nat.
Proof.
  unfold parse_number. set (p := match s with EmptyString => _ | _ => _ end).
  assert (Hp : (slen p.2 <= slen s)%nat) by (subst p; repeat case_match; cbn; lia).
  destruct p as [sg s0]. cbn in Hp. intros H.
  apply bind_Some in H as ([i s1] & H1 & H). apply bind_Some in H as ([f s2] & H2 & H).
  apply bind_Some in H as ([e s3] & H3 & H). injection H as _ <-.
  assert (slen s1 < slen s0)%nat.
  { destruct s0; [done|]. cbn in H1. case_match; [injection H1 as _ <-; cbn; lia|by apply digits1_lt in H1]. }
  assert (slen s2 <= slen s1)%nat.
  { destruct s1; cbn in H2; [injection H2 as _ <-; done|]. case_match; [|injection H2 as _ <-; done].
    apply bind_Some in H2 as ([d r'] & Hd%digits1_lt & [= _ <-]). cbn. lia. }
  assert (slen s3 <= slen s2)%nat; [|lia].
  destruct s2 as [|c2 s2]; cbn in H3; [injection H3 as _ <-; done|]. case_match; [|injection H3 as _ <-; done].
  destruct (sign_of s2) as [sg' s2'] eqn:Es.
  assert (slen s2' <= slen s2)%nat by (destruct s2; cbn in Es; repeat case_match; simplify_eq; cbn; lia).
  apply bind_Some in H3 as ([d r'] & Hd%digits1_lt & [= _ <-]). cbn. lia.
Qed.

Lemma parse_literal_lt w v s v' r : w <> "" -> parse_literal w v s = Some (v', r) -> (slen r < slen s)%nat.
Proof.
  unfold parse_literal. intros Hw. destruct (HasPrefix s w) eqn:E; [|done]. intros [= _ <-].
  apply HasPrefix_spec in E as [t ->]. rewrite sdrop_app, slen_app. destruct w; [done|]. cbn. lia.
Qed.

(** Every hypothesis about a successful parse becomes the fact that it shortened its input. *)
Ltac parse_lengths :=
  repeat match goal with
  | H : Some _ = Some _ |- _ => injection H as; subst
  | H : (_ ≫= _) = Some _ |- _ => apply bind_Some in H as ([? ?] & ? & H)
  | H : push _ _ = Some _ |- _ => apply push_Some in H as [? H]
  | H : skip_space _ = String _ _ |- _ => apply skip_space_cons in H
  | H : lex_string _ = Some _ |- _ => apply lex_string_lt in H
  | H : parse_number _ = Some _ |- _ => apply parse_number_lt in H
  | H : parse_literal _ _ _ = Some _ |- _ => apply parse_literal_lt in H; [|done]
  end; cbn [String.length] in *.

Lemma parse_shortens n :
  (forall d s v r, parse_value n d s = Some (v, r) -> (slen r < slen s)%nat) /\
  (forall d s v r, parse_members n d s = Some (v, r) -> (slen r < slen s)%nat) /\
  (forall d s v r, parse_elements n d s = Some (v, r) -> (slen r < slen s)%nat).
Proof.
  induction n as [|n (IHv & IHm & IHe)]; [done|].
  split_and!; intros d s v r H; cbn [parse_value parse_members parse_elements] in H;
    repeat (case_match; try discriminate); parse_lengths;
    repeat (case_match; try discriminate); parse_lengths;
    repeat (case_match; try discriminate); parse_lengths;
    repeat match goal with
    | H : parse_value _ _ _ = Some _ |- _ => apply IHv in H
    | H : parse_members _ _ _ = Some _ |- _ => apply IHm in H
    | H : parse_elements _ _ _ = Some _ |- _ => apply IHe in H
    end; cbn [String.length] in *; lia.
Qed.

Lemma parse_fuel_irrelevant n : forall m,
  (forall d s, (2 * slen s + 1 <= n)%nat -> (2 * slen s + 1 <= m)%nat -> parse_value n d s = parse_value m d s) /\
  (forall d s, (2 * slen s + 2 <= n)%nat -> (2 * slen s + 2 <= m)%nat -> parse_members n d s = parse_members m d s) /\
  (forall d s, (2 * slen s + 2 <= n)%nat -> (2 * slen s + 2 <= m)%nat -> parse_elements n d s = parse_elements m d s).
Proof.
  induction n as [|n IH]; [intros m; split_and!; intros; lia|]. intros [|m]; [split_and!; intros; lia|].
  destruct (IH m) as (IHv & IHm & IHe). clear IH. destruct (parse_shortens n) as [Hlt _].
  split_and!; intros d s Hn Hm; cbn [parse_value parse_members parse_elements].
  - destruct (skip_space s) as [|c s1] eqn:E; [done|]. apply skip_space_cons in E.
    pose proof (skip_space_le s1) as E1. destruct (skip_space s1) as [|c' s2]; cbn [String.length] in E1; [done|].
    rewrite IHm, IHe by (cbn [String.length]; lia). done.
  - destruct (skip_space s) as [|c s1] eqn:E; [done|]. apply skip_space_cons in E.
    destruct (negb _); [done|]. destruct (lex_string s1) as [[k r]|] eqn:El; [|done]. apply lex_string_lt in El.
    cbn [mbind option_bind]. destruct (skip_space r) as [|c1 r1] eqn:E1; [done|]. apply skip_space_cons in E1.
    destruct (negb _); [done|]. rewrite <- (IHv d r1) by lia.
    destruct (parse_value n d r1) as [[v r2]|] eqn:Ev; [|done]. apply Hlt in Ev. cbn [mbind option_bind].
    destruct (skip_space r2) as [|c3 r3] eqn:E3; [done|]. apply skip_space_cons in E3.
    by rewrite (IHm d r3) by lia.
  - rewrite <- (IHv d s) by lia. destruct (parse_value n d s) as [[v r]|] eqn:Ev; [|done]. apply Hlt in Ev.
    cbn [mbind option_bind]. destruct (skip_space r) as [|c1 r1] eqn:E1; [done|]. apply skip_space_cons in E1.
    by rewrite (IHe d r1) by lia.
Qed.

(** Any larger fuel gives the same value: the decoder never fails for lack of it. *)
Lemma parse_json_fuel s n : (parse_fuel s <= n)%nat -> parse_value n maxNestingDepth s = parse_json s.
Proof. intros H. apply (parse_fuel_irrelevant n (parse_fuel s)); unfold parse_fuel in *; lia. Qed.
