(* ===== verification/EnvCheck.v ===== *)
(** * The environment check

    [internal/envcheck/envcheck.go]: in production the environment is checked against the schema
    of [ops/env.schema.json] before anything else runs. The schema is decoded with the JSON model
    of [GoJson], merging into what is there as [json.Unmarshal] does; the matcher of regular
    expressions is the parameter [RegexpMatch]. The theorem says when the check passes, and that
    a failing check names the first variable, in the order of the schema, that is missing or
    wrong. *)

From S2P Require Import Prelude GoStrings Config GoJson.
Open Scope Z_scope.

(** [regexp.MatchString(pattern, s)]; [None] where the pattern does not compile. *)
Class RegexpMatch := MatchString : string -> string -> option bool.

(** ** The schema *)

Record schemaKey := MkKey {
  k_Key : string;
  k_RequiredInProd : bool;
  k_Pattern : string;
  k_Redact : bool;
}.

(** The slice of keys is a prefix of its backing array, whose later elements a further member [keys]
    would decode into. *)
Record env_schema := MkSchema {
  s_Service : string;
  s_array : list schemaKey;
  s_len : nat;
}.

Definition s_Keys (s : env_schema) : list schemaKey := take (s_len s) (s_array s).

Definition zero_key : schemaKey := MkKey "" false "" false.
Definition zero_schema : env_schema := MkSchema "" [] 0.

Definition key_fields : list string := ["key"; "required_in_prod"; "pattern"; "redact"].

Definition set_key_member (k : schemaKey) (m : string * jvalue) : option schemaKey :=
  let '(name, v) := m in
  match field_of key_fields name with
  | None => Some k
  | Some n =>
      if String.eqb n "key" then
        s ← into_string v (k_Key k); Some (MkKey s (k_RequiredInProd k) (k_Pattern k) (k_Redact k))
      else if String.eqb n "required_in_prod" then
        b ← into_bool v (k_RequiredInProd k); Some (MkKey (k_Key k) b (k_Pattern k) (k_Redact k))
      else if String.eqb n "pattern" then
        s ← into_string v (k_Pattern k); Some (MkKey (k_Key k) (k_RequiredInProd k) s (k_Redact k))
      else
        b ← into_bool v (k_Redact k); Some (MkKey (k_Key k) (k_RequiredInProd k) (k_Pattern k) b)
  end.

(** Into an element of the slice: null changes nothing, what is no object is a type error. *)
Definition into_key (v : jvalue) (old : schemaKey) : option schemaKey :=
  match v with
  | JNull => Some old
  | JObj ms => foldl (fun k m => k ← k; set_key_member k m) (Some old) ms
  | _ => None
  end.

(** Element by element into the backing array, which is extended with zero values. *)
Fixpoint into_keys (vs : list jvalue) (array : list schemaKey) : option (list schemaKey) :=
  match vs with
  | [] => Some array
  | v :: vs' =>
      k ← into_key v (default zero_key (head array));
      rest ← into_keys vs' (tail array);
      Some (k :: rest)
  end.

Definition set_schema_member (s : env_schema) (m : string * jvalue) : option env_schema :=
  let '(name, v) := m in
  match field_of ["service"; "keys"] name with
  | None => Some s
  | Some n =>
      if String.eqb n "service" then
        x ← into_string v (s_Service s); Some (MkSchema x (s_array s) (s_len s))
      else match v with
           | JNull | JArr [] => Some (MkSchema (s_Service s) [] 0)
           | JArr vs => array ← into_keys vs (s_array s); Some (MkSchema (s_Service s) array (length vs))
           | _ => None
           end
  end.

(** [json.Unmarshal(raw, &cfg)]. *)
Definition decode_schema (raw : string) : option env_schema :=
  match Unmarshal raw with
  | None => None
  | Some JNull => Some zero_schema
  | Some (JObj ms) => foldl (fun s m => s ← s; set_schema_member s m) (Some zero_schema) ms
  | Some _ => None
  end.

Inductive env_err :=
| ErrMode
| ErrSchemaNotFound
| ErrParseSchema
| ErrMissing (key : string)
| ErrSchemaPattern (key : string)
| ErrInvalid (key : string).

(** [executable] is the outcome of [os.Executable], [readFile] that of [os.ReadFile]. *)
Definition schema_paths (executable : result string string) : list string :=
  ["ops/env.schema.json"; Join [".."; ".."; "ops"; "env.schema.json"]] ++
  match executable with Ok exePath => [Join [Dir exePath; "ops"; "env.schema.json"]] | Err _ => [] end.

Fixpoint load_first (readFile : string -> result string string) (paths : list string) : result env_err env_schema :=
  match paths with
  | [] => Err ErrSchemaNotFound
  | path :: paths' =>
      match readFile path with
      | Err _ => load_first readFile paths'
      | Ok raw => match decode_schema raw with None => Err ErrParseSchema | Some s => Ok s end
      end
  end.

Definition loadSchema (executable : result string string) (readFile : string -> result string string) :
    result env_err env_schema :=
  load_first readFile (schema_paths executable).

(** ** The check *)

Section Check.
Context `{RegexpMatch}.

Fixpoint check_keys (e : environ) (keys : list schemaKey) : result env_err unit :=
  match keys with
  | [] => Ok tt
  | key :: keys' =>
      if negb (k_RequiredInProd key) then check_keys e keys'
      else
        let value := default "" (e !! k_Key key) in
        let ok := match e !! k_Key key with Some _ => true | None => false end in
        if negb ok || String.eqb (TrimSpace value) "" then Err (ErrMissing (k_Key key))
        else match MatchString (k_Pattern key) value with
             | None => Err (ErrSchemaPattern (k_Key key))
             | Some false => Err (ErrInvalid (k_Key key))
             | Some true => check_keys e keys'
             end
  end.

Definition ValidateEnvironment (e : environ) (executable : result string string)
    (readFile : string -> result string string) : result env_err unit :=
  let mode := TrimSpace (Getenv e "AUDISTRO_ENV") in
  if String.eqb mode "" then Ok tt
  else if negb (String.eqb mode "prod") && negb (String.eqb mode "dev") && negb (String.eqb mode "test")
       then Err ErrMode
  else if negb (String.eqb mode "prod") then Ok tt
  else
    cfg ← loadSchema executable readFile;
    check_keys e (s_Keys cfg).

(** [MustValidate]: the exit code, if the program ends here. *)
Definition MustValidate (e : environ) (executable : result string string)
    (readFile : string -> result string string) : option Z :=
  match ValidateEnvironment e executable readFile with Err _ => Some 1 | Ok _ => None end.

(** ** What the check promises *)

(** A required variable is set, not blank, and matches its pattern. *)
Definition key_ok (e : environ) (key : schemaKey) : Prop :=
  k_RequiredInProd key = true ->
  exists v, e !! k_Key key = Some v /\ TrimSpace v <> "" /\ MatchString (k_Pattern key) v = Some true.

(** The complaint about a key that is not in order. *)
Definition complaint (e : environ) (key : schemaKey) (err : env_err) : Prop :=
  k_RequiredInProd key = true /\
  ((err = ErrMissing (k_Key key) /\ forall v, e !! k_Key key = Some v -> TrimSpace v = "") \/
   exists v, e !! k_Key key = Some v /\ TrimSpace v <> "" /\
     (err = ErrSchemaPattern (k_Key key) /\ MatchString (k_Pattern key) v = None \/
      err = ErrInvalid (k_Key key) /\ MatchString (k_Pattern key) v = Some false)).

Lemma check_keys_cases e keys :
  match check_keys e keys with
  | Ok _ => Forall (key_ok e) keys
  | Err err => exists pre key post, keys = pre ++ key :: post /\ Forall (key_ok e) pre /\ complaint e key err
  end.
Proof.
  induction keys as [|key keys IH]; [constructor|]. cbn [check_keys].
  assert (Hnext : key_ok e key -> match check_keys e keys with
    | Ok _ => Forall (key_ok e) (key :: keys)
    | Err err => exists pre k post, key :: keys = pre ++ k :: post /\ Forall (key_ok e) pre /\ complaint e k err end).
  { intros Hk. destruct (check_keys e keys) as [u|err]; [by constructor|].
    destruct IH as (pre & k & post & -> & Hpre & Hc). exists (key :: pre), k, post. split; [done|]. split; [by constructor|done]. }
  destruct (k_RequiredInProd key) eqn:Hreq; cbn [negb]; [|apply Hnext; intros ?; congruence].
  assert (Hhere : forall err, complaint e key err ->
    exists pre k post, key :: keys = pre ++ k :: post /\ Forall (key_ok e) pre /\ complaint e k err).
  { intros err Hc. exists [], key, keys. split; [done|]. split; [constructor|done]. }
  destruct (e !! k_Key key) as [v|] eqn:Ev; cbn -[TrimSpace String.eqb].
  - destruct (String.eqb_spec (TrimSpace v) "") as [Hb|Hb].
    + apply Hhere. split; [done|]. left. split; [done|]. rewrite Ev. by intros v' [= <-].
    + destruct (MatchString (k_Pattern key) v) as [[|]|] eqn:Em.
      * apply Hnext. intros _. eauto.
      * apply Hhere. split; [done|]. right. exists v. auto.
      * apply Hhere. split; [done|]. right. exists v. auto.
  - apply Hhere. split; [done|]. left. split; [done|]. rewrite Ev. by intros v'.
Qed.

(** C26: the environment check is exact. Outside production it passes whatever else is set, and it
    accepts no mode but prod, dev, test and an unset or blank one, which counts as outside; in production it passes exactly when a schema is found and
    parsed and every variable the schema requires is set, not blank, and matches its pattern; and
    when a variable is the reason that it fails, it is the first, in the order of the schema, that is
    not in order, named with what is wrong with it. *)
Theorem environment_check_exact e executable readFile :
  let mode := TrimSpace (Getenv e "AUDISTRO_ENV") in
  match ValidateEnvironment e executable readFile with
  | Ok _ => mode ∈ [""; "dev"; "test"] \/
      mode = "prod" /\ exists s, loadSchema executable readFile = Ok s /\ Forall (key_ok e) (s_Keys s)
  | Err err => err = ErrMode /\ mode ∉ [""; "dev"; "test"; "prod"] \/
      mode = "prod" /\
      (loadSchema executable readFile = Err err \/
       exists s pre key post, loadSchema executable readFile = Ok s /\ s_Keys s = pre ++ key :: post /\
         Forall (key_ok e) pre /\ complaint e key err)
  end.
Proof.
  intros mode. unfold ValidateEnvironment. fold mode.
  destruct (String.eqb_spec mode "") as [->|H0]; [left; set_solver|].
  destruct (String.eqb_spec mode "prod") as [->|H1]; cbn [negb andb].
  - destruct (loadSchema executable readFile) as [s|err]; [|right; auto].
    change (mbind (λ cfg, check_keys e (s_Keys cfg)) (Ok s)) with (check_keys e (s_Keys s)).
    pose proof (check_keys_cases e (s_Keys s)) as Hc. destruct (check_keys e (s_Keys s)) as [u|err].
    + right. split; [done|]. eauto.
    + right. split; [done|]. right. destruct Hc as (pre & key & post & ? & ? & ?). exists s, pre, key, post. auto.
  - destruct (String.eqb_spec mode "dev") as [->|H2]; [left; set_solver|].
    destruct (String.eqb_spec mode "test") as [->|H3]; [left; set_solver|]. cbn. left. split; [done|]. set_solver.
Qed.
End Check.

(** ** The schema of the repository *)

Module EnvCheckDemo.
Definition quoted (s : string) : string := smap (fun c => if Ascii.eqb c "'"%char then "034"%char else c) s.

(** [ops/env.schema.json], with the double quotes as single ones. *)
Definition schema_file : string := quoted (String.concat (String "010"%char "") [
"{";
"  'service': 'audistro-provider',";
"  'keys': [";
"    { 'key': 'AUDISTRO_ENV', 'required_in_prod': true, 'pattern': '^(prod|dev|test)$', 'redact': false },";
"    { 'key': 'PROVIDER_IDENTITY_PATH', 'required_in_prod': true, 'pattern': '^/.+', 'redact': false },";
"    { 'key': 'PROVIDER_PUBLIC_BASE_URL', 'required_in_prod': true, 'pattern': '^https?://[^\\s]+$', 'redact': false },";
"    { 'key': 'PROVIDER_CATALOG_BASE_URL', 'required_in_prod': true, 'pattern': '^https?://[^\\s]+$', 'redact': false }";
"  ]";
"}"; ""]).

(** The patterns of that file, on values without line breaks. *)
#[local] Instance file_patterns : RegexpMatch := fun pattern s =>
  if String.eqb pattern "^(prod|dev|test)$" then Some (existsb (String.eqb s) ["prod"; "dev"; "test"])
  else if String.eqb pattern "^/.+" then Some (HasPrefix s "/" && (1 <? slen s)%nat)
  else if String.eqb pattern "^https?://[^\s]+$" then
    Some ((HasPrefix s "http://" && (7 <? slen s)%nat || HasPrefix s "https://" && (8 <? slen s)%nat)
          && sall (fun c => negb (json_space c || Ascii.eqb c "012"%char)) s)
  else None.

Definition read (path : string) : result string string :=
  if String.eqb path "../../ops/env.schema.json" then Ok schema_file else Err "no such file".
Definition exe : result string string := Ok "/opt/provider/bin/audistro-provider".

Definition production (identity : string) : environ :=
  {[ "AUDISTRO_ENV" := "prod"; "PROVIDER_IDENTITY_PATH" := identity;
     "PROVIDER_PUBLIC_BASE_URL" := "https://provider-eu-1.example.com";
     "PROVIDER_CATALOG_BASE_URL" := "http://audistro-catalog:8080" ]}.

Example file_decodes : k_Key <$> (match loadSchema exe read with Ok s => s_Keys s | Err _ => [] end) =
  ["AUDISTRO_ENV"; "PROVIDER_IDENTITY_PATH"; "PROVIDER_PUBLIC_BASE_URL"; "PROVIDER_CATALOG_BASE_URL"].
Proof. vm_compute. reflexivity. Qed.

(** The cases of [envcheck_test.go]. *)
Example test_cases :
  ValidateEnvironment ∅ exe read = Ok tt /\
  ValidateEnvironment (production "") exe read = Err (ErrMissing "PROVIDER_IDENTITY_PATH") /\
  ValidateEnvironment (production "/var/lib/audistro-provider/provider_identity.json") exe read = Ok tt.
Proof. vm_compute. split_and!; reflexivity. Qed.

(** A second [keys] member is merged into the elements of the first. *)
Example keys_merge :
  s_Keys <$> decode_schema (quoted "{'keys':[{'key':'A','pattern':'x'},{'key':'B'}],'KEYS':[{'key':'C'}]}") =
  Some [MkKey "C" false "x" false].
Proof. vm_compute. reflexivity. Qed.
End EnvCheckDemo.
