(* ===== verification/GoNet.v ===== *)
(** * IP addresses and CIDR blocks

    What the provider uses of Go's [net] and [net/netip]: [ParseIP], [ParseCIDR] and
    [IPNet.Contains], on byte lists as Go has them (an IPv4 address is held in 16 bytes with the
    prefix [::ffff]). The theorem says what membership in a block means in terms of address bits. *)

From S2P Require Import Prelude GoStrings GoTime Sha256.
Open Scope Z_scope.

(** ** Parsing addresses *)

(** A decimal octet: no leading zero, at most 255. *)
Definition octet (s : string) : option Z :=
  match s with
  | EmptyString => None
  | String c s' =>
      if Ascii.eqb c "0"%char && negb (String.eqb s' "") then None
      else if (3 <? slen s)%nat then None
      else v ← undig 0 s; if v <=? 255 then Some v else None
  end.

Definition parseIPv4 (s : string) : option (list Z) :=
  match Split s dot with
  | [a; b; c; d] =>
      a ← octet a; b ← octet b; c ← octet c; d ← octet d; Some [a; b; c; d]
  | _ => None
  end.

Definition hexval (c : Ascii.ascii) : option Z :=
  let b := byte_of c in
  if (48 <=? b) && (b <=? 57) then Some (b - 48)
  else if (97 <=? b) && (b <=? 102) then Some (b - 87)
  else if (65 <=? b) && (b <=? 70) then Some (b - 55)
  else None.

(** The digits at the start of [s]: their number, their value and the rest. *)
Fixpoint hex_group (n : nat) (acc : Z) (s : string) : nat * Z * string :=
  match s with
  | String c s' => match hexval c with
                   | Some d => hex_group (S n) (16 * acc + d) s'
                   | None => (n, acc, s)
                   end
  | EmptyString => (n, acc, s)
  end.

(** The loop of [parseIPv6]; [ip] holds the bytes so far, [ell] where the ellipsis stands, and
    the fuel is the number of groups there is still room for. *)
Fixpoint v6_loop (fuel : nat) (ip : list Z) (ell : option nat) (s : string) : option (list Z * option nat * string) :=
  match fuel with
  | O => Some (ip, ell, s)
  | S fuel' =>
      let '(n, acc, rest) := hex_group 0 0 s in
      if (n =? 0)%nat || (4 <? n)%nat then None
      else if HasPrefix rest "." then
        if match ell with None => negb (length ip =? 12)%nat | Some _ => (12 <? length ip)%nat end then None
        else q ← parseIPv4 s; Some (ip ++ q, ell, "")
      else
        let ip := ip ++ [acc / 256; acc mod 256] in
        match rest with
        | EmptyString => Some (ip, ell, "")
        | String c rest' =>
            if negb (Ascii.eqb c ":"%char) then None
            else match rest' with
                 | EmptyString => None
                 | String c' rest'' =>
                     if Ascii.eqb c' ":"%char then
                       match ell with
                       | Some _ => None
                       | None => if String.eqb rest'' "" then Some (ip, Some (length ip), "")
                                 else v6_loop fuel' ip (Some (length ip)) rest''
                       end
                     else v6_loop fuel' ip ell rest'
                 end
        end
  end.

Definition zero_bytes (n : nat) : list Z := replicate n 0.

(** [parseIPv6] of a text without a zone. *)
Definition parseIPv6 (s : string) : option (list Z) :=
  let leading := HasPrefix s "::" in
  let s := if leading then sdrop 2 s else s in
  if leading && String.eqb s "" then Some (zero_bytes 16)
  else match v6_loop 8 [] (if leading then Some 0%nat else None) s with
       | Some (ip, ell, EmptyString) =>
           if (length ip <? 16)%nat then
             match ell with
             | None => None
             | Some e => Some (take e ip ++ zero_bytes (16 - length ip) ++ drop e ip)
             end
           else match ell with None => Some ip | Some _ => None end
       | _ => None
       end.

Definition v4InV6Prefix : list Z := zero_bytes 10 ++ [255; 255].

(** The first of the characters [.], [:] and [%] decides. *)
Fixpoint address_kind (s : string) : option Ascii.ascii :=
  match s with
  | EmptyString => None
  | String c s' => if Ascii.eqb c "."%char || Ascii.eqb c ":"%char || Ascii.eqb c "%"%char then Some c
                   else address_kind s'
  end.

(** [netip.ParseAddr] of an address without a zone: its bit length and its 16 bytes. *)
Definition ParseAddr (s : string) : option (Z * list Z) :=
  if has_char "%"%char s then None
  else match address_kind s with
       | Some c => if Ascii.eqb c "."%char then (fun q => (32, v4InV6Prefix ++ q)) <$> parseIPv4 s
                   else (fun ip => (128, ip)) <$> parseIPv6 s
       | None => None
       end.

Definition ParseIP (s : string) : option (list Z) := snd <$> ParseAddr s.

(** ** Blocks *)

Record IPNet := MkIPNet { n_IP : list Z; n_Mask : list Z }.

(** The mask of [n] ones in [l] bytes. *)
Fixpoint CIDRMask (n : Z) (l : nat) : list Z :=
  match l with
  | O => []
  | S l' => (if 8 <=? n then 255 else 256 - 2 ^ (8 - n)) :: CIDRMask (Z.max 0 (n - 8)) l'
  end.

Definition To4 (ip : list Z) : option (list Z) :=
  if (length ip =? 4)%nat then Some ip
  else if (length ip =? 16)%nat && bool_decide (take 12 ip = v4InV6Prefix) then Some (drop 12 ip)
  else None.

(** [IP.Mask] of a 16-byte address by a mask of 4 or 16 bytes. *)
Definition Mask (ip mask : list Z) : list Z :=
  let ip := if (length mask =? 4)%nat && (length ip =? 16)%nat && bool_decide (take 12 ip = v4InV6Prefix)
            then drop 12 ip else ip in
  if (length ip =? length mask)%nat then zip_with Z.land ip mask else [].

(** The block of the addresses that share the first [n] of [bits] bits with [ip]. *)
Definition network (bits : Z) (ip : list Z) (n : Z) : IPNet :=
  let m := CIDRMask n (Z.to_nat (bits / 8)) in MkIPNet (Mask ip m) m.

Definition parse_len (s : string) : option Z := if String.eqb s "" then None else undig 0 s.

Definition ParseCIDR (s : string) : option IPNet :=
  match cut slash s with
  | None => None
  | Some (addr, mask) =>
      '(bits, ip) ← ParseAddr addr;
      n ← parse_len mask;
      if n <=? bits then Some (network bits ip n) else None
  end.

Definition networkNumberAndMask (n : IPNet) : option (list Z * list Z) :=
  let ip := match To4 (n_IP n) with
            | Some x => Some x
            | None => if (length (n_IP n) =? 16)%nat then Some (n_IP n) else None
            end in
  ip ← ip;
  let m := n_Mask n in
  if (length m =? 4)%nat then (if (length ip =? 4)%nat then Some (ip, m) else None)
  else if (length m =? 16)%nat then Some (ip, if (length ip =? 4)%nat then drop 12 m else m)
  else None.

Definition IPNet_Contains (n : IPNet) (ip : list Z) : bool :=
  let '(nn, m) := default ([], []) (networkNumberAndMask n) in
  let ip := default ip (To4 ip) in
  (length ip =? length nn)%nat && bool_decide (zip_with Z.land nn m = zip_with Z.land ip m).

Example ip4 : ParseIP "10.0.0.255" = Some (v4InV6Prefix ++ [10; 0; 0; 255]). Proof. reflexivity. Qed.
Example ip4_bad : ParseIP "10.0.0.256" = None /\ ParseIP "10.0.0.01" = None /\ ParseIP "10.0.0" = None /\
  ParseIP "10.0..1" = None /\ ParseIP "fe80::1%eth0" = None /\ ParseIP "1::2::3" = None /\ ParseIP "1:2:3:4:5:6:7::8" = None.
Proof. vm_compute. repeat split; reflexivity. Qed.
Example ip6 : ParseIP "2001:db8::8:800:200c:417a" =
  Some [32; 1; 13; 184; 0; 0; 0; 0; 0; 8; 8; 0; 32; 12; 65; 122]. Proof. vm_compute. reflexivity. Qed.
Example ip6_mapped : ParseIP "::ffff:10.1.2.3" = ParseIP "10.1.2.3". Proof. vm_compute. reflexivity. Qed.
Example ip6_loopback : ParseIP "::1" = Some (zero_bytes 15 ++ [1]). Proof. vm_compute. reflexivity. Qed.
Example ip6_bad : ParseIP "1:2:3:4:5:6:7:8:9" = None /\ ParseIP ":1" = None /\ ParseIP "1:" = None /\
  ParseIP "12345::" = None /\ ParseIP "1:2:3:4:5:6:7:8::" = None /\ ParseIP "1:2:3:4:5:6:7:1.2.3.4" = None.
Proof. vm_compute. repeat split; reflexivity. Qed.

Definition in_block (cidr ip : string) : option bool :=
  n ← ParseCIDR cidr; a ← ParseIP ip; Some (IPNet_Contains n a).
Example blk1 : in_block "10.1.0.0/16" "10.1.255.3" = Some true. Proof. vm_compute. reflexivity. Qed.
Example blk2 : in_block "10.1.0.0/16" "10.2.0.0" = Some false. Proof. vm_compute. reflexivity. Qed.
Example blk3 : in_block "::/0" "10.2.0.0" = Some false. Proof. vm_compute. reflexivity. Qed.
Example blk4 : in_block "::ffff:10.0.0.0/104" "10.2.0.0" = Some true. Proof. vm_compute. reflexivity. Qed.
Example blk5 : in_block "0.0.0.0/0" "::1" = Some false. Proof. vm_compute. reflexivity. Qed.
Example blk6 : in_block "10.0.0.1" "10.0.0.1" = None. Proof. vm_compute. reflexivity. Qed.

(** ** Lemmas: bytes and bits *)

(** The number a list of bytes denotes, most significant byte first. *)
Fixpoint be_num (l : list Z) : Z :=
  match l with
  | [] => 0
  | x :: l' => x * 2 ^ (8 * Z.of_nat (length l')) + be_num l'
  end.

Lemma be_num_range l : Forall is_byte l -> 0 <= be_num l < 2 ^ (8 * Z.of_nat (length l)).
Proof.
  induction 1 as [|x l Hx _ IH]; cbn [be_num length]; [lia|].
  replace (8 * Z.of_nat (S (length l))) with (8 + 8 * Z.of_nat (length l)) by lia.
  rewrite Z.pow_add_r by lia. unfold is_byte in Hx. change (2 ^ 8) with 256. nia.
Qed.

Lemma be_num_app a b : be_num (a ++ b) = be_num a * 2 ^ (8 * Z.of_nat (length b)) + be_num b.
Proof.
  induction a as [|x a IH]; cbn [be_num app]; [lia|]. rewrite IH, length_app.
  replace (8 * Z.of_nat (length a + length b)) with (8 * Z.of_nat (length a) + 8 * Z.of_nat (length b)) by lia.
  rewrite Z.pow_add_r by lia. ring.
Qed.

Lemma be_num_inj a b : Forall is_byte a -> Forall is_byte b -> length a = length b -> be_num a = be_num b -> a = b.
Proof.
  intros Ha; revert b; induction Ha as [|x a Hx Ha IH]; intros [|y b] Hb Hl E; try done.
  apply Forall_cons in Hb as [Hy Hb]. cbn in Hl. injection Hl as Hl. cbn [be_num] in E. rewrite Hl in E.
  pose proof (be_num_range a Ha) as Ra. pose proof (be_num_range b Hb) as Rb. rewrite Hl in Ra.
  assert (x = y) as -> by nia. f_equal. apply IH; [done..|lia].
Qed.

(** Two byte strings of the same length agree in their first [n] bits. *)
Definition same_prefix (n : Z) (a b : list Z) : Prop :=
  be_num a / 2 ^ (8 * Z.of_nat (length a) - n) = be_num b / 2 ^ (8 * Z.of_nat (length b) - n).

Definition mask_byte (n : Z) : Z := if 8 <=? n then 255 else 256 - 2 ^ (8 - n).

Definition bytes256 : list Z := seqZ 0 256.

(** Masking a byte keeps its leading bits; checked for every byte and every mask. *)
Definition mask_ok (n x : Z) : bool := Z.land x (mask_byte n) =? (x / 2 ^ (8 - n)) * 2 ^ (8 - n).

Lemma land_mask_byte n x : 0 <= n <= 8 -> is_byte x -> Z.land x (mask_byte n) = (x / 2 ^ (8 - n)) * 2 ^ (8 - n).
Proof.
  intros Hn Hx. apply Z.eqb_eq.
  assert (Hall : forallb (fun n => forallb (mask_ok n) bytes256) (seqZ 0 9) = true) by (vm_compute; reflexivity).
  rewrite forallb_forall in Hall. specialize (Hall n). rewrite forallb_forall in Hall.
  apply Hall; apply list_elem_of_In, elem_of_seqZ; unfold is_byte in *; lia.
Qed.

Lemma masked_byte_eq n x y : 0 <= n <= 8 -> is_byte x -> is_byte y ->
  Z.land x (mask_byte n) = Z.land y (mask_byte n) <-> x / 2 ^ (8 - n) = y / 2 ^ (8 - n).
Proof.
  intros Hn Hx Hy. rewrite !land_mask_byte by done. pose proof (Z.pow_pos_nonneg 2 (8 - n)).
  split; [|by intros ->]. intros E. apply Z.mul_cancel_r in E; lia.
Qed.

Lemma CIDRMask_length n l : length (CIDRMask n l) = l.
Proof. revert n; induction l as [|l IH]; intros n; cbn; [done|]. by rewrite IH. Qed.

Lemma CIDRMask_cons n l : CIDRMask n (S l) = mask_byte n :: CIDRMask (Z.max 0 (n - 8)) l.
Proof. done. Qed.

(** Masks of no bits match everything. *)
Lemma zero_mask a b l : length a = l -> length b = l ->
  zip_with Z.land a (CIDRMask 0 l) = zip_with Z.land b (CIDRMask 0 l).
Proof.
  revert a b; induction l as [|l IH]; intros [|x a] [|y b]; try done. cbn. intros [= Ha] [= Hb].
  rewrite !Z.land_0_r. f_equal. by apply IH.
Qed.

Lemma div_pow_split x r k l : 0 <= l -> 0 <= k <= l -> 0 <= r < 2 ^ l -> 0 <= x ->
  (x * 2 ^ l + r) / 2 ^ (l - k) = x * 2 ^ k + r / 2 ^ (l - k) /\ 0 <= r / 2 ^ (l - k) < 2 ^ k.
Proof.
  intros Hl Hk Hr Hx. assert (E : 2 ^ l = 2 ^ k * 2 ^ (l - k)) by (rewrite <- Z.pow_add_r by lia; f_equal; lia).
  pose proof (Z.pow_pos_nonneg 2 (l - k)). split.
  - rewrite E, Z.mul_assoc, Z.add_comm, Z.div_add by lia. lia.
  - split; [apply Z.div_pos; lia|]. apply Z.div_lt_upper_bound; [lia|]. rewrite Z.mul_comm, <- E. lia.
Qed.

Lemma div_pow_high x r k l : 0 <= l -> 0 <= k -> 0 <= r < 2 ^ l -> (x * 2 ^ l + r) / 2 ^ (l + k) = x / 2 ^ k.
Proof.
  intros. pose proof (Z.pow_pos_nonneg 2 l). pose proof (Z.pow_pos_nonneg 2 k).
  rewrite Z.pow_add_r, <- Z.div_div by lia.
  f_equal. rewrite Z.add_comm, Z.div_add, Z.div_small by lia. lia.
Qed.

(** Comparing masked bytes is comparing leading bits. *)
Lemma masked_eq a b n : Forall is_byte a -> Forall is_byte b -> length a = length b ->
  0 <= n <= 8 * Z.of_nat (length a) ->
  zip_with Z.land a (CIDRMask n (length a)) = zip_with Z.land b (CIDRMask n (length a)) <-> same_prefix n a b.
Proof.
  intros Ha. revert b n; induction Ha as [|x a Hx Ha IH]; intros [|y b] n Hb Hl Hn; try done.
  apply Forall_cons in Hb as [Hy Hb]. cbn in Hl. injection Hl as Hl. cbn [length] in *.
  unfold same_prefix. cbn [be_num length]. rewrite <- Hl, CIDRMask_cons. cbn [zip_with].
  set (l := 8 * Z.of_nat (length a)) in *.
  pose proof (be_num_range a Ha) as Ra. pose proof (be_num_range b Hb) as Rb. rewrite <- Hl in Rb. fold l in Ra, Rb.
  replace (8 * Z.of_nat (S (length a))) with (8 + l) by lia. unfold is_byte in Hx, Hy.
  destruct (Z.leb_spec 8 n) as [H8|H8].
  - replace (8 + l - n) with (l - (n - 8)) by lia. rewrite Z.max_r by lia.
    destruct (div_pow_split x (be_num a) (n - 8) l) as [-> R1]; [lia..|].
    destruct (div_pow_split y (be_num b) (n - 8) l) as [-> R2]; [lia..|].
    specialize (IH b (n - 8) Hb Hl ltac:(lia)). unfold same_prefix in IH. rewrite <- Hl in IH. fold l in IH.
    assert (Hm : mask_byte n = mask_byte 8) by (unfold mask_byte; by rewrite (proj2 (Z.leb_le 8 n))). rewrite Hm.
    split.
    + intros [= E1 E2]. apply IH in E2. rewrite E2.
      apply masked_byte_eq in E1; [|done || lia..]. rewrite Z.sub_diag, !Z.div_1_r in E1. by subst.
    + intros E. assert (x = y) as -> by nia. f_equal. apply IH. nia.
  - replace (8 + l - n) with (l + (8 - n)) by lia. rewrite Z.max_l by lia. rewrite !div_pow_high by lia.
    rewrite <- masked_byte_eq by (unfold is_byte; lia). split; [by intros [= ? ?]|]. intros ->. f_equal.
    by apply zero_mask.
Qed.

Lemma masked_eq_len l a b n : Forall is_byte a -> Forall is_byte b -> length a = l -> length b = l ->
  0 <= n <= 8 * Z.of_nat l ->
  zip_with Z.land a (CIDRMask n l) = zip_with Z.land b (CIDRMask n l) <-> same_prefix n a b.
Proof. intros Ha Hb <- Hl Hn. by apply masked_eq. Qed.

(** ** Lemmas: IPv4 addresses in 16 bytes *)

Definition ip16 (ip : list Z) : Prop := length ip = 16%nat /\ Forall is_byte ip.
Definition mapped (ip : list Z) : Prop := take 12 ip = v4InV6Prefix.

Lemma To4_ip16 ip : ip16 ip -> To4 ip = if decide (mapped ip) then Some (drop 12 ip) else None.
Proof. intros [Hl _]. unfold To4, mapped. rewrite Hl. cbn. by case_bool_decide; case_decide. Qed.

Lemma land_idem_zip a m : zip_with Z.land (zip_with Z.land a m) m = zip_with Z.land a m.
Proof.
  revert m; induction a as [|x a IH]; intros [|y m]; try done. cbn.
  rewrite IH, <- Z.land_assoc, Z.land_diag. done.
Qed.

Lemma CIDRMask_app n a b : 0 <= n ->
  CIDRMask n (a + b) = CIDRMask n a ++ CIDRMask (Z.max 0 (n - 8 * Z.of_nat a)) b.
Proof.
  revert n; induction a as [|a IH]; intros n Hn.
  - cbn [Nat.add CIDRMask app]. f_equal. lia.
  - cbn [Nat.add]. rewrite !CIDRMask_cons, IH by lia. cbn [app]. do 2 f_equal. f_equal. lia.
Qed.

Lemma CIDRMask_full n l : 8 * Z.of_nat l <= n -> CIDRMask n l = replicate l 255.
Proof.
  revert n; induction l as [|l IH]; intros n Hn; [done|]. rewrite CIDRMask_cons, IH by lia.
  unfold mask_byte. by rewrite (proj2 (Z.leb_le 8 n)) by lia.
Qed.

Lemma land_full l : Forall is_byte l -> zip_with Z.land l (replicate (length l) 255) = l.
Proof.
  induction 1 as [|x l Hx _ IH]; [done|]. cbn. rewrite IH. f_equal.
  change 255 with (Z.ones 8). rewrite Z.land_ones by lia. apply Z.mod_small. exact Hx.
Qed.

(** A masked address still starts like an IPv4 address iff the mask covers that start. *)
Lemma masked_mapped a n : ip16 a -> 0 <= n <= 128 ->
  mapped (zip_with Z.land a (CIDRMask n 16)) <-> 96 <= n /\ mapped a.
Proof.
  intros [Hl Hb] Hn. unfold mapped. rewrite zip_with_take.
  change (CIDRMask n 16) with (CIDRMask n (12 + 4)). rewrite CIDRMask_app by lia.
  rewrite take_app_length' by (by rewrite CIDRMask_length).
  assert (Hl12 : length (take 12 a) = 12%nat) by (rewrite length_take; lia).
  destruct (Z.le_gt_cases 96 n) as [H96|H96].
  - rewrite CIDRMask_full by lia. rewrite <- Hl12 at 2. rewrite land_full by by apply Forall_take. naive_solver.
  - split; [|lia]. intros E. exfalso. pose proof (land_idem_zip (take 12 a) (CIDRMask n 12)) as Hid. rewrite E in Hid.
    assert (Hall : forallb (fun n => negb (bool_decide
      (zip_with Z.land v4InV6Prefix (CIDRMask n 12) = v4InV6Prefix))) (seqZ 0 96) = true) by (vm_compute; reflexivity).
    rewrite forallb_forall in Hall. specialize (Hall n). apply negb_true_iff, bool_decide_eq_false in Hall; [done|].
    apply list_elem_of_In, elem_of_seqZ. lia.
Qed.

Lemma mapped_split x : mapped x -> x = v4InV6Prefix ++ drop 12 x.
Proof. unfold mapped. intros <-. by rewrite take_drop. Qed.

Lemma same_prefix_sym n a b : same_prefix n a b -> same_prefix n b a.
Proof. unfold same_prefix. congruence. Qed.

Lemma ip16_num x : ip16 x -> be_num x = be_num (take 12 x) * 2 ^ 32 + be_num (drop 12 x) /\
  0 <= be_num (take 12 x) /\ 0 <= be_num (drop 12 x) < 2 ^ 32.
Proof.
  intros [Hl Hb]. assert (Hd : length (drop 12 x) = 4%nat) by (rewrite length_drop; lia).
  pose proof (be_num_range _ (Forall_take _ 12 _ Hb)). pose proof (be_num_range _ (Forall_drop _ 12 _ Hb)) as Hr.
  rewrite Hd in Hr. rewrite <- (take_drop 12 x) at 1. rewrite be_num_app, Hd. cbn in Hr |- *. lia.
Qed.

(** From 96 bits on, a common prefix is a common start and a common prefix of the rest. *)
Lemma same_prefix_96 k a b : ip16 a -> ip16 b -> 0 <= k <= 32 ->
  same_prefix (k + 96) a b <-> take 12 a = take 12 b /\ same_prefix k (drop 12 a) (drop 12 b).
Proof.
  intros Ha Hb Hk. destruct (ip16_num a Ha) as (Ea & Ra1 & Ra2), (ip16_num b Hb) as (Eb & Rb1 & Rb2).
  destruct Ha as [Hla Ha], Hb as [Hlb Hb]. unfold same_prefix. rewrite Hla, Hlb, !length_drop, Hla, Hlb, Ea, Eb.
  change (8 * Z.of_nat 16) with 128. change (8 * Z.of_nat (16 - 12)) with 32.
  replace (128 - (k + 96)) with (32 - k) by lia.
  destruct (div_pow_split (be_num (take 12 a)) (be_num (drop 12 a)) k 32) as [-> R1]; [lia..|].
  destruct (div_pow_split (be_num (take 12 b)) (be_num (drop 12 b)) k 32) as [-> R2]; [lia..|].
  pose proof (Z.pow_pos_nonneg 2 k). split.
  - intros E. assert (be_num (take 12 a) = be_num (take 12 b)) as Et by nia.
    split; [|nia]. apply be_num_inj; [by apply Forall_take..| |done]. rewrite !length_take. lia.
  - by intros [-> ->].
Qed.

(** ** Membership *)

(** Comparing two IPv4 addresses under a mask of 4 bytes. *)
Lemma contains4 a ip k : ip16 a -> ip16 ip -> mapped a -> 0 <= k <= 32 ->
  let m := CIDRMask k 4 in
  let ip' := default ip (To4 ip) in
  (length ip' =? length (zip_with Z.land (drop 12 a) m))%nat &&
    bool_decide (zip_with Z.land (zip_with Z.land (drop 12 a) m) m = zip_with Z.land ip' m) = true <->
  same_prefix (k + 96) a ip.
Proof.
  intros Ha Hip Hm Hk. cbv zeta. rewrite (To4_ip16 ip Hip), same_prefix_96 by done. unfold mapped in Hm. rewrite Hm.
  assert (Hla : length (drop 12 a) = 4%nat) by (rewrite length_drop; destruct Ha; lia).
  rewrite length_zip_with, CIDRMask_length, Hla. unfold mapped. case_decide as Hd; cbn [default from_option id].
  - assert (Hli : length (drop 12 ip) = 4%nat) by (rewrite length_drop; destruct Hip; lia).
    rewrite Hli. cbn [Nat.min Nat.eqb andb]. rewrite bool_decide_eq_true, land_idem_zip.
    rewrite masked_eq_len; [naive_solver|by apply Forall_drop, Ha|by apply Forall_drop, Hip|done|done|lia].
  - destruct Hip as [-> _]. cbn. naive_solver.
Qed.

(** What membership in a block means. As 128-bit numbers, with IPv4 addresses at [::ffff:0:0/96],
    an address is in the block of [a] of length [n] iff the two agree in their first [n] bits
    (counted from the start of the 128 bits), except that an IPv4 address is never in a block
    shorter than 96 bits: [::/0] is all of IPv6 and none of IPv4. *)
Lemma Contains_network bits a n ip :
  ip16 a -> ip16 ip -> (bits = 32 /\ mapped a) \/ bits = 128 -> 0 <= n <= bits ->
  IPNet_Contains (network bits a n) ip = true <->
  same_prefix (n + (128 - bits)) a ip /\ (mapped ip -> 96 <= n + (128 - bits)).
Proof.
  intros Ha Hip [[-> Hm]| ->] Hn; unfold IPNet_Contains, network, Mask, networkNumberAndMask; cbn [n_IP n_Mask].
  - change (Z.to_nat (32 / 8)) with 4%nat. rewrite CIDRMask_length, (proj1 Ha).
    assert (Hl : length (drop 12 a) = 4%nat) by (rewrite length_drop; destruct Ha; lia).
    rewrite (bool_decide_true (take 12 a = v4InV6Prefix)) by exact Hm. cbn [Nat.eqb andb]. rewrite Hl. cbn [Nat.eqb].
    unfold To4 at 1. rewrite length_zip_with, CIDRMask_length, Hl. cbn [Nat.min Nat.eqb mbind option_bind].
    rewrite length_zip_with, CIDRMask_length, Hl. cbn [Nat.min Nat.eqb default from_option id].
    rewrite (contains4 a ip n) by done. replace (n + (128 - 32)) with (n + 96) by lia. split; [|naive_solver].
    split; [done|lia].
  - change (Z.to_nat (128 / 8)) with 16%nat. rewrite CIDRMask_length, (proj1 Ha). cbn [Nat.eqb andb].
    rewrite (proj1 Ha). cbn [Nat.eqb]. replace (n + (128 - 128)) with n by lia.
    assert (Hl16 : length (zip_with Z.land a (CIDRMask n 16)) = 16%nat)
      by (rewrite length_zip_with, CIDRMask_length, (proj1 Ha); done).
    unfold To4 at 1. rewrite Hl16. cbn [Nat.eqb andb].
    destruct (decide (96 <= n /\ mapped a)) as [[H96 Hm]|Hnm].
    + rewrite bool_decide_true by (apply masked_mapped; [done|lia|done]). cbn [mbind option_bind].
      rewrite length_drop, Hl16. cbn [Nat.sub Nat.eqb default from_option id]. rewrite zip_with_drop.
      change (CIDRMask n 16) with (CIDRMask n (12 + 4)). rewrite CIDRMask_app by lia.
      rewrite drop_app_length' by (by rewrite CIDRMask_length). rewrite Z.max_r by lia.
      rewrite (contains4 a ip (n - 8 * Z.of_nat 12)) by (done || lia).
      replace (n - 8 * Z.of_nat 12 + 96) with n by lia. split; [|naive_solver]. split; [done|lia].
    + rewrite bool_decide_false by (intros Hc; apply Hnm; apply masked_mapped; [done|lia|done]).
      cbn [mbind option_bind]. rewrite Hl16. cbn [Nat.eqb default from_option id].
      rewrite (To4_ip16 ip Hip). case_decide as Hd; cbn [default from_option id].
      * rewrite length_drop, (proj1 Hip), Hl16. cbn [Nat.sub Nat.eqb andb]. split; [done|]. intros [Hs H96].
        destruct Hnm. split; [by apply H96|]. specialize (H96 Hd).
        replace n with ((n - 96) + 96) in Hs by lia. apply same_prefix_96 in Hs as [Ht _]; [|done..|lia].
        unfold mapped in *. congruence.
      * rewrite (proj1 Hip), Hl16. cbn [Nat.eqb andb]. rewrite bool_decide_eq_true, land_idem_zip.
        destruct Ha as [Hla Hba], Hip as [Hlb Hbb]. rewrite (masked_eq_len 16 a ip n Hba Hbb Hla Hlb Hn). tauto.
Qed.

(** ** Lemmas: parsing *)

Lemma undig_nonneg acc s v : 0 <= acc -> undig acc s = Some v -> 0 <= v.
Proof.
  revert acc; induction s as [|c s IH]; intros acc Hacc; cbn [undig]; [intros [= <-]; lia|].
  destruct ((48 <=? byte_of c) && (byte_of c <=? 57)) eqn:E; [|done]. breflect. apply IH. lia.
Qed.

Lemma octet_byte s v : octet s = Some v -> is_byte v.
Proof.
  destruct s as [|c s]; [done|]. unfold octet. do 2 (case_match; [done|]).
  destruct (undig 0 (String c s)) as [v'|] eqn:E; [|done]. cbn [mbind option_bind].
  destruct (Z.leb_spec v' 255); [|done]. intros [= <-]. apply undig_nonneg in E; [|lia]. unfold is_byte. lia.
Qed.

Lemma parseIPv4_ok s q : parseIPv4 s = Some q -> length q = 4%nat /\ Forall is_byte q.
Proof.
  unfold parseIPv4. destruct (Split s dot) as [|a [|b [|c [|d [|]]]]]; try done.
  destruct (octet a) eqn:Ea, (octet b) eqn:Eb, (octet c) eqn:Ec, (octet d) eqn:Ed; try done.
  intros [= <-]. split; [done|]. repeat constructor; eapply octet_byte; eassumption.
Qed.

Lemma hexval_range c d : hexval c = Some d -> 0 <= d < 16.
Proof. unfold hexval. repeat case_match; intros [= <-]; breflect; lia. Qed.

Lemma hex_group_range n acc s n' acc' r :
  hex_group n acc s = (n', acc', r) -> 0 <= acc < 2 ^ (4 * Z.of_nat n) -> 0 <= acc' < 2 ^ (4 * Z.of_nat n').
Proof.
  revert n acc; induction s as [|c s IH]; intros n acc; cbn [hex_group]; [by intros [= <- <- <-]|].
  destruct (hexval c) as [d|] eqn:Ed; [|by intros [= <- <- <-]]. intros Hg Hacc. apply (IH _ _ Hg).
  apply hexval_range in Ed. replace (4 * Z.of_nat (S n)) with (4 + 4 * Z.of_nat n) by lia.
  rewrite Z.pow_add_r by lia. change (2 ^ 4) with 16. lia.
Qed.

Lemma word_bytes acc : 0 <= acc < 65536 -> Forall is_byte [acc / 256; acc mod 256].
Proof.
  intros H. repeat constructor; try apply Z.mod_pos_bound; try lia;
    [apply Z.div_pos; lia|apply Z.div_lt_upper_bound; lia].
Qed.

(** The loop keeps bytes within the room there is, and the ellipsis within the bytes. *)
Lemma v6_loop_ok fuel ip ell s ip' ell' s' :
  v6_loop fuel ip ell s = Some (ip', ell', s') ->
  (length ip + 2 * fuel = 16)%nat -> Forall is_byte ip -> (forall e, ell = Some e -> (e <= length ip)%nat) ->
  (length ip' <= 16)%nat /\ Forall is_byte ip' /\ (forall e, ell' = Some e -> (e <= length ip')%nat).
Proof.
  revert ip ell s; induction fuel as [|fuel IH]; intros ip ell s; cbn [v6_loop].
  { intros [= <- <- <-] Hl Hb He. split; [lia|done]. }
  destruct (hex_group 0 0 s) as [[n acc] rest] eqn:Hg.
  destruct ((n =? 0)%nat || (4 <? n)%nat) eqn:Hn; [done|]. apply orb_false_iff in Hn as [_ Hn]. apply Nat.ltb_ge in Hn.
  apply hex_group_range in Hg; [|cbn; lia].
  assert (Hacc : 0 <= acc < 65536).
  { split; [lia|]. apply Z.lt_le_trans with (2 ^ (4 * Z.of_nat n)); [lia|].
    change 65536 with (2 ^ 16). apply Z.pow_le_mono_r; lia. }
  intros Hv Hl Hb He. pose proof (Forall_app_2 _ _ _ Hb (word_bytes acc Hacc)) as Hb'.
  set (ip1 := ip ++ [acc / 256; acc mod 256]) in *.
  assert (Hl1 : length ip1 = (length ip + 2)%nat) by (unfold ip1; rewrite length_app; done).
  assert (He1 : forall e, ell = Some e -> (e <= length ip1)%nat) by (intros e Hq%He; lia).
  destruct (HasPrefix rest ".").
  - destruct (match ell with None => _ | Some _ => _ end) eqn:Hroom; [done|].
    destruct (parseIPv4 s) as [q|] eqn:Hq; [|done]. cbn in Hv. injection Hv as <- <- <-.
    apply parseIPv4_ok in Hq as [Hql Hqb]. rewrite length_app, Hql. split; [|split; [by apply Forall_app_2|]].
    + destruct ell; [apply Nat.ltb_ge in Hroom; lia|]. apply negb_false_iff, Nat.eqb_eq in Hroom. lia.
    + intros e Hell%He. lia.
  - destruct rest as [|c rest]; [injection Hv as <- <- <-; split; [lia|done]|].
    destruct (negb _); [done|]. destruct rest as [|c' rest]; [done|].
    destruct (Ascii.eqb c' ":").
    + destruct ell; [done|]. destruct (String.eqb rest "").
      * injection Hv as <- <- <-. split; [lia|]. split; [done|]. by intros e [= <-].
      * apply (IH _ _ _ Hv); [lia|done|]. by intros e [= <-].
    + apply (IH _ _ _ Hv); [lia|done..].
Qed.

Lemma parseIPv6_ok s ip : parseIPv6 s = Some ip -> ip16 ip.
Proof.
  unfold parseIPv6, ip16. cbv zeta. set (s' := if HasPrefix s "::" then sdrop 2 s else s).
  destruct (HasPrefix s "::" && String.eqb s' "").
  { intros [= <-]. split; [done|]. apply Forall_replicate. unfold is_byte. lia. }
  destruct (v6_loop _ _ _ _) as [[[b ell] [|]]|] eqn:Hv; try done.
  apply v6_loop_ok in Hv as (Hl & Hb & He); [|done|constructor|by destruct (HasPrefix s "::"); intros e [= <-]; cbn; lia].
  destruct (Nat.ltb_spec (length b) 16).
  - destruct ell as [e|]; [|done]. specialize (He e eq_refl). intros [= <-]. split.
    + unfold zero_bytes. rewrite !length_app, length_take, length_replicate, length_drop. lia.
    + apply Forall_app_2; [by apply Forall_take|]. apply Forall_app_2; [|by apply Forall_drop].
      apply Forall_replicate. unfold is_byte. lia.
  - destruct ell; [done|]. intros [= <-]. split; [lia|done].
Qed.

Lemma ParseAddr_ok s bits ip :
  ParseAddr s = Some (bits, ip) -> ip16 ip /\ ((bits = 32 /\ mapped ip) \/ bits = 128).
Proof.
  unfold ParseAddr. destruct (has_char _ s); [done|]. destruct (address_kind s) as [c|]; [|done].
  destruct (Ascii.eqb c ".").
  - destruct (parseIPv4 s) as [q|] eqn:Hq; [|done]. cbn [fmap option_fmap option_map]. intros [= <- <-].
    apply parseIPv4_ok in Hq as [Hl Hb]. split; [|by left]. split; [cbn; lia|].
    cbn. repeat (apply Forall_cons; split; [unfold is_byte; lia|]). done.
  - destruct (parseIPv6 s) as [b|] eqn:Hq; [|done]. intros [= <- <-]. split; [by apply (parseIPv6_ok s)|by right].
Qed.

Lemma ParseIP_ok s ip : ParseIP s = Some ip -> ip16 ip.
Proof.
  unfold ParseIP. destruct (ParseAddr s) as [[bits b]|] eqn:E; [|done]. intros [= <-].
  by destruct (ParseAddr_ok _ _ _ E).
Qed.

Lemma parse_len_nonneg mask n : parse_len mask = Some n -> 0 <= n.
Proof. unfold parse_len. destruct (String.eqb mask ""); [done|]. by apply undig_nonneg. Qed.

Lemma ParseCIDR_network s net :
  ParseCIDR s = Some net ->
  exists addr mask bits a n, s = addr +:+ String slash mask /\ has_char slash addr = false /\
    ParseAddr addr = Some (bits, a) /\ parse_len mask = Some n /\ 0 <= n <= bits /\ net = network bits a n.
Proof.
  unfold ParseCIDR. destruct (cut slash s) as [[addr mask]|] eqn:Hc; [|done].
  destruct (ParseAddr addr) as [[bits a]|] eqn:Ha; [|done]. cbn [mbind option_bind].
  destruct (parse_len mask) as [n|] eqn:Hn; [|done]. cbn [mbind option_bind].
  destruct (Z.leb_spec n bits); [|done]. intros [= <-]. exists addr, mask, bits, a, n.
  apply cut_Some in Hc as [-> Hc]. split_and!; try done. by eapply parse_len_nonneg.
Qed.

Lemma ParseCIDR_make addr mask bits a n :
  has_char slash addr = false -> ParseAddr addr = Some (bits, a) -> parse_len mask = Some n -> n <= bits ->
  ParseCIDR (addr +:+ String slash mask) = Some (network bits a n).
Proof.
  intros Hs Ha Hn Hle. unfold ParseCIDR. rewrite (proj2 (cut_Some slash _ addr mask)) by done.
  rewrite Ha. cbn [mbind option_bind]. rewrite Hn. cbn [mbind option_bind]. by rewrite (proj2 (Z.leb_le n bits)).
Qed.
