(* ===== verification/Catalog.v ===== *)
(** * The catalog client

    [internal/catalog]: the errors the client distinguishes ([client.go]), the requests it
    makes, the signed announcements ([signing.go]) and the health state. The HTTP exchange
    (what the catalog answers) and the Schnorr signature are parameters, since neither is
    code of this repository; the SHA-256 of the signed message is computed. *)

From S2P Require Import Prelude GoStrings GoHttp GoTime Config Sha256.
Open Scope Z_scope.

(** ** Errors *)

(** What [errors.Is] can tell apart, with the errors that match none of the sentinels (no
    connection, undecodable answer) as [ErrOther]. *)
Inductive catalog_err :=
| ErrNotFound | ErrUnauthorized | ErrConflict | ErrBadRequest | ErrServer
| ErrUnexpected (status : Z)
| ErrUnconfigured
| ErrOther (msg : string).

Definition statusError (status : Z) : catalog_err :=
  if status =? 400 then ErrBadRequest
  else if (status =? 401) || (status =? 403) then ErrUnauthorized
  else if status =? 404 then ErrNotFound
  else if status =? 409 then ErrConflict
  else if 500 <=? status then ErrServer
  else ErrUnexpected status.

Definition catalogResult (status : Z) : string :=
  if (status =? 401) || (status =? 403) then "unauthorized"
  else if status =? 404 then "rejected"
  else if 500 <=? status then "server_error"
  else if 400 <=? status then "client_error"
  else "ok".

(** ** Identity and messages *)

(** What the client uses of the provider's identity; [K] is the type of private keys. *)
Record Identity (K : Type) := MkIdentity {
  ProviderID : string;
  PublicKeyHex : string;
  PrivateKey : K;
}.
Arguments ProviderID {K} _.
Arguments PublicKeyHex {K} _.
Arguments PrivateKey {K} _.

Record EnsureProviderRequest := MkEnsure {
  ep_ProviderID : string;
  ep_PublicKey : string;
  ep_Transport : string;
  ep_BaseURL : string;
  ep_Region : string;
}.

Record AnnounceRequest := MkAnnounce {
  ar_AssetID : string;
  ar_Transport : string;
  ar_BaseURL : string;
  ar_Priority : Z;
  ar_ExpiresInSeconds : Z;
  ar_ExpiresAt : Z;
  ar_Nonce : string;
  ar_Signature : string;
}.

Definition bar : Ascii.ascii := "|"%char.

Definition buildSignatureMessage (providerID assetID transport baseURL : string) (expiresAt : Z)
    (nonce : string) : string :=
  providerID +:+ "|" +:+ assetID +:+ "|" +:+ transport +:+ "|" +:+ baseURL +:+ "|" +:+
  Itoa expiresAt +:+ "|" +:+ nonce.

Inductive build_err := ErrNoPublicURL | ErrNoAssetID | ErrNonce (msg : string) | ErrSigning (msg : string).

Section Signing.
Context {K : Type}.

(** [schnorr.Sign]: the 64 bytes of the signature of a 32-byte hash, or an error. *)
Variable schnorr_Sign : K -> list Z -> result string (list Z).

(** [nonce] is what one read of the nonce source gives. *)
Definition BuildAnnouncement (nonce : result string (list Z)) (id : Identity K) (cfg : Config)
    (assetID : string) (now : Z) : result build_err AnnounceRequest :=
  guard_err (String.eqb (TrimSpace (PublicBaseURL cfg)) "") ErrNoPublicURL;;
  guard_err (String.eqb (TrimSpace assetID) "") ErrNoAssetID;;
  nonceBytes ← match nonce with Ok b => Ok b | Err m => Err (ErrNonce m) end;
  let nonceHex := hexEncode nonceBytes in
  let baseURL := TrimRightFunc (Ascii.eqb slash) (PublicBaseURL cfg) +:+ "/assets/" +:+ assetID in
  let expiresAt := Unix (TimeAdd now (durationOf (AnnounceExpiresSeconds cfg) Second)) in
  let message := buildSignatureMessage (ProviderID id) assetID (Transport cfg) baseURL expiresAt nonceHex in
  let hash := sha256 (bytes_of message) in
  sig ← match schnorr_Sign (PrivateKey id) hash with Ok b => Ok b | Err m => Err (ErrSigning m) end;
  Ok (MkAnnounce assetID (Transport cfg) baseURL (AnnouncePriority cfg) (AnnounceExpiresSeconds cfg)
        expiresAt nonceHex (hexEncode sig)).
End Signing.

(** ** The client *)

Inductive payload := PEnsure (r : EnsureProviderRequest) | PAnnounce (r : AnnounceRequest).

(** What decoding the answer's JSON body gives. *)
Inductive decoded := DecOk (status : string) | DecEOF | DecErr (msg : string).

Record catalog_resp := MkCatResp { cr_status : Z; cr_body : decoded }.

(** One observation of the catalog metrics: endpoint, result label and status. *)
Definition cat_obs : Type := string * string * Z.

Definition NewClient (url_Parse : string -> option URL) (rawBaseURL : string) (timeout : Z)
  : result catalog_err (URL * Z) :=
  let trimmed := TrimSpace rawBaseURL in
  if String.eqb trimmed "" then Err ErrUnconfigured
  else match url_Parse trimmed with
       | None => Err (ErrOther "parse catalog base url")
       | Some u =>
           if String.eqb (u_scheme u) "" || String.eqb (u_host u) ""
           then Err (ErrOther "invalid catalog base url")
           else Ok (u, if timeout <=? 0 then 10 * Second else timeout)
       end.

(** [path.Join] of the parts, one at a time, below the base URL's path. *)
Definition joinPath (baseURL : URL) (parts : list string) : URL :=
  let joined := foldl (fun joined p => Join [joined; p]) "" parts in
  MkURL (u_scheme baseURL) (u_host baseURL) (Join [u_path baseURL; joined]).

Section Client.
Context {K : Type}.

(** One POST of a JSON payload: the catalog's answer, or the error of the exchange. *)
Variable post : URL -> payload -> result string catalog_resp.

Definition doJSON (endpoint : URL) (p : payload) : result catalog_err catalog_resp :=
  match post endpoint p with Ok r => Ok r | Err m => Err (ErrOther m) end.

Definition success (status : Z) : bool := (200 <=? status) && (status <? 300).

Definition EnsureProvider (baseURL : URL) (id : Identity K) (cfg : Config)
  : result catalog_err unit * list cat_obs :=
  let endpointLabel := "providers_register" in
  if String.eqb (TrimSpace (PublicBaseURL cfg)) "" then
    (Err (ErrOther "public base url is required"), [(endpointLabel, "error", 0)])
  else
    let reqBody := MkEnsure (ProviderID id) (PublicKeyHex id) (Transport cfg) (PublicBaseURL cfg) (Region cfg) in
    match doJSON (joinPath baseURL ["/v1/providers"]) (PEnsure reqBody) with
    | Err e => (Err e, [(endpointLabel, "error", 0)])
    | Ok resp =>
        if negb (success (cr_status resp)) then
          (Err (statusError (cr_status resp)), [(endpointLabel, catalogResult (cr_status resp), cr_status resp)])
        else (Ok tt, [(endpointLabel, "ok", cr_status resp)])
    end.

Definition Announce (baseURL : URL) (id : Identity K) (req : AnnounceRequest)
  : result catalog_err string * list cat_obs :=
  let endpointLabel := "providers_announce" in
  match doJSON (joinPath baseURL ["/v1/providers"; ProviderID id; "announce"]) (PAnnounce req) with
  | Err e => (Err e, [(endpointLabel, "error", 0)])
  | Ok resp =>
      if negb (success (cr_status resp)) then
        (Err (statusError (cr_status resp)), [(endpointLabel, catalogResult (cr_status resp), cr_status resp)])
      else match cr_body resp with
           | DecErr m => (Err (ErrOther m), [(endpointLabel, "error", cr_status resp)])
           | DecEOF => (Ok "", [(endpointLabel, "ok", cr_status resp)])
           | DecOk s => (Ok s, [(endpointLabel, "ok", cr_status resp)])
           end
  end.
End Client.

(** ** Health *)

Record HealthState := MkHealth { hs_enabled : bool; hs_lastErr : string }.

Definition NewHealthState (enabled : bool) : HealthState := MkHealth enabled "".

(** [err] is the error's message, if there is an error. *)
Definition Set_ (err : option string) (s : HealthState) : HealthState :=
  MkHealth (hs_enabled s) (default "" err).

Definition Snapshot (s : HealthState) : bool * string := (hs_enabled s, hs_lastErr s).

(** ** Theorems *)

Definition no_bar (s : string) : Prop := has_char bar s = false.

Lemma no_bar_hex bs : Forall is_byte bs -> no_bar (hexEncode bs).
Proof. intros Hb. unfold no_bar. eapply sall_has_char; [|by apply hexEncode_hex]. done. Qed.

Lemma no_bar_Itoa z : no_bar (Itoa z).
Proof. unfold no_bar. eapply sall_has_char; [|apply Itoa_chars]. done. Qed.

(** The text an announcement's signature is over. *)
Definition signed_message {K} (id : Identity K) (r : AnnounceRequest) : string :=
  buildSignatureMessage (ProviderID id) (ar_AssetID r) (ar_Transport r) (ar_BaseURL r)
                        (ar_ExpiresAt r) (ar_Nonce r).

Lemma message_inj p a t b e n p' a' t' b' e' n' :
  no_bar p -> no_bar a -> no_bar t -> no_bar n -> no_bar p' -> no_bar a' -> no_bar t' -> no_bar n' ->
  buildSignatureMessage p a t b e n = buildSignatureMessage p' a' t' b' e' n' ->
  p = p' /\ a = a' /\ t = t' /\ b = b' /\ e = e' /\ n = n'.
Proof.
  unfold buildSignatureMessage. intros Hp Ha Ht Hn Hp' Ha' Ht' Hn' E.
  apply (sep_left_inj bar) in E as [-> E]; [|done..].
  apply (sep_left_inj bar) in E as [-> E]; [|done..].
  apply (sep_left_inj bar) in E as [-> E]; [|done..].
  assert (F : forall x y z, x +:+ "|" +:+ Itoa y +:+ "|" +:+ z = (x +:+ String bar (Itoa y)) +:+ String bar z).
  { intros. by rewrite sapp_assoc. }
  assert (E' : b +:+ "|" +:+ Itoa e +:+ "|" +:+ n = b' +:+ "|" +:+ Itoa e' +:+ "|" +:+ n') by exact E.
  rewrite !F in E'.
  apply (sep_right_inj bar) in E' as [E' ->]; [|done..].
  apply (sep_right_inj bar) in E' as [-> E']; [|apply no_bar_Itoa..].
  apply Itoa_inj in E' as ->. done.
Qed.

Lemma BuildAnnouncement_Ok {K} (sign : K -> list Z -> result string (list Z)) nonce id cfg a now r :
  BuildAnnouncement sign nonce id cfg a now = Ok r ->
  exists bs sig, nonce = Ok bs /\ TrimSpace (PublicBaseURL cfg) <> "" /\ TrimSpace a <> "" /\
    sign (PrivateKey id) (sha256 (bytes_of (signed_message id r))) = Ok sig /\
    ar_Signature r = hexEncode sig /\ ar_AssetID r = a /\ ar_Transport r = Transport cfg /\
    ar_BaseURL r = TrimRightFunc (Ascii.eqb slash) (PublicBaseURL cfg) +:+ "/assets/" +:+ a /\
    ar_ExpiresAt r = Unix (TimeAdd now (durationOf (AnnounceExpiresSeconds cfg) Second)) /\
    ar_Nonce r = hexEncode bs.
Proof.
  unfold BuildAnnouncement. intros Hb. inv_ok.
  destruct nonce as [bs|]; inv_ok.
  destruct (sign _ _) as [sig|] eqn:Es; inv_ok. do 2 eexists.
  repeat match goal with H : String.eqb _ _ = false |- _ => apply String.eqb_neq in H end.
  split; [reflexivity|]. split_and!; try done.
Qed.

(** C38: what is signed of an announcement. The signature is the signer's on the SHA-256 of a text,
    and two announcements have the same text if and only if they agree on provider id, asset,
    transport, base URL, expiry and nonce: these fields cannot be moved into one another, and nothing
    else is signed, in particular not the priority and the lifetime in seconds. It is assumed that
    provider ids, asset ids and transports contain no bar; the base URL may contain anything, and the
    code itself makes the expiry and the nonce free of bars. *)
Theorem announcement_binding {K} (sign : K -> list Z -> result string (list Z))
    bs bs' (id id' : Identity K) cfg cfg' a a' now now' r r' :
  BuildAnnouncement sign (Ok bs) id cfg a now = Ok r ->
  BuildAnnouncement sign (Ok bs') id' cfg' a' now' = Ok r' ->
  Forall is_byte bs -> Forall is_byte bs' ->
  no_bar (ProviderID id) -> no_bar (ProviderID id') -> no_bar a -> no_bar a' ->
  no_bar (Transport cfg) -> no_bar (Transport cfg') ->
  (exists sig, sign (PrivateKey id) (sha256 (bytes_of (signed_message id r))) = Ok sig /\ ar_Signature r = hexEncode sig) /\
  (signed_message id r = signed_message id' r' <->
   ProviderID id = ProviderID id' /\ a = a' /\ ar_Transport r = ar_Transport r' /\
   ar_BaseURL r = ar_BaseURL r' /\ ar_ExpiresAt r = ar_ExpiresAt r' /\ bs = bs').
Proof.
  intros (b & sg & Eb & _ & _ & Hs & Hsig & Ea & Et & _ & _ & En)%BuildAnnouncement_Ok.
  intros (b' & sg' & Eb' & _ & _ & _ & _ & Ea' & Et' & _ & _ & En')%BuildAnnouncement_Ok.
  assert (b = bs) as -> by congruence. assert (b' = bs') as -> by congruence.
  intros Hb Hb' Hp Hp' Ha Ha' Ht Ht'. split; [eauto|]. split.
  - intros E. assert (no_bar (ar_Nonce r)) by (rewrite En; by apply no_bar_hex).
    assert (no_bar (ar_Nonce r')) by (rewrite En'; by apply no_bar_hex).
    apply message_inj in E as (? & ? & ? & ? & ? & E); [|congruence..].
    rewrite En, En' in E. apply hexEncode_inj in E; [|done..]. split_and!; congruence.
  - intros (Hid & -> & Htr & Hu & Hx & ->). unfold signed_message. congruence.
Qed.

(** An announcement is a valid offer of the asset it names. When [BuildAnnouncement]
    succeeds, the asset is offered below the public URL under the very path the asset handler
    serves, it expires exactly the configured number of seconds after now (for lifetimes that
    fit a duration), its nonce is the hexadecimal form of the random bytes, and its signature is
    the Schnorr signature of the SHA-256 of exactly its own fields. *)
Theorem announcement_content {K} (sign : K -> list Z -> result string (list Z))
    bs (id : Identity K) cfg a now r :
  BuildAnnouncement sign (Ok bs) id cfg a now = Ok r ->
  0 <= AnnounceExpiresSeconds cfg <= 9223372036 ->
  (exists base, ar_BaseURL r = base +:+ "/assets/" +:+ a /\ HasSuffix base "/" = false) /\
  ar_ExpiresAt r = Unix now + AnnounceExpiresSeconds cfg /\
  ar_Nonce r = hexEncode bs /\
  exists sig, sign (PrivateKey id) (sha256 (bytes_of (signed_message id r))) = Ok sig /\
              ar_Signature r = hexEncode sig.
Proof.
  intros (b & sig & Eb & _ & _ & Hs & Hsig & _ & _ & Hbase & Hexp & Hn)%BuildAnnouncement_Ok Hr.
  assert (b = bs) as -> by congruence.
  split; [|split; [|split; [done|eauto]]].
  - eexists. split; [exact Hbase|]. apply TrimRightFunc_suffix.
  - rewrite Hexp. unfold durationOf, TimeAdd, Unix, Second.
    rewrite wrap64_id by (unfold in_int64, int64_min, int64_max; lia). by rewrite Z.div_add.
Qed.

(** Failed catalog calls are told apart by status, and the metric label agrees with the
    error for every client or server error; but a status below 200 or from 300 to 399 fails
    the call as unexpected while the metrics record it as [ok]. *)
Theorem catalog_labels status :
  success status = false ->
  (statusError status = ErrUnauthorized <-> catalogResult status = "unauthorized") /\
  (statusError status = ErrNotFound <-> catalogResult status = "rejected") /\
  (statusError status = ErrServer <-> catalogResult status = "server_error") /\
  (statusError status = ErrBadRequest \/ statusError status = ErrConflict ->
     catalogResult status = "client_error") /\
  (status < 400 -> statusError status = ErrUnexpected status /\ catalogResult status = "ok").
Proof.
  unfold success, statusError, catalogResult. intros Hs.
  destruct (Z.eqb_spec status 400) as [->|]; [cbn; naive_solver lia|].
  destruct (Z.eqb_spec status 401) as [->|]; [cbn; naive_solver lia|].
  destruct (Z.eqb_spec status 403) as [->|]; [cbn; naive_solver lia|].
  destruct (Z.eqb_spec status 404) as [->|]; [cbn; naive_solver lia|].
  destruct (Z.eqb_spec status 409) as [->|]; [cbn; naive_solver lia|].
  destruct (Z.leb_spec 500 status); [cbn; naive_solver lia|].
  destruct (Z.leb_spec 400 status); cbn; naive_solver lia.
Qed.

(** ** Witnesses *)

Module CatalogDemo.
#[local] Instance demo_lower : UnicodeLower := fun s => s.
Definition sign (k : Z) (h : list Z) : result string (list Z) := Ok [k; 255].
Definition id : Identity Z := MkIdentity _ "p1" "02ab" 7.
Definition cfg : Config := Load {[ "PROVIDER_PUBLIC_BASE_URL" := "https://p.example//" ]}.
Definition req (now : Z) : AnnounceRequest :=
  MkAnnounce "a1" "https" "https://p.example/assets/a1" 10 604800 (Unix now + 604800) "00ff" "07ff".

Lemma announcement_binding_witness :
  BuildAnnouncement sign (Ok [0; 255]) id cfg "a1" 5 = Ok (req 5) /\
  (signed_message id (req 5) = signed_message id (req 6) -> ar_ExpiresAt (req 5) = ar_ExpiresAt (req 6)).
Proof.
  assert (H5 : BuildAnnouncement sign (Ok [0; 255]) id cfg "a1" 5 = Ok (req 5)) by (vm_compute; reflexivity).
  split; [exact H5|].
  assert (Hb : Forall is_byte [0; 255]) by (repeat constructor; unfold is_byte; lia).
  intros E. apply (announcement_binding sign [0; 255] [0; 255] id id cfg cfg "a1" "a1" 5 6 (req 5) (req 6));
    [exact H5|vm_compute; reflexivity|exact Hb|exact Hb|vm_compute; reflexivity..|exact E].
Defined.

Lemma announcement_content_witness :
  BuildAnnouncement sign (Ok [0; 255]) id cfg "a1" 0 = Ok (req 0) /\
  ar_ExpiresAt (req 0) = Unix 0 + AnnounceExpiresSeconds cfg.
Proof.
  assert (H0 : BuildAnnouncement sign (Ok [0; 255]) id cfg "a1" 0 = Ok (req 0)) by (vm_compute; reflexivity).
  split; [exact H0|].
  apply (announcement_content sign [0; 255] id cfg "a1" 0 (req 0)); [exact H0|].
  change (AnnounceExpiresSeconds cfg) with 604800. lia.
Defined.

Lemma catalog_labels_witness : statusError 304 = ErrUnexpected 304 /\ catalogResult 304 = "ok".
Proof. apply (catalog_labels 304); [reflexivity|lia]. Defined.
End CatalogDemo.
