(* ===== verification/Identity.v ===== *)
(** * The provider's identity: [internal/identity]

    The identity (a UUID and a secp256k1 key pair), its file format, loading and saving the file
    through the operating system with every call fallible, and creating it on the first start.
    The UUID and curve packages are third-party: they are classes with the documented laws the code
    relies on. The key file must never be readable by others, never be half-written and never be
    overwritten; the theorems say so for every point at which the process may stop. *)

From S2P Require Import Prelude GoStrings GoHttp GoTime Sha256 GoJson Catalog.

Open Scope Z_scope.

(** ** Third-party packages *)

(** [github.com/google/uuid]. *)
Class UuidOps := {
  UUID : Type;
  uuid_String : UUID -> string;
  uuid_Parse : string -> result string UUID;
}.

(** A UUID prints as lower-case hexadecimal with dashes, which parses back. *)
Class UuidLaws `{UuidOps} : Prop := {
  uuid_roundtrip : forall u, uuid_Parse (uuid_String u) = Ok u;
  uuid_chars : forall u, sall (fun c => is_hex c || Ascii.eqb c "-") (uuid_String u) = true;
}.

(** [github.com/btcsuite/btcd/btcec/v2]. *)
Class BtcecOps := {
  PrivKey : Type;
  PubKey : Type;
  PrivKeyFromBytes : list Z -> PrivKey * PubKey;
  key_IsZero : PrivKey -> bool;
  Serialize : PrivKey -> list Z;
  priv_PubKey : PrivKey -> PubKey;
  SerializeCompressed : PubKey -> list Z;
  ParsePubKey : list Z -> result string PubKey;
}.

Class BtcecLaws `{BtcecOps} : Prop := {
  priv_bytes : forall k, length (Serialize k) = 32%nat /\ Forall is_byte (Serialize k);
  pub_bytes : forall p, length (SerializeCompressed p) = 33%nat /\ Forall is_byte (SerializeCompressed p);
  priv_roundtrip : forall k, (PrivKeyFromBytes (Serialize k)).1 = k;
  derived_pub : forall b, (PrivKeyFromBytes b).2 = priv_PubKey (PrivKeyFromBytes b).1;
  pub_parses : forall k, key_IsZero k = false -> is_ok (ParsePubKey (SerializeCompressed (priv_PubKey k))) = true;
}.

(** ** The identity and its errors *)

Inductive id_err :=
| ErrNotFound
| ErrCtx
| ErrRead (msg : string)
| ErrDecodeJSON
| ErrTrailingData
| ErrProviderID (msg : string)
| ErrCreatedAt
| ErrPrivHex
| ErrPrivLength (n : nat)
| ErrPrivZero
| ErrPubHex
| ErrPubLength (n : nat)
| ErrPubInvalid (msg : string)
| ErrKeyMismatch
| ErrMkdir (msg : string)
| ErrCreateTemp (msg : string)
| ErrChmod (msg : string)
| ErrWrite (msg : string)
| ErrSync (msg : string)
| ErrClose (msg : string)
| ErrRename (msg : string)
| ErrNewKey (msg : string)
| ErrLoadIdentity (e : id_err)
| ErrCreateIdentity (e : id_err)
| ErrSaveIdentity (e : id_err).

Section Identity.
Context `{UuidOps} `{BtcecOps} `{TimeParseLenient}.

Record FullIdentity := MkFull {
  id_ProviderID : UUID;
  id_PrivateKey : PrivKey;
  id_PublicKey : PubKey;
  id_CreatedAt : Z;
}.

Definition PublicKeyHexCompressed (i : FullIdentity) : string :=
  hexEncode (SerializeCompressed (id_PublicKey i)).

Definition Fingerprint (i : FullIdentity) : string :=
  ssub 0 8 (hexEncode (sha256 (SerializeCompressed (id_PublicKey i)))).

(** What the catalog client and the signer see of it. *)
Definition catalog_view (i : FullIdentity) : Identity PrivKey :=
  MkIdentity PrivKey (uuid_String (id_ProviderID i)) (PublicKeyHexCompressed i) (id_PrivateKey i).

(** [newIdentity]: [key] is what [btcec.NewPrivateKey] returns, [u] what [uuid.New] returns, [now] the
    clock. *)
Definition newIdentity (key : result string PrivKey) (u : UUID) (now : Z) : result id_err FullIdentity :=
  priv ← match key with Ok k => Ok k | Err m => Err (ErrNewKey m) end;
  Ok (MkFull u priv (priv_PubKey priv) now).

(** [hex.DecodeString]. *)
Fixpoint hexDecode (s : string) : option (list Z) :=
  match s with
  | EmptyString => Some []
  | String _ EmptyString => None
  | String a (String b s') =>
      x ← hex_value a; y ← hex_value b; l ← hexDecode s'; Some (x * 16 + y :: l)
  end.

Definition parseProviderID (value : string) : result id_err UUID :=
  match uuid_Parse value with Ok u => Ok u | Err m => Err (ErrProviderID m) end.

Definition parseCreatedAt (value : string) : result id_err Z :=
  match ParseRFC3339 value with Some t => Ok t | None => Err ErrCreatedAt end.

Definition parsePrivateKeyHex (value : string) : result id_err (PrivKey * PubKey) :=
  privBytes ← match hexDecode value with Some b => Ok b | None => Err ErrPrivHex end;
  guard_err (negb (Nat.eqb (length privBytes) 32)) (ErrPrivLength (length privBytes));;
  let '(priv, derivedPub) := PrivKeyFromBytes privBytes in
  guard_err (key_IsZero priv) ErrPrivZero;;
  Ok (priv, derivedPub).

Definition parsePublicKeyHexCompressed (value : string) : result id_err (list Z) :=
  pubBytes ← match hexDecode value with Some b => Ok b | None => Err ErrPubHex end;
  guard_err (negb (Nat.eqb (length pubBytes) 33)) (ErrPubLength (length pubBytes));;
  match ParsePubKey pubBytes with
  | Err m => Err (ErrPubInvalid m)
  | Ok _ => Ok pubBytes
  end.

Definition validatePubKeyMatchesPrivate (derivedPub : PubKey) (storedPub : list Z) : result id_err unit :=
  guard_err (negb (bool_decide (SerializeCompressed derivedPub = storedPub))) ErrKeyMismatch.

(** ** The file format *)

Record fileIdentity := MkFileId {
  fi_ProviderID : string;
  fi_PublicKey : string;
  fi_PrivateKey : string;
  fi_CreatedAt : string;
}.

Definition fields_of (f : fileIdentity) : list (string * string) :=
  [("provider_id", fi_ProviderID f); ("public_key", fi_PublicKey f);
   ("private_key", fi_PrivateKey f); ("created_at", fi_CreatedAt f)].

Definition set_member (f : fileIdentity) (kv : string * jvalue) : option fileIdentity :=
  let '(k, v) := kv in
  n ← field_of (fst <$> fields_of f) k;
  if String.eqb n "provider_id" then
    s ← into_string v (fi_ProviderID f); Some (MkFileId s (fi_PublicKey f) (fi_PrivateKey f) (fi_CreatedAt f))
  else if String.eqb n "public_key" then
    s ← into_string v (fi_PublicKey f); Some (MkFileId (fi_ProviderID f) s (fi_PrivateKey f) (fi_CreatedAt f))
  else if String.eqb n "private_key" then
    s ← into_string v (fi_PrivateKey f); Some (MkFileId (fi_ProviderID f) (fi_PublicKey f) s (fi_CreatedAt f))
  else
    s ← into_string v (fi_CreatedAt f); Some (MkFileId (fi_ProviderID f) (fi_PublicKey f) (fi_PrivateKey f) s).

Fixpoint set_members (f : fileIdentity) (ms : list (string * jvalue)) : option fileIdentity :=
  match ms with
  | [] => Some f
  | kv :: ms' => f' ← set_member f kv; set_members f' ms'
  end.

(** [Decode(&stored)] with [DisallowUnknownFields]: null leaves the zero value, the last of several
    members with one name wins, an unknown member or a value that is no string is an error. *)
Definition decode_stored (v : jvalue) : option fileIdentity :=
  let zero := MkFileId "" "" "" "" in
  match v with
  | JNull => Some zero
  | JObj ms => set_members zero ms
  | _ => None
  end.

Definition stored_of (i : FullIdentity) : fileIdentity :=
  MkFileId (uuid_String (id_ProviderID i)) (PublicKeyHexCompressed i)
    (hexEncode (Serialize (id_PrivateKey i))) (FormatRFC3339 (id_CreatedAt i)).

Definition encode_identity (i : FullIdentity) : string := MarshalIndent (fields_of (stored_of i)) +:+ newline.

(** [Load] from the point where the file has been read. The second [Decode] must meet the end of the
    input: nothing but space may follow the first value. *)
Definition decode_identity (raw : string) : result id_err FullIdentity :=
  '(stored, rest) ← match parse_json raw with
                    | None => Err ErrDecodeJSON
                    | Some (v, rest) => match decode_stored v with
                                        | None => Err ErrDecodeJSON
                                        | Some f => Ok (f, rest)
                                        end
                    end;
  guard_err (negb (String.eqb (skip_space rest) "")) ErrTrailingData;;
  providerID ← parseProviderID (fi_ProviderID stored);
  createdAt ← parseCreatedAt (fi_CreatedAt stored);
  '(priv, derivedPub) ← parsePrivateKeyHex (fi_PrivateKey stored);
  pubBytes ← parsePublicKeyHexCompressed (fi_PublicKey stored);
  validatePubKeyMatchesPrivate derivedPub pubBytes;;
  Ok (MkFull providerID priv derivedPub createdAt).
End Identity.
Global Arguments decode_identity : simpl never.
Global Arguments encode_identity : simpl never.

(** ** Lemmas on the file format *)

Lemma hex_value_digit n : 0 <= n < 16 -> hex_value (hex_digit n) = Some n.
Proof.
  intros Hn. unfold hex_value, between. rewrite (hex_digit_byte _ Hn).
  destruct (Z.ltb_spec n 10).
  - by rewrite !(proj2 (Z.leb_le _ _)), Z.add_simpl_l by lia.
  - rewrite (proj2 (Z.leb_gt (87 + n) 57)), andb_false_r by lia.
    by rewrite !(proj2 (Z.leb_le _ _)), Z.add_simpl_l by lia.
Qed.

Lemma hexDecode_hexEncode bs : Forall is_byte bs -> hexDecode (hexEncode bs) = Some bs.
Proof.
  induction 1 as [|b bs Hb _ IH]; [done|]. destruct (nibbles b Hb) as (H1 & H2 & H3).
  cbn [hexEncode hexDecode]. rewrite !hex_value_digit, IH by done. cbn. do 2 f_equal. lia.
Qed.

Lemma hexEncode_ascii bs : Forall is_byte bs -> is_ascii (hexEncode bs) = true.
Proof.
  intros Hb. eapply is_ascii_sub, hexEncode_hex; [|done]. intros c. unfold is_hex. cbn zeta.
  rewrite orb_true_iff, !andb_true_iff, !Z.leb_le. lia.
Qed.

Section Format.
Context `{UL : UuidLaws} `{BL : BtcecLaws} `{TP : TimeParseLenient}.

(** Key pair consistent and usable, creation time representable. *)
Definition well_formed (i : FullIdentity) : Prop :=
  key_IsZero (id_PrivateKey i) = false /\ id_PublicKey i = priv_PubKey (id_PrivateKey i).

Definition storable (i : FullIdentity) : Prop := well_formed i /\ four_digit_year (id_CreatedAt i).

(** The stored time has whole seconds. *)
Definition truncated (i : FullIdentity) : FullIdentity :=
  MkFull (id_ProviderID i) (id_PrivateKey i) (id_PublicKey i) (TimeUnix (Unix (id_CreatedAt i))).

Lemma truncated_view i : catalog_view (truncated i) = catalog_view i.
Proof. done. Qed.

Lemma uuid_ascii u : is_ascii (uuid_String u) = true.
Proof.
  eapply is_ascii_sub, uuid_chars. intros c. unfold is_hex. cbn zeta.
  rewrite !orb_true_iff, !andb_true_iff, !Z.leb_le. intros [?| ->%Ascii.eqb_eq]; [lia|done].
Qed.

Lemma stored_plain i : storable i -> Forall plain_field (fields_of (stored_of i)).
Proof.
  intros [_ Ht]. repeat constructor; cbn;
    [apply uuid_ascii|apply hexEncode_ascii, pub_bytes|apply hexEncode_ascii, priv_bytes|by apply FormatRFC3339_ascii].
Qed.

Lemma decode_stored_fields f : decode_stored (JObj (string_field <$> fields_of f)) = Some f.
Proof. by destruct f. Qed.

Lemma decode_encode i : storable i -> decode_identity (encode_identity i) = Ok (truncated i).
Proof.
  intros Hs. pose proof (stored_plain i Hs) as Hp. destruct Hs as [[Hz Hpub] Ht].
  unfold decode_identity, encode_identity. rewrite parse_MarshalIndent, decode_stored_fields by done.
  cbn -[hexDecode hexEncode FormatRFC3339 ParseRFC3339]. unfold parseProviderID. rewrite uuid_roundtrip.
  unfold parseCreatedAt. rewrite ParseRFC3339_format by done.
  unfold parsePrivateKeyHex, parsePublicKeyHexCompressed, PublicKeyHexCompressed.
  destruct (priv_bytes (id_PrivateKey i)) as [Hl1 Hb1], (pub_bytes (id_PublicKey i)) as [Hl2 Hb2].
  pose proof (derived_pub (Serialize (id_PrivateKey i))) as Hder. pose proof (priv_roundtrip (id_PrivateKey i)) as Hrt.
  rewrite !hexDecode_hexEncode by done. cbn [mbind result_bind]. rewrite Hl1, Hl2. cbn [Nat.eqb negb guard_err].
  destruct (PrivKeyFromBytes _) as [k p]. cbn in Hder, Hrt. subst k p. cbn. rewrite Hz. cbn.
  pose proof (pub_parses _ Hz) as Hok. rewrite <- Hpub in *. destruct (ParsePubKey _) as [p|]; [|done]. cbn.
  unfold validatePubKeyMatchesPrivate. by rewrite bool_decide_true by done.
Qed.

Lemma decode_well_formed raw i : decode_identity raw = Ok i -> well_formed i.
Proof.
  unfold decode_identity. intros Hd. inv_ok. destruct x as [stored rest].
  inv_ok. destruct x2 as [priv pub]. inv_ok. unfold parsePrivateKeyHex in *. inv_ok.
  destruct (PrivKeyFromBytes _) as [k p] eqn:E. inv_ok. split; [done|]. cbn.
  match type of E with PrivKeyFromBytes ?b = _ => pose proof (derived_pub b) as Hp end. by rewrite E in Hp.
Qed.

Lemma newIdentity_well_formed key u now i :
  (forall k, key = Ok k -> key_IsZero k = false) -> newIdentity key u now = Ok i ->
  well_formed i /\ id_CreatedAt i = now /\ id_ProviderID i = u.
Proof. unfold newIdentity. intros Hk Hi. destruct key as [k|]; [|done]. cbn in Hi. inv_ok. repeat split; cbn; auto. Qed.
End Format.
