(* ===== verification/FileStore.v ===== *)
(** * The identity file: [internal/identity/filestore.go] and [LoadOrCreate]

    [Save] runs against an operating system in which every call may fail, a write possibly half-way.
    The model keeps the directory after every call (the trail), so that a theorem about all of it is a
    theorem about a process that is killed at any point. Directory entries are addressed by directory
    and name; other processes do not touch the ones the store uses, and links are not followed. *)

From S2P Require Import Prelude GoStrings GoHttp GoTime Sha256 GoJson Catalog Identity.

Open Scope Z_scope.

(** ** The operating system *)

Record file := MkFile { f_data : string; f_mode : Z }.

Notation entries := (gmap (string * string) file).

Definition dir_entry (path : string) : string * string := (Dir path, Base path).

(** [os_trail] has the entries after every call so far, the latest first; [os_open] counts the open
    descriptors. *)
Record osst := MkOS {
  os_files : entries;
  os_dirs : gmap string Z;
  os_trail : list entries;
  os_open : Z;
}.

(** What the system does in one run of [Save]: [Some] is the error of a call. A failing [MkdirAll] has
    made a number of directories, a failing [Write] written a number of bytes. [e_rand] are the random
    names that [CreateTemp] tries. *)
Record os_env := MkEnv {
  e_goos : string;
  e_umask : Z;
  e_read : option string;
  e_mkdir : option (nat * string);
  e_rand : list string;
  e_create : option string;
  e_fchmod : option string;
  e_write : option (nat * string);
  e_sync : option string;
  e_close : option string;
  e_rename : option string;
  e_chmod : option string;
  e_remove : option string;
}.

(** No call fails. *)
Definition quiet_env (goos : string) (umask : Z) (rand : list string) : os_env :=
  MkEnv goos umask None None rand None None None None None None None None.

Definition OS (A : Type) : Type := osst -> result id_err A * osst.

#[export] Instance OS_ret : MRet OS := fun A a s => (Ok a, s).
#[export] Instance OS_bind : MBind OS := fun A B f m s =>
  match m s with
  | (Ok a, s') => f a s'
  | (Err e, s') => (Err e, s')
  end.

Definition throw {A} (e : id_err) : OS A := fun s => (Err e, s).

(** The call failed with the system's message, or goes through. *)
Definition os_call (fault : option string) (k : string -> id_err) : OS unit := fun s =>
  match fault with Some m => (Err (k m), s) | None => (Ok tt, s) end.

Definition get_files : OS entries := fun s => (Ok (os_files s), s).

Definition put_files (m : entries) : OS unit := fun s =>
  (Ok tt, MkOS m (os_dirs s) (m :: os_trail s) (os_open s)).

Definition put_dirs (ds : list string) (mode : Z) : OS unit := fun s =>
  (Ok tt, MkOS (os_files s) (foldr (fun d m => <[d := default mode (m !! d)]> m) (os_dirs s) ds)
            (os_trail s) (os_open s)).

Definition add_open (d : Z) : OS unit := fun s =>
  (Ok tt, MkOS (os_files s) (os_dirs s) (os_trail s) (os_open s + d)).

(** A deferred clean-up that runs when the body fails, its own outcome ignored. *)
Definition on_error {A} (body : OS A) (cleanup : OS unit) : OS A := fun s =>
  match body s with
  | (Ok a, s') => (Ok a, s')
  | (Err e, s') => (Err e, (cleanup s').2)
  end.

(** [dir] and its ancestors, the outermost first. *)
Definition ancestors (dir : string) : list string :=
  (fun k => render (rooted dir) (take k (path_parts dir))) <$> seq 1 (length (path_parts dir)).

(** The permission bits [0o700] and [0o600]. *)
Definition mode0700 : Z := 7 * 64.
Definition mode0600 : Z := 6 * 64.

Definition masked (env : os_env) (mode : Z) : Z := Z.ldiff mode (e_umask env).

Section System.
Variable env : os_env.

Definition MkdirAll (dir : string) : OS unit :=
  match e_mkdir env with
  | Some (n, m) => put_dirs (take n (ancestors dir)) (masked env mode0700);; throw (ErrMkdir m)
  | None => put_dirs (ancestors dir) (masked env mode0700)
  end.

Definition dirJoin (dir name : string) : string :=
  if HasSuffix dir "/" then dir +:+ name else dir +:+ "/" +:+ name.

Definition tempPrefix : string := ".provider_identity-".

Definition tempPath (dir r : string) : string := dirJoin dir (tempPrefix +:+ r +:+ ".tmp").

(** [os.CreateTemp(dir, ".provider_identity-*.tmp")]: exclusive creation under the first random name
    that is free. *)
Definition CreateTemp (dir : string) : OS string :=
  files ← get_files;
  match list_find (fun r => files !! dir_entry (tempPath dir r) = None) (e_rand env) with
  | None => throw (ErrCreateTemp "file exists")
  | Some (_, r) =>
      os_call (e_create env) ErrCreateTemp;;
      put_files (<[dir_entry (tempPath dir r) := MkFile "" (masked env mode0600)]> files);;
      add_open 1;;
      mret (tempPath dir r)
  end.

(** Change an entry that must exist. *)
Definition with_file (path : string) (k : string -> id_err) (f : file -> file) : OS unit :=
  files ← get_files;
  match files !! dir_entry path with
  | None => throw (k "no such file or directory")
  | Some x => put_files (<[dir_entry path := f x]> files)
  end.

Definition set_mode (mode : Z) (f : file) : file := MkFile (f_data f) mode.
Definition append_data (d : string) (f : file) : file := MkFile (f_data f +:+ d) (f_mode f).

(** [enforce0600(path, file)]: by descriptor when [by_fd]. *)
Definition enforce0600 (path : string) (by_fd : bool) : OS unit :=
  if String.eqb (e_goos env) "windows" then mret tt
  else
    os_call (if by_fd then e_fchmod env else e_chmod env) ErrChmod;;
    with_file path ErrChmod (set_mode mode0600).

Definition Write_ (path data : string) : OS unit :=
  match e_write env with
  | Some (n, m) => with_file path ErrWrite (append_data (String.substring 0 n data));; throw (ErrWrite m)
  | None => with_file path ErrWrite (append_data data)
  end.

Definition Sync : OS unit := os_call (e_sync env) ErrSync.

(** The descriptor is gone whether or not [Close] reports an error. *)
Definition Close : OS unit := add_open (-1);; os_call (e_close env) ErrClose.

Definition Rename (src dst : string) : OS unit :=
  os_call (e_rename env) ErrRename;;
  files ← get_files;
  match files !! dir_entry src with
  | None => throw (ErrRename "no such file or directory")
  | Some f => put_files (<[dir_entry dst := f]> (delete (dir_entry src) files))
  end.

Definition Remove (path : string) : OS unit :=
  os_call (e_remove env) ErrRename;;
  files ← get_files;
  put_files (delete (dir_entry path) files).

(** ** The store *)

Section Store.
Context `{UuidOps} `{BtcecOps} `{TimeParseLenient}.
Variable Path : string.

Definition Load_ (ctxDone : bool) (files : entries) : result id_err FullIdentity :=
  if ctxDone then Err ErrCtx
  else
    raw ← match e_read env with
          | Some m => Err (ErrRead m)
          | None => match files !! dir_entry Path with
                    | None => Err ErrNotFound
                    | Some f => Ok (f_data f)
                    end
          end;
    decode_identity raw.

(** From [CreateTemp] on; an error closes the descriptor if it is still open, and the deferred function
    removes the temporary file. *)
Definition save_temp (tmpPath encoded : string) : OS unit :=
  on_error
    (on_error (enforce0600 tmpPath true) Close;;
     on_error (Write_ tmpPath encoded) Close;;
     on_error Sync Close;;
     Close;;
     Rename tmpPath Path;;
     enforce0600 Path false)
    (Remove tmpPath).

Definition Save (ctxDone : bool) (i : FullIdentity) : OS unit :=
  if ctxDone then throw ErrCtx
  else
    let dir := Dir Path in
    MkdirAll dir;;
    tmpPath ← CreateTemp dir;
    save_temp tmpPath (encode_identity i).
End Store.
End System.

(** ** The interface [IdentityStore] and [LoadOrCreate]

    [Env] is what may differ between two calls: faults and cancellation. *)

Fixpoint is_not_found (e : id_err) : bool :=
  match e with
  | ErrNotFound => true
  | ErrLoadIdentity e' | ErrCreateIdentity e' | ErrSaveIdentity e' => is_not_found e'
  | _ => false
  end.

Section Interface.
Context `{UuidOps} `{BtcecOps}.

Class IdentityStore (Env St : Type) := {
  st_Load : Env -> St -> result id_err FullIdentity;
  st_Save : Env -> FullIdentity -> St -> result id_err unit * St;
}.

(** The key, the UUID and the clock of one start. *)
Record fresh := MkFresh { fr_key : result string PrivKey; fr_uuid : UUID; fr_now : Z }.

Definition LoadOrCreate `{Store : IdentityStore Env St} (env : Env) (fr : fresh) (s : St) :
    result id_err (FullIdentity * bool) * St :=
  match st_Load env s with
  | Ok id => (Ok (id, false), s)
  | Err e =>
      if negb (is_not_found e) then (Err (ErrLoadIdentity e), s)
      else match newIdentity (fr_key fr) (fr_uuid fr) (fr_now fr) with
           | Err e' => (Err (ErrCreateIdentity e'), s)
           | Ok id =>
               match st_Save env id s with
               | (Err e', s') => (Err (ErrSaveIdentity e'), s')
               | (Ok _, s') => (Ok (id, true), s')
               end
           end
  end.

(** What [LoadOrCreate] relies on: a loaded identity is well formed; a store that can be read gives what
    it gave before, and after a successful save in a [sound] environment what was saved. *)
Class IdentityStoreLaws (Env St : Type) `{Store : IdentityStore Env St} (readable sound : Env -> Prop) : Prop := {
  load_well_formed : forall e s i, st_Load e s = Ok i -> well_formed i;
  load_again : forall e e' s i, st_Load e s = Ok i -> readable e' -> st_Load e' s = Ok i;
  load_saved : forall e e' i s s', sound e -> st_Save e i s = (Ok tt, s') -> storable i -> readable e' ->
    st_Load e' s' = Ok (truncated i);
}.

(** [btcec.NewPrivateKey] never returns the zero scalar; the clock shows a year of four digits. *)
Definition fresh_ok (fr : fresh) : Prop :=
  (forall k, fr_key fr = Ok k -> key_IsZero k = false) /\ four_digit_year (fr_now fr).

(** The results of one start after the other. *)
Fixpoint starts `{Store : IdentityStore Env St} (l : list (Env * fresh)) (s : St) :
    list (result id_err (FullIdentity * bool)) * St :=
  match l with
  | [] => ([], s)
  | (env, fr) :: l' =>
      let '(r, s1) := LoadOrCreate env fr s in
      let '(rs, s2) := starts l' s1 in
      (r :: rs, s2)
  end.

Section Client.
Context `{ISL : IdentityStoreLaws Env St readable sound}.

Lemma LoadOrCreate_keeps env fr s :
  st_Load env s <> Err ErrNotFound ->
  (forall e, st_Load env s = Err e -> is_not_found e = true -> e = ErrNotFound) ->
  (LoadOrCreate env fr s).2 = s.
Proof.
  unfold LoadOrCreate. intros Hne Hnf. destruct (st_Load env s) as [i|e]; [done|].
  destruct (is_not_found e) eqn:E; [|done]. by rewrite (Hnf e eq_refl E) in Hne.
Qed.

(** After a successful start the store holds an identity with the same view. *)
Lemma LoadOrCreate_stored env fr s i c s' :
  sound env -> fresh_ok fr -> LoadOrCreate env fr s = (Ok (i, c), s') ->
  well_formed i /\ exists j, catalog_view j = catalog_view i /\ forall env', readable env' -> st_Load env' s' = Ok j.
Proof.
  unfold LoadOrCreate. intros Hsd [Hk Ht] HL. destruct (st_Load env s) as [i0|e] eqn:E.
  - injection HL as -> _ ->. split; [by eapply load_well_formed|]. exists i. split; [done|]. intros. by eapply load_again.
  - destruct (is_not_found e); [|done]. cbn in HL.
    destruct (newIdentity _ _ _) as [id|e'] eqn:En; [|done].
    destruct (newIdentity_well_formed _ _ _ _ Hk En) as (Hw & Hc & _).
    destruct (st_Save env id s) as [[[]|e'] s1] eqn:Es; [|done]. injection HL as <- _ <-.
    split; [done|]. exists (truncated id). split; [apply truncated_view|]. intros env' Hr.
    eapply load_saved; [done|done| |done]. split; [done|]. by rewrite Hc.
Qed.

Lemma starts_stable l s j :
  (forall env, readable env -> st_Load env s = Ok j) -> Forall (fun p => readable p.1) l ->
  starts l s = (replicate (length l) (Ok (j, false)), s).
Proof.
  intros Hj. induction 1 as [|[env fr] l Hr _ IH]; [done|]. cbn.
  unfold LoadOrCreate. rewrite (Hj env Hr), IH. done.
Qed.
End Client.
End Interface.

(** ** Paths of temporary files *)

Lemma upto_last_slash_app a n : has_char slash n = false ->
  upto_last_slash (a +:+ String slash n) = a +:+ String slash "".
Proof.
  intros Hn. induction a as [|c a IH].
  - cbn -[has_char]. rewrite has_char_cons. cbn. f_equal.
    destruct n; [done|]. cbn -[has_char]. by rewrite Hn.
  - cbn -[has_char]. rewrite has_char_cons, has_char_app, has_char_cons, IH.
    change (Ascii.eqb slash slash) with true. by rewrite orb_true_l, !orb_true_r.
Qed.

Lemma Clean_normal x : exists r l, Clean x = render r l /\ normal r l.
Proof.
  unfold Clean. destruct (String.eqb_spec x "") as [->|].
  - exists false, []. split; [done|]. exact (path_parts_normal "").
  - exists (rooted x), (path_parts x). split; [done|]. apply path_parts_normal.
Qed.

Lemma clean_comps_trail r l : clean_comps r (l ++ [""]) = clean_comps r l.
Proof. unfold clean_comps. by rewrite foldl_app. Qed.

Lemma Clean_slash x : Clean (Clean x +:+ String slash "") = Clean x.
Proof.
  destruct (Clean_normal x) as (r & l & -> & Hn). destruct l as [|w l]; [by destruct r|].
  assert (Hne : w :: l <> []) by done. unfold Clean.
  pose proof (render_nonempty r _ Hne Hn) as Hr.
  replace (String.eqb _ "") with false by (destruct (render r (w :: l)); [done|reflexivity]).
  rewrite rooted_app, render_rooted by done. unfold path_parts.
  rewrite rooted_app, render_rooted, split_on_app by done. cbn [split_on]. rewrite clean_comps_trail.
  pose proof (path_parts_render r (w :: l) Hne Hn) as Hp. unfold path_parts in Hp.
  rewrite render_rooted in Hp by done. by rewrite Hp.
Qed.

Lemma Clean_Clean x : Clean (Clean x) = Clean x.
Proof.
  destruct (Clean_normal x) as (r & l & -> & Hn). destruct l as [|w l]; [by destruct r|].
  by apply Clean_render.
Qed.

Lemma joinPath_form d n : exists a, dirJoin d n = a +:+ String slash n /\
  (a +:+ String slash "" = d \/ a = d).
Proof.
  unfold dirJoin. destruct (HasSuffix d "/") eqn:E.
  - apply HasSuffix_spec in E as [t ->]. exists t. split; [by rewrite sapp_assoc|by left].
  - exists d. split; [done|by right].
Qed.

Lemma Base_after a n : n <> "" -> has_char slash n = false -> Base (a +:+ String slash n) = n.
Proof.
  intros Hne Hn. unfold Base. replace (String.eqb _ "") with false by (by destruct a).
  assert (HasSuffix n "/" = false) as Hs.
  { destruct (HasSuffix n "/") eqn:E; [|done]. apply HasSuffix_spec in E as [t ->].
    rewrite has_char_app in Hn. cbn in Hn. by rewrite orb_true_r in Hn. }
  replace (TrimRightFunc (Ascii.eqb slash) (a +:+ String slash n)) with (a +:+ String slash n).
  - unfold last_comp. rewrite split_on_app, (split_on_nosep _ n), last_snoc by done. cbn.
    by destruct n.
  - symmetry. clear Hs. assert (Ht : TrimRightFunc (Ascii.eqb slash) n = n).
    { apply TrimRightFunc_none. eapply sall_impl; [|by rewrite <- (negb_involutive (sall _ n)); apply negb_true_iff, Hn].
      intros c. by rewrite Ascii.eqb_sym. }
    induction a as [|c a IH]; cbn.
    + rewrite Ht. by destruct n.
    + rewrite IH. by destruct a.
Qed.

Lemma tempName_ok r : has_char slash r = false ->
  has_char slash (tempPrefix +:+ r +:+ ".tmp") = false /\ HasPrefix (tempPrefix +:+ r +:+ ".tmp") tempPrefix = true.
Proof. intros Hr. rewrite !has_char_app, Hr. split; [done|]. apply HasPrefix_spec. by eexists. Qed.

Lemma entry_tempPath path r : has_char slash r = false ->
  dir_entry (tempPath (Dir path) r) = (Dir path, tempPrefix +:+ r +:+ ".tmp").
Proof.
  intros Hr. destruct (tempName_ok r Hr) as [Hn _]. unfold tempPath.
  destruct (joinPath_form (Dir path) (tempPrefix +:+ r +:+ ".tmp")) as (a & -> & Ha).
  unfold dir_entry. rewrite Base_after by done. f_equal.
  unfold Dir at 1. rewrite upto_last_slash_app by done.
  destruct Ha as [-> | ->]; [apply Clean_Clean|apply Clean_slash].
Qed.

(** ** One run of [Save] *)

(** The random part of a temporary name is a decimal number. *)
Definition rand_ok (env : os_env) : Prop := Forall (fun r => has_char slash r = false) (e_rand env).

(** Where the other entries are untouched, the identity is the old or the whole new one, and the
    temporary file can hold data only once its mode is [0600]. *)
Definition at_all_times (old : entries) (p t : string * string) (enc : string) (m : entries) : Prop :=
  (m !! p = old !! p \/ m !! p = Some (MkFile enc mode0600)) /\
  (forall e, e <> p -> e <> t -> m !! e = old !! e) /\
  (forall f, m !! t = Some f -> f_data f = "" \/ f_mode f = mode0600).

Section Run.
Variables (env : os_env) (Path enc : string) (t : string) (old : entries).
Hypothesis unix : String.eqb (e_goos env) "windows" = false.
Hypothesis distinct : dir_entry t <> dir_entry Path.
Hypothesis free : old !! dir_entry t = None.

Notation ok := (at_all_times old (dir_entry Path) (dir_entry t) enc).

(** What holds at the end of a run that started in [s], with result [r]. *)
Definition run_post (s : osst) (r : result id_err unit) (s' : osst) : Prop :=
  (exists new, os_trail s' = new ++ os_trail s /\ Forall ok new) /\ ok (os_files s') /\
  os_open s' = os_open s - 1 /\
  (r = Ok tt -> os_files s' = <[dir_entry Path := MkFile enc mode0600]> old) /\
  (is_ok r = false -> e_remove env = None ->
   os_files s' = old \/ os_files s' = <[dir_entry Path := MkFile enc mode0600]> old).

(** Name the entries that were recorded. *)
Ltac explicit_trail :=
  first [eexists []; split; [reflexivity|]
        |eexists [_]; split; [reflexivity|]
        |eexists [_; _]; split; [reflexivity|]
        |eexists [_; _; _]; split; [reflexivity|]
        |eexists [_; _; _; _]; split; [reflexivity|]
        |eexists [_; _; _; _; _]; split; [reflexivity|]].

Ltac entry_cases :=
  repeat match goal with
  | |- ok _ => split_and!; [simplify_map_eq; auto|intros; by simplify_map_eq|intros; simplify_map_eq; auto]
  | |- Forall _ _ => constructor
  end.

Lemma delete_temp f : delete (dir_entry t) (<[dir_entry t := f]> old) = old.
Proof. rewrite delete_insert_eq. by apply delete_id. Qed.

Lemma delete_temp_renamed f :
  delete (dir_entry t) (<[dir_entry Path := f]> old) = <[dir_entry Path := f]> old.
Proof. rewrite delete_insert_ne by done. by rewrite delete_id. Qed.

Lemma save_temp_post s f :
  os_files s = <[dir_entry t := f]> old -> f_data f = "" ->
  run_post s (save_temp env Path t enc s).1 (save_temp env Path t enc s).2.
Proof.
  intros Hs Hf. destruct s as [m ds tr o], f as [d mode]. cbn in Hs, Hf. subst m d.
  unfold save_temp, on_error, enforce0600, Write_, Sync, Close, Rename, Remove, with_file, get_files, put_files,
    add_open, os_call, throw, set_mode, append_data, mbind, OS_bind. rewrite unix. cbn [os_files].
  destruct (e_fchmod env); [|cbn; rewrite lookup_insert_eq; cbn; rewrite insert_insert_eq;
   destruct (e_write env) as [[n msg]|]; cbn; rewrite lookup_insert_eq; cbn; rewrite insert_insert_eq;
   [|destruct (e_sync env); [|cbn; destruct (e_close env); [|cbn; destruct (e_rename env);
     [|cbn; rewrite lookup_insert_eq, delete_temp; cbn; destruct (e_chmod env);
       [|cbn; rewrite lookup_insert_eq; cbn; rewrite insert_insert_eq]]]]]];
  try destruct (e_close env); unfold run_post; destruct (e_remove env); cbn;
  rewrite ?delete_temp_renamed, ?delete_temp by done;
  (split_and!; [explicit_trail; entry_cases|entry_cases|lia|done|intros; (done || auto)]).
Qed.
End Run.

Lemma CreateTemp_post env dir s r s' :
  CreateTemp env dir s = (r, s') ->
  (exists e, r = Err e /\ s' = s) \/
  (exists x f, r = Ok (tempPath dir x) /\ x ∈ e_rand env /\ os_files s !! dir_entry (tempPath dir x) = None /\
     f_data f = "" /\ os_files s' = <[dir_entry (tempPath dir x) := f]> (os_files s) /\
     os_trail s' = os_files s' :: os_trail s /\ os_open s' = os_open s + 1).
Proof.
  unfold CreateTemp, get_files, os_call, throw, mbind, OS_bind. intros H.
  match type of H with context [@list_find ?A ?P ?D ?l] => destruct (@list_find A P D l) as [[k x]|] eqn:E end;
    [|injection H as <- <-; left; by eexists]. apply list_find_Some in E as (Hx & Hf & _). apply list_elem_of_lookup_2 in Hx.
  destruct (e_create env); cbn in H; [injection H as <- <-; left; by eexists|]. injection H as <- <-. right.
  exists x, (MkFile "" (masked env mode0600)). done.
Qed.

Lemma MkdirAll_post env dir s r s' :
  MkdirAll env dir s = (r, s') -> os_files s' = os_files s /\ os_trail s' = os_trail s /\ os_open s' = os_open s.
Proof. unfold MkdirAll, put_dirs, throw. destruct (e_mkdir env) as [[]|]; cbn; by intros [= <- <-]. Qed.

(** ** The store keeps its promises *)

Section FileStore.
Context `{UL : UuidLaws} `{BL : BtcecLaws} `{TP : TimeParseLenient}.

(** The identity is the old or the whole new one; every other entry is kept; what is new besides is a
    temporary file, empty unless only its owner may read it. *)
Definition safe_point (Path enc : string) (old m : entries) : Prop :=
  (m !! dir_entry Path = old !! dir_entry Path \/ m !! dir_entry Path = Some (MkFile enc mode0600)) /\
  (forall e f, e <> dir_entry Path -> old !! e = Some f -> m !! e = Some f) /\
  (forall e f, e <> dir_entry Path -> m !! e = Some f ->
     old !! e = Some f \/
     (old !! e = None /\ e.1 = Dir Path /\ HasPrefix e.2 tempPrefix = true /\ (f_data f = "" \/ f_mode f = mode0600))).

Lemma safe_point_refl Path enc m : safe_point Path enc m m.
Proof. split_and!; auto. Qed.

Lemma at_all_times_safe Path enc r old m : has_char slash r = false ->
  old !! dir_entry (tempPath (Dir Path) r) = None ->
  at_all_times old (dir_entry Path) (dir_entry (tempPath (Dir Path) r)) enc m -> safe_point Path enc old m.
Proof.
  intros Hr Hfree (H1 & H2 & H3). rewrite entry_tempPath in * by done. split_and!; [done|..].
  - intros e f He Hf. rewrite H2; [done|done|]. intros ->. congruence.
  - intros e f He Hf. destruct (decide (e = (Dir Path, tempPrefix +:+ r +:+ ".tmp"))) as [->|Ht].
    + right. split_and!; [done|done|apply tempName_ok, Hr|auto].
    + left. by rewrite <- H2.
Qed.

Lemma temp_not_Path Path r : has_char slash r = false -> HasPrefix (Base Path) tempPrefix = false ->
  dir_entry (tempPath (Dir Path) r) <> dir_entry Path.
Proof.
  intros Hr HB. rewrite entry_tempPath by done. unfold dir_entry. intros E. apply (f_equal snd) in E.
  cbn [snd] in E. rewrite <- E in HB. by rewrite (proj2 (tempName_ok r Hr)) in HB.
Qed.

(** What a run of [Save] from [s] to [s'] with result [r] guarantees. *)
Definition save_promise (env : os_env) (Path enc : string) (s : osst) (r : result id_err unit) (s' : osst) : Prop :=
  let saved := <[dir_entry Path := MkFile enc mode0600]> (os_files s) in
  (exists new, os_trail s' = new ++ os_trail s /\ Forall (safe_point Path enc (os_files s)) (os_files s' :: new)) /\
  os_open s' = os_open s /\
  (r = Ok tt -> os_files s' = saved) /\
  (is_ok r = false -> e_remove env = None -> os_files s' = os_files s \/ os_files s' = saved).

Lemma save_promise_unchanged env Path enc s r s' :
  is_ok r = false -> os_files s' = os_files s -> os_trail s' = os_trail s -> os_open s' = os_open s ->
  save_promise env Path enc s r s'.
Proof.
  intros Hno Hf Ht Ho. unfold save_promise. rewrite Hf, Ht, Ho. split_and!; [|done|by intros ->|auto].
  exists []. split; [done|]. constructor; [apply safe_point_refl|done].
Qed.

Lemma Save_keeps_promise env Path ctxDone i s :
  String.eqb (e_goos env) "windows" = false -> rand_ok env -> HasPrefix (Base Path) tempPrefix = false ->
  save_promise env Path (encode_identity i) s (Save env Path ctxDone i s).1 (Save env Path ctxDone i s).2.
Proof.
  intros Hu Hr HB. destruct (Save env Path ctxDone i s) as [r s'] eqn:E. cbn [fst snd]. unfold Save in E.
  destruct ctxDone; [injection E as <- <-; by apply save_promise_unchanged|].
  unfold mbind, OS_bind in E. destruct (MkdirAll env (Dir Path) s) as [[[]|e] s1] eqn:E1;
    destruct (MkdirAll_post _ _ _ _ _ E1) as (Hf & Ht & Ho); [|injection E as <- <-; by apply save_promise_unchanged].
  destruct (CreateTemp env (Dir Path) s1) as [rt s2] eqn:E2.
  destruct (CreateTemp_post _ _ _ _ _ E2) as [(e & -> & ->)|(x & f & -> & Hx & Hfree & Hd & Hf2 & Ht2 & Ho2)];
    [injection E as <- <-; by apply save_promise_unchanged|].
  unfold rand_ok in Hr. rewrite Forall_forall in Hr. specialize (Hr x Hx). rewrite Hf in *.
  pose proof (save_temp_post env Path (encode_identity i) _ _ Hu (temp_not_Path _ _ Hr HB) Hfree s2 f Hf2 Hd) as Hpost.
  rewrite E in Hpost. cbn [fst snd] in Hpost. destruct Hpost as ((new & Htr & Hnew) & Hfin & Hop & Hok & Herr).
  unfold save_promise. split_and!; [|lia|done|done]. exists (new ++ [os_files s2]). rewrite Htr, Ht2, Ht, <- app_assoc. split; [done|].
  constructor; [by eapply at_all_times_safe|]. apply Forall_app. split.
  - eapply Forall_impl; [done|]. intros m Hm. by eapply at_all_times_safe.
  - constructor; [|done]. eapply at_all_times_safe; [done..|]. rewrite Hf2.
    pose proof (temp_not_Path _ _ Hr HB). split_and!; intros; by simplify_map_eq; auto.
Qed.
(** C8: at every point of a [Save], whatever calls fail, the identity file is the previous one or the
    complete new one with mode [0600]; no other entry of the file system is changed except a temporary
    file under a name that was free, which holds no byte of the key before its mode is [0600]; the
    descriptor is closed in the end, success means that exactly the identity file changed, and after an
    error nothing is left behind unless removing the temporary file failed too. On systems other than
    Windows, with a random source that can name a file, and for an identity file whose own name does
    not begin like that of a temporary file. *)
Theorem Save_crash_safe env Path ctxDone i s :
  String.eqb (e_goos env) "windows" = false -> rand_ok env -> HasPrefix (Base Path) tempPrefix = false ->
  save_promise env Path (encode_identity i) s (Save env Path ctxDone i s).1 (Save env Path ctxDone i s).2.
Proof. apply Save_keeps_promise. Qed.

(** [*FileStore] as an [IdentityStore]: the environment is the state of the context and the system. *)
#[export] Instance FileStore (Path : string) : IdentityStore (bool * os_env) osst := {
  st_Load e s := Load_ e.2 Path e.1 (os_files s);
  st_Save e i s := Save e.2 Path e.1 i s;
}.

Definition can_read (e : bool * os_env) : Prop := e.1 = false /\ e_read e.2 = None.
Definition unix_system (e : bool * os_env) : Prop :=
  String.eqb (e_goos e.2) "windows" = false /\ rand_ok e.2.

Lemma FileStore_laws Path : HasPrefix (Base Path) tempPrefix = false ->
  IdentityStoreLaws (bool * os_env) osst (Store := FileStore Path) can_read unix_system.
Proof.
  intros HB. split; cbn; unfold Load_.
  - intros [c env] s i. cbn. destruct c; [done|]. intros Hl. inv_ok. by eapply decode_well_formed.
  - intros [c env] [c' env'] s i Hl [Hc Hr]. cbn in *. subst c'. rewrite Hr. destruct c; [done|].
    destruct (e_read env); [done|]. done.
  - intros [c env] [c' env'] i s s' [Hu Hrand] HS Hst [Hc Hr]. cbn in *. subst c'. rewrite Hr.
    pose proof (Save_keeps_promise env Path c i s Hu Hrand HB) as HP. rewrite HS in HP. cbn [fst snd] in HP.
    destruct HP as (_ & _ & Hok & _). rewrite (Hok eq_refl), lookup_insert_eq. by apply decode_encode.
Qed.

(** C9: once the provider has started with an identity, every later start that can read the file gives
    the same provider id and the same keys, creates nothing and leaves the file system as it is. *)
Theorem identity_stable Path env fr s i c s' later :
  HasPrefix (Base Path) tempPrefix = false -> unix_system env -> fresh_ok fr ->
  LoadOrCreate (Store := FileStore Path) env fr s = (Ok (i, c), s') ->
  Forall (fun p => can_read p.1) later ->
  exists j, catalog_view j = catalog_view i /\
    starts (Store := FileStore Path) later s' = (replicate (length later) (Ok (j, false)), s').
Proof.
  intros HB Hu Hf HL Hl. pose proof (FileStore_laws Path HB) as Hlaws.
  destruct (LoadOrCreate_stored env fr s i c s' Hu Hf HL) as (_ & j & Hj & Hload).
  exists j. split; [done|]. by apply (starts_stable (readable := can_read)).
Qed.

Lemma decode_not_wrapped raw e : decode_identity raw = Err e -> is_not_found e = false.
Proof.
  unfold decode_identity. intros Hd.
  repeat (apply bind_Err in Hd as [Hd|([? ?] & _ & Hd)] || apply bind_Err in Hd as [Hd|(? & _ & Hd)]);
    unfold parseProviderID, parseCreatedAt, parsePrivateKeyHex, parsePublicKeyHexCompressed,
      validatePubKeyMatchesPrivate, guard_err, mbind, result_bind in Hd; repeat case_match; naive_solver.
Qed.

(** C23: a start never replaces an identity: as long as there is a file at the path, whatever it contains
    and whatever calls fail, the file system is unchanged; a damaged file stops the start. *)
Theorem identity_never_overwritten Path env fr s f :
  os_files s !! dir_entry Path = Some f ->
  (LoadOrCreate (Store := FileStore Path) env fr s).2 = s /\
  (forall i c, (LoadOrCreate (Store := FileStore Path) env fr s).1 = Ok (i, c) ->
     c = false /\ decode_identity (f_data f) = Ok i).
Proof.
  intros Hf. unfold LoadOrCreate. cbn. unfold Load_. rewrite Hf.
  destruct env as [[] env]; cbn; [done|]. destruct (e_read env); cbn; [done|].
  destruct (decode_identity _) as [i|e] eqn:E; cbn; [naive_solver|].
  by rewrite (decode_not_wrapped _ _ E).
Qed.

(** Every identity the provider runs with, loaded or created, is well formed: the private key is not
    zero, the public key belongs to it, and its printed forms have their fixed lengths and alphabet. *)
Theorem identity_well_typed Path env fr s i c s' :
  HasPrefix (Base Path) tempPrefix = false -> unix_system env -> fresh_ok fr ->
  LoadOrCreate (Store := FileStore Path) env fr s = (Ok (i, c), s') ->
  key_IsZero (id_PrivateKey i) = false /\ id_PublicKey i = priv_PubKey (id_PrivateKey i) /\
  slen (PublicKeyHexCompressed i) = 66%nat /\ sall is_hex (PublicKeyHexCompressed i) = true /\
  slen (Fingerprint i) = 8%nat /\ sall is_hex (Fingerprint i) = true.
Proof.
  intros HB Hu Hf HL. pose proof (FileStore_laws Path HB) as Hlaws.
  destruct (LoadOrCreate_stored env fr s i c s' Hu Hf HL) as ([Hz Hp] & _).
  destruct (pub_bytes (id_PublicKey i)) as [Hl Hb]. unfold PublicKeyHexCompressed, Fingerprint.
  rewrite slen_hexEncode, Hl. destruct (sha256_bytes (SerializeCompressed (id_PublicKey i))) as [Hsl Hsb].
  split_and!; [done|done|done|by apply hexEncode_hex|..].
  - rewrite slen_ssub; [done|]. rewrite slen_hexEncode. lia.
  - by apply sall_ssub, hexEncode_hex.
Qed.
End FileStore.

(** ** An instance, and the theorems on it *)

Module FileStoreDemo.
Definition uuid_text : string := "6ba7b810-9dad-11d1-80b4-00c04fd430c8".

(** A package with one identifier, and a curve with two keys, one of them zero. *)
#[local] Instance uuid_ops : UuidOps := {
  UUID := unit;
  uuid_String _ := uuid_text;
  uuid_Parse s := if String.eqb s uuid_text then Ok tt else Err "invalid UUID length";
}.
#[local] Instance uuid_laws : UuidLaws.
Proof. split; [by intros []|intros []; vm_compute; reflexivity]. Qed.

Definition scalar (k : bool) : list Z := replicate 31 0 ++ [if k then 1 else 0].

#[local] Instance btcec_ops : BtcecOps := {
  PrivKey := bool;
  PubKey := bool;
  PrivKeyFromBytes b := (bool_decide (b = scalar true), bool_decide (b = scalar true));
  key_IsZero k := negb k;
  Serialize := scalar;
  priv_PubKey k := k;
  SerializeCompressed p := 2 :: scalar p;
  ParsePubKey b := if decide (b = 2 :: scalar true) then Ok true else Err "invalid public key";
}.
#[local] Instance btcec_laws : BtcecLaws.
Proof.
  split; cbn.
  - intros []; (split; [done|]; by repeat constructor).
  - intros []; (split; [done|]; by repeat constructor).
  - by intros [].
  - done.
  - by intros [].
Qed.
#[local] Instance lenient : TimeParseLenient := fun _ => None.

Definition ident (t : Z) : FullIdentity := @MkFull uuid_ops btcec_ops tt true true t.
Definition created : FullIdentity := ident (TimeUnix 1700000000 + 5).
Definition path : string := "/data/provider_identity.json".
Definition system : bool * os_env := (false, quiet_env "linux" 18 ["1"; "2"]).
Definition failing : bool * os_env :=
  (false, MkEnv "linux" 18 None None ["1"] None None (Some (10%nat, "no space left on device")) None None None None None).
Definition keys : fresh := MkFresh (Ok true) tt (TimeUnix 1700000000 + 5).
Definition empty : osst := MkOS ∅ ∅ [] 3.
Definition first_start := LoadOrCreate (Store := FileStore path) system keys empty.

Example first_start_creates :
  first_start.1 = Ok (created, true) /\
  os_dirs first_start.2 = {[ "/data" := 448 ]} /\ os_open first_start.2 = 3 /\ length (os_trail first_start.2) = 5%nat.
Proof. vm_compute. done. Qed.

Lemma unix_ok : unix_system system.
Proof. split; [done|]. repeat constructor. Qed.

Lemma keys_ok : fresh_ok keys.
Proof. split; [by intros k [= <-]|]. vm_compute. done. Qed.

(** A full disk half-way through the write. *)
Lemma Save_crash_safe_witness :
  save_promise failing.2 path (encode_identity (ident 0)) empty
    (Save failing.2 path false (ident 0) empty).1 (Save failing.2 path false (ident 0) empty).2 /\
  (Save failing.2 path false (ident 0) empty).1 = Err (ErrWrite "no space left on device").
Proof.
  split; [|vm_compute; reflexivity].
  apply (Save_crash_safe failing.2 path false (ident 0) empty); [done|by repeat constructor|done].
Defined.

Lemma identity_stable_witness :
  exists j, catalog_view j = catalog_view created /\
    starts (Store := FileStore path) [(system, keys); (failing, keys)] first_start.2 =
    ([Ok (j, false); Ok (j, false)], first_start.2).
Proof.
  apply (identity_stable path system keys empty _ true first_start.2 [(system, keys); (failing, keys)]).
  - done.
  - exact unix_ok.
  - exact keys_ok.
  - vm_compute. reflexivity.
  - repeat constructor.
Defined.

(** A file that holds no identity. *)
Definition damaged : osst := MkOS {[ dir_entry path := MkFile "{}" mode0600 ]} ∅ [] 3.

Lemma identity_never_overwritten_witness :
  (LoadOrCreate (Store := FileStore path) system keys damaged).2 = damaged /\
  (LoadOrCreate (Store := FileStore path) system keys damaged).1 =
    Err (ErrLoadIdentity (ErrProviderID "invalid UUID length")).
Proof.
  split; [|vm_compute; reflexivity].
  apply (identity_never_overwritten path system keys damaged (MkFile "{}" mode0600)). by vm_compute.
Defined.

Lemma identity_well_typed_witness :
  slen (Fingerprint created) = 8%nat.
Proof.
  apply (identity_well_typed path system keys empty created true first_start.2);
    [done|exact unix_ok|exact keys_ok|]. vm_compute. reflexivity.
Defined.
End FileStoreDemo.
