(* ===== verification/Backoff.v ===== *)
(** * Retry back-off

    [internal/jobs/backoff.go]: per asset, how many announcements failed in a row and when the
    next may be tried. Durations are 64-bit and wrap; the jitter source is an argument, with
    the range its documentation promises as a hypothesis. The theorems: the delay doubles from
    [Base] to [Max] with at most a quarter of jitter, an asset is attempted again exactly when
    its delay is over, and the counter kept per asset is the number of failures since the last
    success or refusal, whatever happened to other assets in between. *)

From S2P Require Import Prelude GoStrings GoTime Config Catalog.
Open Scope Z_scope.

(** ** Classes of outcomes *)

Definition ErrorClass := string.
Definition ClassOK : ErrorClass := "ok".
Definition ClassRejected : ErrorClass := "rejected".
Definition ClassUnauthorized : ErrorClass := "unauthorized".
Definition ClassTransient : ErrorClass := "transient".
Definition ClassPermanent : ErrorClass := "permanent".

Definition ClassifyError (err : option catalog_err) : ErrorClass :=
  match err with
  | None => ClassOK
  | Some ErrNotFound => ClassRejected
  | Some ErrUnauthorized => ClassUnauthorized
  | Some ErrBadRequest | Some ErrConflict => ClassPermanent
  | Some ErrServer | Some (ErrUnexpected _) => ClassTransient
  | Some _ => ClassTransient
  end.

(** ** State *)

Record BackoffConfig := MkBackoff {
  Base : Z;
  Max : Z;
  RejectedRetry : Z;
  UnauthorizedRetry : Z;
}.

Record BackoffEntry := MkEntry { FailCount : Z; NextAttemptAt : Z }.

Record BackoffState := MkState {
  entries : gmap string BackoffEntry;
  cfg : BackoffConfig;
}.

Definition NewBackoffState (c : BackoffConfig) : BackoffState :=
  MkState ∅
    (MkBackoff (if Base c <=? 0 then 2 * Second else Base c)
               (if Max c <=? 0 then 10 * Minute else Max c)
               (if RejectedRetry c <=? 0 then 24 * Hour else RejectedRetry c)
               (if UnauthorizedRetry c <=? 0 then Hour else UnauthorizedRetry c)).

Definition NewBackoffStateFromConfig (c : Config) : BackoffState :=
  NewBackoffState
    (MkBackoff (durationOf (BackoffBaseMillis c) Millisecond) (durationOf (BackoffMaxSeconds c) Second)
               (durationOf (RejectedRetrySeconds c) Second) (durationOf (UnauthorizedRetrySeconds c) Second)).

(** [defaultJitter.Int63n] over the generator's own [Int63n]. *)
Definition Int63n (rnd : Z -> Z) (n : Z) : Z := if n <=? 0 then 0 else rnd n.

(** ** Operations *)

Definition CanAttempt (assetID : string) (now : Z) (b : BackoffState) : bool :=
  match entries b !! assetID with
  | None => true
  | Some entry => negb (After (NextAttemptAt entry) now)
  end.

Definition CountDeferred (now : Z) (b : BackoffState) : Z :=
  map_fold (fun _ entry count => if After (NextAttemptAt entry) now then count + 1 else count) 0 (entries b).

(** The loop of [NextAttempt]: [k] doublings are left. *)
Fixpoint grow (k : nat) (delay max : Z) : Z :=
  match k with
  | O => delay
  | S k' =>
      if max <=? delay then max
      else let delay := wrap64 (delay * 2) in
           if max <? delay then max else grow k' delay max
  end.

Definition delayFor (c : BackoffConfig) (jitter : Z -> Z) (failCount : Z) : Z :=
  let failCount := if failCount <? 1 then 1 else failCount in
  let delay := grow (Z.to_nat (failCount - 1)) (Base c) (Max c) in
  let jitterWindow := delay ÷ 4 in
  let delay := if 0 <? jitterWindow then wrap64 (delay + jitter (wrap64 (jitterWindow + 1))) else delay in
  if Max c <? delay then Max c else delay.

Definition NextAttempt (b : BackoffState) (jitter : Z -> Z) (now failCount : Z) : Z :=
  TimeAdd now (delayFor (cfg b) jitter failCount).

Definition set_entry (assetID : string) (e : BackoffEntry) (b : BackoffState) : BackoffState :=
  MkState (<[assetID := e]> (entries b)) (cfg b).

(** The entry of an asset, the zero value if there is none. *)
Definition entry_of (assetID : string) (b : BackoffState) : BackoffEntry :=
  default (MkEntry 0 zero_time) (entries b !! assetID).

Definition Record_ (jitter : Z -> Z) (assetID : string) (class : ErrorClass) (now : Z) (b : BackoffState)
  : BackoffState :=
  if String.eqb class ClassOK then MkState (delete assetID (entries b)) (cfg b)
  else if String.eqb class ClassRejected then
    set_entry assetID (MkEntry 0 (TimeAdd now (RejectedRetry (cfg b)))) b
  else if String.eqb class ClassUnauthorized then
    set_entry assetID (MkEntry 0 (TimeAdd now (UnauthorizedRetry (cfg b)))) b
  else if String.eqb class ClassPermanent then
    set_entry assetID (MkEntry (wrap64 (FailCount (entry_of assetID b) + 1)) (TimeAdd now (Max (cfg b)))) b
  else
    let failCount := wrap64 (FailCount (entry_of assetID b) + 1) in
    set_entry assetID (MkEntry failCount (NextAttempt b jitter now failCount)) b.

(** ** The unit tests of the package *)

Module BackoffTests.
Definition no_jitter (_ : Z) : Z := 0.
Definition state0 : BackoffState := NewBackoffState (MkBackoff (2 * Second) (10 * Second) (24 * Hour) Hour).
Definition start : Z := TimeUnix 1700000000.
Definition fail_at (b : BackoffState) (now : Z) : BackoffState := Record_ no_jitter "asset1" ClassTransient now b.

Example exponential_clamp :
  let b1 := fail_at state0 start in
  let b2 := fail_at b1 (start + 3 * Second) in
  let b3 := fail_at b2 (start + 8 * Second) in
  let b4 := fail_at b3 (start + 17 * Second) in
  map (fun b => entries b !! "asset1") [b1; b2; b3; b4] =
  [Some (MkEntry 1 (start + 2 * Second)); Some (MkEntry 2 (start + 7 * Second));
   Some (MkEntry 3 (start + 16 * Second)); Some (MkEntry 4 (start + 27 * Second))].
Proof. vm_compute. reflexivity. Qed.

Example refused_delays :
  (entries (Record_ no_jitter "r" ClassRejected start state0) !! "r",
   entries (Record_ no_jitter "u" ClassUnauthorized start state0) !! "u") =
  (Some (MkEntry 0 (start + 24 * Hour)), Some (MkEntry 0 (start + Hour))).
Proof. vm_compute. reflexivity. Qed.
End BackoffTests.

(** ** Lemmas *)

(** The ideal delay after [k] doublings, without jitter. *)
Definition ideal (base max : Z) (k : nat) : Z := Z.min max (base * 2 ^ Z.of_nat k).

Lemma ideal_cap base max k : 0 < base -> max <= base -> ideal base max k = max.
Proof.
  intros Hb Hm. unfold ideal. assert (0 < 2 ^ Z.of_nat k) by (apply Z.pow_pos_nonneg; lia). nia.
Qed.

Lemma grow_ideal k base max :
  0 < base -> base <= max -> max <= 2 ^ 62 -> grow k base max = ideal base max k.
Proof.
  revert base; induction k as [|k IH]; intros base Hb Hm Hmax.
  - unfold ideal. change (2 ^ Z.of_nat 0) with 1. cbn. lia.
  - cbn [grow]. destruct (Z.leb_spec max base).
    + by rewrite ideal_cap by lia.
    + rewrite wrap64_id by (unfold in_int64, int64_min, int64_max; lia).
      assert (Hs : ideal base max (S k) = ideal (base * 2) max k).
      { unfold ideal. rewrite Nat2Z.inj_succ, Z.pow_succ_r by lia. f_equal. lia. }
      rewrite Hs. destruct (Z.ltb_spec max (base * 2)).
      * by rewrite ideal_cap by lia.
      * apply IH; lia.
Qed.

(** What an [Int63n] promises. *)
Definition jitter_ok (jitter : Z -> Z) : Prop := forall n, 0 < n -> 0 <= jitter n < n.

Lemma Int63n_ok rnd : jitter_ok rnd -> jitter_ok (Int63n rnd).
Proof. intros Hr n Hn. unfold Int63n. destruct (Z.leb_spec n 0); [lia|by apply Hr]. Qed.

(** Base and cap below [2^62] ns, which is 146 years. *)
Definition config_ok (c : BackoffConfig) : Prop := 0 < Base c <= 2 ^ 62 /\ 0 < Max c <= 2 ^ 62.

Lemma grow_pos k base max :
  0 < base <= 2 ^ 62 -> 0 < max <= 2 ^ 62 ->
  ideal base max k <= grow k base max <= 2 ^ 62 /\ (base <= max -> grow k base max = ideal base max k).
Proof.
  intros Hb Hm. destruct (Z.le_gt_cases base max) as [Hle|Hgt].
  - rewrite grow_ideal by lia. unfold ideal. lia.
  - rewrite ideal_cap by lia. split; [|lia]. destruct k as [|k]; cbn; [lia|].
    destruct (Z.leb_spec max base); lia.
Qed.


Lemma delayFor_bounds c jitter n :
  config_ok c -> jitter_ok jitter -> 1 <= n ->
  let d := ideal (Base c) (Max c) (Z.to_nat (n - 1)) in
  d <= delayFor c jitter n <= Z.min (Max c) (d + d / 4).
Proof.
  intros [Hb Hm] Hj Hn d. unfold delayFor. destruct (Z.ltb_spec n 1); [lia|].
  destruct (grow_pos (Z.to_nat (n - 1)) (Base c) (Max c) Hb Hm) as [Hg Heq]. fold d in Hg, Heq.
  assert (Hd : 0 < d <= Max c).
  { subst d. unfold ideal. assert (0 < 2 ^ Z.of_nat (Z.to_nat (n - 1))) by (apply Z.pow_pos_nonneg; lia). nia. }
  assert (Hcap : Base c <= Max c \/ d = Max c).
  { destruct (Z.le_gt_cases (Base c) (Max c)); [by left|right]. subst d. apply ideal_cap; lia. }
  set (g := grow _ _ _) in *.
  assert (Hgd : g = d \/ d = Max c /\ d <= g) by (destruct Hcap as [Hcap|Hcap]; [left; by apply Heq|right; lia]).
  clearbody g d. clear Heq Hcap. rewrite Z.quot_div_nonneg by lia.
  assert (Hq : 0 <= g / 4 <= 2 ^ 60) by (split; [apply Z.div_pos; lia|apply Z.div_le_upper_bound; lia]).
  assert (0 <= d / 4) by (apply Z.div_pos; lia).
  destruct (Z.ltb_spec 0 (g / 4)).
  - rewrite (wrap64_id (g / 4 + 1)) by (unfold in_int64, int64_min, int64_max; lia).
    pose proof (Hj (g / 4 + 1) ltac:(lia)).
    rewrite wrap64_id by (unfold in_int64, int64_min, int64_max; lia).
    destruct Hgd as [->|[-> Hle]]; case_match; breflect; lia.
  - destruct Hgd as [->|[-> Hle]]; case_match; breflect; lia.
Qed.

(** ** Histories *)

(** One recorded outcome: the asset, its class, the time and the jitter drawn. *)
Record event := MkEvent { ev_id : string; ev_class : ErrorClass; ev_now : Z; ev_jitter : Z -> Z }.

(** The state after a history, newest event first. *)
Fixpoint after (c : BackoffState) (hist : list event) : BackoffState :=
  match hist with
  | [] => c
  | e :: older => Record_ (ev_jitter e) (ev_id e) (ev_class e) (ev_now e) (after c older)
  end.

(** Outcomes that count as failures: all but success and the two refusals. *)
Definition counts (class : ErrorClass) : bool :=
  negb (String.eqb class ClassOK || String.eqb class ClassRejected || String.eqb class ClassUnauthorized).

(** Specification, on the events of one asset only: the current streak of failures, and the
    time before which no attempt may be made. *)
Fixpoint streak (own : list event) : Z :=
  match own with
  | [] => 0
  | e :: older => if counts (ev_class e) then 1 + streak older else 0
  end.

Definition not_before (c : BackoffConfig) (own : list event) : option Z :=
  match own with
  | [] => None
  | e :: older =>
      if String.eqb (ev_class e) ClassOK then None
      else Some (ev_now e +
        (if String.eqb (ev_class e) ClassRejected then RejectedRetry c
         else if String.eqb (ev_class e) ClassUnauthorized then UnauthorizedRetry c
         else if String.eqb (ev_class e) ClassPermanent then Max c
         else delayFor c (ev_jitter e) (streak own)))
  end.

Definition own (id : string) (hist : list event) : list event := filter (fun e => ev_id e = id) hist.

Lemma Record_cfg j id cl now b : cfg (Record_ j id cl now b) = cfg b.
Proof. unfold Record_. by repeat case_match. Qed.

Lemma after_cfg b hist : cfg (after b hist) = cfg b.
Proof. induction hist; cbn; [done|]. by rewrite Record_cfg. Qed.

Lemma Record_other j id id' cl now b :
  id <> id' -> entries (Record_ j id cl now b) !! id' = entries b !! id'.
Proof.
  intros Hne. unfold Record_. repeat case_match; cbn; by simplify_map_eq.
Qed.

Lemma streak_range l : 0 <= streak l <= Z.of_nat (length l).
Proof. induction l as [|e l IH]; cbn [streak length]; [lia|]. destruct (counts _); lia. Qed.

Lemma own_length id hist : (length (own id hist) <= length hist)%nat.
Proof. apply length_filter. Qed.

Lemma own_cons id e hist :
  own id (e :: hist) = if decide (ev_id e = id) then e :: own id hist else own id hist.
Proof. unfold own. by rewrite filter_cons. Qed.

(** The state holds exactly the specification's two values for every asset. *)
Lemma after_spec b id hist :
  entries b = ∅ -> Z.of_nat (length hist) <= int64_max ->
  FailCount (entry_of id (after b hist)) = streak (own id hist) /\
  NextAttemptAt <$> entries (after b hist) !! id = not_before (cfg b) (own id hist).
Proof.
  intros Hb. induction hist as [|e hist IH]; intros Hlen; cbn [after length] in *.
  - unfold entry_of. rewrite Hb, lookup_empty. done.
  - rewrite own_cons. destruct (decide (ev_id e = id)) as [<-|Hne].
    + destruct IH as [IHs _]; [lia|].
      pose proof (streak_range (own (ev_id e) hist)). pose proof (own_length (ev_id e) hist).
      cbn [streak not_before]. unfold counts, Record_, entry_of, set_entry, NextAttempt, TimeAdd in *.
      rewrite IHs, after_cfg, wrap64_id by (unfold in_int64, int64_min, int64_max in *; lia).
      destruct (String.eqb_spec (ev_class e) ClassOK) as [E|E]; cbn [orb negb entries];
        [rewrite lookup_delete_eq; done|].
      repeat (destruct (String.eqb (ev_class e) _); cbn [orb negb entries cfg];
        [rewrite lookup_insert_eq; cbn; split; [|f_equal]; lia|]).
      rewrite lookup_insert_eq; cbn. rewrite (Z.add_comm 1). done.
    + unfold entry_of in *. rewrite Record_other by done. apply IH. lia.
Qed.

Lemma NewBackoffState_ok c :
  Base c <= 2 ^ 62 -> Max c <= 2 ^ 62 -> config_ok (cfg (NewBackoffState c)).
Proof.
  intros Hb Hm. unfold config_ok, NewBackoffState; cbn.
  destruct (Z.leb_spec (Base c) 0), (Z.leb_spec (Max c) 0); unfold Minute, Second; lia.
Qed.

(** The assets that may not be attempted now. *)
Definition deferred (now : Z) (b : BackoffState) : gset string :=
  dom (filter (fun '(_, e) => now < NextAttemptAt e) (entries b)).

Lemma elem_of_deferred now b id : id ∈ deferred now b <-> CanAttempt id now b = false.
Proof.
  unfold deferred, CanAttempt, After. rewrite elem_of_dom. unfold is_Some. setoid_rewrite map_lookup_filter_Some.
  destruct (entries b !! id) as [e|].
  - rewrite negb_false_iff, Z.ltb_lt. naive_solver.
  - split; [by intros (? & ? & _)|done].
Qed.

Lemma CountDeferred_size now b : CountDeferred now b = Z.of_nat (size (deferred now b)).
Proof.
  unfold CountDeferred, deferred. rewrite size_dom.
  generalize (entries b) as m. intros m. induction m as [|k e m Hk IH Hfold] using map_ind.
  - by rewrite map_fold_empty, map_filter_empty, map_size_empty.
  - rewrite map_fold_insert_L by (done || (intros; repeat case_match; lia)).
    rewrite IH. unfold After. destruct (Z.ltb_spec now (NextAttemptAt e)).
    + rewrite map_filter_insert_True by done.
      rewrite map_size_insert_None by (apply map_lookup_filter_None; by left). lia.
    + rewrite map_filter_insert_False by lia. rewrite delete_id by done. done.
Qed.

(** ** Theorems *)

(** C20: the waiting time after the n-th failure in a row is exponential, capped and jittered.
    For every configuration below 2^62 ns (unset values take the defaults) and every jitter
    source within its documented range, it is at least [min(Max, Base * 2^(n-1))], at most a
    quarter more than that, and never more than [Max]: it is never negative, and no number of
    failures makes the doubling overflow. *)
Theorem backoff_delay_bounds c hist jitter now n :
  Base c <= 2 ^ 62 -> Max c <= 2 ^ 62 -> jitter_ok jitter -> 1 <= n ->
  let b := after (NewBackoffState c) hist in
  let d := Z.min (Max (cfg b)) (Base (cfg b) * 2 ^ (n - 1)) in
  0 < d /\ now + d <= NextAttempt b jitter now n <= now + Z.min (Max (cfg b)) (d + d / 4).
Proof.
  intros Hb Hm Hj Hn. cbv zeta. unfold NextAttempt, TimeAdd. rewrite after_cfg.
  pose proof (NewBackoffState_ok c Hb Hm) as Hok. set (k := cfg (NewBackoffState c)) in *. clearbody k.
  pose proof (delayFor_bounds k jitter n Hok Hj Hn) as Hd. cbv zeta in Hd. unfold ideal in Hd.
  rewrite Z2Nat.id in Hd by lia. destruct Hok as [Hb' Hm'].
  assert (0 < 2 ^ (n - 1)) by (apply Z.pow_pos_nonneg; lia). split; [nia|lia].
Qed.

(** C21: the back-off state is a function of each asset's own outcomes. After any history of
    recorded outcomes, an asset may be attempted exactly when the waiting time set by its last
    outcome is over (immediately after a success, after [RejectedRetry], [UnauthorizedRetry] or
    [Max] for the refusals and permanent errors, and after the exponential delay otherwise), and
    its failure counter is the length of its current streak of failures; outcomes of other
    assets, in whatever order they were interleaved, have no influence. *)
Theorem backoff_refines_history c id t hist :
  Z.of_nat (length hist) <= int64_max ->
  let b := after (NewBackoffState c) hist in
  FailCount (entry_of id b) = streak (own id hist) /\
  (CanAttempt id t b = true <->
   forall first, not_before (cfg (NewBackoffState c)) (own id hist) = Some first -> first <= t).
Proof.
  intros Hlen. cbv zeta. destruct (after_spec (NewBackoffState c) id hist eq_refl Hlen) as [Hf Hn].
  split; [exact Hf|]. unfold CanAttempt, After. rewrite <- Hn.
  destruct (entries (after _ _) !! id) as [e|]; cbn; [|naive_solver].
  rewrite negb_true_iff, Z.ltb_ge. naive_solver.
Qed.

(** The number of deferred announcements that the status and the metrics report is the
    number of assets that may not be attempted at that time. *)
Theorem deferred_count_exact now b :
  CountDeferred now b = Z.of_nat (size (deferred now b)) /\
  forall id, id ∈ deferred now b <-> CanAttempt id now b = false.
Proof. split; [apply CountDeferred_size|intros; apply elem_of_deferred]. Qed.

(** ** Witnesses *)

Module BackoffDemo.
Import BackoffTests.
Definition hist : list event :=
  [MkEvent "a" ClassTransient 9 no_jitter; MkEvent "b" ClassOK 8 no_jitter;
   MkEvent "a" ClassPermanent 5 no_jitter; MkEvent "a" ClassRejected 1 no_jitter].

Lemma backoff_delay_bounds_witness :
  let b := after (NewBackoffState (MkBackoff 0 0 0 0)) hist in
  NextAttempt b no_jitter 100 4 = 100 + 16 * Second /\
  100 + 16 * Second <= NextAttempt b no_jitter 100 4 <= 100 + 20 * Second.
Proof.
  split; [vm_compute; reflexivity|].
  assert (Hj : jitter_ok no_jitter) by (intros n Hn; unfold no_jitter; lia).
  exact (proj2 (backoff_delay_bounds (MkBackoff 0 0 0 0) hist no_jitter 100 4 ltac:(cbn; lia) ltac:(cbn; lia) Hj ltac:(lia))).
Defined.

Lemma backoff_refines_history_witness :
  FailCount (entry_of "a" (after (NewBackoffState (MkBackoff 0 0 0 0)) hist)) = 2 /\
  CanAttempt "a" (9 + 3 * Second) (after (NewBackoffState (MkBackoff 0 0 0 0)) hist) = false.
Proof.
  destruct (backoff_refines_history (MkBackoff 0 0 0 0) "a" (9 + 3 * Second) hist) as [Hf Hc].
  - vm_compute. discriminate.
  - split; [exact Hf|]. apply not_true_is_false. rewrite Hc. intros H. specialize (H (9 + 4 * Second) eq_refl).
    unfold Second in H. lia.
Defined.
End BackoffDemo.
