(* ===== verification/Repository.v ===== *)
(** * The database

    [internal/repository]: the two tables and every statement the provider runs on them, in a
    monad whose state is the database and a schedule of faults, so that any statement may fail
    at any point. A row of [assets] and a row of [announcements] hold the TEXT columns as the
    code writes them (times in RFC 3339); NULL is [None]. [UpsertAssets] is one transaction.
    The theorems: the status invariant of the asset table under every operation and fault,
    atomicity, exact effects, the round trip of announcement rows, and that the expiry query,
    which compares TEXT, selects by time. *)

From S2P Require Import Prelude GoStrings GoTime.
Open Scope Z_scope.

(** ** Tables *)

Record asset_row := AssetRow {
  a_status : string;
  a_master_playlist_path : string;
  a_content_hash : string;
  a_file_count : Z;
  a_total_size_bytes : Z;
  a_last_scanned_at : string;
  a_created_at : string;
  a_updated_at : string;
  a_missing_at : option string;
}.

Record ann_row := AnnRow {
  n_last_announced_at : option string;
  n_expires_at : option string;
  n_status : string;
  n_created_at : string;
  n_updated_at : string;
}.

#[export] Instance asset_row_eq_dec : EqDecision asset_row.
Proof. solve_decision. Defined.
#[export] Instance ann_row_eq_dec : EqDecision ann_row.
Proof. solve_decision. Defined.

(** The database; [faults] says of each coming call whether it fails, and with what error.
    [enforced] says whether the connection enforces the foreign key of [announcements]: SQLite
    does so per connection, [db.Open] asks for it once, and the connection pool may open others
    (a refusal by one connection among others that do not enforce is a fault like any other). *)
Record db := MkDB {
  assets : gmap string asset_row;
  announcements : gmap string ann_row;
  faults : list (option string);
  enforced : bool;
}.

(** An error: the operation it is wrapped in, the asset it names, and its cause. *)
Inductive repo_err := RepoErr (op : string) (asset : string) (cause : string).

Definition DB (A : Type) : Type := db -> result repo_err A * db.

#[export] Instance db_ret : MRet DB := fun A a d => (Ok a, d).
#[export] Instance db_bind : MBind DB :=
  fun A B f m d => match m d with
                   | (Ok a, d') => f a d'
                   | (Err e, d') => (Err e, d')
                   end.

(** One call of the driver: it fails if the schedule says so. *)
Definition call (op asset : string) : DB unit := fun d =>
  let d' := MkDB (assets d) (announcements d) (tail (faults d)) (enforced d) in
  match faults d with
  | Some cause :: _ => (Err (RepoErr op asset cause), d')
  | _ => (Ok tt, d')
  end.

Definition get_assets : DB (gmap string asset_row) := fun d => (Ok (assets d), d).
Definition put_assets (t : gmap string asset_row) : DB unit := fun d =>
  (Ok tt, MkDB t (announcements d) (faults d) (enforced d)).
Definition get_anns : DB (gmap string ann_row) := fun d => (Ok (announcements d), d).
Definition put_anns (t : gmap string ann_row) : DB unit := fun d =>
  (Ok tt, MkDB (assets d) t (faults d) (enforced d)).
Definition fail {A} (e : repo_err) : DB A := fun d => (Err e, d).

(** [FOREIGN KEY(asset_id) REFERENCES assets(asset_id)], where it is enforced. *)
Definition check_fk (op assetID : string) : DB unit := fun d =>
  if enforced d && bool_decide (assets d !! assetID = None)
  then (Err (RepoErr op assetID "FOREIGN KEY constraint failed"), d)
  else (Ok tt, d).

(** ** Assets *)

Record AssetRecord := MkAssetRecord {
  AssetID : string;
  MasterPlaylistPath : string;
  ContentHash : string;
  FileCount : Z;
  TotalSizeBytes : Z;
  LastScannedAt : Z;
}.

(** [INSERT ... ON CONFLICT(asset_id) DO UPDATE]: [created_at] of an existing row is kept. *)
Definition upsert_asset (nowStr : string) (t : gmap string asset_row) (a : AssetRecord)
  : gmap string asset_row :=
  let created := match t !! AssetID a with Some old => a_created_at old | None => nowStr end in
  <[AssetID a := AssetRow "active" (MasterPlaylistPath a) (ContentHash a) (FileCount a) (TotalSizeBytes a)
                   (FormatRFC3339 (LastScannedAt a)) created nowStr None]> t.

(** The statements of the open transaction, on its own view of the table. *)
Fixpoint upsert_loop (nowStr : string) (l : list AssetRecord) (t : gmap string asset_row)
  : DB (gmap string asset_row) :=
  match l with
  | [] => mret t
  | a :: l' => call "upsert asset" (AssetID a);; upsert_loop nowStr l' (upsert_asset nowStr t a)
  end.

(** The deferred [Rollback] leaves the table as it was unless [Commit] was called. After a failed
    [Commit] it returns [sql.ErrTxDone] and does nothing; that a COMMIT that failed has not taken effect
    is SQLite's guarantee: the transaction is then rolled back, at the latest with its connection. *)
Definition UpsertAssets (l : list AssetRecord) (now : Z) : DB unit :=
  call "begin upsert tx" "";;
  t ← get_assets;
  t' ← upsert_loop (FormatRFC3339 now) l t;
  call "commit upsert tx" "";;
  put_assets t'.

Definition set_missing (nowStr : string) (r : asset_row) : asset_row :=
  AssetRow "missing" (a_master_playlist_path r) (a_content_hash r) (a_file_count r) (a_total_size_bytes r)
           (a_last_scanned_at r) (a_created_at r) nowStr (Some nowStr).

(** The conditions of the two UPDATE statements. *)
Definition not_missing (kr : string * asset_row) : Prop := a_status kr.2 <> "missing".
Definition unseen (seen : list string) (kr : string * asset_row) : Prop :=
  a_status kr.2 <> "missing" /\ kr.1 ∉ seen.
#[export] Instance not_missing_dec kr : Decision (not_missing kr).
Proof. unfold not_missing. apply _. Defined.
#[export] Instance unseen_dec seen kr : Decision (unseen seen kr).
Proof. unfold unseen. apply _. Defined.

(** An UPDATE applied to the rows that satisfy its condition, with the number of them. *)
Definition update_where {V} (P : string * V -> Prop) `{forall x, Decision (P x)} (f : V -> V)
    (t : gmap string V) : gmap string V * Z :=
  (map_imap (fun k r => Some (if decide (P (k, r)) then f r else r)) t,
   Z.of_nat (size (filter P t))).

(** The rows are changed before [RowsAffected] is asked. *)
Definition MarkMissing (seenAssetIDs : list string) (now : Z) : DB Z :=
  let nowStr := FormatRFC3339 now in
  if bool_decide (seenAssetIDs = []) then
    call "mark missing (empty seen set)" "";;
    t ← get_assets;
    let upd := update_where not_missing (set_missing nowStr) t in
    put_assets upd.1;;
    call "rows affected missing (empty seen set)" "";;
    mret upd.2
  else
    call "mark missing" "";;
    t ← get_assets;
    let upd := update_where (unseen seenAssetIDs) (set_missing nowStr) t in
    put_assets upd.1;;
    call "rows affected missing" "";;
    mret upd.2.

Definition count_status (status : string) (t : gmap string asset_row) : Z :=
  Z.of_nat (size (filter (fun kr => a_status kr.2 = status) t)).

Definition CountActive : DB Z :=
  call "count active assets" "";; t ← get_assets; mret (count_status "active" t).

Definition CountMissing : DB Z :=
  call "count missing assets" "";; t ← get_assets; mret (count_status "missing" t).

(** [ORDER BY asset_id] with the BINARY collation. *)
Definition active_ids (t : gmap string asset_row) : list string :=
  merge_sort sle ((map_to_list (filter (fun kr => a_status kr.2 = "active") t)).*1).

(** A query, the scan of each row, and the error of the iteration. *)
Definition ListActiveAssetIDs : DB (list string) :=
  call "query active assets" "";;
  t ← get_assets;
  let ids := active_ids t in
  foldr (fun id k => call "scan active asset id" "";; k) (mret tt) ids;;
  call "iterate active assets" "";;
  mret ids.

(** ** Announcements *)

Record AnnouncementRow := MkAnn {
  ann_AssetID : string;
  LastAnnouncedAt : Z;
  ExpiresAt : Z;
  Status : string;
  CreatedAt : Z;
  UpdatedAt : Z;
}.

(** A zero time is stored as the empty string. *)
Definition time_column (t : Z) : string := if IsZero t then "" else FormatRFC3339 t.

Definition UpsertAnnouncementStatus (assetID : string) (lastAnnouncedAt expiresAt : Z) (status : string)
    (now : Z) : DB unit :=
  let nowStr := FormatRFC3339 now in
  call "upsert announcement status" assetID;;
  check_fk "upsert announcement status" assetID;;
  t ← get_anns;
  let created := match t !! assetID with Some old => n_created_at old | None => nowStr end in
  put_anns (<[assetID := AnnRow (Some (time_column lastAnnouncedAt)) (Some (time_column expiresAt)) status
                           created nowStr]> t).

Section Announcements.
Context `{TimeParseLenient}.

(** A time column that must parse, and one whose parse error is ignored. *)
Definition parse_column (op assetID s : string) : result repo_err Z :=
  if String.eqb s "" then Ok zero_time
  else match ParseRFC3339 s with
       | Some t => Ok t
       | None => Err (RepoErr op assetID "parse")
       end.

Definition parse_or_zero (s : string) : Z :=
  if String.eqb s "" then zero_time else default zero_time (ParseRFC3339 s).

(** The row as [GetAnnouncement] reads it; a NULL cannot be scanned into a string. *)
Definition read_row (assetID : string) (r : ann_row) : result repo_err AnnouncementRow :=
  match n_last_announced_at r, n_expires_at r with
  | Some last, Some exp =>
      t1 ← parse_column "parse last_announced_at" assetID last;
      t2 ← parse_column "parse expires_at" assetID exp;
      Ok (MkAnn assetID t1 t2 (n_status r) (parse_or_zero (n_created_at r)) (parse_or_zero (n_updated_at r)))
  | _, _ => Err (RepoErr "query announcement" assetID "converting NULL to string")
  end.

Definition GetAnnouncement (assetID : string) : DB (option AnnouncementRow) :=
  call "query announcement" assetID;;
  t ← get_anns;
  match t !! assetID with
  | None => mret None
  | Some r => match read_row assetID r with
              | Ok row => mret (Some row)
              | Err e => fail e
              end
  end.
End Announcements.

(** [status != 'expired' AND expires_at != '' AND expires_at < ?]: not true of a NULL. *)
Definition to_expire (cutoff : string) (kr : string * ann_row) : Prop :=
  n_status kr.2 <> "expired" /\
  match n_expires_at kr.2 with
  | Some e => e <> "" /\ slt e cutoff = true
  | None => False
  end.
#[export] Instance to_expire_dec cutoff kr : Decision (to_expire cutoff kr).
Proof. unfold to_expire. destruct (n_expires_at kr.2); apply _. Defined.

Definition set_expired (nowStr : string) (r : ann_row) : ann_row :=
  AnnRow (n_last_announced_at r) (n_expires_at r) "expired" (n_created_at r) nowStr.

(** [wallclock] is [time.Now()], which this function reads itself. *)
Definition MarkExpiredBefore (wallclock cutoffUnix : Z) : DB Z :=
  let cutoff := FormatRFC3339 (TimeUnix cutoffUnix) in
  call "mark expired announcements" "";;
  t ← get_anns;
  let upd := update_where (to_expire cutoff) (set_expired (FormatRFC3339 wallclock)) t in
  put_anns upd.1;;
  call "rows affected expired announcements" "";;
  mret upd.2.

(** ** Reasoning about runs *)

Lemma bind_inv {A B} (m : DB A) (f : A -> DB B) d r d' :
  (m ≫= f) d = (r, d') ->
  (exists a d1, m d = (Ok a, d1) /\ f a d1 = (r, d')) \/ (exists e, m d = (Err e, d') /\ r = Err e).
Proof. unfold mbind, db_bind. destruct (m d) as [[a|e] d1]; [eauto|]. intros [= <- <-]. eauto. Qed.

Definition same_tables (d d' : db) : Prop :=
  assets d' = assets d /\ announcements d' = announcements d.

Lemma call_same op a d r d' : call op a d = (r, d') -> same_tables d d'.
Proof. unfold call, same_tables. destruct (faults d) as [|[c|] fs]; intros [= <- <-]; done. Qed.

Lemma check_fk_same op a d r d' : check_fk op a d = (r, d') ->
  d' = d /\ (is_ok r = true -> enforced d = true -> is_Some (assets d !! a)).
Proof.
  unfold check_fk. destruct (enforced d); cbn [andb]; [|by intros [= <- <-]].
  case_bool_decide as Hn; intros [= <- <-]; (split; [done|]); [done|]. intros _ _. by apply not_eq_None_Some.
Qed.

Lemma same_tables_trans d1 d2 d3 : same_tables d1 d2 -> same_tables d2 d3 -> same_tables d1 d3.
Proof. unfold same_tables. intros [-> ->] [-> ->]. done. Qed.

(** Invert a run of monadic code call by call; [call]s leave the tables alone. *)
Ltac db_inv :=
  repeat match goal with
  | H : (_ ≫= _) _ = (_, _) |- _ => apply bind_inv in H as [(? & ? & ? & ?)|(? & ? & ?)]
  | H : call _ _ _ = (_, _) |- _ => apply call_same in H as [? ?]
  | H : check_fk _ _ _ = (_, _) |- _ => apply check_fk_same in H as [-> ?]
  | H : get_assets _ = (_, _) |- _ => unfold get_assets in H; injection H as ? ?; subst
  | H : get_anns _ = (_, _) |- _ => unfold get_anns in H; injection H as ? ?; subst
  | H : put_assets _ _ = (_, _) |- _ => unfold put_assets in H; injection H as ? ?; subst
  | H : put_anns _ _ = (_, _) |- _ => unfold put_anns in H; injection H as ? ?; subst
  | H : mret _ _ = (_, _) |- _ => unfold mret, db_ret in H; injection H as ? ?; subst
  | H : fail _ _ = (_, _) |- _ => unfold fail in H; injection H as ? ?; subst
  | H : (_, _) = (_, _) |- _ => injection H as ? ?; subst
  | H : Err _ = Ok _ |- _ => discriminate H
  | H : Ok _ = Err _ |- _ => discriminate H
  | H : Ok _ = Ok _ |- _ => injection H as H; subst
  | H : ?r = Err _ |- _ => is_var r; subst r
  end.

Lemma upsert_loop_inv nowStr l t d r d' :
  upsert_loop nowStr l t d = (r, d') ->
  same_tables d d' /\ (forall t', r = Ok t' -> t' = foldl (upsert_asset nowStr) t l).
Proof.
  revert t d; induction l as [|a l IH]; intros t d; cbn [upsert_loop foldl]; intros Hr.
  - db_inv. split; [done|]. by intros t' [= <-].
  - apply bind_inv in Hr as [(u & d1 & Hc & Hl)|(e & Hc & ->)]; apply call_same in Hc.
    + apply IH in Hl as [Hs Ht]. eauto using same_tables_trans.
    + split; [done|]. done.
Qed.

Lemma UpsertAssets_inv l now d r d' :
  UpsertAssets l now d = (r, d') ->
  announcements d' = announcements d /\
  assets d' = match r with Ok _ => foldl (upsert_asset (FormatRFC3339 now)) (assets d) l | Err _ => assets d end.
Proof.
  unfold UpsertAssets. intros Hr. db_inv; cbn in *; try (split; congruence).
  all: match goal with H : upsert_loop _ _ _ _ = _ |- _ => apply upsert_loop_inv in H as [[? ?] Ht] end.
  all: try (specialize (Ht _ eq_refl); subst). all: split; congruence.
Qed.

Lemma update_lookup {V} (P : string * V -> Prop) `{forall x, Decision (P x)} f t id :
  (update_where P f t).1 !! id = (fun r => if decide (P (id, r)) then f r else r) <$> t !! id.
Proof. cbn. rewrite map_lookup_imap. by destruct (t !! id). Qed.

Lemma unseen_nil kr : unseen [] kr <-> not_missing kr.
Proof. unfold unseen, not_missing. set_solver. Qed.

Lemma update_where_ext {V} (P Q : string * V -> Prop)
    `{forall x, Decision (P x)} `{forall x, Decision (Q x)} f t :
  (forall x, P x <-> Q x) -> update_where P f t = update_where Q f t.
Proof.
  intros HPQ. unfold update_where. f_equal.
  - apply map_eq. intros k. rewrite !map_lookup_imap. destruct (t !! k) as [r|]; [|done].
    cbn. f_equal.
    specialize (HPQ (k, r)). by destruct (decide (P _)), (decide (Q _)); try tauto.
  - f_equal. f_equal. apply map_filter_ext. intros; apply HPQ.
Qed.

(** Both branches of [MarkMissing] are the same update. *)
Lemma MarkMissing_inv seen now d r d' :
  MarkMissing seen now d = (r, d') ->
  let upd := update_where (unseen seen) (set_missing (FormatRFC3339 now)) (assets d) in
  announcements d' = announcements d /\
  ((exists e, r = Err e /\ assets d' = assets d) \/
   (assets d' = upd.1 /\ forall n, r = Ok n -> n = upd.2)).
Proof.
  intros Hr upd. unfold MarkMissing in Hr. destruct (bool_decide_reflect (seen = [])) as [->|Hne].
  - assert (Hu : upd = update_where not_missing (set_missing (FormatRFC3339 now)) (assets d)).
    { subst upd. apply update_where_ext. apply unseen_nil. }
    rewrite Hu. clear Hu upd. db_inv; cbn in *; (split; [congruence|]).
    all: first [right; split; [congruence|naive_solver congruence]|left; eauto].
  - subst upd. db_inv; cbn in *; (split; [congruence|]).
    all: first [right; split; [congruence|naive_solver congruence]|left; eauto].
Qed.

Lemma MarkExpiredBefore_inv wall cutoff d r d' :
  MarkExpiredBefore wall cutoff d = (r, d') ->
  let upd := update_where (to_expire (FormatRFC3339 (TimeUnix cutoff)))
               (set_expired (FormatRFC3339 wall)) (announcements d) in
  assets d' = assets d /\
  ((exists e, r = Err e /\ announcements d' = announcements d) \/
   (announcements d' = upd.1 /\ forall n, r = Ok n -> n = upd.2)).
Proof.
  intros Hr upd. unfold MarkExpiredBefore in Hr. subst upd. db_inv; cbn in *; (split; [congruence|]).
  all: first [right; split; [congruence|naive_solver congruence]|left; eauto].
Qed.

Lemma UpsertAnnouncementStatus_inv id last exp st now d r d' :
  UpsertAnnouncementStatus id last exp st now d = (r, d') ->
  assets d' = assets d /\
  match r with
  | Err _ => announcements d' = announcements d
  | Ok _ =>
      announcements d' =
      <[id := AnnRow (Some (time_column last)) (Some (time_column exp)) st
                (match announcements d !! id with Some old => n_created_at old | None => FormatRFC3339 now end)
                (FormatRFC3339 now)]> (announcements d)
  end.
Proof.
  intros Hr. unfold UpsertAnnouncementStatus in Hr. db_inv; cbn in *; split; try congruence.
  match goal with H : announcements _ = announcements d |- _ => by rewrite H end.
Qed.

(** Reading never changes the tables. *)
Lemma GetAnnouncement_inv `{TimeParseLenient} id d r d' :
  GetAnnouncement id d = (r, d') ->
  same_tables d d' /\
  match r with
  | Ok None => announcements d !! id = None
  | Ok (Some row) => exists n, announcements d !! id = Some n /\ read_row id n = Ok row
  | Err e => True
  end.
Proof.
  intros Hr. unfold GetAnnouncement in Hr. db_inv; cbn in *; try (split; [by split|done]).
  match goal with H : announcements _ = announcements d |- _ => rewrite H in * end.
  destruct (announcements d !! id) as [n|] eqn:En; [destruct (read_row id n) eqn:Er|]; db_inv;
    (split; [split; congruence|]); eauto.
Qed.

Lemma foldr_calls_same {A} op (l : list A) d r d' :
  foldr (fun _ k => call op "";; k) (mret tt) l d = (r, d') -> same_tables d d'.
Proof.
  revert d; induction l as [|x l IH]; cbn [foldr]; intros d Hr; [db_inv; done|].
  apply bind_inv in Hr as [(u & d1 & Hc & Hl)|(e & Hc & ->)]; apply call_same in Hc; [|done].
  eauto using same_tables_trans.
Qed.

Lemma ListActiveAssetIDs_inv d r d' :
  ListActiveAssetIDs d = (r, d') -> same_tables d d' /\ (forall ids, r = Ok ids -> ids = active_ids (assets d)).
Proof.
  intros Hr. unfold ListActiveAssetIDs in Hr. db_inv; cbn in *;
    repeat match goal with H : foldr _ _ _ _ = _ |- _ => apply foldr_calls_same in H as [? ?] end;
    (split; [split; congruence|]); intros ids [= <-]; congruence.
Qed.

Lemma CountActive_inv d r d' :
  CountActive d = (r, d') -> same_tables d d' /\ (forall n, r = Ok n -> n = count_status "active" (assets d)).
Proof.
  intros Hr. unfold CountActive in Hr. db_inv; cbn in *; (split; [split; congruence|]); intros n [= <-]; congruence.
Qed.

Lemma CountMissing_inv d r d' :
  CountMissing d = (r, d') -> same_tables d d' /\ (forall n, r = Ok n -> n = count_status "missing" (assets d)).
Proof.
  intros Hr. unfold CountMissing in Hr. db_inv; cbn in *; (split; [split; congruence|]); intros n [= <-]; congruence.
Qed.

Lemma elem_of_active_ids t id :
  id ∈ active_ids t <-> exists r, t !! id = Some r /\ a_status r = "active".
Proof.
  unfold active_ids. rewrite merge_sort_Permutation, list_elem_of_fmap. split.
  - intros ([k r] & -> & Hin). apply elem_of_map_to_list, map_lookup_filter_Some in Hin. naive_solver.
  - intros (r & Hr & Hs). exists (id, r). split; [done|]. by apply elem_of_map_to_list, map_lookup_filter_Some.
Qed.

Lemma NoDup_active_ids t : NoDup (active_ids t).
Proof. unfold active_ids. rewrite merge_sort_Permutation. apply NoDup_fst_map_to_list. Qed.

Lemma length_active_ids t : Z.of_nat (length (active_ids t)) = count_status "active" t.
Proof. unfold active_ids, count_status. by rewrite merge_sort_Permutation, length_fmap, length_map_to_list. Qed.

Lemma upserts_lookup nowStr l t id :
  foldl (upsert_asset nowStr) t l !! id =
  match last (filter (fun a => AssetID a = id) l) with
  | None => t !! id
  | Some a => Some (AssetRow "active" (MasterPlaylistPath a) (ContentHash a) (FileCount a) (TotalSizeBytes a)
                 (FormatRFC3339 (LastScannedAt a))
                 (match t !! id with Some old => a_created_at old | None => nowStr end) nowStr None)
  end.
Proof.
  induction l as [|a l IH] using rev_ind; [done|].
  rewrite foldl_snoc, filter_app, filter_cons, filter_nil. unfold upsert_asset at 1.
  destruct (decide (AssetID a = id)) as [<-|Hne].
  - rewrite lookup_insert_eq, last_snoc, IH.
    destruct (last (filter _ l)); done.
  - by rewrite lookup_insert_ne, app_nil_r.
Qed.

(** ** The invariant of the asset table *)

(** An asset is active without a time of disappearance, or missing with one. *)
Definition asset_wf (r : asset_row) : Prop :=
  a_status r = "active" /\ a_missing_at r = None \/ a_status r = "missing" /\ is_Some (a_missing_at r).

Definition table_wf (t : gmap string asset_row) : Prop := map_Forall (fun _ r => asset_wf r) t.

(** No row disappears, and its creation time never changes. *)
Definition keeps_created (t t' : gmap string asset_row) : Prop :=
  forall id r, t !! id = Some r -> exists r', t' !! id = Some r' /\ a_created_at r' = a_created_at r.

#[export] Instance keeps_created_preorder : PreOrder keeps_created.
Proof.
  split; [intros t id r Hr; eauto|]. intros t1 t2 t3 H12 H23 id r Hr.
  destruct (H12 _ _ Hr) as (r2 & H2 & E2), (H23 _ _ H2) as (r3 & H3 & E3). exists r3. split; congruence.
Qed.

Lemma upserts_wf nowStr l t :
  table_wf t ->
  table_wf (foldl (upsert_asset nowStr) t l) /\ keeps_created t (foldl (upsert_asset nowStr) t l).
Proof.
  intros Hwf. split.
  - intros id r. rewrite upserts_lookup. case_match; [|apply Hwf]. intros [= <-]. by left.
  - intros id r Hr. rewrite upserts_lookup. case_match; [|eauto]. rewrite Hr. eauto.
Qed.

Lemma mark_wf seen nowStr t :
  table_wf t ->
  let t' := (update_where (unseen seen) (set_missing nowStr) t).1 in table_wf t' /\ keeps_created t t'.
Proof.
  intros Hwf t'. split.
  - intros id r. subst t'. rewrite update_lookup. destruct (t !! id) as [r0|] eqn:E; [|done].
    cbn. intros [= <-]. case_decide; [right; by eauto|by apply (Hwf id)].
  - intros id r Hr. subst t'. rewrite update_lookup, Hr. cbn. eexists. split; [done|]. by case_decide.
Qed.

(** The operations on the database, as other components call them. *)
Inductive db_op :=
| OUpsertAssets (l : list AssetRecord) (now : Z)
| OMarkMissing (seen : list string) (now : Z)
| OCountActive | OCountMissing | OListActive
| OUpsertAnn (id : string) (lastAt exp : Z) (st : string) (now : Z)
| OGetAnn (id : string)
| OMarkExpired (wall cutoff : Z).

Definition run_op `{TimeParseLenient} (d : db) (o : db_op) : db :=
  match o with
  | OUpsertAssets l now => (UpsertAssets l now d).2
  | OMarkMissing seen now => (MarkMissing seen now d).2
  | OCountActive => (CountActive d).2
  | OCountMissing => (CountMissing d).2
  | OListActive => (ListActiveAssetIDs d).2
  | OUpsertAnn id lastAt exp st now => (UpsertAnnouncementStatus id lastAt exp st now d).2
  | OGetAnn id => (GetAnnouncement id d).2
  | OMarkExpired wall cutoff => (MarkExpiredBefore wall cutoff d).2
  end.

(** Run an operation and keep the equation about it. *)
Ltac run m H := let r := fresh "r" in let d := fresh "d" in destruct m as [r d] eqn:H; cbn [fst snd].

Lemma run_op_wf `{TimeParseLenient} d o :
  table_wf (assets d) -> table_wf (assets (run_op d o)) /\ keeps_created (assets d) (assets (run_op d o)).
Proof.
  intros Hwf. destruct o; cbn [run_op].
  - run (UpsertAssets l now d) Hr. apply UpsertAssets_inv in Hr as [_ ->].
    destruct r; [by apply upserts_wf|done].
  - run (MarkMissing seen now d) Hr. apply MarkMissing_inv in Hr as [_ [(e & -> & ->)|[-> _]]];
      [done|by apply mark_wf].
  - run (CountActive d) Hr. apply CountActive_inv in Hr as [[-> _] _]. done.
  - run (CountMissing d) Hr. apply CountMissing_inv in Hr as [[-> _] _]. done.
  - run (ListActiveAssetIDs d) Hr. apply ListActiveAssetIDs_inv in Hr as [[-> _] _]. done.
  - run (UpsertAnnouncementStatus id lastAt exp st now d) Hr. apply UpsertAnnouncementStatus_inv in Hr as [-> _]. done.
  - run (GetAnnouncement id d) Hr. apply GetAnnouncement_inv in Hr as [[-> _] _]. done.
  - run (MarkExpiredBefore wall cutoff d) Hr. apply MarkExpiredBefore_inv in Hr as [-> _]. done.
Qed.

(** Without faults the query delivers, and leaves the database as it is. *)
Lemma call_nofault op a d : faults d = [] -> call op a d = (Ok tt, d).
Proof. intros Hf. unfold call. rewrite Hf. destruct d; cbn in *. by subst. Qed.

Lemma ListActiveAssetIDs_nofault d : faults d = [] -> ListActiveAssetIDs d = (Ok (active_ids (assets d)), d).
Proof.
  intros Hf. unfold ListActiveAssetIDs, mbind, db_bind. rewrite call_nofault by done. cbn [get_assets].
  assert (Hl : forall l, foldr (fun (_ : string) k => call "scan active asset id" "";; k) (mret tt) l d = (Ok tt, d)).
  { induction l as [|x l IH]; cbn [foldr]; [done|]. unfold mbind, db_bind. by rewrite call_nofault. }
  unfold mbind, db_bind in Hl. by rewrite Hl, call_nofault.
Qed.

(** *** Referential integrity *)

(** Every announcement belongs to a row of [assets]. *)
Definition fk_ok (d : db) : Prop := dom (announcements d) ⊆ dom (assets d).

(** Code that leaves the connection's setting alone. *)
Definition keeps_setting {A} (m : DB A) : Prop := forall d, enforced (m d).2 = enforced d.

Lemma keeps_bind {A B} (m : DB A) (f : A -> DB B) :
  keeps_setting m -> (forall a, keeps_setting (f a)) -> keeps_setting (m ≫= f).
Proof.
  intros Hm Hf d. unfold mbind, db_bind. specialize (Hm d). destruct (m d) as [[a|e] d1]; cbn in *; [|done].
  by rewrite (Hf a d1).
Qed.

Lemma keeps_call op a : keeps_setting (call op a).
Proof. intros d. unfold call. by destruct (faults d) as [|[|]]. Qed.

Lemma keeps_check_fk op a : keeps_setting (check_fk op a).
Proof. intros d. unfold check_fk. by case_match. Qed.

Lemma keeps_pure {A} (m : DB A) : (forall d, (m d).2 = d) -> keeps_setting m.
Proof. intros Hm d. by rewrite Hm. Qed.

Lemma keeps_put_assets t : keeps_setting (put_assets t).
Proof. done. Qed.
Lemma keeps_put_anns t : keeps_setting (put_anns t).
Proof. done. Qed.

Create HintDb setting.
#[export] Hint Resolve keeps_bind keeps_call keeps_check_fk keeps_put_assets keeps_put_anns : setting.
#[export] Hint Extern 5 (keeps_setting _) => apply keeps_pure; intros; reflexivity : setting.

Ltac keep_setting := repeat (first [apply keeps_bind; [|intros ?] | solve [auto with setting] | case_match]).

Lemma keeps_upsert_loop nowStr l t : keeps_setting (upsert_loop nowStr l t).
Proof. revert t; induction l as [|x l IH]; intros t; cbn [upsert_loop]; keep_setting. Qed.

Lemma keeps_scan_loop (l : list string) op : keeps_setting (foldr (fun _ k => call op "";; k) (mret tt) l).
Proof. induction l; cbn [foldr]; keep_setting. Qed.
#[export] Hint Resolve keeps_upsert_loop keeps_scan_loop : setting.

Lemma run_op_setting `{TimeParseLenient} d o : enforced (run_op d o) = enforced d.
Proof.
  destruct o; cbn [run_op].
  - by assert (Hk : keeps_setting (UpsertAssets l now)) by (unfold UpsertAssets; keep_setting).
  - by assert (Hk : keeps_setting (MarkMissing seen now)) by (unfold MarkMissing; keep_setting).
  - by assert (Hk : keeps_setting CountActive) by (unfold CountActive; keep_setting).
  - by assert (Hk : keeps_setting CountMissing) by (unfold CountMissing; keep_setting).
  - by assert (Hk : keeps_setting ListActiveAssetIDs) by (unfold ListActiveAssetIDs; keep_setting).
  - by assert (Hk : keeps_setting (UpsertAnnouncementStatus id lastAt exp st now))
      by (unfold UpsertAnnouncementStatus; keep_setting).
  - by assert (Hk : keeps_setting (GetAnnouncement id)) by (unfold GetAnnouncement; keep_setting).
  - by assert (Hk : keeps_setting (MarkExpiredBefore wall cutoff)) by (unfold MarkExpiredBefore; keep_setting).
Qed.

Lemma keeps_created_dom t t' : keeps_created t t' -> dom t ⊆ dom t'.
Proof. intros Hk id [r Hr]%elem_of_dom. destruct (Hk id r Hr) as (r' & Hr' & _). apply elem_of_dom. eauto. Qed.

Lemma UpsertAnnouncementStatus_fk id last exp st now d d' :
  UpsertAnnouncementStatus id last exp st now d = (Ok tt, d') -> enforced d = true -> is_Some (assets d !! id).
Proof.
  unfold UpsertAnnouncementStatus. intros [(u & d1 & Hc & Hr)|(e & _ & ?)]%bind_inv He; [|done].
  assert (enforced d1 = enforced d) as Hs by (pose proof (keeps_call "upsert announcement status" id d) as Hk; by rewrite Hc in Hk).
  apply call_same in Hc as [Ha _]. apply bind_inv in Hr as [(u' & d2 & Hf & _)|(e & _ & ?)]; [|done].
  apply check_fk_same in Hf as [_ Hf]. rewrite <- Ha. apply Hf; [done|congruence].
Qed.

Lemma update_where_dom {V} (P : string * V -> Prop) `{forall x, Decision (P x)} f t :
  dom (update_where P f t).1 = dom t.
Proof.
  apply set_eq. intros id. rewrite !elem_of_dom, update_lookup. destruct (t !! id); cbn; split; intros [? ?]; eauto; done.
Qed.

Lemma run_op_fk `{TimeParseLenient} d o :
  table_wf (assets d) -> enforced d = true -> fk_ok d -> fk_ok (run_op d o).
Proof.
  intros Hwf He Hfk. destruct (run_op_wf d o Hwf) as [_ Hk%keeps_created_dom]. unfold fk_ok in *.
  transitivity (dom (assets d) ∪ dom (announcements (run_op d o)) ∖ dom (announcements d)).
  { intros id Hid. destruct (decide (id ∈ dom (announcements d))); set_solver. }
  apply union_subseteq. split; [done|]. intros id0 [Hin Hni]%elem_of_difference.
  enough (Hs : dom (announcements (run_op d o)) ⊆ dom (announcements d) \/
    exists id, dom (announcements (run_op d o)) ⊆ {[ id ]} ∪ dom (announcements d) /\ id ∈ dom (assets d)).
  { destruct Hs as [Hs|(id & Hs & Ha)]; [set_solver|]. apply Hk. assert (id0 = id) by set_solver. by subst. }
  clear Hk Hin Hni. destruct o; cbn [run_op].
  - left. run (UpsertAssets l now d) Hr. by apply UpsertAssets_inv in Hr as [-> _].
  - left. run (MarkMissing seen now d) Hr. by apply MarkMissing_inv in Hr as [-> _].
  - left. run (CountActive d) Hr. by apply CountActive_inv in Hr as [[_ ->] _].
  - left. run (CountMissing d) Hr. by apply CountMissing_inv in Hr as [[_ ->] _].
  - left. run (ListActiveAssetIDs d) Hr. by apply ListActiveAssetIDs_inv in Hr as [[_ ->] _].
  - run (UpsertAnnouncementStatus id lastAt exp st now d) Hr. destruct r as [[]|e].
    + right. exists id. pose proof (UpsertAnnouncementStatus_fk _ _ _ _ _ _ _ Hr He) as Hf.
      apply UpsertAnnouncementStatus_inv in Hr as [_ ->]. split; [set_solver|by apply elem_of_dom].
    + left. by apply UpsertAnnouncementStatus_inv in Hr as [_ ->].
  - left. run (GetAnnouncement id d) Hr. by apply GetAnnouncement_inv in Hr as [[_ ->] _].
  - left. run (MarkExpiredBefore wall cutoff d) Hr.
    apply MarkExpiredBefore_inv in Hr as [_ [(e & _ & ->)|[-> _]]]; [done|]. by rewrite update_where_dom.
Qed.

(** ** Theorems *)

(** C40: the asset table stays consistent. Starting from an empty database, or from any
    consistent one, after any sequence of repository operations in which any calls fail, every
    row is either active with no time of disappearance or missing with one (the table's CHECK is
    never what stops the provider), no row ever disappears, and no row's creation time changes; and
    where the connection enforces the foreign key, every announcement stays with a row of assets. *)
Theorem repository_invariant `{TimeParseLenient} d ops :
  table_wf (assets d) ->
  table_wf (assets (foldl run_op d ops)) /\ keeps_created (assets d) (assets (foldl run_op d ops)) /\
  (enforced d = true -> fk_ok d -> fk_ok (foldl run_op d ops)).
Proof.
  revert d; induction ops as [|o ops IH]; intros d Hwf; cbn [foldl]; [done|].
  destruct (run_op_wf d o Hwf) as [Hwf' Hk]. destruct (IH _ Hwf') as (? & ? & Hfk).
  split; [done|]. split; [by etrans|]. intros He Hd. apply Hfk; [by rewrite run_op_setting|by apply run_op_fk].
Qed.

(** C19: a scan result is stored as a whole or not at all. If any statement of [UpsertAssets]
    fails, neither table changes; if it succeeds, every scanned asset's row is active, carries the
    data of its (last) record and the time of this run, keeps the creation time of the row it
    replaces, and no other row changes. *)
Theorem UpsertAssets_atomic l now d r d' :
  UpsertAssets l now d = (r, d') ->
  announcements d' = announcements d /\
  match r with
  | Err _ => assets d' = assets d
  | Ok _ => forall id,
      assets d' !! id =
      match last (filter (fun a => AssetID a = id) l) with
      | None => assets d !! id
      | Some a => Some (AssetRow "active" (MasterPlaylistPath a) (ContentHash a) (FileCount a)
                     (TotalSizeBytes a) (FormatRFC3339 (LastScannedAt a))
                     (match assets d !! id with Some old => a_created_at old | None => FormatRFC3339 now end)
                     (FormatRFC3339 now) None)
      end
  end.
Proof.
  intros [Ha ->]%UpsertAssets_inv. split; [exact Ha|]. destruct r; [|done].
  intros id. apply upserts_lookup.
Qed.

(** Exactly the assets that disappeared are marked missing. When [MarkMissing] succeeds, the
    rows that were not missing and are not in the list of seen assets become missing as of now,
    every other row is untouched, and the result is the number of rows that changed; an empty list
    marks everything. A failure leaves the table either unchanged or fully marked. *)
Theorem MarkMissing_exact seen now d r d' :
  MarkMissing seen now d = (r, d') ->
  let marked id :=
    (fun a => if decide (a_status a <> "missing" /\ id ∉ seen) then set_missing (FormatRFC3339 now) a else a)
      <$> assets d !! id in
  match r with
  | Ok n => (forall id, assets d' !! id = marked id) /\
            n = Z.of_nat (size (filter (fun kr => a_status kr.2 <> "missing" /\ kr.1 ∉ seen) (assets d)))
  | Err _ => assets d' = assets d \/ forall id, assets d' !! id = marked id
  end.
Proof.
  intros [_ Hr]%MarkMissing_inv marked.
  assert (Hm : forall id, (update_where (unseen seen) (set_missing (FormatRFC3339 now)) (assets d)).1 !! id = marked id).
  { intros id. rewrite update_lookup. subst marked. cbn. destruct (assets d !! id) as [a|]; [|done]. done. }
  destruct Hr as [(e & -> & ->)|[-> Hn]]; [by left|]. destruct r as [n|e].
  - split; [exact Hm|]. by rewrite (Hn n eq_refl).
  - right. exact Hm.
Qed.

(** A stored expiry is empty or a formatted time of a four-digit year. *)
Definition stored_time (s : string) : Prop := s = "" \/ exists t, four_digit_year t /\ s = FormatRFC3339 t.

(** The clean-up query, which compares TEXT columns, selects by time. If every expiry in the
    table was written by the provider, [MarkExpiredBefore] marks as expired exactly the
    announcements that have an expiry, lie before the cutoff second and are not yet marked,
    changes nothing else of them, and returns how many there were. *)
Theorem MarkExpired_exact wall cutoff d n d' :
  MarkExpiredBefore wall cutoff d = (Ok n, d') ->
  four_digit_year (TimeUnix cutoff) ->
  map_Forall (fun _ a => forall e, n_expires_at a = Some e -> stored_time e) (announcements d) ->
  n = Z.of_nat (size (filter (fun ka => announcements d' !! ka.1 <> Some ka.2) (announcements d))) /\
  forall id a, announcements d !! id = Some a ->
  let due := n_status a <> "expired" /\
    exists t, n_expires_at a = Some (FormatRFC3339 t) /\ four_digit_year t /\ Unix t < cutoff in
  exists a', announcements d' !! id = Some a' /\
    (due -> a' = AnnRow (n_last_announced_at a) (n_expires_at a) "expired" (n_created_at a) (FormatRFC3339 wall)) /\
    (~ due -> a' = a).
Proof.
  intros [_ Hr]%MarkExpiredBefore_inv Hc Hall.
  destruct Hr as [(e & [=] & _)|[-> Hn]]. rewrite (Hn n eq_refl). split.
  { cbn [snd update_where]. f_equal. f_equal. apply map_filter_ext. intros k a Ha.
    rewrite update_lookup. cbn [fst snd]. rewrite Ha. cbn [fmap option_fmap option_map].
    case_decide as Hd; [|naive_solver]. split; [|done]. intros _ [= E]. destruct Hd as [Hd _]. by rewrite <- E in Hd. }
  intros id a Ha due. exists (if decide (to_expire (FormatRFC3339 (TimeUnix cutoff)) (id, a)) then
    set_expired (FormatRFC3339 wall) a else a).
  rewrite update_lookup, Ha. split; [done|].
  assert (Hiff : to_expire (FormatRFC3339 (TimeUnix cutoff)) (id, a) <-> due).
  { subst due. unfold to_expire; cbn. specialize (Hall _ _ Ha). cbn in Hall.
    destruct (n_expires_at a) as [e|]; [|naive_solver]. destruct (Hall e eq_refl) as [->|(t & Ht & ->)].
    - split; [naive_solver|]. intros (_ & t & Et & _). injection Et as Et. by destruct (format_nonempty t).
    - pose proof (format_nonempty t). rewrite format_order by done. rewrite Unix_TimeUnix, Z.ltb_lt. split.
      + intros (? & _ & ?). eauto 6.
      + intros (? & t' & [= Et] & Ht' & Hlt). split_and!; [done..|].
        pose proof (format_order t (TimeUnix cutoff) Ht Hc) as E1.
        pose proof (format_order t' (TimeUnix cutoff) Ht' Hc) as E2.
        rewrite Et in E1. rewrite E1, Unix_TimeUnix in E2.
        apply Z.ltb_lt. rewrite E2. by apply Z.ltb_lt. }
  split; intros Hx; case_decide as Hd; naive_solver.
Qed.

Lemma parse_time_column `{TimeParseLenient} op id t :
  four_digit_year t -> parse_column op id (time_column t) = Ok (TimeUnix (Unix t)).
Proof.
  intros Ht. unfold parse_column, time_column, IsZero. destruct (Z.eqb_spec t zero_time) as [->|]; [done|].
  destruct (String.eqb_spec (FormatRFC3339 t) "") as [E|]; [by destruct (format_nonempty t)|].
  by rewrite ParseRFC3339_format.
Qed.

Lemma parse_or_zero_format `{TimeParseLenient} t :
  four_digit_year t -> parse_or_zero (FormatRFC3339 t) = TimeUnix (Unix t).
Proof.
  intros Ht. unfold parse_or_zero.
  destruct (String.eqb_spec (FormatRFC3339 t) "") as [E|]; [by destruct (format_nonempty t)|].
  by rewrite ParseRFC3339_format.
Qed.

(** Announcement rows round-trip. What [UpsertAnnouncementStatus] stored, the next
    [GetAnnouncement] that reaches the database returns: the same status, and the same times to
    the second, the zero time included; the creation time is that of the first insertion. *)
Theorem announcement_roundtrip `{TimeParseLenient} id lastAt exp st now d d1 d2 :
  UpsertAnnouncementStatus id lastAt exp st now d = (Ok tt, d1) ->
  call "query announcement" id d1 = (Ok tt, d2) ->
  four_digit_year lastAt -> four_digit_year exp -> four_digit_year now ->
  GetAnnouncement id d1 =
    (Ok (Some (MkAnn id (TimeUnix (Unix lastAt)) (TimeUnix (Unix exp)) st
       (match announcements d !! id with
        | Some old => parse_or_zero (n_created_at old)
        | None => TimeUnix (Unix now)
        end) (TimeUnix (Unix now)))), d2).
Proof.
  intros [_ Ha]%UpsertAnnouncementStatus_inv Hc Hl He Hn.
  unfold GetAnnouncement, mbind, db_bind. rewrite Hc. apply call_same in Hc as [_ Hd].
  cbn [get_anns]. rewrite Hd, Ha, lookup_insert_eq. unfold read_row; cbn [n_last_announced_at n_expires_at].
  rewrite !parse_time_column by done. cbn. rewrite !parse_or_zero_format by done.
  destruct (announcements d !! id); [done|]. by rewrite parse_or_zero_format.
Qed.

(** ** Witnesses *)

Module RepositoryDemo.
#[local] Instance demo_lenient : TimeParseLenient := fun _ => None.
Definition rec (id : string) : AssetRecord := MkAssetRecord id (id +:+ "/master.m3u8") "h" 2 300 (TimeUnix 1700000000).
Definition d0 : db := MkDB ∅ ∅ [] true.
Definition now : Z := TimeUnix 1700000000.
Definition d1 : db := (UpsertAssets [rec "a"; rec "b"] now d0).2.
Definition failing : db := MkDB ∅ ∅ [None; None; Some "disk full"] true.

Lemma repository_invariant_witness :
  let ops := [OUpsertAssets [rec "a"; rec "b"] now; OMarkMissing ["b"] (now + Hour); OListActive] in
  a_missing_at <$> assets (foldl run_op d0 ops) !! "a" = Some (Some "2023-11-14T23:13:20Z") /\
  table_wf (assets (foldl run_op d0 ops)).
Proof.
  intros ops. split; [vm_compute; reflexivity|].
  apply (repository_invariant d0 ops). apply map_Forall_empty.
Defined.

Lemma UpsertAssets_atomic_witness :
  (UpsertAssets [rec "a"; rec "b"] now failing).1 = Err (RepoErr "upsert asset" "b" "disk full") /\
  assets (UpsertAssets [rec "a"; rec "b"] now failing).2 = ∅.
Proof.
  split; [vm_compute; reflexivity|].
  exact (proj2 (UpsertAssets_atomic [rec "a"; rec "b"] now failing (Err (RepoErr "upsert asset" "b" "disk full"))
    (MkDB ∅ ∅ [] true) eq_refl)).
Defined.

Lemma MarkMissing_exact_witness :
  (MarkMissing ["b"] (now + Hour) d1).1 = Ok 1 /\
  a_status <$> assets (MarkMissing ["b"] (now + Hour) d1).2 !! "b" = Some "active".
Proof.
  destruct (MarkMissing_exact ["b"] (now + Hour) d1 (Ok 1) (MarkMissing ["b"] (now + Hour) d1).2) as [Hm _].
  - vm_compute; reflexivity.
  - split; [vm_compute; reflexivity|]. rewrite Hm. vm_compute. reflexivity.
Defined.

Definition ann (exp : string) : ann_row := AnnRow (Some "") (Some exp) "ok" "" "".
Definition d2 : db := MkDB (assets d1) {[ "a" := ann "2023-11-14T22:13:20Z"; "b" := ann "" ]} [] true.

Lemma MarkExpired_exact_witness :
  exists a', announcements (MarkExpiredBefore now 1700000001 d2).2 !! "a" = Some a' /\ n_status a' = "expired".
Proof.
  destruct (MarkExpired_exact now 1700000001 d2 1 (MarkExpiredBefore now 1700000001 d2).2) as [_ Hm].
  - vm_compute; reflexivity.
  - vm_compute. split; congruence.
  - intros k r Hk e He.
    assert (Hcase : e = "" \/ e = "2023-11-14T22:13:20Z").
    { cbn [announcements d2] in Hk. apply lookup_insert_Some in Hk as [[<- <-]|[_ Hk%lookup_singleton_Some]];
        [|destruct Hk as [<- <-]]; injection He as <-; [by right|by left]. }
    destruct Hcase as [->| ->]; [by left|right]. exists now. split; [vm_compute; split; congruence|vm_compute; reflexivity].
  - destruct (Hm "a" (ann "2023-11-14T22:13:20Z") ltac:(vm_compute; reflexivity)) as (a' & Ha & Hdue & _).
    exists a'. split; [exact Ha|]. rewrite Hdue; [done|]. split; [done|]. exists now.
    split; [vm_compute; reflexivity|]. split; [vm_compute; split; congruence|vm_compute; reflexivity].
Defined.

Lemma announcement_roundtrip_witness :
  (GetAnnouncement "a" (UpsertAnnouncementStatus "a" (now + 5) zero_time "failed" (now + 7) d1).2).1 =
  Ok (Some (MkAnn "a" now zero_time "failed" now now)).
Proof.
  rewrite (announcement_roundtrip "a" (now + 5) zero_time "failed" (now + 7) d1
    (UpsertAnnouncementStatus "a" (now + 5) zero_time "failed" (now + 7) d1).2
    (call "query announcement" "a" (UpsertAnnouncementStatus "a" (now + 5) zero_time "failed" (now + 7) d1).2).2).
  - vm_compute; reflexivity.
  - vm_compute; reflexivity.
  - vm_compute; reflexivity.
  - vm_compute; split; congruence.
  - vm_compute; split; congruence.
  - vm_compute; split; congruence.
Defined.
End RepositoryDemo.
