(* ===== verification/Migrate.v ===== *)
(** * Opening and migrating the database: [internal/db/db.go]

    The schema as SQLite keeps it (tables with columns and rows, unique indexes), the statements of the
    migration on it, and [Migrate] as one transaction in which any call of the driver may fail. A
    database may be new, of the current form, or from before a column of [announcements] was added.
    [Open] is the sequence of its calls. The theorems: a migration changes all or nothing, never loses a
    value, is idempotent, and brings every older form to one whose rows the repository can represent. *)

From S2P Require Import Prelude GoStrings GoTime Config Repository.

Open Scope Z_scope.

(** ** Tables *)

Inductive value := VNull | VText (s : string) | VInt (z : Z).

#[export] Instance value_eq_dec : EqDecision value.
Proof. solve_decision. Defined.

Record column := Column {
  c_name : string;
  c_type : string;
  c_notnull : bool;
  c_default : option value;
  c_unique : bool;
}.

(** A row has a value for every column. *)
Notation row := (gmap string value).

Record table := Table { t_columns : list column; t_rows : list row }.

Record schema := Schema { s_tables : gmap string table; s_indexes : gset string }.

Definition empty_schema : schema := Schema ∅ ∅.

Definition put_table (name : string) (t : table) (s : schema) : schema :=
  Schema (<[name := t]> (s_tables s)) (s_indexes s).

Definition value_at (name : string) (r : row) : value := default VNull (r !! name).

Definition names (t : table) : list string := c_name <$> t_columns t.

(** SQLite compares column names without regard to ASCII case. *)
Definition same_name (a b : string) : bool := String.eqb (smap lower_char a) (smap lower_char b).

Definition has_column (t : table) (name : string) : bool := existsb (same_name name) (names t).

(** ** Statements *)

Inductive stmt :=
| CreateTable (name : string) (cols : list column)
| InsertVersion
| CreateUniqueIndex (name tbl col : string)
| AddColumn (tbl : string) (c : column).

(** The value of a column, found under the name the table gives it. *)
Definition column_value (t : table) (name : string) (r : row) : value :=
  match list_find (fun n => same_name name n = true) (names t) with
  | Some (_, n) => value_at n r
  | None => VNull
  end.

Definition is_row_one (t : table) (r : row) : bool := bool_decide (column_value t "id" r = VInt 1).

Definition column_default (c : column) : value := default VNull (c_default c).

(** The columns of [schema_version] that the insertion names, with a constraint to conflict with. *)
Definition version_columns (t : table) : bool :=
  has_column t "version" && existsb (fun c => same_name "id" (c_name c) && c_unique c) (t_columns t).

(** The row [(1, 1)], with the default in every other column. *)
Definition version_value (c : column) : value :=
  if same_name "id" (c_name c) || same_name "version" (c_name c) then VInt 1 else column_default c.

Definition version_row (t : table) : row :=
  list_to_map ((fun c => (c_name c, version_value c)) <$> t_columns t).

Definition add_column (c : column) (t : table) : table :=
  Table (t_columns t ++ [c]) (<[c_name c := column_default c]> <$> t_rows t).

Definition exec (q : stmt) (s : schema) : result string schema :=
  match q with
  | CreateTable name cols =>
      match s_tables s !! name with
      | Some _ => Ok s
      | None => Ok (put_table name (Table cols []) s)
      end
  | InsertVersion =>
      match s_tables s !! "schema_version" with
      | None => Err "no such table: schema_version"
      | Some t =>
          if negb (version_columns t) then Err "SQL logic error"
          else if existsb (is_row_one t) (t_rows t) then Ok s
          else if existsb (fun c => c_notnull c && bool_decide (version_value c = VNull)) (t_columns t)
               then Err "NOT NULL constraint failed"
          else Ok (put_table "schema_version" (Table (t_columns t) (t_rows t ++ [version_row t])) s)
      end
  | CreateUniqueIndex name tbl col =>
      if bool_decide (name ∈ s_indexes s) then Ok s
      else match s_tables s !! tbl with
           | None => Err "no such table"
           | Some t =>
               if negb (has_column t col) then Err "no such column"
               else if bool_decide (NoDup (column_value t col <$> t_rows t))
                    then Ok (Schema (s_tables s) ({[ name ]} ∪ s_indexes s))
                    else Err "UNIQUE constraint failed"
           end
  | AddColumn tbl c =>
      match s_tables s !! tbl with
      | None => Err "no such table"
      | Some t =>
          if has_column t (c_name c) then Err "duplicate column name"
          else if c_notnull c && bool_decide (column_default c = VNull)
               then Err "Cannot add a NOT NULL column with default value NULL"
          else Ok (put_table tbl (add_column c t) s)
      end
  end.

(** ** The migration *)

Definition col (name type : string) : column := Column name type false None false.
Definition col_notnull (name type : string) : column := Column name type true None false.
Definition col_key (name type : string) : column := Column name type false None true.

Definition index_name : string := "idx_announcements_asset_id".

Definition version_table : list column := [col_key "id" "INTEGER"; col_notnull "version" "INTEGER"].

Definition announcements_table : list column :=
  [col_key "asset_id" "TEXT"; col "last_announced_at" "TEXT"; col "expires_at" "TEXT";
   col_notnull "status" "TEXT"; col_notnull "created_at" "TEXT"; col_notnull "updated_at" "TEXT"].

Definition migration_stmts : list stmt :=
  [CreateTable "schema_version" version_table;
   InsertVersion;
   CreateTable "assets"
     [col_key "asset_id" "TEXT"; col_notnull "status" "TEXT"; col_notnull "master_playlist_path" "TEXT";
      col_notnull "content_hash" "TEXT"; col_notnull "file_count" "INTEGER";
      col_notnull "total_size_bytes" "INTEGER"; col_notnull "last_scanned_at" "TEXT";
      col_notnull "created_at" "TEXT"; col_notnull "updated_at" "TEXT"; col "missing_at" "TEXT"];
   CreateTable "announcements" announcements_table;
   CreateUniqueIndex index_name "announcements" "asset_id"].

(** The columns that [ensureAnnouncementColumn] adds when they are missing. *)
Definition ensured : list column :=
  [col "last_announced_at" "TEXT"; col "expires_at" "TEXT";
   Column "status" "TEXT" true (Some (VText "failed")) false;
   Column "created_at" "TEXT" true (Some (VText "")) false;
   Column "updated_at" "TEXT" true (Some (VText "")) false].

Definition currentSchemaVersion : Z := 1.

Inductive mig_err :=
| MigBegin (msg : string)
| MigStatement (msg : string)
| MigReadVersion (msg : string)
| MigUnsupported (v : Z)
| MigTableInfo (msg : string)
| MigScan (msg : string)
| MigAddColumn (name msg : string)
| MigCommit (msg : string).

(** The open transaction: its view of the schema and the faults still to come; a call fails when the
    schedule says so, and does not when the schedule is exhausted. *)
Definition TX (A : Type) : Type :=
  schema * list (option string) -> result mig_err A * (schema * list (option string)).

#[export] Instance TX_ret : MRet TX := fun A a s => (Ok a, s).
#[export] Instance TX_bind : MBind TX := fun A B f m s =>
  match m s with
  | (Ok a, s') => f a s'
  | (Err e, s') => (Err e, s')
  end.

Definition tx_fail {A} (e : mig_err) : TX A := fun s => (Err e, s).

(** One call of the driver: [f] on the schema unless it fails. *)
Definition tx_call {A} (k : string -> mig_err) (f : schema -> result string (A * schema)) : TX A :=
  fun '(s, fs) =>
  match fs with
  | Some m :: fs' => (Err (k m), (s, fs'))
  | _ => match f s with
         | Ok (a, s') => (Ok a, (s', tail fs))
         | Err m => (Err (k m), (s, tail fs))
         end
  end.

Definition tx_exec (k : string -> mig_err) (q : stmt) : TX unit :=
  tx_call k (fun s => s' ← exec q s; Ok (tt, s')).

Fixpoint exec_all (qs : list stmt) : TX unit :=
  match qs with
  | [] => mret tt
  | q :: qs' => tx_exec MigStatement q;; exec_all qs'
  end.

(** [SELECT version FROM schema_version WHERE id = 1], scanned into an [int]. *)
Definition read_version (s : schema) : result string (Z * schema) :=
  match s_tables s !! "schema_version" with
  | None => Err "no such table: schema_version"
  | Some t =>
      match list_find (fun r => is_row_one t r = true) (t_rows t) with
      | None => Err "sql: no rows in result set"
      | Some (_, r) => match column_value t "version" r with
                       | VInt v => Ok (v, s)
                       | _ => Err "sql: Scan error"
                       end
      end
  end.

(** The loop over the rows of [PRAGMA table_info], each of which is a call. *)
Fixpoint find_column (column : string) (l : list string) : TX bool :=
  match l with
  | [] => mret false
  | name :: l' =>
      tx_call MigScan (fun s => Ok (tt, s));;
      if String.eqb name column then mret true else find_column column l'
  end.

Definition table_info (tbl : string) (s : schema) : result string (list string * schema) :=
  Ok (match s_tables s !! tbl with Some t => names t | None => [] end, s).

Definition ensureAnnouncementColumn (c : column) : TX unit :=
  info ← tx_call MigTableInfo (table_info "announcements");
  found ← find_column (c_name c) info;
  if (found : bool) then mret tt
  else tx_exec (MigAddColumn (c_name c)) (AddColumn "announcements" c).

Fixpoint ensure_all (cs : list column) : TX unit :=
  match cs with
  | [] => mret tt
  | c :: cs' => ensureAnnouncementColumn c;; ensure_all cs'
  end.

Definition migrate_tx : TX unit :=
  exec_all migration_stmts;;
  version ← tx_call MigReadVersion read_version;
  if negb (version =? currentSchemaVersion) then tx_fail (MigUnsupported version)
  else ensure_all ensured.

(** The deferred [Rollback] undoes everything unless [Commit] was called. After a failed [Commit] it
    returns [sql.ErrTxDone] and does nothing; that a COMMIT that failed has not taken effect is
    SQLite's guarantee: the transaction is then rolled back, at the latest with its connection. *)
Definition Migrate (fs : list (option string)) (s : schema) : result mig_err unit * schema :=
  match fs with
  | Some m :: _ => (Err (MigBegin m), s)
  | _ =>
      match migrate_tx (s, tail fs) with
      | (Err e, _) => (Err e, s)
      | (Ok _, (s', Some m :: _)) => (Err (MigCommit m), s)
      | (Ok _, (s', _)) => (Ok tt, s')
      end
  end.

(** ** Opening *)

Inductive db_call := Mkdir (path : string) | SqlOpen (path : string) | Pragma (text : string) | Ping | CloseDB.

Definition pragmas : list string :=
  ["PRAGMA journal_mode=WAL;"; "PRAGMA busy_timeout=5000;"; "PRAGMA foreign_keys=ON;"].

(** [fault] says of each call whether it fails; the result is the outcome and the calls made. *)
Fixpoint apply_pragmas (fault : db_call -> option string) (l : list string) : result string unit * list db_call :=
  match l with
  | [] => (Ok tt, [])
  | p :: l' =>
      match fault (Pragma p) with
      | Some m => (Err ("apply pragma: " +:+ m), [Pragma p; CloseDB])
      | None => let '(r, cs) := apply_pragmas fault l' in (r, Pragma p :: cs)
      end
  end.

Definition Open (fault : db_call -> option string) (cfg : Config) : result string unit * list db_call :=
  match fault (Mkdir (DataPath cfg)) with
  | Some m => (Err ("create data path: " +:+ m), [Mkdir (DataPath cfg)])
  | None =>
      let dir := Dir (DBPath cfg) in
      match fault (Mkdir dir) with
      | Some m => (Err ("create db dir: " +:+ m), [Mkdir (DataPath cfg); Mkdir dir])
      | None =>
          let before := [Mkdir (DataPath cfg); Mkdir dir; SqlOpen (DBPath cfg)] in
          match fault (SqlOpen (DBPath cfg)) with
          | Some m => (Err ("open db: " +:+ m), before)
          | None =>
              match apply_pragmas fault pragmas with
              | (Err e, cs) => (Err e, before ++ cs)
              | (Ok _, cs) =>
                  match fault Ping with
                  | Some m => (Err ("ping db: " +:+ m), before ++ cs ++ [Ping; CloseDB])
                  | None => (Ok tt, before ++ cs ++ [Ping])
                  end
              end
          end
      end
  end.

(** ** Faults can stop a run but not change it *)

Definition stops_only {A} (m : TX A) : Prop := forall s fs a s' fs',
  m (s, fs) = (Ok a, (s', fs')) -> m (s, []) = (Ok a, (s', [])).

Lemma stops_ret {A} (a : A) : stops_only (mret a).
Proof. by intros s fs a' s' fs' [= <- <- _]. Qed.

Lemma stops_fail {A} e : stops_only (A := A) (tx_fail e).
Proof. by intros s fs a' s' fs' H. Qed.

Lemma stops_bind {A B} (m : TX A) (f : A -> TX B) :
  stops_only m -> (forall a, stops_only (f a)) -> stops_only (m ≫= f).
Proof.
  intros Hm Hf s fs b s' fs'. unfold mbind, TX_bind. destruct (m (s, fs)) as [[a|e] [s1 fs1]] eqn:E; [|done].
  intros H. rewrite (Hm _ _ _ _ _ E). by eapply Hf.
Qed.

Lemma stops_call {A} k (f : schema -> result string (A * schema)) : stops_only (tx_call k f).
Proof.
  intros s fs a s' fs'. unfold tx_call.
  destruct fs as [|[m|] fs]; cbn; [..|done|]; destruct (f s) as [[]|]; intros [= <- <- _] || intros [=]; done.
Qed.

#[local] Hint Resolve stops_ret stops_fail stops_bind stops_call : tx.

Lemma stops_exec_all qs : stops_only (exec_all qs).
Proof. induction qs; cbn; unfold tx_exec; auto with tx. Qed.

Lemma stops_find_column c l : stops_only (find_column c l).
Proof.
  induction l as [|n l IH]; cbn; auto with tx. apply stops_bind; [auto with tx|]. intros _.
  destruct (String.eqb n c); auto with tx.
Qed.

Lemma stops_ensure c : stops_only (ensureAnnouncementColumn c).
Proof.
  apply stops_bind; [auto with tx|]. intros info. apply stops_bind; [apply stops_find_column|].
  intros []; unfold tx_exec; auto with tx.
Qed.

Lemma stops_ensure_all cs : stops_only (ensure_all cs).
Proof. induction cs; cbn; auto using stops_ensure with tx. Qed.

Lemma stops_migrate : stops_only migrate_tx.
Proof.
  apply stops_bind; [apply stops_exec_all|]. intros _. apply stops_bind; [auto with tx|]. intros v.
  destruct (negb _); auto using stops_ensure_all with tx.
Qed.

Lemma Migrate_quiet fs s s' : Migrate fs s = (Ok tt, s') -> migrate_tx (s, []) = (Ok tt, (s', [])).
Proof.
  unfold Migrate. intros H.
  assert (exists fs1 fs2, migrate_tx (s, fs1) = (Ok tt, (s', fs2))) as (fs1 & fs2 & E).
  { destruct fs as [|[m|] fs]; [|done|];
      (destruct (migrate_tx _) as [[[]|e] [s1 [|[m|] fs2]]] eqn:E; inversion H; subst; eauto). }
  by eapply stops_migrate.
Qed.

Lemma Migrate_no_faults s : Migrate [] s = match migrate_tx (s, []) with
  | (Ok _, (s', Some m :: _)) => (Err (MigCommit m), s)
  | (Ok _, (s', _)) => (Ok tt, s')
  | (Err e, _) => (Err e, s)
  end.
Proof. unfold Migrate. cbn [tail]. by destruct (migrate_tx (s, [])) as [[] [? [|[]]]]. Qed.

(** ** Runs without faults *)

Lemma exec_quiet k q s : tx_exec k q (s, []) =
  match exec q s with Ok s' => (Ok tt, (s', [])) | Err m => (Err (k m), (s, [])) end.
Proof. unfold tx_exec, tx_call. cbn. by destruct (exec q s). Qed.

Lemma find_column_quiet c l s : find_column c l (s, []) = (Ok (bool_decide (c ∈ l)), (s, [])).
Proof.
  induction l as [|n l IH]; [done|]. cbn [find_column]. unfold mbind, TX_bind, tx_call. cbn [tail].
  destruct (String.eqb_spec n c) as [->|Hne].
  - by rewrite bool_decide_true by set_solver.
  - rewrite IH. do 2 f_equal. apply bool_decide_ext. set_solver.
Qed.

Lemma ensure_quiet c s t : s_tables s !! "announcements" = Some t ->
  ensureAnnouncementColumn c (s, []) =
  if bool_decide (c_name c ∈ names t) then (Ok tt, (s, []))
  else match exec (AddColumn "announcements" c) s with
       | Ok s' => (Ok tt, (s', []))
       | Err m => (Err (MigAddColumn (c_name c) m), (s, []))
       end.
Proof.
  intros Ht. unfold ensureAnnouncementColumn, mbind at 1, TX_bind at 1, tx_call, table_info. cbn [tail].
  rewrite Ht. unfold mbind, TX_bind. rewrite find_column_quiet.
  destruct (bool_decide _); [done|]. by rewrite exec_quiet.
Qed.

(** The effect on the table of [announcements]. *)
Definition ensure_column (t : table) (c : column) : table :=
  if bool_decide (c_name c ∈ names t) then t else add_column c t.

Definition only_announcements (s : schema) (t : table) (s' : schema) : Prop :=
  s' = Schema (<["announcements" := t]> (s_tables s)) (s_indexes s).

Lemma ensure_all_Ok cs : forall s t s' fs, s_tables s !! "announcements" = Some t ->
  ensure_all cs (s, []) = (Ok tt, (s', fs)) ->
  only_announcements s (foldl ensure_column t cs) s'.
Proof.
  induction cs as [|c cs IH]; intros s t s' fs Ht; cbn.
  - intros [= <- _]. unfold only_announcements. rewrite insert_id by done. by destruct s.
  - unfold mbind, TX_bind. rewrite (ensure_quiet c s t Ht). unfold ensure_column at 2.
    destruct (bool_decide _); [by apply IH|].
    cbn. rewrite Ht. destruct (has_column t _); [done|]. destruct (_ && _); [done|].
    intros H. eapply (IH _ (add_column c t)) in H; [|apply lookup_insert_eq].
    unfold only_announcements in *. rewrite H. cbn. by rewrite insert_insert_eq.
Qed.

Lemma names_add c t : names (add_column c t) = names t ++ [c_name c].
Proof. unfold names, add_column. cbn. by rewrite fmap_app. Qed.

Lemma names_ensure t c n : n ∈ names (ensure_column t c) <-> n ∈ names t \/ n = c_name c.
Proof.
  unfold ensure_column. destruct (bool_decide_reflect (c_name c ∈ names t)) as [Hin|_].
  - split; [by left|]. by intros [?| ->].
  - rewrite names_add, elem_of_app, list_elem_of_singleton. done.
Qed.

Lemma names_ensure_all cs t n : n ∈ names (foldl ensure_column t cs) <-> n ∈ names t \/ n ∈ c_name <$> cs.
Proof.
  revert t. induction cs as [|c cs IH]; intros t; cbn; [set_solver|].
  rewrite IH, names_ensure, elem_of_cons. naive_solver.
Qed.

Lemma ensure_all_noop cs s t : s_tables s !! "announcements" = Some t ->
  (forall c, c ∈ cs -> c_name c ∈ names t) -> ensure_all cs (s, []) = (Ok tt, (s, [])).
Proof.
  intros Ht. induction cs as [|c cs IH]; intros Hc; [done|]. cbn. unfold mbind, TX_bind.
  rewrite (ensure_quiet c s t Ht), bool_decide_true by (apply Hc; set_solver).
  apply IH. intros c' Hc'. apply Hc. set_solver.
Qed.

(** ** The schema after the statements *)

Definition ready (s : schema) : Prop :=
  (exists tv, s_tables s !! "schema_version" = Some tv /\ version_columns tv = true /\
     existsb (is_row_one tv) (t_rows tv) = true) /\
  is_Some (s_tables s !! "assets") /\ is_Some (s_tables s !! "announcements") /\ index_name ∈ s_indexes s.

Lemma exec_all_cons q qs s : exec_all (q :: qs) (s, []) =
  match exec q s with
  | Ok s1 => exec_all qs (s1, [])
  | Err m => (Err (MigStatement m), (s, []))
  end.
Proof. cbn. unfold mbind, TX_bind. rewrite exec_quiet. by destruct (exec q s). Qed.

Lemma ready_noop s : ready s -> exec_all migration_stmts (s, []) = (Ok tt, (s, [])).
Proof.
  intros ((tv & Hv & Hc & Hr) & [ta Ha] & [tn Hn] & Hi). unfold migration_stmts.
  rewrite exec_all_cons. cbn [exec]. rewrite Hv, exec_all_cons. cbn [exec]. rewrite Hv, Hc, Hr. cbn [negb].
  rewrite exec_all_cons. cbn [exec]. rewrite Ha, exec_all_cons. cbn [exec]. rewrite Hn, exec_all_cons. cbn [exec].
  by rewrite bool_decide_true.
Qed.

Lemma version_row_one t : version_columns t = true -> is_row_one t (version_row t) = true.
Proof.
  unfold version_columns, is_row_one, column_value. intros [_ Hid]%andb_true_iff.
  apply bool_decide_eq_true. apply existsb_exists in Hid as (c & Hc & [Hn _]%andb_true_iff).
  apply list_elem_of_In in Hc.
  destruct (list_find _ _) as [[k n]|] eqn:E.
  - apply list_find_Some in E as (Hk & Hs & _). apply list_elem_of_lookup_2 in Hk.
    unfold value_at, version_row.
    destruct (list_to_map _ !! n) as [v|] eqn:El.
    + apply elem_of_list_to_map_2, list_elem_of_fmap in El as (c' & [= -> ->] & _).
      cbn. unfold version_value. by rewrite Hs.
    + apply not_elem_of_list_to_map in El. destruct El. rewrite <- list_fmap_compose.
      unfold names in Hk. by apply Hk.
  - apply list_find_None in E. rewrite Forall_forall in E. destruct (E (c_name c)); [|done].
    unfold names. by apply list_elem_of_fmap_2.
Qed.

Lemma exec_ready s s' fs : exec_all migration_stmts (s, []) = (Ok tt, (s', fs)) -> ready s'.
Proof.
  unfold migration_stmts. rewrite exec_all_cons.
  assert (forall n cols s1 s2, exec (CreateTable n cols) s1 = Ok s2 ->
    is_Some (s_tables s2 !! n) /\ s_indexes s2 = s_indexes s1 /\
    (forall m, is_Some (s_tables s1 !! m) -> s_tables s2 !! m = s_tables s1 !! m)) as Hct.
  { intros n cols s1 s2. cbn. destruct (s_tables s1 !! n) eqn:E; intros [= <-]; [by rewrite E|]. cbn.
    rewrite lookup_insert_eq. split_and!; [done..|]. intros m [t Hm]. rewrite lookup_insert_ne; [done|congruence]. }
  destruct (exec _ s) as [s1|] eqn:E1; [|done]. apply Hct in E1 as (Hs1 & _). rewrite exec_all_cons.
  destruct (exec InsertVersion s1) as [s2|] eqn:E2; [|done].
  assert (Hv : exists tv, s_tables s2 !! "schema_version" = Some tv /\ version_columns tv = true /\
            existsb (is_row_one tv) (t_rows tv) = true).
  { cbn in E2. destruct Hs1 as [t Ht]. rewrite Ht in E2. destruct (version_columns t) eqn:Ec; [|done]. cbn in E2.
    destruct (existsb (is_row_one t) _) eqn:Er; [injection E2 as <-; eauto|].
    destruct (existsb _ (t_columns t)); [done|]. injection E2 as <-. cbn.
    eexists. split; [apply lookup_insert_eq|]. split; [done|]. cbn. rewrite existsb_app. cbn.
    change (is_row_one _ (version_row t)) with (is_row_one t (version_row t)).
    by rewrite version_row_one, orb_true_r. }
  rewrite exec_all_cons. destruct (exec _ s2) as [s3|] eqn:E3; [|done]. apply Hct in E3 as (Ha3 & _ & Hk3).
  rewrite exec_all_cons. destruct (exec _ s3) as [s4|] eqn:E4; [|done]. apply Hct in E4 as (Hn4 & _ & Hk4).
  rewrite exec_all_cons. destruct (exec _ s4) as [s5|] eqn:E5; [|done]. intros [= <- _].
  assert (s_tables s5 = s_tables s4 /\ index_name ∈ s_indexes s5) as [Ht5 Hi5].
  { cbn in E5. destruct (bool_decide_reflect (index_name ∈ s_indexes s4)) as [Hi|_]; [by injection E5 as <-|].
    destruct (s_tables s4 !! _); [|done]. destruct (negb _); [done|]. destruct (bool_decide _); [|done].
    injection E5 as <-. cbn. split; [done|]. set_solver. }
  unfold ready. rewrite Ht5. split_and!; [|by rewrite Hk4|done|done].
  destruct Hv as (tv & Hv & Hc & Hr). exists tv. by rewrite Hk4, Hk3, Hv by (rewrite ?Hk3; rewrite ?Hv; done).
Qed.

Lemma read_version_same s s1 : s_tables s1 !! "schema_version" = s_tables s !! "schema_version" ->
  read_version s1 = match read_version s with Ok (v, _) => Ok (v, s1) | Err m => Err m end.
Proof. intros H. unfold read_version. rewrite H. by repeat case_match. Qed.

(** A successful run of the transaction, decomposed. *)
Lemma migrate_tx_Ok s s' : migrate_tx (s, []) = (Ok tt, (s', [])) -> exists s1 t,
  exec_all migration_stmts (s, []) = (Ok tt, (s1, [])) /\ ready s1 /\ read_version s1 = Ok (1, s1) /\
  s_tables s1 !! "announcements" = Some t /\ only_announcements s1 (foldl ensure_column t ensured) s'.
Proof.
  unfold migrate_tx, mbind, TX_bind. destruct (exec_all _ _) as [[[]|] [s1 fs1]] eqn:E1; [|done].
  pose proof (exec_ready _ _ _ E1) as Hr. pose proof (stops_exec_all _ _ _ _ _ _ E1) as E1'.
  assert (fs1 = []) as -> by congruence. unfold tx_call. cbn [tail].
  destruct (read_version s1) as [[v s1']|m] eqn:Ev; [|done].
  assert (s1' = s1) as -> by (unfold read_version in Ev; repeat case_match; congruence).
  destruct (Z.eqb_spec v currentSchemaVersion) as [->|]; [|done]. cbn [negb]. intros H.
  destruct Hr as (? & ? & [t Ht] & ?). exists s1, t.
  repeat split; try done. by eapply ensure_all_Ok.
Qed.

Lemma migrate_tx_fixpoint s1 t :
  ready s1 -> read_version s1 = Ok (1, s1) -> s_tables s1 !! "announcements" = Some t ->
  forall s', only_announcements s1 (foldl ensure_column t ensured) s' -> migrate_tx (s', []) = (Ok tt, (s', [])).
Proof.
  intros (Hv & Ha & _ & Hi) Hver Ht s' ->. set (s' := Schema _ _).
  assert (Hne : forall n, n <> "announcements" -> s_tables s' !! n = s_tables s1 !! n)
    by (intros; by apply lookup_insert_ne).
  assert (Hr : ready s').
  { unfold ready. rewrite !Hne by done. split_and!; [done|done| |done]. subst s'. cbn. by rewrite lookup_insert_eq. }
  unfold migrate_tx, mbind, TX_bind. rewrite (ready_noop s' Hr). unfold tx_call. cbn [tail].
  rewrite (read_version_same s1 s') by (by apply Hne). rewrite Hver. cbn [negb Z.eqb Pos.eqb].
  change (negb (1 =? currentSchemaVersion)) with false.
  eapply ensure_all_noop; [apply lookup_insert_eq|]. intros c Hc. apply names_ensure_all. right.
  by apply list_elem_of_fmap_2.
Qed.

(** Migrating a database that has been migrated changes nothing, so that every start runs it. *)
Theorem migrate_idempotent fs s s' :
  Migrate fs s = (Ok tt, s') -> Migrate [] s' = (Ok tt, s').
Proof.
  intros H%Migrate_quiet. apply migrate_tx_Ok in H as (s1 & t & _ & Hr & Hv & Ht & Ho).
  rewrite Migrate_no_faults. by rewrite (migrate_tx_fixpoint s1 t Hr Hv Ht s' Ho).
Qed.

(** ** No value is lost *)

(** Every row has exactly the columns of its table. *)
Definition wf_table (t : table) : Prop := Forall (fun r => dom r = list_to_set (names t)) (t_rows t).
Definition wf (s : schema) : Prop := map_Forall (fun _ => wf_table) (s_tables s).

(** Rows keep their place and their values. *)
Definition keeps_rows (t t' : table) : Prop :=
  forall k r, t_rows t !! k = Some r -> exists r', t_rows t' !! k = Some r' /\ r ⊆ r'.

Definition keeps (s s' : schema) : Prop :=
  forall n t, s_tables s !! n = Some t -> exists t', s_tables s' !! n = Some t' /\ keeps_rows t t'.

#[export] Instance keeps_rows_preorder : PreOrder keeps_rows.
Proof.
  split; [intros t k r Hr; eauto|]. intros t1 t2 t3 H12 H23 k r Hr.
  destruct (H12 k r Hr) as (r2 & H2 & Hs2). destruct (H23 k r2 H2) as (r3 & H3 & Hs3).
  exists r3. split; [done|]. by etrans.
Qed.

#[export] Instance keeps_preorder : PreOrder keeps.
Proof.
  split; [intros s n t Ht; exists t; split; [done|reflexivity]|]. intros s1 s2 s3 H12 H23 n t Ht.
  destruct (H12 n t Ht) as (t2 & H2 & Hs2). destruct (H23 n t2 H2) as (t3 & H3 & Hs3).
  exists t3. split; [done|]. by etrans.
Qed.

Lemma keeps_put n t s : (forall t0, s_tables s !! n = Some t0 -> keeps_rows t0 t) -> keeps s (put_table n t s).
Proof.
  intros H m t0 Hm. cbn. destruct (decide (m = n)) as [->|Hne].
  - exists t. rewrite lookup_insert_eq. auto.
  - exists t0. rewrite lookup_insert_ne by done. split; [done|reflexivity].
Qed.

Lemma wf_put n t s : wf s -> wf_table t -> wf (put_table n t s).
Proof. intros Hs Ht. by apply map_Forall_insert_2. Qed.

Lemma has_column_names t n : n ∈ names t -> has_column t n = true.
Proof.
  intros Hn. unfold has_column. apply existsb_exists. exists n. rewrite list_elem_of_In in Hn.
  split; [done|]. apply String.eqb_refl.
Qed.

Lemma wf_add_column c t : wf_table t -> wf_table (add_column c t).
Proof.
  unfold wf_table. intros H. rewrite names_add. unfold add_column. cbn. apply Forall_fmap. eapply Forall_impl; [done|].
  intros r Hr. cbn. rewrite dom_insert_L, Hr, list_to_set_app_L. cbn. set_solver.
Qed.

Lemma keeps_add_column c t : wf_table t -> c_name c ∉ names t -> keeps_rows t (add_column c t).
Proof.
  intros Hw Hc k r Hr. exists (<[c_name c := column_default c]> r). cbn. rewrite list_lookup_fmap, Hr. split; [done|].
  apply insert_subseteq. apply not_elem_of_dom.
  unfold wf_table in Hw. rewrite Forall_lookup in Hw. rewrite (Hw k r Hr). set_solver.
Qed.

Lemma dom_version_row t : dom (version_row t) = list_to_set (names t).
Proof. unfold version_row, names. rewrite dom_list_to_map_L, <- list_fmap_compose. done. Qed.

Lemma same_tables s s' : wf s -> s_tables s' = s_tables s -> wf s' /\ keeps s s'.
Proof.
  intros Hw E. unfold wf, keeps. rewrite E. split; [done|]. intros n t Ht. exists t. split; [done|reflexivity].
Qed.

(** One statement keeps the values and the shape of the rows. *)
Lemma exec_keeps q s s' : wf s -> exec q s = Ok s' -> wf s' /\ keeps s s'.
Proof.
  intros Hw. destruct q as [n cols| |n tbl c|tbl c]; cbn.
  - destruct (s_tables s !! n) eqn:E; intros [= <-]; [by apply same_tables|]. split.
    + apply wf_put; [done|]. by constructor.
    + apply keeps_put. congruence.
  - destruct (s_tables s !! "schema_version") as [t|] eqn:E; [|done]. destruct (negb _); [done|].
    destruct (existsb (is_row_one t) _); [intros [= <-]; by apply same_tables|]. destruct (existsb _ _); [done|]. intros [= <-]. split.
    + apply wf_put; [done|]. unfold wf_table. cbn. apply Forall_app. split; [exact (Hw _ _ E)|].
      constructor; [apply dom_version_row|done].
    + apply keeps_put. intros t0 [= <-]%(eq_trans (eq_sym E)) k r Hr. exists r. cbn.
      split; [by apply lookup_app_l_Some|done].
  - destruct (bool_decide _); [intros [= <-]; by apply same_tables|]. destruct (s_tables s !! tbl); [|done].
    destruct (negb _); [done|]. destruct (bool_decide _); [|done]. intros [= <-]. by apply same_tables.
  - destruct (s_tables s !! tbl) as [t|] eqn:E; [|done]. destruct (has_column t _) eqn:Hc; [done|].
    destruct (_ && _); [done|]. intros [= <-]. specialize (Hw _ _ E) as Hwt. split.
    + apply wf_put; [done|]. by apply wf_add_column.
    + apply keeps_put. intros t0 [= <-]%(eq_trans (eq_sym E)). apply keeps_add_column; [done|].
      intros Hin%has_column_names. congruence.
Qed.

Lemma exec_all_keeps qs : forall s s' fs, wf s -> exec_all qs (s, []) = (Ok tt, (s', fs)) -> wf s' /\ keeps s s'.
Proof.
  induction qs as [|q qs IH]; intros s s' fs Hw; [intros [= <- _]; by apply same_tables|]. rewrite exec_all_cons.
  destruct (exec q s) as [s1|] eqn:E; [|done]. destruct (exec_keeps _ _ _ Hw E) as [Hw1 Hk1]. intros H.
  destruct (IH _ _ _ Hw1 H) as [? ?]. split; [done|]. by etrans.
Qed.

Lemma ensure_column_keeps t c : wf_table t -> wf_table (ensure_column t c) /\ keeps_rows t (ensure_column t c).
Proof.
  intros Hw. unfold ensure_column. destruct (bool_decide_reflect (c_name c ∈ names t)); [split; [done|reflexivity]|].
  split; [by apply wf_add_column|by apply keeps_add_column].
Qed.

Lemma ensure_columns_keep cs : forall t, wf_table t ->
  wf_table (foldl ensure_column t cs) /\ keeps_rows t (foldl ensure_column t cs).
Proof.
  induction cs as [|c cs IH]; intros t Hw; [split; [done|reflexivity]|]. cbn. destruct (ensure_column_keeps t c Hw) as [Hw1 Hk1].
  destruct (IH _ Hw1). split; [done|]. by etrans.
Qed.

(** C15: whatever calls fail, a migration either leaves the database as it was and reports an error, or
    keeps every row of every table in its place with the value of each of its columns, and leaves rows
    that have exactly the columns of their table. *)
Theorem migrate_keeps_data fs s r s' :
  wf s -> Migrate fs s = (r, s') -> wf s' /\ keeps s s' /\ (is_ok r = false -> s' = s).
Proof.
  intros Hw H. destruct r as [[]|e].
  - apply Migrate_quiet in H. apply migrate_tx_Ok in H as (s1 & t & E1 & _ & _ & Ht & Ho).
    unfold only_announcements in Ho. subst s'.
    destruct (exec_all_keeps _ _ _ _ Hw E1) as [Hw1 Hk1].
    destruct (ensure_columns_keep ensured t (Hw1 _ _ Ht)) as [Hwt Hkt]. split_and!; [|etrans; [done|]|done].
    + by apply wf_put.
    + apply keeps_put. intros t0 Ht0. rewrite Ht in Ht0. by injection Ht0 as <-.
  - assert (s' = s) as ->; [|by split_and!; [|reflexivity|]]. unfold Migrate in H.
    destruct fs as [|[m|] fs]; [|congruence|];
      destruct (migrate_tx _) as [[] [? [|[]]]]; congruence.
Qed.

(** ** Older databases *)

(** A row of [announcements] as the repository represents it. *)
Definition text_at (n : string) (r : row) : option string :=
  match value_at n r with VText x => Some x | _ => None end.

Definition nullable_at (n : string) (r : row) : option (option string) :=
  match value_at n r with VText x => Some (Some x) | VNull => Some None | VInt _ => None end.

Definition read_announcement (r : row) : option (string * ann_row) :=
  id ← text_at "asset_id" r;
  last ← nullable_at "last_announced_at" r;
  expires ← nullable_at "expires_at" r;
  status ← text_at "status" r;
  created ← text_at "created_at" r;
  updated ← text_at "updated_at" r;
  Some (id, AnnRow last expires status created updated).

(** A row of [assets] as the repository represents it. *)
Definition int_at (n : string) (r : row) : option Z :=
  match value_at n r with VInt z => Some z | _ => None end.

Definition read_asset (r : row) : option (string * asset_row) :=
  id ← text_at "asset_id" r;
  status ← text_at "status" r;
  path ← text_at "master_playlist_path" r;
  hash ← text_at "content_hash" r;
  count ← int_at "file_count" r;
  size ← int_at "total_size_bytes" r;
  scanned ← text_at "last_scanned_at" r;
  created ← text_at "created_at" r;
  updated ← text_at "updated_at" r;
  missing ← nullable_at "missing_at" r;
  Some (id, AssetRow status path hash count size scanned created updated missing).

(** The rows of a table by their key; what cannot be read as a row of the repository is left out. *)
Definition rows_of {A} (read : row -> option (string * A)) (name : string) (s : schema) : gmap string A :=
  list_to_map (omap read (match s_tables s !! name with Some t => t_rows t | None => [] end)).

(** The database the repository works on, as the tables of the schema hold it. *)
Definition tables_of (s : schema) (fs : list (option string)) (fk : bool) : db :=
  MkDB (rows_of read_asset "assets" s) (rows_of read_announcement "announcements" s) fs fk.

(** What becomes of a row of an older table: NULL times, the status [failed], empty time stamps. *)
Definition upgraded (r : row) : string * ann_row :=
  (default "" (text_at "asset_id" r),
   AnnRow (text_at "last_announced_at" r) (text_at "expires_at" r) (default "failed" (text_at "status" r))
     (default "" (text_at "created_at" r)) (default "" (text_at "updated_at" r))).

(** The columns a row has hold text, or NULL where that is allowed. *)
Definition typed_row (r : row) : bool :=
  bool_decide (is_Some (text_at "asset_id" r)) &&
  forallb (fun n => bool_decide (r !! n = None) || bool_decide (is_Some (text_at n r)))
    ["status"; "created_at"; "updated_at"] &&
  forallb (fun n => bool_decide (is_Some (nullable_at n r))) ["last_announced_at"; "expires_at"].

(** The table of [announcements] an older version may have left: any of the later columns may be
    missing, but none is there under a name that differs only in case. *)
Definition announcements_ok (t : table) : Prop :=
  has_column t "asset_id" = true /\ NoDup (column_value t "asset_id" <$> t_rows t) /\
  Forall (fun c => c_name c ∈ names t \/ has_column t (c_name c) = false) ensured /\
  Forall (fun r => typed_row r = true) (t_rows t).

Definition upgradable (s : schema) : Prop :=
  wf s /\ (forall t, s_tables s !! "announcements" = Some t -> announcements_ok t) /\
  (s_tables s !! "schema_version" = None \/
   exists tv, s_tables s !! "schema_version" = Some tv /\ version_columns tv = true /\ read_version s = Ok (1, s)).

Definition fill (r : row) (c : column) : row :=
  match r !! c_name c with Some _ => r | None => <[c_name c := column_default c]> r end.

Lemma ensure_rows t c : wf_table t -> t_rows (ensure_column t c) = (fun r => fill r c) <$> t_rows t.
Proof.
  intros Hw. unfold ensure_column. destruct (bool_decide_reflect (c_name c ∈ names t)) as [Hin|Hni].
  - rewrite <- (list_fmap_id (t_rows t)) at 1. apply list_fmap_ext. intros k r Hr. unfold fill. cbn.
    unfold wf_table in Hw. rewrite Forall_lookup in Hw.
    assert (is_Some (r !! c_name c)) as [v ->]; [|done]. apply elem_of_dom. rewrite (Hw k r Hr). set_solver.
  - cbn. apply list_fmap_ext. intros k r Hr. unfold fill.
    unfold wf_table in Hw. rewrite Forall_lookup in Hw.
    assert (r !! c_name c = None) as ->; [|done]. apply not_elem_of_dom. rewrite (Hw k r Hr). set_solver.
Qed.

Lemma ensure_all_rows cs : forall t, wf_table t ->
  t_rows (foldl ensure_column t cs) = (fun r => foldl fill r cs) <$> t_rows t.
Proof.
  induction cs as [|c cs IH]; intros t Hw; cbn; [by rewrite list_fmap_id|].
  rewrite IH by (by apply ensure_column_keeps). rewrite ensure_rows by done.
  by rewrite <- list_fmap_compose.
Qed.

Lemma fill_lookup r c n : fill r c !! n =
  if decide (n = c_name c) then Some (default (column_default c) (r !! n)) else r !! n.
Proof.
  unfold fill. destruct (decide (n = c_name c)) as [->|Hne].
  - destruct (r !! c_name c) eqn:E; [done|]. by rewrite lookup_insert_eq.
  - destruct (r !! c_name c); [done|]. by rewrite lookup_insert_ne.
Qed.

Lemma fill_values r :
  value_at "asset_id" (foldl fill r ensured) = value_at "asset_id" r /\
  value_at "last_announced_at" (foldl fill r ensured) = value_at "last_announced_at" r /\
  value_at "expires_at" (foldl fill r ensured) = value_at "expires_at" r /\
  value_at "status" (foldl fill r ensured) = default (VText "failed") (r !! "status") /\
  value_at "created_at" (foldl fill r ensured) = default (VText "") (r !! "created_at") /\
  value_at "updated_at" (foldl fill r ensured) = default (VText "") (r !! "updated_at").
Proof. unfold value_at, ensured. cbn [foldl]. rewrite !fill_lookup. by split_and!. Qed.

Lemma filled_text n d r f : value_at n f = default (VText d) (r !! n) ->
  r !! n = None \/ is_Some (text_at n r) -> text_at n f = Some (default d (text_at n r)).
Proof.
  unfold text_at. intros ->. unfold value_at. intros [-> |[x Hx]]; [done|].
  destruct (r !! n) as [[]|]; cbn in *; congruence.
Qed.

Lemma nullable_text n r f : value_at n f = value_at n r -> is_Some (nullable_at n r) ->
  nullable_at n f = Some (text_at n r).
Proof. unfold nullable_at, text_at. intros ->. destruct (value_at n r); intros [? [=]]; done. Qed.

Lemma read_filled r : typed_row r = true -> read_announcement (foldl fill r ensured) = Some (upgraded r).
Proof.
  destruct (fill_values r) as (H1 & H2 & H3 & H4 & H5 & H6). unfold typed_row. cbn [forallb].
  rewrite !andb_true_iff, !orb_true_iff, !bool_decide_eq_true.
  intros [[[id Hid] (Hs & Hc & Hu & _)] (Hl & He & _)]. unfold read_announcement, upgraded.
  rewrite (filled_text _ _ _ _ H4 Hs), (filled_text _ _ _ _ H5 Hc), (filled_text _ _ _ _ H6 Hu),
    (nullable_text _ _ _ H2 Hl), (nullable_text _ _ _ H3 He).
  assert (text_at "asset_id" (foldl fill r ensured) = text_at "asset_id" r) as -> by (unfold text_at; by rewrite H1).
  by rewrite Hid.
Qed.

(** ** The assets are not touched *)

Lemma exec_assets q s s' : (forall c, q <> AddColumn "assets" c) -> exec q s = Ok s' ->
  rows_of read_asset "assets" s' = rows_of read_asset "assets" s.
Proof.
  intros Hq. assert (Hput : forall n t, n <> "assets" -> rows_of read_asset "assets" (put_table n t s) = rows_of read_asset "assets" s).
  { intros n t Hn. unfold rows_of. cbn. by rewrite lookup_insert_ne. }
  destruct q as [n cols| |n tbl c|tbl c]; cbn.
  - destruct (s_tables s !! n) eqn:E; intros [= <-]; [done|]. destruct (decide (n = "assets")) as [->|]; [|by apply Hput].
    unfold rows_of. cbn. by rewrite lookup_insert_eq, E.
  - repeat (case_match; try done); intros [= <-]; [done|]. by apply Hput.
  - repeat (case_match; try done); intros [= <-]; done.
  - repeat (case_match; try done). intros [= <-]. apply Hput. intros ->. by destruct (Hq c).
Qed.

Lemma exec_all_assets qs : forall s s' fs, Forall (fun q => forall c, q <> AddColumn "assets" c) qs ->
  exec_all qs (s, []) = (Ok tt, (s', fs)) -> rows_of read_asset "assets" s' = rows_of read_asset "assets" s.
Proof.
  induction qs as [|q qs IH]; intros s s' fs HF; [by intros [= <- _]|]. apply Forall_cons in HF as [Hq HF].
  rewrite exec_all_cons. destruct (exec q s) as [s1|] eqn:E; [|done]. intros Hr. rewrite (IH _ _ _ HF Hr). by apply (exec_assets q).
Qed.

Lemma Migrate_assets fs s s' : Migrate fs s = (Ok tt, s') ->
  rows_of read_asset "assets" s' = rows_of read_asset "assets" s.
Proof.
  intros H%Migrate_quiet. apply migrate_tx_Ok in H as (s1 & t & E1 & _ & _ & _ & Ho). unfold only_announcements in Ho.
  rewrite <- (exec_all_assets migration_stmts s s1 []); [|by repeat constructor|done]. subst s'. unfold rows_of. cbn.
  by rewrite lookup_insert_ne.
Qed.

(** ** The migration of an older database succeeds *)

Definition addable (c : column) : bool := negb (c_notnull c && bool_decide (column_default c = VNull)).

Fixpoint distinct_columns (cs : list column) : bool :=
  match cs with
  | [] => true
  | c :: cs' => forallb (fun c' => negb (same_name (c_name c') (c_name c))) cs' && distinct_columns cs'
  end.

Lemma has_column_add t c n : has_column (add_column c t) n = has_column t n || same_name n (c_name c).
Proof. unfold has_column. rewrite names_add, existsb_app. cbn. by rewrite orb_false_r. Qed.

Lemma ensure_all_succeeds cs : forall s t, s_tables s !! "announcements" = Some t ->
  distinct_columns cs = true -> forallb addable cs = true ->
  Forall (fun c => c_name c ∈ names t \/ has_column t (c_name c) = false) cs ->
  exists s', ensure_all cs (s, []) = (Ok tt, (s', [])).
Proof.
  induction cs as [|c cs IH]; intros s t Ht Hd Ha HF; [by eexists|]. cbn in Hd, Ha.
  apply andb_true_iff in Hd as [Hd1 Hd], Ha as [Ha1 Ha].
  apply Forall_cons in HF as [Hc HF]. cbn [ensure_all]. unfold mbind, TX_bind. rewrite (ensure_quiet c s t Ht).
  destruct (bool_decide_reflect (c_name c ∈ names t)) as [_|Hni]; [by eapply IH|].
  destruct Hc as [|Hc]; [done|]. cbn [exec]. rewrite Ht, Hc. unfold addable in Ha1. apply negb_true_iff in Ha1.
  rewrite Ha1. eapply (IH _ (add_column c t)); [apply lookup_insert_eq|done|done|].
  apply Forall_forall. intros c' Hc'. rewrite Forall_forall in HF. rewrite forallb_forall in Hd1.
  rewrite has_column_add, names_add. destruct (HF c' Hc') as [?|Hf]; [left; set_solver|right].
  rewrite Hf. apply list_elem_of_In, Hd1 in Hc'. breflect. done.
Qed.

Lemma exec_create n cols s : exists s1, exec (CreateTable n cols) s = Ok s1 /\ s_indexes s1 = s_indexes s /\
  s_tables s1 !! n = Some (default (Table cols []) (s_tables s !! n)) /\
  (forall m, m <> n -> s_tables s1 !! m = s_tables s !! m).
Proof.
  cbn. destruct (s_tables s !! n) as [t|] eqn:E; eexists; (split; [done|]); (split; [done|]).
  - split; [done|auto].
  - cbn. split; [apply lookup_insert_eq|]. intros m Hm. by apply lookup_insert_ne.
Qed.

Lemma read_version_row s tv : s_tables s !! "schema_version" = Some tv -> read_version s = Ok (1, s) ->
  existsb (is_row_one tv) (t_rows tv) = true.
Proof.
  intros Ht. unfold read_version. rewrite Ht. destruct (list_find _ _) as [[k r]|] eqn:E; [|done]. intros _.
  apply list_find_Some in E as (Hk & Hr & _). apply existsb_exists. exists r. split; [|done].
  by apply list_elem_of_In, (list_elem_of_lookup_2 _ k).
Qed.

(** Inserting the version row leaves a table of version 1. *)
Lemma exec_insert s s0 : s_tables s = <["schema_version" := default (Table version_table []) (s_tables s0 !! "schema_version")]> (s_tables s0) ->
  (s_tables s0 !! "schema_version" = None \/
   exists tv, s_tables s0 !! "schema_version" = Some tv /\ version_columns tv = true /\ read_version s0 = Ok (1, s0)) ->
  exists s1, exec InsertVersion s = Ok s1 /\ s_indexes s1 = s_indexes s /\ read_version s1 = Ok (1, s1) /\
    forall m, m <> "schema_version" -> s_tables s1 !! m = s_tables s0 !! m.
Proof.
  intros Hs [Hn|(tv & Htv & Hc & Hr)].
  - rewrite Hn in Hs. cbn in Hs. cbn [exec]. rewrite Hs, lookup_insert_eq.
    eexists. split; [reflexivity|]. split; [done|]. split.
    + unfold read_version. cbn [s_tables put_table]. rewrite lookup_insert_eq. reflexivity.
    + intros m Hm. cbn. rewrite Hs, insert_insert_eq. by apply lookup_insert_ne.
  - rewrite Htv in Hs. cbn in Hs. rewrite insert_id in Hs by done. cbn [exec]. rewrite Hs, Htv, Hc.
    rewrite (read_version_row s0 tv Htv Hr). exists s. split_and!; [done|done| |by rewrite Hs].
    rewrite (read_version_same s0 s) by (by rewrite Hs). by rewrite Hr.
Qed.

Lemma exec_index s t : s_tables s !! "announcements" = Some t -> has_column t "asset_id" = true ->
  NoDup (column_value t "asset_id" <$> t_rows t) ->
  exists s1, exec (CreateUniqueIndex index_name "announcements" "asset_id") s = Ok s1 /\ s_tables s1 = s_tables s.
Proof.
  intros Ht Hc Hn. cbn. destruct (bool_decide _); [by eexists|]. rewrite Ht, Hc. cbn.
  rewrite bool_decide_true by done. by eexists.
Qed.

Lemma announcements_new : announcements_ok (Table announcements_table []).
Proof.
  split_and!; [done|constructor| |constructor]. repeat constructor; left; cbn; set_solver.
Qed.

Lemma upgradable_runs s : upgradable s -> exists s1 t,
  exec_all migration_stmts (s, []) = (Ok tt, (s1, [])) /\ read_version s1 = Ok (1, s1) /\
  s_tables s1 !! "announcements" = Some t /\ announcements_ok t /\
  t_rows t = match s_tables s !! "announcements" with Some t0 => t_rows t0 | None => [] end.
Proof.
  intros (Hw & Hann & Hver). unfold migration_stmts. rewrite exec_all_cons.
  destruct (exec_create "schema_version" version_table s) as (s1 & -> & Hi1 & Ht1 & Hk1).
  assert (Hs1 : s_tables s1 = <["schema_version" := default (Table version_table []) (s_tables s !! "schema_version")]> (s_tables s)).
  { apply map_eq. intros m. destruct (decide (m = "schema_version")) as [->|Hm].
    - by rewrite Ht1, lookup_insert_eq.
    - by rewrite Hk1, lookup_insert_ne. }
  rewrite exec_all_cons. destruct (exec_insert s1 s Hs1 Hver) as (s2 & -> & Hi2 & Hv2 & Hk2).
  rewrite exec_all_cons. match goal with |- context [exec (CreateTable "assets" ?c) s2] =>
    destruct (exec_create "assets" c s2) as (s3 & -> & Hi3 & Ht3 & Hk3) end.
  rewrite exec_all_cons. destruct (exec_create "announcements" announcements_table s3) as (s4 & -> & Hi4 & Ht4 & Hk4).
  rewrite Hk3, Hk2 in Ht4 by done. set (t := default _ _) in Ht4.
  assert (Hok : announcements_ok t).
  { subst t. destruct (s_tables s !! "announcements"); [by apply Hann|apply announcements_new]. }
  rewrite exec_all_cons. destruct (exec_index s4 t Ht4 (proj1 Hok) (proj1 (proj2 Hok))) as (s5 & -> & Ht5).
  exists s5, t. split_and!; [done| |by rewrite Ht5|done|subst t; by destruct (s_tables s !! "announcements")].
  rewrite (read_version_same s2 s5) by (by rewrite Ht5, Hk4, Hk3). by rewrite Hv2.
Qed.

(** C14: a database of an older version, or none, is brought to the current one: the migration succeeds,
    and every announcement then reads as the row type of the repository, with its old values and with
    NULL times, status [failed] and empty time stamps in the columns that were missing. (Rows are read
    column by column here; the repository's own query refuses those with NULL times.) *)
Theorem migrate_upgrades s :
  upgradable s -> exists s' t', Migrate [] s = (Ok tt, s') /\ s_tables s' !! "announcements" = Some t' /\
    read_announcement <$> t_rows t' =
    (Some ∘ upgraded) <$> match s_tables s !! "announcements" with Some t => t_rows t | None => [] end.
Proof.
  intros Hup. destruct (upgradable_runs s Hup) as (s1 & t & E1 & Hv & Ht & Hok & Hrows).
  destruct Hup as (Hw & _). destruct (exec_all_keeps _ _ _ _ Hw E1) as [Hw1 _].
  destruct Hok as (_ & _ & Hcols & Htyped).
  destruct (ensure_all_succeeds ensured s1 t Ht eq_refl eq_refl Hcols) as [s' E].
  pose proof (ensure_all_Ok _ _ _ _ _ Ht E) as Ho. exists s', (foldl ensure_column t ensured).
  split_and!.
  - rewrite Migrate_no_faults. unfold migrate_tx, mbind, TX_bind. rewrite E1. unfold tx_call. cbn [tail].
    rewrite Hv. change (negb (1 =? currentSchemaVersion)) with false. cbn iota. by rewrite E.
  - rewrite Ho. cbn. apply lookup_insert_eq.
  - rewrite ensure_all_rows by (exact (Hw1 _ _ Ht)). rewrite <- Hrows, <- list_fmap_compose.
    apply list_fmap_ext. intros k r Hr. cbn. apply read_filled.
    rewrite Forall_lookup in Htyped. by eapply Htyped.
Qed.

(** A row from before [last_announced_at] or [expires_at] exists cannot be read by the repository. *)
Lemma upgraded_unreadable `{TimeParseLenient} id r :
  r !! "last_announced_at" = None \/ r !! "expires_at" = None -> is_ok (read_row id (upgraded r).2) = false.
Proof.
  unfold upgraded, read_row, text_at, value_at. cbn. intros [-> | ->]; cbn; [done|]. by repeat case_match.
Qed.

(** ** Opening leaves no handle behind *)

Lemma apply_pragmas_calls fault l r cs : apply_pragmas fault l = (r, cs) ->
  (r = Ok tt /\ cs = Pragma <$> l) \/ (is_ok r = false /\ exists k, (k < length l)%nat /\ cs = (Pragma <$> take (S k) l) ++ [CloseDB]).
Proof.
  revert r cs. induction l as [|p l IH]; intros r cs; cbn; [intros [= <- <-]; by left|].
  destruct (fault (Pragma p)); [intros [= <- <-]; right; split; [done|]; exists 0%nat; split; [lia|by destruct l]|].
  destruct (apply_pragmas fault l) as [r' cs']. intros [= <- <-].
  destruct (IH _ _ eq_refl) as [[-> ->]|(Hr & k & Hk & ->)]; [by left|right].
  split; [done|]. exists (S k). split; [lia|done].
Qed.

(** A handle that was opened is either returned, with every setting applied and the database reached, or
    closed as the last call. *)
Theorem Open_closes_or_returns fault cfg r cs :
  Open fault cfg = (r, cs) ->
  match r with
  | Ok _ => cs = [Mkdir (DataPath cfg); Mkdir (Dir (DBPath cfg)); SqlOpen (DBPath cfg)] ++ (Pragma <$> pragmas) ++ [Ping]
  | Err _ => last cs = Some CloseDB \/ (SqlOpen (DBPath cfg) ∉ cs \/ fault (SqlOpen (DBPath cfg)) <> None)
  end.
Proof.
  unfold Open. destruct (fault (Mkdir (DataPath cfg))); [intros [= <- <-]; right; left; set_solver|].
  destruct (fault (Mkdir _)); [intros [= <- <-]; right; left; set_solver|].
  destruct (fault (SqlOpen _)) eqn:Eo; [intros [= <- <-]; right; by right|].
  destruct (apply_pragmas fault pragmas) as [r' cs'] eqn:E.
  destruct (apply_pragmas_calls _ _ _ _ E) as [[-> ->]|(Hr & k & _ & ->)].
  - destruct (fault Ping); intros [= <- <-]; [by left|done].
  - destruct r' as [|e]; [done|]. intros [= <- <-]. left.
    exact (last_snoc CloseDB (Mkdir (DataPath cfg) :: Mkdir (Dir (DBPath cfg)) :: SqlOpen (DBPath cfg) ::
             list_fmap _ _ Pragma (take (S k) pragmas))).
Qed.

(** ** A database from before the columns for times and status *)

Module MigrateDemo.
Definition old_row (id : string) : row := {[ "asset_id" := VText id; "status" := VText "ok" ]}.
Definition old : schema :=
  Schema {[ "announcements" := Table [col_key "asset_id" "TEXT"; col_notnull "status" "TEXT"] [old_row "a"; old_row "b"] ]} ∅.

Lemma old_wf : wf old.
Proof. apply map_Forall_singleton. repeat constructor. Qed.

Lemma old_upgradable : upgradable old.
Proof.
  split; [exact old_wf|]. split; [|by left]. intros t [= <-]. split_and!.
  - reflexivity.
  - by apply (bool_decide_unpack _); vm_compute.
  - repeat constructor; first [by left; cbn; set_solver|by right].
  - repeat constructor.
Qed.

Definition migrated : schema := (Migrate [] old).2.

Example old_migrates :
  (Migrate [] old).1 = Ok tt /\
  (t_rows <$> s_tables migrated !! "announcements") =
    Some [<["last_announced_at" := VNull]> (<["expires_at" := VNull]> (<["created_at" := VText ""]>
            (<["updated_at" := VText ""]> (old_row "a"))));
          <["last_announced_at" := VNull]> (<["expires_at" := VNull]> (<["created_at" := VText ""]>
            (<["updated_at" := VText ""]> (old_row "b"))))].
Proof. split; vm_compute; reflexivity. Qed.

(** The seventh call fails: nothing has changed. *)
Example fault_rolls_back :
  Migrate (replicate 6 None ++ [Some "disk I/O error"]) old = (Err (MigReadVersion "disk I/O error"), old).
Proof. vm_compute. reflexivity. Qed.

Example newer_version_refused :
  (Migrate [] (Schema {[ "schema_version" := Table version_table [{[ "id" := VInt 1; "version" := VInt 2 ]}] ]} ∅)).1 =
  Err (MigUnsupported 2).
Proof. vm_compute. reflexivity. Qed.

Lemma migrate_idempotent_witness : Migrate [] migrated = (Ok tt, migrated).
Proof. apply (migrate_idempotent [] old migrated). vm_compute. reflexivity. Defined.

Lemma migrate_keeps_data_witness : wf migrated /\ keeps old migrated.
Proof.
  destruct (migrate_keeps_data [] old (Ok tt) migrated) as (H1 & H2 & _);
    [exact old_wf|vm_compute; reflexivity|]. by split.
Defined.

Lemma migrate_upgrades_witness :
  exists s' t', Migrate [] old = (Ok tt, s') /\ s_tables s' !! "announcements" = Some t' /\
    read_announcement <$> t_rows t' = [Some ("a", AnnRow None None "ok" "" ""); Some ("b", AnnRow None None "ok" "" "")].
Proof. exact (migrate_upgrades old old_upgradable). Defined.
End MigrateDemo.
