(* ===== verification/AssetPath.v ===== *)
(** * Request paths of the asset handler

    [internal/assets/validate.go] and the path half of [internal/assets/handler.go]:
    how a URL path becomes an asset id, a file name and a file-system target, and
    why that target never leaves the asset's own directory. *)

From S2P Require Import Prelude GoStrings.

Section AssetPath.
Context `{UnicodeLower}.

(** ** validate.go *)

Definition alnum (c : Ascii.ascii) : bool :=
  let b := byte_of c in
  ((97 <=? b) && (b <=? 122) || (65 <=? b) && (b <=? 90) || (48 <=? b) && (b <=? 57))%Z.

(** [[a-zA-Z0-9_-]] and [[a-zA-Z0-9_.-]]. *)
Definition asset_id_char (c : Ascii.ascii) : bool :=
  alnum c || Ascii.eqb c "_"%char || Ascii.eqb c "-"%char.

Definition filename_char (c : Ascii.ascii) : bool :=
  alnum c || Ascii.eqb c "_"%char || Ascii.eqb c dot || Ascii.eqb c "-"%char.

(** [`^[a-zA-Z0-9_-]{1,128}$`] *)
Definition assetIDRegex (s : string) : bool :=
  sall asset_id_char s && (1 <=? slen s) && (slen s <=? 128).

(** [`^[a-zA-Z0-9_.-]{1,256}$`] *)
Definition filenameRegex (s : string) : bool :=
  sall filename_char s && (1 <=? slen s) && (slen s <=? 256).

Definition validateAssetID (assetID : string) : result string unit :=
  guard_err (negb (assetIDRegex assetID)) "invalid asset_id".

Definition validateFilename (filename : string) : result string unit :=
  _ ← guard_err (String.eqb filename "") "empty filename";
  _ ← guard_err (Contains filename "..") "invalid filename";
  _ ← guard_err (Contains filename "/" || Contains filename "\") "invalid filename";
  guard_err (negb (filenameRegex filename)) "invalid filename".

Definition validateExtension (filename : string) : result string string :=
  let ext := ToLower (Ext filename) in
  if String.eqb ext ".m3u8" || String.eqb ext ".ts" || String.eqb ext ".m4s" then Ok ext
  else if String.eqb ext ".mp4" then
    let base := ToLower (Base filename) in
    if String.eqb base "init.mp4" then Ok ext
    else if HasPrefix base "init-" && (slen "init-.mp4" <? slen base) then Ok ext
    else Err "invalid mp4 filename"
  else Err "unsupported extension".

(** ** handler.go: from the URL path to the target *)

Definition parseAssetPath (path : string) : option (string * string) :=
  let prefix := "/assets/" in
  if negb (HasPrefix path prefix) then None
  else
    let rest := TrimPrefix path prefix in
    if String.eqb rest "" then None
    else match SplitN2 rest slash with
         | [a; b] => Some (a, b)
         | _ => None
         end.

Record assetRequest := AssetRequest {
  assetID : string;
  filename : string;
  ext : string;
  root : string;
  target : string;
}.

Definition StatusBadRequest : Z := 400.
Definition StatusNotFound : Z := 404.

(** [filepath.Abs] fails only when [os.Getwd] does. *)
Definition ensureWithinRoot (getwd : result string string) (root target : string) : result string unit :=
  absRoot ← Abs getwd root;
  absTarget ← Abs getwd target;
  guard_err (negb (HasPrefix absTarget (absRoot +:+ "/"))) "target outside root".

(** An error comes with the HTTP status the handler answers with. *)
Definition with_status {A} (status : Z) (r : result string A) : result (Z * string) A :=
  match r with Ok a => Ok a | Err e => Err (status, e) end.

Definition parseRequest (getwd : result string string) (AssetsRoot : string) (pathValue : string)
  : result (Z * string) assetRequest :=
  match parseAssetPath pathValue with
  | None => Err (StatusNotFound, "not_found")
  | Some (assetID, filename) =>
      _ ← with_status StatusBadRequest (validateAssetID assetID);
      _ ← guard_err (String.eqb filename "") (StatusNotFound, "not_found");
      _ ← with_status StatusBadRequest (validateFilename filename);
      ext ← with_status StatusBadRequest (validateExtension filename);
      let root := Join [AssetsRoot; assetID] in
      let target := Join [root; filename] in
      _ ← with_status StatusBadRequest (ensureWithinRoot getwd root target);
      Ok (AssetRequest assetID filename ext root target)
  end.

(** ** Lemmas *)

Lemma with_status_Ok {A} st (r : result string A) a : with_status st r = Ok a <-> r = Ok a.
Proof. destruct r; cbn; naive_solver. Qed.

Lemma parseAssetPath_Some path a b :
  parseAssetPath path = Some (a, b) <->
  path = "/assets/" +:+ a +:+ "/" +:+ b /\ has_char slash a = false.
Proof.
  unfold parseAssetPath, SplitN2. destruct (HasPrefix path "/assets/") eqn:Hp; cbn [negb].
  - apply HasPrefix_spec in Hp as [rest ->]. rewrite TrimPrefix_app.
    transitivity (cut slash rest = Some (a, b)).
    + destruct (String.eqb_spec rest "") as [->|]; [done|].
      destruct (cut slash rest) as [[? ?]|]; naive_solver.
    + rewrite cut_Some. change ("/" +:+ b) with (String slash b). split.
      * intros [-> ?]. done.
      * intros [He ?]. split; [|done]. by apply (inj (String.append "/assets/")) in He.
  - split; [done|]. intros [-> _].
    assert (HasPrefix ("/assets/" +:+ a +:+ "/" +:+ b) "/assets/" = true) by (apply HasPrefix_spec; eauto).
    congruence.
Qed.

Lemma validateAssetID_Ok s u :
  validateAssetID s = Ok u <-> sall asset_id_char s = true /\ 1 <= slen s <= 128.
Proof.
  unfold validateAssetID, assetIDRegex. rewrite guard_err_Ok, negb_false_iff, !andb_true_iff.
  rewrite !Nat.leb_le. tauto.
Qed.

Lemma asset_id_plain s u : validateAssetID s = Ok u -> plain s.
Proof.
  rewrite validateAssetID_Ok. intros [Hs Hl]. unfold plain. split_and!.
  - by intros ->; cbn in Hl; lia.
  - by intros ->.
  - by intros ->.
  - by apply (sall_has_char asset_id_char).
Qed.

Lemma filename_plain f u e :
  validateFilename f = Ok u -> validateExtension f = Ok e -> plain f.
Proof.
  unfold validateFilename. intros Hf He. inv_ok. breflect.
  unfold plain. split_and!.
  - by intros ->.
  - intros ->. by vm_compute in He.
  - by intros ->.
  - by rewrite <- Contains_char.
Qed.

Lemma ensureWithinRoot_plain getwd a c d absroot :
  plain c -> plain d -> Abs getwd (Join [a; c]) = Ok absroot ->
  ensureWithinRoot getwd (Join [a; c]) (Join [Join [a; c]; d]) = Ok tt.
Proof.
  intros Hc Hd Ha. unfold ensureWithinRoot. rewrite (Abs_Join getwd a c d absroot Hc Hd Ha), Ha.
  cbn. replace (HasPrefix _ _) with true; [done|]. symmetry. apply HasPrefix_spec.
  exists d. by autorewrite with go.
Qed.

Lemma Join_parts a c : plain c -> path_parts (Join [a; c]) = path_parts a ++ [c].
Proof.
  intros Hc. rewrite Join_plain by done.
  apply path_parts_render; [apply snoc_nonnil|]. by apply normal_snoc; [apply path_parts_normal|].
Qed.

(** What an accepted path looks like, for the callers of the parser. *)
Lemma parseRequest_Ok getwd AssetsRoot path req :
  parseRequest getwd AssetsRoot path = Ok req ->
  path = "/assets/" +:+ assetID req +:+ "/" +:+ filename req /\
  plain (assetID req) /\ plain (filename req) /\ Contains (filename req) "\" = false /\
  validateExtension (filename req) = Ok (ext req) /\
  root req = Join [AssetsRoot; assetID req] /\ target req = Join [root req; filename req].
Proof.
  unfold parseRequest. destruct (parseAssetPath path) as [[i f]|] eqn:Hp; [|done]. cbv zeta.
  apply parseAssetPath_Some in Hp as [Hpath _].
  intros Hok. inv_ok. rewrite !with_status_Ok in *. cbn [assetID filename ext root target].
  assert (Hb : Contains f "\" = false) by (unfold validateFilename in *; inv_ok; by breflect).
  split_and!; eauto using asset_id_plain, filename_plain.
Qed.

(** ** Theorems *)

(** C1: a request path that the handler accepts names a target exactly one level below
    the asset's directory and two below the assets root: the elements of the cleaned target
    are those of the assets root, then the asset id, then the file name (no [..], no extra
    level), and the target's text is the root, a slash and the file name. *)
Theorem parseRequest_confined getwd AssetsRoot path req :
  parseRequest getwd AssetsRoot path = Ok req ->
  target req = root req +:+ "/" +:+ filename req /\
  path_parts (root req) = path_parts AssetsRoot ++ [assetID req] /\
  path_parts (target req) = path_parts AssetsRoot ++ [assetID req; filename req].
Proof.
  unfold parseRequest. destruct (parseAssetPath path) as [[i f]|]; [|done]. cbv zeta.
  intros Hok. inv_ok. cbn [target root filename assetID].
  rewrite !with_status_Ok in *. pose proof (asset_id_plain _ _ H0) as Hi.
  pose proof (filename_plain _ _ _ H2 H3) as Hf.
  split_and!; [by apply Join_Join|by apply Join_parts|].
  rewrite !Join_parts by done. by rewrite <- app_assoc.
Qed.

(** Acceptance is exactly the syntactic check. As long as the working directory can be
    read, a path is accepted iff it is [/assets/<id>/<file>] with a valid id, a valid file
    name and an allowed extension: the final [ensureWithinRoot] test never rejects a request
    that passed validation. *)
Theorem parseRequest_iff wd AssetsRoot path req :
  parseRequest (Ok wd) AssetsRoot path = Ok req <->
  path = "/assets/" +:+ assetID req +:+ "/" +:+ filename req /\
  validateAssetID (assetID req) = Ok tt /\
  validateFilename (filename req) = Ok tt /\
  validateExtension (filename req) = Ok (ext req) /\
  root req = Join [AssetsRoot; assetID req] /\
  target req = Join [root req; filename req].
Proof.
  unfold parseRequest. destruct (parseAssetPath path) as [[i f]|] eqn:Hp; cbv zeta.
  - apply parseAssetPath_Some in Hp as [Hpath Hi]. split.
    + intros Hok. inv_ok. rewrite !with_status_Ok in *. cbn. by destruct x, x1.
    + intros (Hpath' & Ha & Hf & He & Hr & Ht). destruct req as [i' f' e r t].
      cbn in Hpath', Ha, Hf, He, Hr, Ht |- *.
      assert (parseAssetPath path = Some (i, f)) as H1 by (by apply parseAssetPath_Some).
      assert (parseAssetPath path = Some (i', f')) as H2.
      { apply parseAssetPath_Some. split; [done|]. by apply asset_id_plain in Ha as (_ & _ & _ & ?). }
      rewrite H1 in H2. injection H2 as <- <-.
      pose proof (asset_id_plain _ _ Ha) as Hpi. pose proof (filename_plain _ _ _ Hf He) as Hpf.
      rewrite Ha, Hf, He. destruct Hpf as (Hne & Hpf). rewrite (proj2 (String.eqb_neq _ _) Hne).
      assert (exists r0, Abs (Ok wd : result string string) (Join [AssetsRoot; i]) = Ok r0) as [r0 Hr0].
      { unfold Abs. case_match; eauto. }
      erewrite ensureWithinRoot_plain by (done || exact Hr0 || by split). cbn. by subst.
  - split; [done|]. intros (Hpath & Ha & _). exfalso.
    assert (parseAssetPath path = Some (assetID req, filename req)) as Hs; [|congruence].
    apply parseAssetPath_Some. split; [done|]. by apply asset_id_plain in Ha as (_ & _ & _ & ?).
Qed.

(** A rejected path is answered 404 when it does not have the shape
    [/assets/<id>/<file>] or when the file name after a valid id is empty, and 400
    in every other case; no other status comes out of the parser. *)
Theorem parseRequest_status getwd AssetsRoot path st e :
  parseRequest getwd AssetsRoot path = Err (st, e) ->
  (st = StatusNotFound <->
     parseAssetPath path = None \/
     exists i, parseAssetPath path = Some (i, "") /\ validateAssetID i = Ok tt) /\
  (st = StatusNotFound \/ st = StatusBadRequest).
Proof.
  unfold parseRequest. destruct (parseAssetPath path) as [[i f]|]; cbv zeta.
  - destruct (validateAssetID i) as [[]|] eqn:Hi; cbn.
    + destruct (String.eqb_spec f "") as [->|Hf]; cbn.
      { intros [= <- <-]. split; [|by left]. split; [|done]. intros _. right. by exists i. }
      repeat match goal with
      | |- context [with_status _ ?r] => destruct r; cbn
      end; intros [= <- <-]; (split; [|by right]); unfold StatusNotFound, StatusBadRequest;
        (split; [lia|naive_solver]).
    + intros [= <- <-]. split; [|by right]. unfold StatusNotFound, StatusBadRequest.
      split; [lia|]. intros [?|(i' & [= <- ->] & ?)]; [done|congruence].
  - intros [= <- <-]. split; [|by left]. split; [|done]. by left.
Qed.

(** Only playlists and media segments are served. An accepted extension is one of
    [.m3u8], [.ts], [.m4s], [.mp4], it is the lower-cased extension of the file name, and
    an [.mp4] is always an initialisation segment: its lower-cased base name is [init.mp4]
    or starts with [init-] and has at least one more character before the extension. *)
Theorem validateExtension_allowlist f e :
  validateExtension f = Ok e ->
  e = ToLower (Ext f) /\ e ∈ [".m3u8"; ".ts"; ".m4s"; ".mp4"] /\
  (e = ".mp4" -> let base := ToLower (Base f) in
     base = "init.mp4" \/ exists mid, mid <> "" /\ base = "init-" +:+ mid /\ 9 < slen base).
Proof.
  unfold validateExtension. cbv zeta. set (x := ToLower (Ext f)).
  destruct (String.eqb_spec x ".m3u8") as [->|]; cbn [orb]; [intros [= <-]; set_solver|].
  destruct (String.eqb_spec x ".ts") as [->|]; cbn [orb]; [intros [= <-]; set_solver|].
  destruct (String.eqb_spec x ".m4s") as [->|]; cbn [orb]; [intros [= <-]; set_solver|].
  destruct (String.eqb_spec x ".mp4") as [->|]; [|done].
  destruct (String.eqb_spec (ToLower (Base f)) "init.mp4"); [intros [= <-]; set_solver|].
  destruct (HasPrefix _ _) eqn:Hp; [|done]. cbn [andb].
  destruct (_ <? _) eqn:Hl; [|done]. intros [= <-]. apply Nat.ltb_lt in Hl.
  split; [done|]. split; [set_solver|]. intros _. right.
  apply HasPrefix_spec in Hp as [mid Hm]. exists mid. rewrite Hm in *.
  split; [|done]. intros ->. cbn in Hl. lia.
Qed.
End AssetPath.

Lemma parseRequest_confined_witness :
  let u : UnicodeLower := fun s => s in
  exists req, parseRequest (Ok "/srv") "./data/assets" "/assets/a1/seg_0.ts" = Ok req /\
    target req = "data/assets/a1/seg_0.ts" /\
    path_parts (target req) = ["data"; "assets"; "a1"; "seg_0.ts"].
Proof.
  intros u. eexists. split; [vm_compute; reflexivity|]. split; [reflexivity|].
  apply (@parseRequest_confined u (Ok "/srv") "./data/assets" "/assets/a1/seg_0.ts").
  vm_compute; reflexivity.
Defined.

Lemma parseRequest_status_witness :
  let u : UnicodeLower := fun s => s in
  parseRequest (Ok "/srv") "data" "/assets/a1/" = Err (StatusNotFound, "not_found") /\
  (StatusNotFound = StatusNotFound \/ StatusNotFound = StatusBadRequest).
Proof.
  intros u. split; [vm_compute; reflexivity|].
  apply (@parseRequest_status u (Ok "/srv") "data" "/assets/a1/" StatusNotFound "not_found").
  vm_compute; reflexivity.
Defined.

Lemma validateExtension_allowlist_witness :
  let u : UnicodeLower := fun s => s in
  validateExtension "Init-0.MP4" = Ok ".mp4" /\ ".mp4" = ToLower (Ext "Init-0.MP4").
Proof.
  intros u. split; [vm_compute; reflexivity|].
  apply (@validateExtension_allowlist u "Init-0.MP4" ".mp4"). vm_compute; reflexivity.
Defined.
