(* ===== verification/FsSecure.v ===== *)
(** * The file system and [internal/fssecure]

    A POSIX-like tree with symbolic links, and the provider's symlink-refusing
    [OpenFileNoSymlinks] and [AuditNoSymlinks] over it. Every system call of
    [OpenFileNoSymlinks] reads its own file-system state, so another process may
    change anything between two calls. *)

From S2P Require Import Prelude GoStrings.

(** ** The operating system *)

Inductive errno := ENOENT | ENOTDIR | EACCES | ELOOP | EIO.
#[export] Instance errno_eq_dec : EqDecision errno.
Proof. solve_decision. Defined.

(** A node of the tree. [readable] says whether the process may open it for reading;
    entries of a directory are listed in the order of [os.ReadDir], sorted by name. *)
Inductive node : Type :=
| NReg (ino size mtime : Z) (readable : bool)
| NDir (ino : Z) (readable : bool) (entries : list (string * node))
| NLink (ino : Z) (tgt : string)
| NSpecial (ino : Z).

Inductive kind := KReg | KDir | KLink | KSpecial.
#[export] Instance kind_eq_dec : EqDecision kind.
Proof. solve_decision. Defined.

Definition kind_eqb (a b : kind) : bool :=
  match a, b with
  | KReg, KReg | KDir, KDir | KLink, KLink | KSpecial, KSpecial => true
  | _, _ => false
  end.

Lemma kind_eqb_eq a b : kind_eqb a b = true <-> a = b.
Proof. destruct a, b; done. Qed.

Record FileInfo := MkInfo { fi_kind : kind; fi_ino : Z; fi_size : Z; fi_mtime : Z }.

Definition info_of (n : node) : FileInfo :=
  match n with
  | NReg i sz mt _ => MkInfo KReg i sz mt
  | NDir i _ _ => MkInfo KDir i 0 0
  | NLink i t => MkInfo KLink i (Z.of_nat (slen t)) 0
  | NSpecial i => MkInfo KSpecial i 0 0
  end.

Record fs := MkFS { fs_root : node; fs_cwd : list string }.

Fixpoint assoc {A} (k : string) (l : list (string * A)) : option A :=
  match l with
  | [] => None
  | (k', a) :: l' => if String.eqb k' k then Some a else assoc k l'
  end.

(** The node at a path of real directory names. *)
Fixpoint node_at (n : node) (p : list string) : result errno node :=
  match p with
  | [] => Ok n
  | c :: p' =>
      match n with
      | NDir _ _ es => match assoc c es with Some m => node_at m p' | None => Err ENOENT end
      | _ => Err ENOTDIR
      end
  end.

(** Path resolution: [here] is the directory reached so far; a symbolic link is expanded in
    place unless it is the last element and [follow] is false. [links] bounds the number of
    expansions as the kernel does (40), after which the call fails with [ELOOP]. *)
Fixpoint resolve (links : nat) (rt : node) (follow : bool) (here comps : list string)
  {struct links} : result errno node :=
  (fix walk (here comps : list string) {struct comps} : result errno node :=
     match comps with
     | [] => node_at rt here
     | c :: rest =>
         if String.eqb c "" || String.eqb c "." then walk here rest
         else if String.eqb c ".." then walk (removelast here) rest
         else
           match node_at rt here with
           | Err e => Err e
           | Ok (NDir _ _ es) =>
               match assoc c es with
               | None => Err ENOENT
               | Some (NLink i t) =>
                   if negb follow && match rest with [] => true | _ => false end then Ok (NLink i t)
                   else match links with
                        | O => Err ELOOP
                        | S links' =>
                            resolve links' rt follow (if rooted t then [] else here)
                                    (split_on slash t ++ rest)
                        end
               | Some _ => walk (here ++ [c]) rest
               end
           | Ok _ => Err ENOTDIR
           end
     end) here comps.

Definition max_links : nat := 40.

Definition resolve_path (s : fs) (follow : bool) (p : string) : result errno node :=
  if String.eqb p "" then Err ENOENT
  else resolve max_links (fs_root s) follow (if rooted p then [] else fs_cwd s) (split_on slash p).

Definition os_Lstat (s : fs) (p : string) : result errno FileInfo :=
  n ← resolve_path s false p; Ok (info_of n).

(** An open file description: it stays bound to its inode whatever happens to the name. *)
Record handle := MkHandle { h_kind : kind; h_ino : Z }.

Definition os_Open (s : fs) (p : string) : result errno handle :=
  n ← resolve_path s true p;
  match n with
  | NReg _ _ _ false | NDir _ false _ => Err EACCES
  | _ => Ok (MkHandle (fi_kind (info_of n)) (fi_ino (info_of n)))
  end.

(** [f.Stat()]: the type and inode are those of the handle, size and time are current. *)
Definition file_Stat (h : handle) (meta : result errno (Z * Z)) : result errno FileInfo :=
  m ← meta; Ok (MkInfo (h_kind h) (h_ino h) m.1 m.2).

Definition os_SameFile (a b : FileInfo) : bool := (fi_ino a =? fi_ino b)%Z.

(** ** fssecure.go *)

Inductive open_err := ErrOS (e : errno) | ErrSymlink | ErrInvalidFilename | ErrNotRegular.
#[export] Instance open_err_eq_dec : EqDecision open_err.
Proof. solve_decision. Defined.

Definition IsSymlink (fi : option FileInfo) : bool :=
  match fi with
  | None => false
  | Some i => kind_eqb (fi_kind i) KLink
  end.

Definition IsRegular (i : FileInfo) : bool := kind_eqb (fi_kind i) KReg.
Definition IsDir (i : FileInfo) : bool := kind_eqb (fi_kind i) KDir.

(** The environment of one call: the file system as seen by the two [Lstat]s, by [Open], and
    what the final [Stat] reads. *)
Record open_env := OpenEnv {
  at_lstat_root : fs;
  at_lstat_target : fs;
  at_open : fs;
  at_stat : result errno (Z * Z);
}.

Definition lift_os {A} (r : result errno A) : result open_err A :=
  match r with Ok a => Ok a | Err e => Err (ErrOS e) end.

(** The checks before a descriptor exists. *)
Definition open_prechecks (env : open_env) (rootDir filename : string) : result open_err FileInfo :=
  _ ← guard_err (String.eqb filename "" || negb (String.eqb filename (Base filename)) ||
                 Contains filename "/" || Contains filename "\") ErrInvalidFilename;
  rootInfo ← lift_os (os_Lstat (at_lstat_root env) rootDir);
  _ ← guard_err (IsSymlink (Some rootInfo)) ErrSymlink;
  _ ← guard_err (negb (IsDir rootInfo)) ErrNotRegular;
  targetInfo ← lift_os (os_Lstat (at_lstat_target env) (Join [rootDir; filename]));
  _ ← guard_err (IsSymlink (Some targetInfo)) ErrSymlink;
  _ ← guard_err (negb (IsRegular targetInfo)) ErrNotRegular;
  Ok targetInfo.

(** The checks on the open descriptor; the caller closes it when they fail. *)
Definition open_postchecks (env : open_env) (targetInfo : FileInfo) (f : handle) : result open_err FileInfo :=
  info ← lift_os (file_Stat f (at_stat env));
  _ ← guard_err (negb (IsRegular info)) ErrNotRegular;
  _ ← guard_err (negb (os_SameFile targetInfo info)) ErrSymlink;
  Ok info.

(** The result, and the descriptors the call opened and closed. *)
Definition OpenFileNoSymlinks (env : open_env) (rootDir filename : string)
  : result open_err (handle * FileInfo) * list handle * list handle :=
  match open_prechecks env rootDir filename with
  | Err e => (Err e, [], [])
  | Ok targetInfo =>
      match os_Open (at_open env) (Join [rootDir; filename]) with
      | Err e => (Err (ErrOS e), [], [])
      | Ok f =>
          match open_postchecks env targetInfo f with
          | Err e => (Err e, [f], [f])
          | Ok info => (Ok (f, info), [f], [])
          end
      end
  end.

(** [filepath.WalkDir] from a node with the audit's callback: the first problem met in
    lexical order stops the walk. *)
Inductive audit_err := AuditFoundSymlink | AuditOS (e : errno).

Fixpoint walkDir (n : node) : option audit_err :=
  match n with
  | NLink _ _ => Some AuditFoundSymlink
  | NDir _ readable es =>
      if readable then
        (fix go (es : list (string * node)) : option audit_err :=
           match es with
           | [] => None
           | (_, m) :: es' =>
               match walkDir m with
               | Some e => Some e
               | None => go es'
               end
           end) es
      else Some (AuditOS EACCES)
  | _ => None
  end.

Definition AuditNoSymlinks (s : fs) (root : string) : result errno bool :=
  match resolve_path s false root with
  | Err e => Err e
  | Ok n =>
      match walkDir n with
      | Some AuditFoundSymlink => Ok true
      | Some (AuditOS e) => Err e
      | None => Ok false
      end
  end.

(** ** Lemmas *)

Lemma resolve_unfold links rt follow here comps :
  resolve links rt follow here comps =
  match comps with
  | [] => node_at rt here
  | c :: rest =>
      if String.eqb c "" || String.eqb c "." then resolve links rt follow here rest
      else if String.eqb c ".." then resolve links rt follow (removelast here) rest
      else
        match node_at rt here with
        | Err e => Err e
        | Ok (NDir _ _ es) =>
            match assoc c es with
            | None => Err ENOENT
            | Some (NLink i t) =>
                if negb follow && match rest with [] => true | _ => false end then Ok (NLink i t)
                else match links with
                     | O => Err ELOOP
                     | S links' =>
                         resolve links' rt follow (if rooted t then [] else here)
                                 (split_on slash t ++ rest)
                     end
            | Some _ => resolve links rt follow (here ++ [c]) rest
            end
        | Ok _ => Err ENOTDIR
        end
  end.
Proof. destruct links, comps; reflexivity. Qed.

(** Following the last element changes nothing when it is not a link. *)
Lemma resolve_follow links rt here comps n :
  resolve links rt false here comps = Ok n -> fi_kind (info_of n) <> KLink ->
  resolve links rt true here comps = Ok n.
Proof.
  revert here comps; induction links as [|links IHl]; intros here comps; revert here;
    (induction comps as [|c rest IHc]; intros here;
      [by rewrite (resolve_unfold _ rt false here []), (resolve_unfold _ rt true here [])|]);
    rewrite (resolve_unfold _ rt false here (c :: rest)), (resolve_unfold _ rt true here (c :: rest));
    (destruct (String.eqb c "" || String.eqb c "."); [by apply IHc|]);
    (destruct (String.eqb c ".."); [by apply IHc|]);
    (destruct (node_at rt here) as [[| ? ? es | |]|]; try done);
    (destruct (assoc c es) as [[]|]; try done; try by apply IHc);
    destruct rest; cbn [negb andb]; intros Heq Hk; try done; try by apply IHl.
  all: injection Heq as <-; by cbn in Hk.
Qed.

(** Induction on trees, with the hypothesis for every entry of a directory. *)
Lemma node_rect_Forall (P : node -> Prop) :
  (forall i sz mt r, P (NReg i sz mt r)) ->
  (forall i r es, Forall (fun e => P e.2) es -> P (NDir i r es)) ->
  (forall i t, P (NLink i t)) ->
  (forall i, P (NSpecial i)) ->
  forall n, P n.
Proof.
  intros Hr Hd Hl Hs. fix IH 1. intros [i sz mt r|i r es|i t|i]; [apply Hr| |apply Hl|apply Hs].
  apply Hd. induction es as [|[nm m] es IHes]; constructor; [apply IH|apply IHes].
Qed.

(** [occurs m n]: [m] is [n] or lies somewhere below it. *)
Inductive occurs (m : node) : node -> Prop :=
| occurs_here : occurs m m
| occurs_below i r es nm k : (nm, k) ∈ es -> occurs m k -> occurs m (NDir i r es).

Definition audit_ok (n : node) : bool :=
  match n with
  | NLink _ _ => false
  | NDir _ r _ => r
  | _ => true
  end.

Lemma walkDir_dir i es :
  walkDir (NDir i true es) = None <-> Forall (fun e => walkDir e.2 = None) es.
Proof.
  induction es as [|[nm m] es IH]; cbn in *; [naive_solver|].
  rewrite Forall_cons. destruct (walkDir m) eqn:Hm; cbn; naive_solver.
Qed.

Lemma walkDir_None n : walkDir n = None <-> forall m, occurs m n -> audit_ok m = true.
Proof.
  induction n as [i sz mt r|i r es IH|i t|i] using node_rect_Forall.
  1, 4: split; [intros _ m Hm; by inversion Hm|done].
  - destruct r.
    + rewrite walkDir_dir. rewrite Forall_forall in IH. rewrite Forall_forall. split.
      * intros Hall m Hm. inversion Hm as [|? ? ? nm k Hin Hk]; subst; [done|].
        by apply (IH (nm, k) Hin); [apply (Hall (nm, k))|].
      * intros Hall [nm k] Hin. apply (IH (nm, k) Hin). intros m Hm. apply Hall.
        by eapply occurs_below.
    + split; [done|]. intros Hall. by specialize (Hall _ (occurs_here _)).
  - split; [done|]. intros Hall. by specialize (Hall _ (occurs_here _)).
Qed.

Lemma walkDir_link n :
  walkDir n = Some AuditFoundSymlink -> exists i t, occurs (NLink i t) n.
Proof.
  induction n as [i sz mt r|i r es IH|i t|i] using node_rect_Forall; try done.
  - destruct r; [|done]. intros Hw.
    enough (exists nm m j t, (nm, m) ∈ es /\ occurs (NLink j t) m) as (nm & m & j & t & Hin & Ho).
    { exists j, t. by eapply occurs_below. }
    induction es as [|[nm m] es IHes]; [done|]. apply Forall_cons in IH as [Hm Hes]. cbn in Hw.
    destruct (walkDir m) as [e|] eqn:Ew.
    + injection Hw as ->. destruct (Hm Ew) as (j & t & Ho). exists nm, m, j, t.
      by split; [left|].
    + destruct (IHes Hes Hw) as (nm' & m' & j & t & Hin & Ho). exists nm', m', j, t.
      by split; [right|].
  - intros _. exists i, t. constructor.
Qed.

Lemma lift_os_Ok {A} (r : result errno A) a : lift_os r = Ok a <-> r = Ok a.
Proof. destruct r; cbn; naive_solver. Qed.

Lemma open_prechecks_Ok env rootDir f ti :
  open_prechecks env rootDir f = Ok ti ->
  os_Lstat (at_lstat_target env) (Join [rootDir; f]) = Ok ti /\ fi_kind ti = KReg.
Proof.
  unfold open_prechecks. intros H. inv_ok. rewrite !lift_os_Ok in *.
  unfold IsRegular in *. breflect. by rewrite <- kind_eqb_eq.
Qed.

Lemma open_postchecks_Ok env ti h info :
  open_postchecks env ti h = Ok info ->
  fi_kind info = KReg /\ fi_ino info = fi_ino ti /\ h_ino h = fi_ino ti /\ h_kind h = KReg.
Proof.
  unfold open_postchecks, file_Stat. intros H. inv_ok. rewrite !lift_os_Ok in *. inv_ok.
  unfold IsRegular, os_SameFile in *. breflect. rewrite kind_eqb_eq in *. by cbn in *.
Qed.

(** ** Theorems *)

(** C2: no symlink is ever served, even under races. Whatever other processes do to the
    file system between the four system calls, a successful open returns a descriptor of
    the very inode that the second [Lstat] saw as a regular file (not a link) at
    root/filename, the returned info describes that inode as a regular file, and the name
    is a single path element. (A link put in the place of the root itself between the calls is not
    excluded.) *)
Theorem OpenFileNoSymlinks_race_safe env rootDir f h info opened closed :
  OpenFileNoSymlinks env rootDir f = (Ok (h, info), opened, closed) ->
  (exists ti, os_Lstat (at_lstat_target env) (Join [rootDir; f]) = Ok ti /\
     fi_kind ti = KReg /\ h_ino h = fi_ino ti /\ fi_ino info = fi_ino ti) /\
  h_kind h = KReg /\ fi_kind info = KReg /\
  (exists ri, os_Lstat (at_lstat_root env) rootDir = Ok ri /\ fi_kind ri = KDir) /\
  f <> "" /\ f = Base f /\ has_char slash f = false.
Proof.
  unfold OpenFileNoSymlinks. intros H. destruct (open_prechecks env rootDir f) as [ti|] eqn:Hp; [|done].
  destruct (os_Open _ _) as [f0|]; [|done].
  destruct (open_postchecks env ti f0) as [info0|] eqn:Hq; [|done]. simplify_eq.
  pose proof (open_prechecks_Ok _ _ _ _ Hp) as [Hl Hk].
  apply open_postchecks_Ok in Hq as (? & ? & ? & ?).
  split; [by exists ti|]. do 2 (split; [done|]).
  unfold open_prechecks in Hp. inv_ok. rewrite !lift_os_Ok in *. unfold IsDir in *. breflect.
  rewrite kind_eqb_eq in *. split; [eexists; by split|]. split; [by apply String.eqb_neq|]. split; [by apply String.eqb_eq|].
  by rewrite <- Contains_char.
Qed.

(** Descriptors never leak. On success exactly the returned descriptor stays open; on
    every error path everything that was opened has been closed. *)
Theorem OpenFileNoSymlinks_no_leak env rootDir f r opened closed :
  OpenFileNoSymlinks env rootDir f = (r, opened, closed) ->
  match r with
  | Ok (h, _) => opened = [h] /\ closed = []
  | Err _ => closed = opened
  end.
Proof.
  unfold OpenFileNoSymlinks. repeat case_match; intros [= <- <- <-]; done.
Qed.

(** On a file system that does not change during the call, opening a well-formed name
    under a real directory succeeds exactly when the entry is a readable regular file, and
    then the descriptor is that file's. *)
Theorem OpenFileNoSymlinks_static s rootDir f meta ri :
  f <> "" -> f = Base f -> has_char slash f = false -> Contains f "\" = false ->
  os_Lstat s rootDir = Ok ri -> fi_kind ri = KDir ->
  is_ok (OpenFileNoSymlinks (OpenEnv s s s (Ok meta)) rootDir f).1.1 = true <->
  exists i sz mt, resolve_path s false (Join [rootDir; f]) = Ok (NReg i sz mt true).
Proof.
  intros Hne Hb Hs Hbs Hr Hk. assert (Hs' : Contains f "/" = false) by (by rewrite (Contains_char "/"%char)).
  unfold OpenFileNoSymlinks, open_prechecks. cbn [at_lstat_root at_lstat_target at_open].
  rewrite (proj2 (String.eqb_neq _ _) Hne), <- Hb, String.eqb_refl, Hs', Hbs, Hr. cbn.
  unfold IsDir, os_Lstat. rewrite Hk. cbn.
  destruct (resolve_path s false (Join [rootDir; f])) as [n|e] eqn:Hn; cbn; [|naive_solver].
  destruct n as [i sz mt r|i r es|i t|i]; cbn; [|naive_solver..].
  assert (Ho : resolve_path s true (Join [rootDir; f]) = Ok (NReg i sz mt r)).
  { unfold resolve_path in *. case_match; [done|]. by apply resolve_follow. }
  unfold os_Open. rewrite Ho. destruct r; cbn; [|naive_solver].
  unfold open_postchecks; cbn. unfold os_SameFile; cbn. rewrite Z.eqb_refl. cbn. naive_solver.
Qed.

(** A symbolic link in the place of the asset directory or of the file is refused with
    [ErrSymlink], before anything is opened. *)
Theorem OpenFileNoSymlinks_refuses_links env rootDir f ri :
  f <> "" -> f = Base f -> has_char slash f = false -> Contains f "\" = false ->
  os_Lstat (at_lstat_root env) rootDir = Ok ri ->
  (fi_kind ri = KLink \/
   fi_kind ri = KDir /\ exists ti, os_Lstat (at_lstat_target env) (Join [rootDir; f]) = Ok ti /\
                                   fi_kind ti = KLink) ->
  OpenFileNoSymlinks env rootDir f = (Err ErrSymlink, [], []).
Proof.
  intros Hne Hb Hs Hbs Hr Hcase. assert (Hs' : Contains f "/" = false) by (by rewrite (Contains_char "/"%char)).
  unfold OpenFileNoSymlinks, open_prechecks.
  rewrite (proj2 (String.eqb_neq _ _) Hne), <- Hb, String.eqb_refl, Hs', Hbs, Hr. cbn.
  unfold IsSymlink, IsDir. destruct Hcase as [Hk|(Hk & ti & Ht & Hkt)]; rewrite Hk; cbn; [done|].
  rewrite Ht; cbn. by rewrite Hkt.
Qed.

(** The audit is exact. It reports a clean tree iff the root resolves to a node under
    which there is no symbolic link and every directory can be read; when it reports a link,
    there is one below the root. *)
Theorem AuditNoSymlinks_exact s root :
  (AuditNoSymlinks s root = Ok false <->
     exists n, resolve_path s false root = Ok n /\ forall m, occurs m n -> audit_ok m = true) /\
  (AuditNoSymlinks s root = Ok true ->
     exists n i t, resolve_path s false root = Ok n /\ occurs (NLink i t) n).
Proof.
  unfold AuditNoSymlinks. destruct (resolve_path s false root) as [n|e]; [|naive_solver].
  destruct (walkDir n) as [[|e]|] eqn:Hw.
  - split; [|intros _; destruct (walkDir_link n Hw) as (i & t & ?); by exists n, i, t].
    split; [done|]. intros (n' & [= <-] & Hall). by rewrite (proj2 (walkDir_None n) Hall) in Hw.
  - split; [|done]. split; [done|].
    intros (n' & [= <-] & Hall). by rewrite (proj2 (walkDir_None n) Hall) in Hw.
  - split; [|done]. split; [|done]. intros _. exists n. split; [done|]. by apply walkDir_None.
Qed.

(** ** Witnesses *)

Definition demo_tree : node :=
  NDir 1 true [("data", NDir 2 true
    [("a1", NDir 3 true [("master.m3u8", NReg 4 120 0 true); ("seg.ts", NLink 5 "../../etc/passwd")])])].
Definition demo_fs : fs := MkFS demo_tree [].

Lemma OpenFileNoSymlinks_race_safe_witness :
  let env := OpenEnv demo_fs demo_fs demo_fs (Ok (120, 0)%Z) in
  OpenFileNoSymlinks env "data/a1" "master.m3u8"
    = (Ok (MkHandle KReg 4, MkInfo KReg 4 120 0), [MkHandle KReg 4], []) /\ h_kind (MkHandle KReg 4) = KReg.
Proof.
  intros env. split; [vm_compute; reflexivity|].
  apply (OpenFileNoSymlinks_race_safe env "data/a1" "master.m3u8" (MkHandle KReg 4)
           (MkInfo KReg 4 120 0) [MkHandle KReg 4] []). vm_compute; reflexivity.
Defined.

(** The file is swapped for another one between the second [Lstat] and [Open]. *)
Lemma OpenFileNoSymlinks_no_leak_witness :
  let swapped := MkFS (NDir 1 true [("data", NDir 2 true [("a1", NDir 3 true
                   [("master.m3u8", NReg 9 1 0 true)])])]) [] in
  let env := OpenEnv demo_fs demo_fs swapped (Ok (1, 0)%Z) in
  OpenFileNoSymlinks env "data/a1" "master.m3u8" = (Err ErrSymlink, [MkHandle KReg 9], [MkHandle KReg 9]) /\
  [MkHandle KReg 9] = [MkHandle KReg 9].
Proof.
  intros swapped env. split; [vm_compute; reflexivity|].
  apply (OpenFileNoSymlinks_no_leak env "data/a1" "master.m3u8" (Err ErrSymlink)
           [MkHandle KReg 9] [MkHandle KReg 9]). vm_compute; reflexivity.
Defined.

Lemma OpenFileNoSymlinks_static_witness :
  is_ok (OpenFileNoSymlinks (OpenEnv demo_fs demo_fs demo_fs (Ok (120, 0)%Z)) "data/a1" "master.m3u8").1.1 = true.
Proof.
  apply (OpenFileNoSymlinks_static demo_fs "data/a1" "master.m3u8" (120, 0)%Z (MkInfo KDir 3 0 0));
    try (vm_compute; reflexivity); [done|]. exists 4%Z, 120%Z, 0%Z. vm_compute; reflexivity.
Defined.

Lemma OpenFileNoSymlinks_refuses_links_witness :
  OpenFileNoSymlinks (OpenEnv demo_fs demo_fs demo_fs (Ok (0, 0)%Z)) "data/a1" "seg.ts"
    = (Err ErrSymlink, [], []).
Proof.
  apply (OpenFileNoSymlinks_refuses_links _ "data/a1" "seg.ts" (MkInfo KDir 3 0 0));
    try (vm_compute; reflexivity); [done|].
  right. split; [reflexivity|]. exists (MkInfo KLink 5 16 0). split; vm_compute; reflexivity.
Defined.
