(* ===== verification/MaxBytes.v ===== *)
(** * The body limiter of the proxy path

    [maxBytesReadCloser] of [internal/assets/handler.go], which wraps an upstream body of
    unknown length, over Go's [io.LimitReader]. *)

From S2P Require Import Prelude.
Local Open Scope Z_scope.

(** ** Readers

    The [io.Reader] contract: [Read(p)] returns at most [len(p)] bytes. *)

Inductive rerr := EOF | ErrUpstream | ErrProxyBodyTooLarge.
#[export] Instance rerr_eq_dec : EqDecision rerr.
Proof. solve_decision. Defined.

Class IoReader (R : Type) := {
  Read : R -> nat -> list Z * option rerr * R;
  Read_len : forall r k, (length (Read r k).1.1 <= k)%nat;
}.

(** [io.LimitedReader]. *)
Record limited (R : Type) := Limited { lim_R : R; lim_N : Z }.
Arguments Limited {R} _ _.
Arguments lim_R {R} _.
Arguments lim_N {R} _.

Definition LimitedRead `{IoReader R} (l : limited R) (k : nat) : list Z * option rerr * limited R :=
  if lim_N l <=? 0 then ([], Some EOF, l)
  else
    let k' := if lim_N l <? Z.of_nat k then Z.to_nat (lim_N l) else k in
    let '(bs, e, r) := Read (lim_R l) k' in
    (bs, e, Limited r (wrap64 (lim_N l - Z.of_nat (length bs)))).

(** ** maxBytesReadCloser *)

Record maxBytesReadCloser (R : Type) := MaxBytes {
  mb_reader : limited R;
  mb_max : Z;
  mb_read : Z;
  mb_overflow : bool;
}.
Arguments MaxBytes {R} _ _ _ _.
Arguments mb_reader {R} _.
Arguments mb_max {R} _.
Arguments mb_read {R} _.
Arguments mb_overflow {R} _.

(** As [ModifyResponse] builds it: [io.LimitReader(resp.Body, maxSegmentBytes+1)]. *)
Definition newMaxBytes {R} (body : R) (maxSegmentBytes : Z) : maxBytesReadCloser R :=
  MaxBytes (Limited body (wrap64 (maxSegmentBytes + 1))) maxSegmentBytes 0 false.

Definition maxBytesRead `{IoReader R} (r : maxBytesReadCloser R) (k : nat)
  : list Z * option rerr * maxBytesReadCloser R :=
  if mb_overflow r then ([], Some ErrProxyBodyTooLarge, r)
  else
    let '(p, err, l') := LimitedRead (mb_reader r) k in
    let n := Z.of_nat (length p) in
    if 0 <? n then
      let next := wrap64 (mb_read r + n) in
      if mb_max r <? next then
        let allowed0 := wrap64 (mb_max r - mb_read r) in
        let allowed := if allowed0 <? 0 then 0 else allowed0 in
        let r' := MaxBytes l' (mb_max r) (mb_max r) true in
        if 0 <? allowed then (take (Z.to_nat allowed) p, None, r')
        else ([], Some ErrProxyBodyTooLarge, r')
      else (p, err, MaxBytes l' (mb_max r) next false)
    else (p, err, MaxBytes l' (mb_max r) (mb_read r) false).

(** The copy loop of the reverse proxy: read with a buffer of [k] bytes until an error;
    [EOF] is the normal end. [None] means the fuel ran out. *)
Fixpoint copyLoop `{IoReader R} (fuel k : nat) (r : maxBytesReadCloser R) : option (list Z * rerr) :=
  match fuel with
  | O => None
  | S fuel' =>
      let '(p, err, r') := maxBytesRead r k in
      match err with
      | Some e => Some (p, e)
      | None => match copyLoop fuel' k r' with
                | Some (q, e) => Some (p ++ q, e)
                | None => None
                end
      end
  end.

(** All reads of a sequence of buffer sizes, whatever errors come back. *)
Fixpoint readMany `{IoReader R} (ks : list nat) (r : maxBytesReadCloser R)
  : list Z * maxBytesReadCloser R :=
  match ks with
  | [] => ([], r)
  | k :: ks' =>
      let '(p, _, r1) := maxBytesRead r k in
      let '(q, r2) := readMany ks' r1 in
      (p ++ q, r2)
  end.

(** ** A concrete upstream body

    [up_data] is what remains; each read returns at most the next of [up_chunks] bytes (any
    number once the list is used up); [up_final] ends the body, with the last bytes or after
    them. *)
Record upstream := Upstream {
  up_data : list Z;
  up_chunks : list nat;
  up_final : rerr;
  up_eager : bool;
}.

Definition upRead (u : upstream) (k : nat) : list Z * option rerr * upstream :=
  match up_data u with
  | [] => ([], Some (up_final u), u)
  | _ =>
      let m := match up_chunks u with [] => k | c :: _ => Nat.min k (S c) end in
      let rest := drop m (up_data u) in
      (take m (up_data u),
       match rest with
       | [] => if up_eager u then Some (up_final u) else None
       | _ => None
       end,
       Upstream rest (tail (up_chunks u)) (up_final u) (up_eager u))
  end.

#[export] Program Instance upstream_reader : IoReader upstream := {| Read := upRead |}.
Next Obligation.
  intros u k. unfold upRead. destruct (up_data u); cbn [fst]; [cbn; lia|].
  rewrite length_take. case_match; lia.
Qed.

(** ** Lemmas *)

(** The limiter's own state: bytes handed out so far never pass the maximum, and the inner
    reader may still deliver one byte more than that. *)
Definition mb_wf {R} (r : maxBytesReadCloser R) : Prop :=
  0 <= mb_read r <= mb_max r /\ mb_max r < int64_max /\
  (mb_overflow r = false -> lim_N (mb_reader r) = mb_max r + 1 - mb_read r).

Section AnyReader.
Context `{IoReader R}.

Lemma LimitedRead_spec (l : limited R) k p e l' :
  0 < lim_N l <= int64_max -> LimitedRead l k = (p, e, l') ->
  Z.of_nat (length p) <= lim_N l /\ (length p <= k)%nat /\
  lim_N l' = lim_N l - Z.of_nat (length p).
Proof.
  intros HN. unfold LimitedRead. destruct (Z.leb_spec (lim_N l) 0); [lia|].
  destruct (Read (lim_R l) _) as [[bs e'] r] eqn:Er. intros [= <- <- <-].
  pose proof (Read_len (lim_R l) (if lim_N l <? Z.of_nat k then Z.to_nat (lim_N l) else k)) as Hl.
  rewrite Er in Hl. cbn in Hl |- *.
  destruct (Z.ltb_spec (lim_N l) (Z.of_nat k)).
  all: split_and!; [lia|lia|]; apply wrap64_id; unfold in_int64, int64_min, int64_max in *; lia.
Qed.

Lemma maxBytesRead_step (r r' : maxBytesReadCloser R) k p e :
  mb_wf r -> maxBytesRead r k = (p, e, r') ->
  mb_wf r' /\ mb_max r' = mb_max r /\ mb_read r' = mb_read r + Z.of_nat (length p).
Proof.
  intros (Hr & Hm & HN). unfold maxBytesRead.
  destruct (mb_overflow r) eqn:Ho; [intros [= <- <- <-]; cbn; unfold mb_wf; rewrite Ho; cbn; lia|].
  destruct (LimitedRead (mb_reader r) k) as [[q e'] l'] eqn:El.
  apply LimitedRead_spec in El as (Hq & _ & Hl'); [|rewrite HN by done; lia].
  rewrite HN in Hq, Hl' by done.
  assert (Hw : wrap64 (mb_read r + Z.of_nat (length q)) = mb_read r + Z.of_nat (length q)).
  { apply wrap64_id. unfold in_int64, int64_min, int64_max in *. lia. }
  assert (Hw' : wrap64 (mb_max r - mb_read r) = mb_max r - mb_read r).
  { apply wrap64_id. unfold in_int64, int64_min, int64_max in *. lia. }
  rewrite Hw, Hw'. unfold mb_wf.
  destruct (Z.ltb_spec 0 (Z.of_nat (length q))); [|intros [= <- <- <-]; cbn; lia].
  destruct (Z.ltb_spec (mb_max r) (mb_read r + Z.of_nat (length q))); [|intros [= <- <- <-]; cbn; lia].
  destruct (Z.ltb_spec (mb_max r - mb_read r) 0); [lia|].
  destruct (Z.ltb_spec 0 (mb_max r - mb_read r)); intros [= <- <- <-]; cbn; [|split_and!; [lia..|done|lia|lia]].
  rewrite length_take. split_and!; [lia..|done|lia|lia].
Qed.

Lemma readMany_spec ks (r r' : maxBytesReadCloser R) out :
  mb_wf r -> readMany ks r = (out, r') ->
  mb_wf r' /\ mb_max r' = mb_max r /\ mb_read r' = mb_read r + Z.of_nat (length out).
Proof.
  revert r out; induction ks as [|k ks IH]; intros r out Hwf; cbn.
  - intros [= <- <-]. cbn. split_and!; [done..|lia].
  - destruct (maxBytesRead r k) as [[p e] r1] eqn:E1.
    destruct (readMany ks r1) as [q r2] eqn:E2. intros [= <- <-].
    destruct (maxBytesRead_step _ _ _ _ _ Hwf E1) as (Hwf1 & Hm1 & Hr1).
    destruct (IH _ _ Hwf1 E2) as (Hwf2 & Hm2 & Hr2).
    rewrite length_app. split_and!; [done|congruence|lia].
Qed.

Lemma newMaxBytes_wf (body : R) m : 0 <= m < int64_max -> mb_wf (newMaxBytes body m).
Proof.
  intros Hm. unfold mb_wf, newMaxBytes; cbn. split_and!; [lia..|]. intros _.
  rewrite wrap64_id; [lia|]. unfold in_int64, int64_min, int64_max in *. lia.
Qed.

(** Whatever the upstream sends and however the body is read (any sequence of buffer
    sizes, reads after errors included), no more than [max] bytes ever reach the client. *)
Theorem maxBytes_never_exceeds (body : R) m ks out r' :
  0 <= m < int64_max -> readMany ks (newMaxBytes body m) = (out, r') ->
  Z.of_nat (length out) <= m.
Proof.
  intros Hm Hr. apply readMany_spec in Hr as ((Hb & _) & Hmax & Hrd); [|by apply newMaxBytes_wf].
  cbn in Hmax, Hrd. lia.
Qed.

(** With the largest 64-bit limit the body is silently lost. [maxSegmentBytes+1] wraps
    around to a negative number, [io.LimitReader] then reports end of file at once, and the
    copy ends normally with an empty body whatever the upstream holds. *)
Theorem maxBytes_MaxInt64_empties_body (body : R) fuel k :
  (0 < fuel)%nat -> copyLoop fuel k (newMaxBytes body int64_max) = Some ([], EOF).
Proof. intros Hf. destruct fuel; [lia|]. reflexivity. Qed.
End AnyReader.

(** One read of a concrete body through the limiter's inner reader. *)
Lemma upRead_nonempty u k :
  up_data u <> [] -> (0 < k)%nat ->
  exists m e, (0 < m <= k)%nat /\
    upRead u k = (take m (up_data u), e,
                  Upstream (drop m (up_data u)) (tail (up_chunks u)) (up_final u) (up_eager u)) /\
    (e = None \/ e = Some (up_final u) /\ drop m (up_data u) = []).
Proof.
  intros Hd Hk. unfold upRead. destruct (up_data u) as [|b d]; [done|].
  set (m := match up_chunks u with [] => k | c :: _ => Nat.min k (S c) end).
  eexists m, _. split; [|split; [reflexivity|]].
  - unfold m. case_match; lia.
  - destruct (drop m (b :: d)); [|by left]. destruct (up_eager u); [by right|by left].
Qed.

Lemma copyLoop_spec fuel k u m c ov :
  (0 < k)%nat -> ov = false -> 0 <= c <= m -> m < int64_max ->
  (length (up_data u) + 1 < fuel)%nat ->
  copyLoop fuel k (MaxBytes (Limited u (m + 1 - c)) m c ov) =
  Some (if c + Z.of_nat (length (up_data u)) <=? m then (up_data u, up_final u)
        else (take (Z.to_nat (m - c)) (up_data u), ErrProxyBodyTooLarge)).
Proof.
  intros Hk -> Hc Hm. revert u c Hc. induction fuel as [|fuel IH]; intros u c Hc Hf; [lia|].
  cbn [copyLoop]. unfold maxBytesRead, LimitedRead; cbn [mb_overflow mb_reader mb_max mb_read lim_N lim_R].
  destruct (Z.leb_spec (m + 1 - c) 0); [lia|].
  set (k' := if m + 1 - c <? Z.of_nat k then Z.to_nat (m + 1 - c) else k).
  assert (Hk' : (0 < k')%nat /\ Z.of_nat k' <= m + 1 - c).
  { unfold k'. destruct (Z.ltb_spec (m + 1 - c) (Z.of_nat k)); lia. }
  change (Read u k') with (upRead u k'). clearbody k'.
  destruct (decide (up_data u = [])) as [Hd|Hd].
  { unfold upRead. rewrite Hd. cbn [length]. rewrite Z.add_0_r, (proj2 (Z.leb_le c m)) by lia. done. }
  destruct (upRead_nonempty u k' Hd ltac:(lia)) as (j & e & Hj & -> & He).
  assert (Hlen : (0 < length (take j (up_data u)) <= k')%nat).
  { rewrite length_take. destruct (up_data u); [done|]. cbn. lia. }
  set (p := take j (up_data u)) in *.
  rewrite !wrap64_id by (unfold in_int64, int64_min, int64_max in *; lia).
  destruct (Z.ltb_spec 0 (Z.of_nat (length p))); [|lia].
  assert (Hsplit : up_data u = p ++ drop j (up_data u)) by (symmetry; apply take_drop).
  assert (Hl : length (up_data u) = (length p + length (drop j (up_data u)))%nat)
    by (rewrite Hsplit at 1; apply length_app).
  destruct (Z.ltb_spec m (c + Z.of_nat (length p))) as [Hov|Hfit].
  - destruct (Z.leb_spec (c + Z.of_nat (length (up_data u))) m); [lia|].
    destruct (Z.ltb_spec (m - c) 0); [lia|]. destruct fuel as [|fuel]; [lia|].
    assert (Ht : take (Z.to_nat (m - c)) (up_data u) = take (Z.to_nat (m - c)) p).
    { rewrite Hsplit at 1. rewrite take_app_le; [done|lia]. }
    rewrite Ht. destruct (Z.ltb_spec 0 (m - c)); cbn; [by rewrite app_nil_r|].
    by replace (Z.to_nat (m - c)) with 0%nat by lia.
  - destruct He as [->|[-> Hnil]].
    + replace (m + 1 - c - Z.of_nat (length p)) with (m + 1 - (c + Z.of_nat (length p))) by lia.
      rewrite IH; cbn [up_data up_final]; [|lia|lia].
      destruct (Z.leb_spec (c + Z.of_nat (length p) + Z.of_nat (length (drop j (up_data u)))) m),
        (Z.leb_spec (c + Z.of_nat (length (up_data u))) m); try lia; do 2 f_equal.
      * by rewrite <- Hsplit.
      * rewrite Hsplit at 2. rewrite take_app_ge by lia. do 2 f_equal. lia.
    + rewrite Hnil, app_nil_r in Hsplit.
      destruct (Z.leb_spec (c + Z.of_nat (length (up_data u))) m); [by rewrite Hsplit|].
      rewrite Hnil in Hl. cbn in Hl. lia.
Qed.

Lemma copyLoop_newMaxBytes u k m fuel :
  (0 < k)%nat -> 0 < m < int64_max -> (length (up_data u) + 1 < fuel)%nat ->
  copyLoop fuel k (newMaxBytes u m) =
  Some (if Z.of_nat (length (up_data u)) <=? m then (up_data u, up_final u)
        else (take (Z.to_nat m) (up_data u), ErrProxyBodyTooLarge)).
Proof.
  intros Hk Hm Hf. unfold newMaxBytes.
  rewrite wrap64_id by (unfold in_int64, int64_min, int64_max in *; lia).
  pose proof (copyLoop_spec fuel k u m 0 false Hk eq_refl ltac:(lia) ltac:(lia) Hf) as Hs.
  rewrite Z.sub_0_r, Z.add_0_l, Z.sub_0_r in Hs. exact Hs.
Qed.

(** The limiter is a faithful truncation. For every way the upstream may cut its body
    into reads, copying through the limiter terminates; a body of at most [max] bytes comes
    out unchanged with the upstream's own end, a longer one comes out as exactly its first
    [max] bytes and then fails with the body-too-large error. *)
Theorem maxBytes_copy_correct u k m fuel :
  (0 < k)%nat -> 0 < m < int64_max -> (length (up_data u) + 1 < fuel)%nat ->
  copyLoop fuel k (newMaxBytes u m) =
  Some (if Z.of_nat (length (up_data u)) <=? m then (up_data u, up_final u)
        else (take (Z.to_nat m) (up_data u), ErrProxyBodyTooLarge)).
Proof. apply copyLoop_newMaxBytes. Qed.

(** ** Witnesses *)

Definition demo_body : upstream := Upstream [1; 2; 3; 4; 5; 6; 7] [1; 0]%nat EOF false.

Lemma maxBytes_never_exceeds_witness :
  (readMany [2; 3; 4; 9; 9]%nat (newMaxBytes demo_body 5)).1 = [1; 2; 3; 4; 5] /\
  Z.of_nat (length [1; 2; 3; 4; 5]) <= 5.
Proof.
  split; [vm_compute; reflexivity|].
  apply (maxBytes_never_exceeds demo_body 5 [2; 3; 4; 9; 9]%nat [1; 2; 3; 4; 5]
           (readMany [2; 3; 4; 9; 9]%nat (newMaxBytes demo_body 5)).2); [vm_compute; split; congruence|].
  vm_compute; reflexivity.
Defined.

Lemma maxBytes_MaxInt64_empties_body_witness :
  copyLoop 1 32 (newMaxBytes demo_body int64_max) = Some ([], EOF).
Proof. apply (maxBytes_MaxInt64_empties_body demo_body 1 32). lia. Defined.

Lemma maxBytes_copy_correct_witness :
  copyLoop 9 3 (newMaxBytes demo_body 5) = Some ([1; 2; 3; 4; 5], ErrProxyBodyTooLarge).
Proof.
  apply (maxBytes_copy_correct demo_body 3 5 9); [lia|vm_compute; split; congruence|cbn; lia].
Defined.
