(* ===== verification/ProxyGuard.v ===== *)
(** * Upstream concurrency limit

    [internal/proxyguard/limit.go], a counting semaphore on a buffered channel, and how
    [ServeProxy] of [internal/assets/handler.go] holds it around every upstream request
    while many requests run interleaved. Taking the slot, counting it in the metrics, taking it
    out of the count and giving it back are steps of their own, between which other requests
    may run. *)

From S2P Require Import Prelude.
From stdpp Require Import relations.

(** A channel of [struct{}]: only its capacity and the number of queued elements matter. *)
Record chan := Chan { ch_cap : nat; ch_len : nat }.

Record Semaphore := MkSem { ch : option chan }.

(** A [*Semaphore]: [None] is the nil pointer. *)
Definition NewSemaphore (size : Z) : option Semaphore :=
  if (size <=? 0)%Z then None else Some (MkSem (Some (Chan (Z.to_nat size) 0))).

(** [ctxDone]: the request's context is already cancelled. The second select sends without
    blocking. *)
Definition Acquire (ctxDone : bool) (s : option Semaphore) : bool * option Semaphore :=
  match s with
  | Some (MkSem (Some c)) =>
      if ctxDone then (false, s)
      else if ch_len c <? ch_cap c then (true, Some (MkSem (Some (Chan (ch_cap c) (S (ch_len c))))))
      else (false, s)
  | _ => (true, s)
  end.

Definition Release (s : option Semaphore) : option Semaphore :=
  match s with
  | Some (MkSem (Some c)) =>
      match ch_len c with
      | O => s
      | S n => Some (MkSem (Some (Chan (ch_cap c) n)))
      end
  | _ => s
  end.

(** ** Interleaved proxy requests

    The shared state: whether there are metrics, the semaphore, the in-flight gauge and the busy
    counter; and the requests at each point of their way through the guarded part: refused and not
    yet counted as such, with a slot but not yet in the gauge, in flight, and out of the gauge with
    the deferred [Release] still to run. *)

Record guard_state := GuardState {
  gs_metrics : bool;
  gs_sem : option Semaphore;
  gs_refused : gset nat;
  gs_acquired : gset nat;
  gs_inflight : gset nat;
  gs_releasing : gset nat;
  gs_gauge : Z;
  gs_busy : Z;
}.

Definition guard_start (metrics : bool) (size : Z) : guard_state :=
  GuardState metrics (NewSemaphore size) ∅ ∅ ∅ ∅ 0 0.

(** The server always has metrics. *)
Definition guard_init (size : Z) : guard_state := guard_start true size.

(** [h.upstreamSemaphore.Acquire(r.Context())]. *)
Definition guard_acquire (id : nat) (ctxDone : bool) (g : guard_state) : bool * guard_state :=
  let '(ok, s') := Acquire ctxDone (gs_sem g) in
  (ok, if ok
       then GuardState (gs_metrics g) s' (gs_refused g) ({[id]} ∪ gs_acquired g) (gs_inflight g) (gs_releasing g)
              (gs_gauge g) (gs_busy g)
       else GuardState (gs_metrics g) s' ({[id]} ∪ gs_refused g) (gs_acquired g) (gs_inflight g) (gs_releasing g)
              (gs_gauge g) (gs_busy g)).

(** A refused request: [IncProxyUpstreamBusy], if there are metrics, and return. *)
Definition guard_busy (id : nat) (g : guard_state) : guard_state :=
  GuardState (gs_metrics g) (gs_sem g) (gs_refused g ∖ {[id]}) (gs_acquired g) (gs_inflight g) (gs_releasing g)
    (gs_gauge g) (if gs_metrics g then gs_busy g + 1 else gs_busy g).

(** [IncProxyUpstreamInFlight], if there are metrics. *)
Definition guard_count (id : nat) (g : guard_state) : guard_state :=
  GuardState (gs_metrics g) (gs_sem g) (gs_refused g) (gs_acquired g ∖ {[id]}) ({[id]} ∪ gs_inflight g)
    (gs_releasing g) (if gs_metrics g then gs_gauge g + 1 else gs_gauge g) (gs_busy g).

(** The deferred [done], if there are metrics. It runs whether the proxy returned or panicked. *)
Definition guard_uncount (id : nat) (g : guard_state) : guard_state :=
  GuardState (gs_metrics g) (gs_sem g) (gs_refused g) (gs_acquired g) (gs_inflight g ∖ {[id]})
    ({[id]} ∪ gs_releasing g) (if gs_metrics g then gs_gauge g - 1 else gs_gauge g) (gs_busy g).

(** The [Release] that was deferred first and so runs last. *)
Definition guard_release (id : nat) (g : guard_state) : guard_state :=
  GuardState (gs_metrics g) (Release (gs_sem g)) (gs_refused g) (gs_acquired g) (gs_inflight g)
    (gs_releasing g ∖ {[id]}) (gs_gauge g) (gs_busy g).

(** The same for a request that runs alone: entering the guarded part of [ServeProxy], [true] when the
    request goes on to the upstream and [false] when it is answered 503 [upstream_busy]; and leaving it.
    Without a semaphore nothing is counted. *)
Definition guard_enter (id : nat) (ctxDone : bool) (g : guard_state) : bool * guard_state :=
  match gs_sem g with
  | None => (true, g)
  | Some _ =>
      let '(ok, g1) := guard_acquire id ctxDone g in
      (ok, if ok then guard_count id g1 else guard_busy id g1)
  end.

Definition guard_leave (id : nat) (g : guard_state) : guard_state :=
  match gs_sem g with
  | None => g
  | Some _ => guard_release id (guard_uncount id g)
  end.

(** The requests at some point of the guarded part. *)
Definition guard_ids (g : guard_state) : gset nat :=
  gs_refused g ∪ gs_acquired g ∪ gs_inflight g ∪ gs_releasing g.

(** One request moves by one operation. *)
Inductive guard_step : guard_state -> guard_state -> Prop :=
| step_acquire g id ctxDone : id ∉ guard_ids g -> guard_step g (guard_acquire id ctxDone g).2
| step_busy g id : id ∈ gs_refused g -> guard_step g (guard_busy id g)
| step_count g id : id ∈ gs_acquired g -> guard_step g (guard_count id g)
| step_uncount g id : id ∈ gs_inflight g -> guard_step g (guard_uncount id g)
| step_release g id : id ∈ gs_releasing g -> guard_step g (guard_release id g).

(** ** Invariant *)

(** The requests that hold a slot. *)
Definition holders (g : guard_state) : nat :=
  base.size (gs_acquired g) + base.size (gs_inflight g) + base.size (gs_releasing g).

Record guard_inv (metrics : bool) (size : Z) (g : guard_state) : Prop := {
  gi_metrics : gs_metrics g = metrics;
  gi_disjoint : gs_acquired g ## gs_inflight g /\ gs_acquired g ## gs_releasing g /\ gs_inflight g ## gs_releasing g;
  gi_slots : gs_sem g = Some (MkSem (Some (Chan (Z.to_nat size) (holders g))));
  gi_limit : holders g <= Z.to_nat size;
  gi_gauge : gs_gauge g = if metrics then Z.of_nat (base.size (gs_inflight g)) else 0%Z;
}.

Lemma guard_start_inv metrics size : (0 < size)%Z -> guard_inv metrics size (guard_start metrics size).
Proof.
  intros H. unfold guard_start, NewSemaphore. destruct (Z.leb_spec size 0); [lia|].
  split; unfold holders; cbn; rewrite ?size_empty; [done|set_solver|done|lia|by destruct metrics].
Qed.

Lemma size_insert_fresh (X : gset nat) id : id ∉ X -> size ({[id]} ∪ X) = S (size X).
Proof. intros H. rewrite size_union by set_solver. by rewrite size_singleton. Qed.

Lemma size_remove (X : gset nat) id : id ∈ X -> S (size (X ∖ {[id]})) = size X.
Proof.
  intros H. rewrite size_difference, size_singleton by set_solver.
  assert (size X <> 0); [|lia]. intros H0%size_empty_inv. set_solver.
Qed.

Lemma guard_step_inv metrics size g g' : guard_inv metrics size g -> guard_step g g' -> guard_inv metrics size g'.
Proof.
  intros [Hm Hd Hs Hl Hg] Hstep. destruct Hstep as [g id ctxDone Hid|g id Hid|g id Hid|g id Hid|g id Hid].
  - unfold guard_acquire. rewrite Hs. unfold guard_ids in Hid. destruct ctxDone; cbn; [by split|].
    destruct (Nat.ltb_spec (holders g) (Z.to_nat size)); [|by split]. unfold holders in *.
    split; unfold holders; cbn; rewrite ?size_insert_fresh by set_solver; [done|set_solver|done|lia|done].
  - by split.
  - pose proof (size_remove _ _ Hid). unfold holders in *.
    split; unfold holders; cbn; rewrite ?size_insert_fresh by set_solver; [done|set_solver| |lia|].
    + rewrite Hs. do 4 f_equal. lia.
    + rewrite Hm, Hg. destruct metrics; lia.
  - pose proof (size_remove _ _ Hid). unfold holders in *.
    split; unfold holders; cbn; rewrite ?size_insert_fresh by set_solver; [done|set_solver| |lia|].
    + rewrite Hs. do 4 f_equal. lia.
    + rewrite Hm, Hg. destruct metrics; lia.
  - pose proof (size_remove _ _ Hid). unfold holders in *. destruct (_ + _) as [|n] eqn:En; [lia|].
    split; unfold holders; cbn; [done|set_solver| |lia|done]. rewrite Hs. cbn. do 4 f_equal. lia.
Qed.

Lemma guard_reachable_inv metrics size g :
  (0 < size)%Z -> rtc guard_step (guard_start metrics size) g -> guard_inv metrics size g.
Proof.
  intros Hsz. apply (rtc_ind_r (guard_inv metrics size)); [by apply guard_start_inv|].
  intros g1 g2 _ Hstep IH. by eapply guard_step_inv.
Qed.

(** One request that enters and leaves alone puts everything back. *)
Lemma guard_enter_leave id ctxDone g g1 :
  id ∉ guard_ids g -> guard_enter id ctxDone g = (true, g1) -> guard_leave id g1 = g.
Proof.
  unfold guard_ids. intros Hid. destruct g as [mt sm rf ac fl rl ga bu]. cbn in Hid. unfold guard_enter, guard_acquire. cbn.
  destruct sm as [[[[c l]|]]|]; cbn; [destruct ctxDone; [done|]; destruct (l <? c); [|done]| |by intros [= <-]];
    intros [= <-]; unfold guard_leave, guard_release, guard_uncount; cbn;
    f_equal; try set_solver; destruct mt; lia.
Qed.

Lemma guard_enter_refused id ctxDone g g1 :
  id ∉ guard_ids g -> guard_enter id ctxDone g = (false, g1) ->
  gs_sem g1 = gs_sem g /\ guard_ids g1 = guard_ids g /\ gs_gauge g1 = gs_gauge g /\
  gs_busy g1 = if gs_metrics g then (gs_busy g + 1)%Z else gs_busy g.
Proof.
  unfold guard_ids. intros Hid. destruct g as [mt sm rf ac fl rl ga bu]. cbn in Hid. unfold guard_enter, guard_acquire. cbn.
  destruct sm as [[[[c l]|]]|]; cbn; [destruct ctxDone; [|destruct (l <? c); [done|]]|done|done];
    intros [= <-]; cbn; (split_and!; [done|set_solver|done|done]).
Qed.

(** ** Theorems *)

(** C33: whatever way the operations of concurrent requests interleave, and whether the proxy returns or
    panics: the slots taken are exactly the requests between their [Acquire] and their deferred
    [Release], and never more than the configured limit; the in-flight gauge, if there are metrics, is
    the number of requests between its increment and its decrement, so it is never negative and
    never above the number of slots taken. *)
Theorem proxy_concurrency_bounded metrics size g :
  (0 < size)%Z -> rtc guard_step (guard_start metrics size) g ->
  gs_sem g = Some (MkSem (Some (Chan (Z.to_nat size) (holders g)))) /\
  (Z.of_nat (holders g) <= size)%Z /\
  gs_gauge g = (if metrics then Z.of_nat (base.size (gs_inflight g)) else 0%Z) /\
  (0 <= gs_gauge g <= Z.of_nat (holders g))%Z.
Proof.
  intros Hsz Hr. destruct (guard_reachable_inv metrics size g Hsz Hr) as [_ _ Hs Hl Hg].
  split_and!; [done|lia|done|rewrite Hg; destruct metrics; lia|]. rewrite Hg. unfold holders. destruct metrics; lia.
Qed.

(** Admission is exact. In every reachable state a new request gets a slot iff its context is still live
    and fewer than the limit are taken; a slot given back is usable again, so no slot is ever lost. *)
Theorem proxy_admission_exact metrics size g id ctxDone :
  (0 < size)%Z -> rtc guard_step (guard_start metrics size) g ->
  (guard_acquire id ctxDone g).1 = true <-> ctxDone = false /\ (Z.of_nat (holders g) < size)%Z.
Proof.
  intros Hsz Hr. destruct (guard_reachable_inv metrics size g Hsz Hr) as [_ _ Hs Hl Hg].
  unfold guard_acquire. rewrite Hs. cbn. destruct ctxDone; cbn; [naive_solver|].
  destruct (Nat.ltb_spec (holders g) (Z.to_nat size)); cbn; split; naive_solver lia.
Qed.

(** Two requests with a slot each, one of them not yet counted, a third refused and the second gone. *)
Definition demo_guard : guard_state :=
  guard_uncount 2 (guard_busy 3 (guard_acquire 3 false (guard_count 2
    (guard_acquire 2 false (guard_acquire 1 false (guard_init 2)).2).2)).2).

Lemma demo_guard_run : rtc guard_step (guard_start true 2) demo_guard.
Proof.
  eapply rtc_l; [apply (step_acquire _ 1 false); vm_compute; congruence|].
  eapply rtc_l; [apply (step_acquire _ 2 false); vm_compute; congruence|].
  eapply rtc_l; [apply (step_count _ 2); vm_compute; reflexivity|].
  eapply rtc_l; [apply (step_acquire _ 3 false); vm_compute; congruence|].
  eapply rtc_l; [apply (step_busy _ 3); vm_compute; reflexivity|].
  eapply rtc_l; [apply (step_uncount _ 2); vm_compute; reflexivity|]. apply rtc_refl.
Defined.

Lemma proxy_concurrency_bounded_witness :
  gs_busy demo_guard = 1%Z /\ gs_gauge demo_guard = 0%Z /\ holders demo_guard = 2 /\ (Z.of_nat (holders demo_guard) <= 2)%Z.
Proof.
  split; [vm_compute; reflexivity|]. split; [vm_compute; reflexivity|]. split; [vm_compute; reflexivity|].
  apply (proxy_concurrency_bounded true 2 demo_guard); [lia|exact demo_guard_run].
Defined.

Lemma proxy_admission_exact_witness : (guard_acquire 4 false (guard_release 2 demo_guard)).1 = true.
Proof.
  apply (proxy_admission_exact true 2 (guard_release 2 demo_guard) 4 false).
  - lia.
  - eapply rtc_r; [exact demo_guard_run|]. apply (step_release _ 2). vm_compute. reflexivity.
  - split; [reflexivity|vm_compute; reflexivity].
Defined.
