(* ===== verification/Float64.v ===== *)
(** * Floating-point numbers

    Go's [float64] as the limiter uses it: conversion from integers, the four operations and
    comparison. [Float64] is the signature; [Float64Laws] is what its client relies on: finite
    non-negative numbers have rational values, results are within a relative error of the exact
    ones, comparisons are exact. IEEE 754 binary64, in the Standard Library's executable
    specification, satisfies the laws with the error [2 ^ -52] (one unit in the last place, twice
    what rounding to nearest gives); exact rationals satisfy them with error zero. *)

From S2P Require Import Prelude.
From Stdlib Require Import SpecFloat QArith Qpower Lqa.
Open Scope Z_scope.

(** ** The signature and its laws *)

Class Float64 (F : Type) := {
  f_of_int : Z -> F;
  f_add : F -> F -> F;
  f_sub : F -> F -> F;
  f_mul : F -> F -> F;
  f_div : F -> F -> F;
  f_lt : F -> F -> bool;
}.

(** [v] is [x] up to a relative error of [err]. *)
Definition within (err x v : Q) : Prop := (x * (1 - err) <= v /\ v <= x * (1 + err))%Q.

(** Magnitudes within which results neither overflow nor underflow. *)
Definition big : Q := inject_Z (2 ^ 200).
Definition tiny : Q := 1 # 2 ^ 100.

Definition eps64 : Q := 1 # 4503599627370496.

(** [fin] are finite numbers that are not negative, with their values; [nonpos] are numbers that are
    not positive, or no numbers. *)
Class Float64Laws (F : Type) `{Float64 F} := {
  err : Q;
  fval : F -> Q;
  fin : F -> Prop;
  nonpos : F -> Prop;
  err_small : (0 <= err <= eps64)%Q;
  fval_nonneg x : fin x -> (0 <= fval x)%Q;
  of_int_fin z : 0 <= z < 2 ^ 53 -> fin (f_of_int z) /\ (fval (f_of_int z) == inject_Z z)%Q;
  add_fin x y : fin x -> fin y -> (fval x <= big)%Q -> (fval y <= big)%Q ->
    fin (f_add x y) /\ within err (fval x + fval y) (fval (f_add x y));
  sub_fin x y : fin x -> fin y -> (fval y <= fval x)%Q -> (fval x <= big)%Q ->
    fin (f_sub x y) /\ within err (fval x - fval y) (fval (f_sub x y));
  mul_fin x y : fin x -> fin y -> (tiny <= fval x <= big)%Q -> (tiny <= fval y <= big)%Q ->
    fin (f_mul x y) /\ within err (fval x * fval y) (fval (f_mul x y));
  div_fin x y : fin x -> fin y -> (fval x == 0 \/ tiny <= fval x <= big)%Q -> (tiny <= fval y <= big)%Q ->
    fin (f_div x y) /\ within err (fval x / fval y) (fval (f_div x y));
  lt_fin x y : fin x -> fin y -> f_lt x y = true <-> (fval x < fval y)%Q;
  of_int_nonpos z : z <= 0 -> nonpos (f_of_int z);
  add_nonpos x y : nonpos x -> nonpos y -> nonpos (f_add x y);
  div_nonpos x y : nonpos x -> fin y -> (0 < fval y)%Q -> nonpos (f_div x y);
  lt_nonpos x : nonpos x -> f_lt (f_of_int 0) x = false;
}.

(** ** Exact rationals *)

#[export] Instance float64_exact : Float64 Q := {|
  f_of_int z := inject_Z z;
  f_add := Qplus;
  f_sub := Qminus;
  f_mul := Qmult;
  f_div := Qdiv;
  f_lt a b := negb (Qle_bool b a);
|}.

Lemma f_lt_exact (a b : Q) : f_lt a b = true <-> (a < b)%Q.
Proof.
  cbn. rewrite negb_true_iff. destruct (Qlt_le_dec a b) as [Hl|Hl].
  - split; [done|]. intros _. destruct (Qle_bool b a) eqn:E; [|done]. apply Qle_bool_iff in E. lra.
  - apply Qle_bool_iff in Hl as E. rewrite E. split; [done|]. apply Qle_bool_iff in E. lra.
Qed.

Lemma within_refl x v : (v == x)%Q -> within 0 x v.
Proof. intros Hv. unfold within. rewrite Hv. lra. Qed.

#[export] Instance float64_exact_laws : Float64Laws Q.
Proof.
  refine {|
    err := 0;
    fval x := x;
    fin x := (0 <= x)%Q;
    nonpos x := (x <= 0)%Q;
  |}.
  - split; [lra|]. unfold eps64. lra.
  - done.
  - intros z Hz. split; [|done]. change 0%Q with (inject_Z 0). rewrite <- Zle_Qle. lia.
  - intros x y Hx Hy _ _. split; [cbn; lra|by apply within_refl].
  - intros x y Hx Hy Hle _. split; [cbn; lra|by apply within_refl].
  - intros x y Hx Hy _ _. split; [by apply Qmult_le_0_compat|by apply within_refl].
  - intros x y Hx Hy _ [Ht _]. assert (0 < tiny)%Q by reflexivity. split; [|by apply within_refl].
    cbn. apply Qle_shift_div_l; lra.
  - intros x y _ _. apply f_lt_exact.
  - intros z Hz. cbn. change 0%Q with (inject_Z 0). by rewrite <- Zle_Qle.
  - intros x y Hx Hy. cbn. lra.
  - intros x y Hx _ Hy. cbn. apply Qle_shift_div_r; lra.
  - intros x Hx. apply not_true_is_false. rewrite f_lt_exact. change (f_of_int 0) with 0%Q. lra.
Defined.

(** ** IEEE 754 binary64, round to nearest even *)

Definition binary64 := spec_float.
#[export] Instance float64_ieee : Float64 binary64 := {|
  f_of_int z := binary_normalize 53 1024 z 0 false;
  f_add := SFadd 53 1024;
  f_sub := SFsub 53 1024;
  f_mul := SFmul 53 1024;
  f_div := SFdiv 53 1024;
  f_lt := SFltb;
|}.

(** *** Digits *)

Lemma digits_log2 p : Zpos (digits2_pos p) = Z.log2 (Zpos p) + 1.
Proof.
  induction p as [p IH|p IH|]; [| |done]; cbn [digits2_pos]; rewrite Pos2Z.inj_succ, IH.
  - rewrite Pos2Z.inj_xI, Z.log2_succ_double by lia. lia.
  - rewrite Pos2Z.inj_xO, Z.log2_double by lia. lia.
Qed.

Lemma digits_spec p : 2 ^ (Zpos (digits2_pos p) - 1) <= Zpos p < 2 ^ Zpos (digits2_pos p).
Proof. rewrite digits_log2. replace (Z.log2 (Zpos p) + 1 - 1) with (Z.log2 (Zpos p)) by lia. apply Z.log2_spec. lia. Qed.

Lemma digits_unique p d : 2 ^ (d - 1) <= Zpos p < 2 ^ d -> Zpos (digits2_pos p) = d.
Proof.
  intros H. rewrite digits_log2. enough (Z.log2 (Zpos p) = d - 1) by lia.
  apply Z.log2_unique; [|by replace (Z.succ (d - 1)) with d by lia].
  destruct (Z_lt_le_dec (d - 1) 0); [|lia]. rewrite (Z.pow_neg_r 2 d) in H by (destruct (Z.eq_dec d 0); subst; cbn in *; lia). lia.
Qed.

(** *** Shifting right *)

Lemma shr_1_m r : 0 <= shr_m r -> shr_m (shr_1 r) = shr_m r / 2.
Proof.
  destruct r as [m b s]. cbn [shr_m]. intros Hm. destruct m as [|[p|p|]|p]; cbn [shr_1 shr_m]; try done; try lia.
  - rewrite Pos2Z.inj_xI. rewrite Z.add_comm, Z.mul_comm, Z_div_plus by lia. done.
  - rewrite Pos2Z.inj_xO, Z.mul_comm, Z_div_mult by lia. done.
Qed.

Lemma iter_shr_m p : forall r, 0 <= shr_m r -> shr_m (SpecFloat.iter_pos shr_1 p r) = shr_m r / 2 ^ Zpos p.
Proof.
  assert (Hnn : forall x q, 0 <= x -> 0 <= x / 2 ^ Zpos q) by (intros; apply Z.div_pos; lia).
  assert (Hdd : forall x q q', x / 2 ^ Zpos q / 2 ^ Zpos q' = x / 2 ^ (Zpos q + Zpos q')).
  { intros. rewrite Z.div_div, Z.pow_add_r by lia. done. }
  induction p as [p IH|p IH|]; intros r Hr; cbn [SpecFloat.iter_pos].
  - assert (H1 : 0 <= shr_m (shr_1 r)) by (rewrite shr_1_m by done; apply Z.div_pos; lia).
    rewrite IH by (rewrite IH by done; auto). rewrite IH by done. rewrite shr_1_m by done. rewrite Hdd.
    rewrite Z.div_div by lia. f_equal.
    rewrite Pos2Z.inj_xI, Z.add_diag, Z.add_comm, Z.pow_add_r by lia. done.
  - rewrite IH by (rewrite IH by done; auto). rewrite IH by done. rewrite Hdd. f_equal. f_equal. lia.
  - rewrite shr_1_m by done. done.
Qed.

Lemma shr_record_m m l : shr_m (shr_record_of_loc m l) = m.
Proof. by destruct l as [|[]]. Qed.

Lemma shr_spec m e l n : 0 <= m -> 0 <= n ->
  shr_m (shr (shr_record_of_loc m l) e n).1 = m / 2 ^ n /\ (shr (shr_record_of_loc m l) e n).2 = e + n.
Proof.
  intros Hm Hn. destruct n as [|p|p]; cbn [shr fst snd]; [|split; [|done]|lia].
  - rewrite shr_record_m. split; [by rewrite Z.div_1_r|lia].
  - rewrite iter_shr_m by (by rewrite shr_record_m). by rewrite shr_record_m.
Qed.

Lemma round_nearest_cases m l : round_nearest_even m l = m \/ round_nearest_even m l = m + 1.
Proof. destruct l as [|[]]; cbn; auto. destruct (Z.even m); auto. Qed.

Abbreviation fexp64 := (fexp 53 1024).

Lemma fexp64_normal e : -1074 <= e - 53 -> fexp64 e = e - 53.
Proof. unfold fexp, emin. lia. Qed.

(** Rounding a mantissa that needs no shift: nothing changes. *)
Lemma round_aux_same s p e :
  fexp64 (Zpos (digits2_pos p) + e) = e -> e <= 971 ->
  binary_round_aux 53 1024 s (Zpos p) e loc_Exact = S754_finite s p e /\ bounded 53 1024 p e = true.
Proof.
  intros Hf He. unfold binary_round_aux, shr_fexp. cbn [Zdigits2]. rewrite Hf, Z.sub_diag. cbn [shr shr_record_of_loc].
  cbn [shr_m loc_of_shr_record round_nearest_even Zdigits2]. rewrite Hf, Z.sub_diag. cbn [shr shr_record_of_loc shr_m].
  change (1024 - 53) with 971. rewrite (proj2 (Z.leb_le _ _) He). split; [done|].
  unfold bounded, canonical_mantissa. rewrite Hf, Z.eqb_refl. cbn. by apply Z.leb_le.
Qed.

(** Rounding a mantissa of at least 53 digits in the normal range. *)
Lemma round_aux_normal s mx ex l :
  2 ^ 52 <= mx -> -1074 <= Zdigits2 mx + ex - 53 -> Zdigits2 mx + ex <= 1000 ->
  let n := Zdigits2 mx - 53 in
  let m1 := mx / 2 ^ n in
  exists m2 m e, binary_round_aux 53 1024 s mx ex l = S754_finite s m e /\ bounded 53 1024 m e = true /\
    0 <= n /\ 2 ^ 52 <= m1 < 2 ^ 53 /\ (m2 = m1 \/ m2 = m1 + 1) /\
    ((Zpos m = m2 /\ e = ex + n) \/ (Zpos m * 2 = m2 /\ e = ex + n + 1)) /\ 2 ^ 52 <= Zpos m.
Proof.
  intros Hmx Hmin Hmax. cbv zeta. set (d := Zdigits2 mx) in *.
  assert (Hd : 2 ^ (d - 1) <= mx < 2 ^ d).
  { destruct mx as [|p|]; [lia| |lia]. apply digits_spec. }
  assert (Hn : 0 <= d - 53).
  { destruct (Z_lt_le_dec d 53) as [Hl|]; [|lia]. assert (2 ^ d <= 2 ^ 52) by (apply Z.pow_le_mono_r; lia). lia. }
  set (n := d - 53) in *. set (m1 := mx / 2 ^ n).
  assert (Hpn : 0 < 2 ^ n) by (apply Z.pow_pos_nonneg; lia).
  assert (Hm1 : 2 ^ 52 <= m1 < 2 ^ 53).
  { unfold m1. split.
    - apply Z.div_le_lower_bound; [done|]. rewrite <- Z.pow_add_r by lia. replace (n + 52) with (d - 1) by lia. lia.
    - apply Z.div_lt_upper_bound; [done|]. rewrite <- Z.pow_add_r by lia. replace (n + 53) with d by lia. lia. }
  unfold binary_round_aux, shr_fexp. fold d. rewrite fexp64_normal by lia.
  replace (d + ex - 53 - ex) with n by lia.
  destruct (shr_spec mx ex l n) as [H1 H2]; [lia|done|]. fold m1 in H1.
  destruct (shr (shr_record_of_loc mx l) ex n) as [r1 e1]. cbn [fst snd] in H1, H2. rewrite H1, H2.
  set (m2 := round_nearest_even m1 (loc_of_shr_record r1)).
  assert (Hm2 : m2 = m1 \/ m2 = m1 + 1) by apply round_nearest_cases. clearbody m2.
  assert (Hcase : 2 ^ 52 <= m2 < 2 ^ 53 \/ m2 = 2 ^ 53) by lia. exists m2.
  destruct Hcase as [Hc|Hc].
  - destruct m2 as [|p|p]; [lia| |lia]. assert (Hdp : Zpos (digits2_pos p) = 53) by (by apply digits_unique).
    exists p, (ex + n). cbn [Zdigits2]. rewrite Hdp, fexp64_normal by lia.
    replace (53 + (ex + n) - 53 - (ex + n)) with 0 by lia. cbn [shr shr_record_of_loc shr_m].
    rewrite (proj2 (Z.leb_le _ _)) by lia. split; [done|]. split; [|split_and!; try done; try lia; by left].
    unfold bounded, canonical_mantissa. rewrite Hdp, fexp64_normal by lia. apply andb_true_iff. lia.
  - rewrite Hc. assert (Hdp : Zdigits2 (2 ^ 53) = 54) by done. rewrite Hdp, fexp64_normal by lia.
    replace (54 + (ex + n) - 53 - (ex + n)) with 1 by lia.
    change (shr_record_of_loc (2 ^ 53) loc_Exact) with (Build_shr_record (2 ^ 53) false false).
    cbn [shr SpecFloat.iter_pos]. change (shr_1 (Build_shr_record (2 ^ 53) false false)) with (Build_shr_record (2 ^ 52) false false).
    cbn [shr_m]. exists (2 ^ 52)%positive, (ex + n + 1). change (2 ^ 52) with (Zpos (2 ^ 52)%positive).
    rewrite (proj2 (Z.leb_le _ _)) by lia. split; [done|]. split; [|split_and!; try done; try lia; by right].
    unfold bounded, canonical_mantissa. change (Zpos (digits2_pos (2 ^ 52))) with 53. rewrite fexp64_normal by lia.
    apply andb_true_iff. lia.
Qed.

(** *** Values *)

Definition pow2 (e : Z) : Q := Qpower 2 e.

Lemma pow2_pos e : (0 < pow2 e)%Q.
Proof. apply Qpower_0_lt. reflexivity. Qed.

Lemma pow2_add a b : (pow2 (a + b) == pow2 a * pow2 b)%Q.
Proof. apply Qpower_plus. discriminate. Qed.

Lemma pow2_int n : 0 <= n -> (pow2 n == inject_Z (2 ^ n))%Q.
Proof. intros Hn. unfold pow2. by rewrite Zpower_Qpower. Qed.

Lemma pow2_le a b : a <= b -> (pow2 a <= pow2 b)%Q.
Proof.
  intros Hab. replace b with (a + (b - a)) by lia. rewrite pow2_add, (pow2_int (b - a)) by lia.
  pose proof (pow2_pos a). assert (H1 : (1 <= inject_Z (2 ^ (b - a)))%Q).
  { change 1%Q with (inject_Z 1). rewrite <- Zle_Qle. assert (0 < 2 ^ (b - a)) by (apply Z.pow_pos_nonneg; lia). lia. }
  rewrite <- (Qmult_1_r (pow2 a)) at 1. by apply Qmult_le_l.
Qed.

Lemma pow2_lt_inv a b : (pow2 a < pow2 b)%Q -> a < b.
Proof. intros H. destruct (Z_lt_le_dec a b) as [|Hl]; [done|]. apply pow2_le in Hl. lra. Qed.

(** [m] units of [2 ^ e]. *)
Definition mant (m e : Z) : Q := (inject_Z m * pow2 e)%Q.

Lemma mant_le m m' e : m <= m' -> (mant m e <= mant m' e)%Q.
Proof. intros H. unfold mant. apply Qmult_le_compat_r; [by rewrite <- Zle_Qle|]. pose proof (pow2_pos e). lra. Qed.

Lemma mant_add m m' e : (mant (m + m') e == mant m e + mant m' e)%Q.
Proof. unfold mant. rewrite inject_Z_plus. ring. Qed.

Lemma mant_shift m e n : 0 <= n -> (mant (m * 2 ^ n) e == mant m (e + n))%Q.
Proof. intros Hn. unfold mant. rewrite inject_Z_mult, pow2_add, (pow2_int n) by done. ring. Qed.

Lemma mant_1 e : (mant 1 e == pow2 e)%Q.
Proof. unfold mant. change (inject_Z 1) with 1%Q. ring. Qed.

Lemma mant_pow n e : 0 <= n -> (mant (2 ^ n) e == pow2 (n + e))%Q.
Proof. intros Hn. rewrite <- (Z.mul_1_l (2 ^ n)), mant_shift, mant_1 by done. by rewrite Z.add_comm. Qed.

Lemma mant_pos p e : (0 < mant (Zpos p) e)%Q.
Proof.
  pose proof (mant_le 1 (Zpos p) e ltac:(lia)) as H. rewrite mant_1 in H. pose proof (pow2_pos e). lra.
Qed.

(** The digits of a mantissa place its value. *)
Lemma mant_digits p e : (pow2 (Zpos (digits2_pos p) + e - 1) <= mant (Zpos p) e)%Q /\ (mant (Zpos p) e < pow2 (Zpos (digits2_pos p) + e))%Q.
Proof.
  pose proof (digits_spec p) as [H1 H2]. set (d := Zpos (digits2_pos p)) in *. split.
  - replace (d + e - 1) with ((d - 1) + e) by lia. rewrite <- mant_pow by lia. by apply mant_le.
  - rewrite <- mant_pow by lia. assert (Zpos p + 1 <= 2 ^ d) as Hm by lia.
    apply (mant_le _ _ e) in Hm. rewrite mant_add, mant_1 in Hm. pose proof (pow2_pos e). lra.
Qed.

Lemma digits_upper p e k : (mant (Zpos p) e <= pow2 k)%Q -> Zpos (digits2_pos p) + e <= k + 1.
Proof.
  intros H. destruct (mant_digits p e) as [H1 _]. destruct (Z_lt_le_dec (k + 1) (Zpos (digits2_pos p) + e)) as [Hl|]; [|lia].
  assert (pow2 (k + 1) <= pow2 (Zpos (digits2_pos p) + e - 1))%Q by (apply pow2_le; lia).
  rewrite pow2_add in H0. change (pow2 1) with 2%Q in H0. pose proof (pow2_pos k). lra.
Qed.

Lemma digits_lower p e k : (pow2 k <= mant (Zpos p) e)%Q -> k < Zpos (digits2_pos p) + e.
Proof. intros H. destruct (mant_digits p e) as [_ H2]. apply pow2_lt_inv. lra. Qed.

Abbreviation near := (within eps64).

Lemma near_refl x v : (0 <= x)%Q -> (v == x)%Q -> near x v.
Proof. intros Hx Hv. unfold within, eps64. rewrite Hv. lra. Qed.

Lemma near_ulp x v u a : (a <= x)%Q -> (x < a + u)%Q -> (v == a)%Q \/ (v == a + u)%Q -> (inject_Z (2 ^ 52) * u <= a)%Q -> near x v.
Proof.
  intros Ha Hx Hv Hu. unfold within, eps64. change (inject_Z (2 ^ 52)) with (4503599627370496#1)%Q in Hu.
  destruct Hv as [-> | ->]; lra.
Qed.

Lemma round_aux_near s mx ex l x :
  2 ^ 52 <= mx -> -1074 <= Zdigits2 mx + ex - 53 -> Zdigits2 mx + ex <= 1000 ->
  (mant mx ex <= x)%Q -> (x < mant (mx + 1) ex)%Q ->
  exists m e, binary_round_aux 53 1024 s mx ex l = S754_finite s m e /\ bounded 53 1024 m e = true /\
    near x (mant (Zpos m) e).
Proof.
  intros Hmx Hmin Hmax Hx1 Hx2.
  destruct (round_aux_normal s mx ex l Hmx Hmin Hmax) as (m2 & m & e & Heq & Hb & Hn & Hm1 & Hm2 & Hme & _).
  exists m, e. split; [done|]. split; [done|]. set (n := Zdigits2 mx - 53) in *. set (m1 := mx / 2 ^ n) in *.
  assert (Hpn : 0 < 2 ^ n) by (apply Z.pow_pos_nonneg; lia).
  assert (Hdm := Z.div_mod mx (2 ^ n) ltac:(lia)). assert (Hmod := Z.mod_pos_bound mx (2 ^ n) Hpn). fold m1 in Hdm.
  apply (near_ulp _ _ (pow2 (ex + n)) (mant m1 (ex + n))).
  - eapply Qle_trans; [|exact Hx1]. rewrite <- mant_shift by done. apply mant_le. lia.
  - eapply Qlt_le_trans; [exact Hx2|]. rewrite <- mant_1, <- mant_add, <- mant_shift by done. apply mant_le. lia.
  - assert (Hv : (mant (Zpos m) e == mant m2 (ex + n))%Q).
    { destruct Hme as [[-> ->]|[<- ->]]; [done|]. change 2 with (2 ^ 1). rewrite mant_shift by lia. done. }
    rewrite Hv. destruct Hm2 as [-> | ->]; [by left|right]. by rewrite mant_add, mant_1.
  - change (inject_Z (2 ^ 52) * pow2 (ex + n))%Q with (mant (2 ^ 52) (ex + n)). apply mant_le. lia.
Qed.

Lemma iter_xO p d : Zpos (Pos.iter xO p d) = Zpos p * 2 ^ Zpos d.
Proof.
  revert p. induction d as [|d IH] using Pos.peano_ind; intros p; [cbn; lia|].
  rewrite Pos.iter_succ, Pos2Z.inj_xO, IH, Pos2Z.inj_succ, Z.pow_succ_r by lia. lia.
Qed.

Lemma shl_align_fst p e e' : e' <= e -> Zpos (shl_align p e e').1 = Zpos p * 2 ^ (e - e').
Proof.
  intros He. unfold shl_align. destruct (e' - e) as [|d|d] eqn:E; cbn [fst]; [|lia|].
  - replace (e - e') with 0 by lia. lia.
  - rewrite iter_xO. f_equal. f_equal. lia.
Qed.

Lemma binary_round_exact s p e :
  -1074 <= e -> Zpos (digits2_pos p) <= 53 -> Zpos (digits2_pos p) + e <= 1000 ->
  exists m e', binary_round 53 1024 s p e = S754_finite s m e' /\ bounded 53 1024 m e' = true /\
    (mant (Zpos m) e' == mant (Zpos p) e)%Q.
Proof.
  intros Hmin Hd53 Hmax. unfold binary_round. set (f := fexp64 (Zpos (digits2_pos p) + e)) in *.
  assert (Hf : f = Z.max (Zpos (digits2_pos p) + e - 53) (-1074)) by done.
  destruct (Z_lt_le_dec f e) as [Hfe|Hfe].
  - assert (Hal : exists q, shl_align p e f = (q, f) /\ Zpos q = Zpos p * 2 ^ (e - f)).
    { pose proof (shl_align_fst p e f ltac:(lia)) as Hq. unfold shl_align in *. destruct (f - e) as [|d|d] eqn:E; [lia|lia|].
      eexists. by split. }
    destruct Hal as (q & -> & Hq).
    assert (Hd : Zpos (digits2_pos q) = Zpos (digits2_pos p) + (e - f)).
    { apply digits_unique. rewrite Hq. pose proof (digits_spec p) as [H1 H2].
      replace (Zpos (digits2_pos p) + (e - f) - 1) with (Zpos (digits2_pos p) - 1 + (e - f)) by lia.
      rewrite !Z.pow_add_r by lia. assert (0 < 2 ^ (e - f)) by (apply Z.pow_pos_nonneg; lia). nia. }
    destruct (round_aux_same s q f) as [Hr Hb]; [rewrite Hd, Hf; unfold fexp, emin; lia|lia|].
    exists q, f. split; [done|]. split; [done|].
    rewrite Hq, mant_shift by lia. by replace (f + (e - f)) with e by lia.
  - assert (Hal : shl_align p e f = (p, e)) by (unfold shl_align; destruct (f - e) eqn:E; [done|done|lia]). rewrite Hal.
    destruct (round_aux_same s p e) as [Hr Hb]; [fold f; lia|lia|]. exists p, e. done.
Qed.

Lemma binary_round_near s p e :
  -1074 <= e -> Zpos (digits2_pos p) + e <= 1000 ->
  exists m e', binary_round 53 1024 s p e = S754_finite s m e' /\ bounded 53 1024 m e' = true /\
    near (mant (Zpos p) e) (mant (Zpos m) e').
Proof.
  intros Hmin Hmax. destruct (Z_lt_le_dec 53 (Zpos (digits2_pos p))) as [Hd|Hd].
  - unfold binary_round. set (f := fexp64 (Zpos (digits2_pos p) + e)) in *.
    assert (Hf : f = Z.max (Zpos (digits2_pos p) + e - 53) (-1074)) by done.
    assert (Hal : shl_align p e f = (p, e)) by (unfold shl_align; destruct (f - e) eqn:E; [done|done|lia]). rewrite Hal.
    pose proof (digits_spec p) as [H1 _].
    assert (2 ^ 52 <= 2 ^ (Zpos (digits2_pos p) - 1)) by (apply Z.pow_le_mono_r; lia).
    apply round_aux_near; [lia|cbn [Zdigits2]; lia|done|lra|].
    rewrite mant_add, mant_1. pose proof (pow2_pos e). lra.
  - destruct (binary_round_exact s p e Hmin Hd Hmax) as (m & e' & Hr & Hb & Hv). exists m, e'. split; [done|]. split; [done|].
    pose proof (mant_pos p e). by apply near_refl; [lra|].
Qed.

(** *** Finite non-negative numbers *)

Definition fval64 (x : spec_float) : Q :=
  match x with S754_finite false m e => mant (Zpos m) e | _ => 0 end.

Definition fin64 (x : spec_float) : Prop :=
  match x with
  | S754_zero _ => True
  | S754_finite false m e => bounded 53 1024 m e = true
  | _ => False
  end.

Lemma bounded_inv m e : bounded 53 1024 m e = true ->
  -1074 <= e <= 971 /\ e = Z.max (Zpos (digits2_pos m) + e - 53) (-1074).
Proof.
  unfold bounded, canonical_mantissa. rewrite andb_true_iff, Z.leb_le, Z.eqb_eq. unfold fexp, emin. lia.
Qed.

Lemma fval64_nonneg x : (0 <= fval64 x)%Q.
Proof. destruct x as [| | |[] m e]; cbn; try lra. pose proof (mant_pos m e). lra. Qed.

Lemma big_pow2 : (big == pow2 200)%Q.
Proof. by rewrite pow2_int. Qed.
Lemma tiny_pow2 : (tiny == pow2 (-100))%Q.
Proof. vm_compute. reflexivity. Qed.

Lemma normal_digits m e : bounded 53 1024 m e = true -> (tiny <= mant (Zpos m) e)%Q -> (mant (Zpos m) e <= big)%Q ->
  2 ^ 52 <= Zpos m < 2 ^ 53 /\ -153 <= e <= 148.
Proof.
  intros [He Hc]%bounded_inv Ht Hb. rewrite tiny_pow2 in Ht. rewrite big_pow2 in Hb.
  apply digits_lower in Ht. apply digits_upper in Hb.
  assert (Hd : Zpos (digits2_pos m) = 53) by lia. pose proof (digits_spec m) as Hs. rewrite Hd in Hs. split; [exact Hs|lia].
Qed.

Lemma of_int64 z : 0 <= z < 2 ^ 53 ->
  fin64 (binary_normalize 53 1024 z 0 false) /\ (fval64 (binary_normalize 53 1024 z 0 false) == inject_Z z)%Q.
Proof.
  intros Hz. destruct z as [|p|p]; [done| |lia]. cbn [binary_normalize].
  assert (Hd : Zpos (digits2_pos p) - 1 < 53).
  { pose proof (digits_spec p). apply (Z.pow_lt_mono_r_iff 2); lia. }
  destruct (binary_round_exact false p 0) as (m & e & -> & Hb & Hv); [lia..|]. split; [done|]. cbn [fval64].
  rewrite Hv. unfold mant. change (pow2 0) with 1%Q. ring.
Qed.

Lemma add64 x y : fin64 x -> fin64 y -> (fval64 x <= big)%Q -> (fval64 y <= big)%Q ->
  fin64 (SFadd 53 1024 x y) /\ near (fval64 x + fval64 y) (fval64 (SFadd 53 1024 x y)).
Proof.
  intros Hx Hy Hbx Hby. pose proof (fval64_nonneg x). pose proof (fval64_nonneg y).
  destruct x as [sx| | |[] mx ex]; try done; destruct y as [sy| | |[] my ey]; try done; cbn [SFadd fin64 fval64] in *.
  - split; [by destruct sx, sy|]. apply near_refl; [lra|]. destruct sx, sy; cbn; lra.
  - split; [done|]. apply near_refl; lra.
  - split; [done|]. apply near_refl; lra.
  - apply bounded_inv in Hx as [Hx _], Hy as [Hy _]. set (ez := Z.min ex ey).
    cbn [cond_Zopp]. pose proof (shl_align_fst mx ex ez ltac:(lia)) as Ha. pose proof (shl_align_fst my ey ez ltac:(lia)) as Hb.
    set (a := (shl_align mx ex ez).1) in *. set (b := (shl_align my ey ez).1) in *. change (Zpos a + Zpos b) with (Zpos (a + b)). cbn [binary_normalize].
    assert (Hv : (mant (Zpos (a + b)) ez == mant (Zpos mx) ex + mant (Zpos my) ey)%Q).
    { rewrite Pos2Z.inj_add, mant_add, Ha, Hb, !mant_shift by lia.
      by replace (ez + (ex - ez)) with ex by lia; replace (ez + (ey - ez)) with ey by lia. }
    destruct (binary_round_near false (a + b) ez) as (m & e & -> & Hbd & Hn); [lia| |].
    + enough (Zpos (digits2_pos (a + b)) + ez <= 201 + 1) by lia. apply digits_upper.
      rewrite Hv. change 201 with (200 + 1). rewrite pow2_add, <- big_pow2. change (pow2 1) with 2%Q. lra.
    + split; [done|]. cbn [fval64]. unfold within in *. by rewrite Hv in Hn.
Qed.

Lemma sub64 x y : fin64 x -> fin64 y -> (fval64 y <= fval64 x)%Q -> (fval64 x <= big)%Q ->
  fin64 (SFsub 53 1024 x y) /\ near (fval64 x - fval64 y) (fval64 (SFsub 53 1024 x y)).
Proof.
  intros Hx Hy Hle Hbx. pose proof (fval64_nonneg x). pose proof (fval64_nonneg y).
  destruct x as [sx| | |[] mx ex]; try done; destruct y as [sy| | |[] my ey]; try done; cbn [SFsub fin64 fval64] in *.
  - split; [by destruct sx, sy|]. apply near_refl; [lra|]. destruct sx, sy; cbn; lra.
  - pose proof (mant_pos my ey). lra.
  - split; [done|]. apply near_refl; lra.
  - apply bounded_inv in Hx as [Hx _], Hy as [Hy _]. set (ez := Z.min ex ey).
    cbn [cond_Zopp]. pose proof (shl_align_fst mx ex ez ltac:(lia)) as Ha. pose proof (shl_align_fst my ey ez ltac:(lia)) as Hb.
    set (a := (shl_align mx ex ez).1) in *. set (b := (shl_align my ey ez).1) in *.
    assert (Hv : (mant (Zpos a - Zpos b) ez == mant (Zpos mx) ex - mant (Zpos my) ey)%Q).
    { rewrite <- Z.add_opp_r, mant_add, Ha, Hb, <- Z.mul_opp_l, !mant_shift by lia.
      replace (ez + (ex - ez)) with ex by lia; replace (ez + (ey - ez)) with ey by lia.
      unfold mant. rewrite inject_Z_opp. ring. }
    destruct (Zpos a - Zpos b) as [|p|p] eqn:E; cbn [binary_normalize].
    + split; [done|]. cbn [fval64]. apply near_refl; [lra|]. rewrite <- Hv. unfold mant. cbn. ring.
    + destruct (binary_round_near false p ez) as (m & e & -> & Hbd & Hn); [lia| |].
      * enough (Zpos (digits2_pos p) + ez <= 200 + 1) by lia. apply digits_upper. rewrite Hv, <- big_pow2. lra.
      * split; [done|]. cbn [fval64]. unfold within in *. by rewrite Hv in Hn.
    + exfalso. pose proof (mant_le (Zneg p) (-1) ez ltac:(lia)) as Hl. rewrite Hv in Hl.
      assert (Hm : (mant (-1) ez == - pow2 ez)%Q) by (unfold mant; cbn; ring). rewrite Hm in Hl. pose proof (pow2_pos ez). lra.
Qed.

Lemma mant_mul m e m' e' : (mant m e * mant m' e' == mant (m * m') (e + e'))%Q.
Proof. unfold mant. rewrite inject_Z_mult, pow2_add. ring. Qed.

Lemma Zdigits_spec z : 0 < z -> 2 ^ (Zdigits2 z - 1) <= z < 2 ^ Zdigits2 z.
Proof. destruct z as [|p|]; [lia| |lia]. intros _. apply digits_spec. Qed.

Lemma mul64 x y : fin64 x -> fin64 y -> (tiny <= fval64 x <= big)%Q -> (tiny <= fval64 y <= big)%Q ->
  fin64 (SFmul 53 1024 x y) /\ near (fval64 x * fval64 y) (fval64 (SFmul 53 1024 x y)).
Proof.
  assert (Ht : (0 < tiny)%Q) by reflexivity.
  intros Hx Hy [Htx Hbx] [Hty Hby].
  destruct x as [sx| | |[] mx ex]; try done; cbn [fval64] in *; try lra.
  destruct y as [sy| | |[] my ey]; try done; cbn [fval64] in *; try lra.
  destruct (normal_digits _ _ Hx Htx Hbx) as [Hmx Hex]. destruct (normal_digits _ _ Hy Hty Hby) as [Hmy Hey].
  cbn [SFmul xorb]. rewrite Pos2Z.inj_mul. assert (Hp : 2 ^ 104 <= Zpos mx * Zpos my < 2 ^ 106).
  { change (2 ^ 104) with (2 ^ 52 * 2 ^ 52). change (2 ^ 106) with (2 ^ 53 * 2 ^ 53). nia. }
  pose proof (Zdigits_spec (Zpos mx * Zpos my) ltac:(lia)) as Hd. set (d := Zdigits2 (Zpos mx * Zpos my)) in *.
  assert (Hd0 : 0 <= d) by (unfold d, Zdigits2; case_match; lia).
  assert (Hd1 : 104 < d) by (apply (Z.pow_lt_mono_r_iff 2); lia).
  assert (Hd2 : d - 1 < 106) by (apply (Z.pow_lt_mono_r_iff 2); lia).
  destruct (round_aux_near false (Zpos mx * Zpos my) (ex + ey) loc_Exact (mant (Zpos mx) ex * mant (Zpos my) ey))
    as (m & e & -> & Hb & Hn); [lia|fold d; lia|fold d; lia| | |split; [done|exact Hn]].
  - rewrite mant_mul. lra.
  - rewrite mant_mul, mant_add, mant_1. pose proof (pow2_pos (ex + ey)). lra.
Qed.

Lemma div64_zero x y : fin64 x -> fin64 y -> (fval64 x == 0)%Q -> (0 < fval64 y)%Q ->
  fin64 (SFdiv 53 1024 x y) /\ near (fval64 x / fval64 y) (fval64 (SFdiv 53 1024 x y)).
Proof.
  intros Hx Hy H0 Hp.
  destruct x as [sx| | |[] mx ex]; [|done..| |].
  - by destruct y as [sy| | |[] my ey].
  - done.
  - cbn in H0. pose proof (mant_pos mx ex). lra.
Qed.

Lemma div64 x y : fin64 x -> fin64 y -> (tiny <= fval64 x <= big)%Q -> (tiny <= fval64 y <= big)%Q ->
  fin64 (SFdiv 53 1024 x y) /\ near (fval64 x / fval64 y) (fval64 (SFdiv 53 1024 x y)).
Proof.
  assert (Ht : (0 < tiny)%Q) by reflexivity.
  intros Hx Hy [Htx Hbx] [Hty Hby].
  destruct x as [sx| | |[] mx ex]; try done; cbn [fval64] in *; try lra.
  destruct y as [sy| | |[] my ey]; try done; cbn [fval64] in *; try lra.
  destruct (normal_digits _ _ Hx Htx Hbx) as [Hmx Hex]. destruct (normal_digits _ _ Hy Hty Hby) as [Hmy Hey].
  assert (Hdx : Zpos (digits2_pos mx) = 53) by (by apply digits_unique).
  assert (Hdy : Zpos (digits2_pos my) = 53) by (by apply digits_unique).
  cbn [SFdiv xorb]. unfold SFdiv_core_binary. cbn [Zdigits2]. rewrite Hdx, Hdy.
  rewrite fexp64_normal by lia. set (e' := Z.min _ _). assert (He' : e' = ex - ey - 53) by lia. clearbody e'. subst e'.
  replace (ex - ey - (ex - ey - 53)) with 53 by lia. cbv zeta iota. rewrite Z.shiftl_mul_pow2 by lia.
  pose proof (Z_div_mod (Zpos mx * 2 ^ 53) (Zpos my) ltac:(lia)) as Hq.
  destruct (Z.div_eucl (Zpos mx * 2 ^ 53) (Zpos my)) as [q r]. destruct Hq as [Hq Hr].
  assert (Hq52 : 2 ^ 52 <= q < 2 ^ 54) by (clear - Hq Hr Hmx Hmy; change (2 ^ 54) with (2 * 2 ^ 53); change (2 ^ 53) with (2 * 2 ^ 52) in *; nia).
  pose proof (Zdigits_spec q ltac:(lia)) as Hd. set (d := Zdigits2 q) in *.
  assert (Hd0 : 0 <= d) by (unfold d, Zdigits2; case_match; lia).
  assert (Hd1 : 52 < d) by (apply (Z.pow_lt_mono_r_iff 2); lia).
  assert (Hd2 : d - 1 < 54) by (apply (Z.pow_lt_mono_r_iff 2); lia).
  pose proof (mant_pos my ey) as Hpy.
  assert (Hone : (mant (Zpos mx * 2 ^ 53) (ex - 53) == mant (Zpos mx) ex)%Q).
  { rewrite mant_shift by lia. by replace (ex - 53 + 53) with ex by lia. }
  assert (Hmul : forall z, (mant z (ex - ey - 53) * mant (Zpos my) ey == mant (z * Zpos my) (ex - 53))%Q).
  { intros z. rewrite mant_mul. by replace (ex - ey - 53 + ey) with (ex - 53) by lia. }
  destruct (round_aux_near false q (ex - ey - 53) (new_location (Zpos my) r) (mant (Zpos mx) ex / mant (Zpos my) ey))
    as (m & e & -> & Hb & Hn); [lia|fold d; lia|fold d; lia| | |split; [done|exact Hn]].
  - apply Qle_shift_div_l; [done|]. rewrite Hmul, <- Hone. apply mant_le. lia.
  - apply Qlt_shift_div_r; [done|]. rewrite Hmul, <- Hone.
    assert (Zpos mx * 2 ^ 53 + 1 <= (q + 1) * Zpos my) as Hl by lia. apply (mant_le _ _ (ex - 53)) in Hl.
    rewrite mant_add, mant_1 in Hl. pose proof (pow2_pos (ex - 53)). lra.
Qed.

Lemma ltb64 x y : fin64 x -> fin64 y -> SFltb x y = true <-> (fval64 x < fval64 y)%Q.
Proof.
  intros Hx Hy. unfold SFltb. destruct x as [sx| | |[] mx ex]; try done; destruct y as [sy| | |[] my ey]; try done; cbn [SFcompare fval64].
  - pose proof (mant_pos my ey). split; [lra|done].
  - pose proof (mant_pos mx ex). split; [done|lra].
  - assert (Hlt : forall m e m' e', bounded 53 1024 m e = true -> bounded 53 1024 m' e' = true -> e < e' ->
      (mant (Zpos m) e < mant (Zpos m') e')%Q).
    { intros m e m' e' [Hb Hc]%bounded_inv [Hb' Hc']%bounded_inv He.
      destruct (mant_digits m e) as [_ H1], (mant_digits m' e') as [H2 _].
      eapply Qlt_le_trans; [exact H1|]. eapply Qle_trans; [|exact H2]. apply pow2_le. lia. }
    cbn [fin64] in Hx, Hy. destruct (Z.compare_spec ex ey) as [->|Hl|Hl].
    + assert (Hcmp : Pos.compare_cont Eq mx my = Pos.compare mx my) by done. rewrite Hcmp. destruct (Pos.compare_spec mx my) as [->|Hm|Hm].
      * split; [done|lra].
      * split; [intros _|done]. assert (Zpos mx + 1 <= Zpos my) as Hl by lia. apply (mant_le _ _ ey) in Hl.
        rewrite mant_add, mant_1 in Hl. pose proof (pow2_pos ey). lra.
      * split; [done|]. pose proof (mant_le (Zpos my) (Zpos mx) ey ltac:(lia)). lra.
    + split; [intros _|done]. by apply Hlt.
    + split; [done|]. pose proof (Hlt _ _ _ _ Hy Hx Hl). lra.
Qed.

(** *** Numbers that are not positive *)

Definition nonpos64 (x : spec_float) : Prop :=
  match x with S754_infinity false | S754_finite false _ _ => False | _ => True end.

Lemma round_aux_neg mx ex l : nonpos64 (binary_round_aux 53 1024 true mx ex l).
Proof. unfold binary_round_aux. repeat (case_match; cbn [nonpos64]; try done). Qed.

Lemma of_int_neg64 z : z <= 0 -> nonpos64 (binary_normalize 53 1024 z 0 false).
Proof.
  destruct z as [|p|p]; [done|lia|]. intros _. cbn [binary_normalize]. unfold binary_round. case_match. apply round_aux_neg.
Qed.

Lemma add_neg64 x y : nonpos64 x -> nonpos64 y -> nonpos64 (SFadd 53 1024 x y).
Proof.
  destruct x as [[]|[]| |[] mx ex]; try done; destruct y as [[]|[]| |[] my ey]; try done. intros _ _.
  cbn [SFadd cond_Zopp]. set (a := (shl_align mx ex _).1). set (b := (shl_align my ey _).1).
  change (- Zpos a + - Zpos b) with (Zneg (a + b)). cbn [binary_normalize]. unfold binary_round. case_match. apply round_aux_neg.
Qed.

Lemma div_neg64 x y : nonpos64 x -> fin64 y -> (0 < fval64 y)%Q -> nonpos64 (SFdiv 53 1024 x y).
Proof.
  intros Hx Hy Hp. destruct y as [sy| | |[] my ey]; try done; cbn [fval64] in Hp; try lra.
  destruct x as [[]|[]| |[] mx ex]; try done. cbn [SFdiv xorb]. repeat case_match. apply round_aux_neg.
Qed.

Lemma ltb_neg64 x : nonpos64 x -> SFltb (S754_zero false) x = false.
Proof. by destruct x as [[]|[]| |[]]. Qed.

#[export] Instance float64_ieee_laws : Float64Laws binary64.
Proof.
  refine {|
    err := eps64;
    fval := fval64;
    fin := fin64;
    nonpos := nonpos64;
  |}.
  - unfold eps64. split; lra.
  - intros x _. apply fval64_nonneg.
  - apply of_int64.
  - apply add64.
  - apply sub64.
  - apply mul64.
  - intros x y Hx Hy [H0|Hb] Ht; [|by apply div64]. apply div64_zero; try done.
    assert (0 < tiny)%Q by reflexivity. lra.
  - apply ltb64.
  - apply of_int_neg64.
  - apply add_neg64.
  - apply div_neg64.
  - apply ltb_neg64.
Defined.
