(* ===== verification/RateLimit.v ===== *)
(** * Per-client token buckets

    [internal/assets/ratelimit.go]. The limiter computes with [float64]; it is written once over the
    signature of [Float64] and runs in binary64. The theorems: clients are isolated from each other,
    in any arithmetic; and the number of admitted requests is bounded by burst and rate, up to the
    rounding errors, in any arithmetic with the laws of [Float64], of which binary64 is one. *)

From S2P Require Import Prelude GoStrings GoHttp Float64.
From Stdlib Require Import SpecFloat QArith Lqa.

Section Limiter.
Context {F : Type} `{Float64 F}.
Local Open Scope Z_scope.

(** ** ratelimit.go *)

Record RateLimitConfig := MkRateLimitConfig { cfg_RPS : Z; cfg_Burst : Z }.

Record bucket := MkBucket { tokens : F; last_seen : Z }.

Record ipRateLimiter := MkLimiter {
  buckets : gmap string bucket;
  rps : F;
  burst : F;
}.

Definition go_max (a b : Z) : Z := if b <? a then a else b.
Definition go_min (a b : F) : F := if f_lt a b then a else b.

(** [time.Time.Sub] in nanoseconds, saturating. *)
Definition time_Sub (t u : Z) : Z := Z.max int64_min (Z.min int64_max (t - u)).

(** [time.Duration.Seconds]. *)
Definition Seconds (d : Z) : F :=
  f_add (f_of_int (Z.quot d 1000000000))
        (f_div (f_of_int (Z.rem d 1000000000)) (f_of_int 1000000000)).

Definition newLimiter (cfg : RateLimitConfig) : ipRateLimiter :=
  MkLimiter ∅ (f_of_int (go_max 1 (cfg_RPS cfg))) (f_of_int (go_max 1 (cfg_Burst cfg))).

Definition set_bucket (ip : string) (b : bucket) (l : ipRateLimiter) : ipRateLimiter :=
  MkLimiter (<[ip := b]> (buckets l)) (rps l) (burst l).

(** The whole method runs under the limiter's mutex, so calls are atomic; [now] is read
    before the lock is taken. *)
Definition allow (now : Z) (ip : string) (l : ipRateLimiter) : bool * ipRateLimiter :=
  match buckets l !! ip with
  | None => (true, set_bucket ip (MkBucket (f_sub (burst l) (f_of_int 1)) now) l)
  | Some b =>
      let elapsed := Seconds (time_Sub now (last_seen b)) in
      let b1 :=
        if f_lt (f_of_int 0) elapsed
        then MkBucket (go_min (burst l) (f_add (tokens b) (f_mul elapsed (rps l)))) now
        else b in
      if f_lt (tokens b1) (f_of_int 1) then (false, set_bucket ip b1 l)
      else (true, set_bucket ip (MkBucket (f_sub (tokens b1) (f_of_int 1)) (last_seen b1)) l)
  end.

(** The middleware: a refused request is answered 429 and never reaches [next]. *)
Definition rateLimitMiddleware (next : Request -> RW -> RW) (now : Z) (r : Request)
    (l : ipRateLimiter) (w : RW) : RW * ipRateLimiter :=
  let '(ok, l') := allow now (host_or_self (r_remote r)) l in
  if ok then (next r w, l') else (writeJSONError 429 "rate_limited" w, l').

(** A run of requests, each a time and a client address: the decisions, in order. *)
Fixpoint allow_run (reqs : list (Z * string)) (l : ipRateLimiter) : list bool * ipRateLimiter :=
  match reqs with
  | [] => ([], l)
  | (t, ip) :: reqs' =>
      let '(ok, l1) := allow t ip l in
      let '(oks, l2) := allow_run reqs' l1 in
      (ok :: oks, l2)
  end.

(** The decisions on one client's requests. *)
Definition decisions_of (ip : string) (reqs : list (Z * string)) (oks : list bool) : list bool :=
  snd <$> filter (fun '((_, ip'), _) => ip' = ip) (zip reqs oks).

(** ** Lemmas for any arithmetic *)

Lemma allow_keeps_config now ip l ok l' :
  allow now ip l = (ok, l') -> rps l' = rps l /\ burst l' = burst l.
Proof. unfold allow, set_bucket. repeat case_match; intros [= <- <-]; done. Qed.

Lemma allow_other now ip ip' l :
  ip <> ip' -> buckets (allow now ip l).2 !! ip' = buckets l !! ip'.
Proof.
  intros Hne. unfold allow, set_bucket. repeat case_match; cbn; by rewrite lookup_insert_ne.
Qed.

(** What [allow] does depends only on the client's own bucket and the configuration. *)
Lemma allow_local now ip l1 l2 :
  buckets l1 !! ip = buckets l2 !! ip -> rps l1 = rps l2 -> burst l1 = burst l2 ->
  (allow now ip l1).1 = (allow now ip l2).1 /\
  buckets (allow now ip l1).2 !! ip = buckets (allow now ip l2).2 !! ip.
Proof.
  intros Hb Hr Hu. unfold allow, set_bucket. rewrite Hb, Hr, Hu.
  repeat case_match; cbn; by rewrite !lookup_insert_eq.
Qed.

Lemma allow_run_local ip reqs l1 l2 :
  buckets l1 !! ip = buckets l2 !! ip -> rps l1 = rps l2 -> burst l1 = burst l2 ->
  decisions_of ip reqs (allow_run reqs l1).1 =
  (allow_run (filter (fun q => q.2 = ip) reqs) l2).1.
Proof.
  revert l1 l2; induction reqs as [|[t ip'] reqs IH]; intros l1 l2 Hb Hr Hu; [done|].
  cbn [allow_run]. destruct (allow t ip' l1) as [ok1 l1'] eqn:E1.
  destruct (allow_run reqs l1') as [oks1 l1''] eqn:R1. cbn [fst].
  pose proof (allow_keeps_config _ _ _ _ _ E1) as [Hr1 Hu1].
  unfold decisions_of; cbn [zip zip_with]. rewrite !filter_cons; cbn [snd].
  destruct (decide (ip' = ip)) as [->|Hne]; cbn [fmap list_fmap snd].
  - destruct (allow_local t ip l1 l2 Hb Hr Hu) as [Hok Hbk]. rewrite E1 in Hok, Hbk.
    cbn [allow_run]. destruct (allow t ip l2) as [ok2 l2'] eqn:E2.
    pose proof (allow_keeps_config _ _ _ _ _ E2) as [Hr2 Hu2]. cbn in Hok, Hbk. subst ok2.
    specialize (IH l1' l2' Hbk ltac:(congruence) ltac:(congruence)). rewrite R1 in IH.
    destruct (allow_run _ l2') as [oks2 l2'']. cbn in IH |- *. f_equal. exact IH.
  - pose proof (allow_other t ip' ip l1 Hne) as Ho. rewrite E1 in Ho. cbn in Ho.
    specialize (IH l1' l2 ltac:(congruence) ltac:(congruence) ltac:(congruence)).
    rewrite R1 in IH. exact IH.
Qed.

(** Clients are isolated from each other. In any interleaving of requests, the decisions
    one client gets are exactly those it would get if it were alone, in the program's own
    floating-point arithmetic as in any other. *)
Theorem rate_limit_isolation cfg ip reqs :
  decisions_of ip reqs (allow_run reqs (newLimiter cfg)).1 =
  (allow_run (filter (fun q => q.2 = ip) reqs) (newLimiter cfg)).1.
Proof. by apply allow_run_local. Qed.
End Limiter.

Arguments ipRateLimiter F : clear implicits.
Arguments bucket F : clear implicits.

(** ** The rate bound *)

Definition count_true (l : list bool) : Z := Z.of_nat (length (filter (fun b => b = true) l)).

Lemma count_true_cons ok oks : count_true (ok :: oks) = ((if ok then 1 else 0) + count_true oks)%Z.
Proof.
  unfold count_true. rewrite filter_cons. destruct ok; case_decide; try done.
  rewrite length_cons. lia.
Qed.

(** A nanosecond count as seconds. *)
Definition sec (t : Z) : Q := t # 1000000000.

Lemma sec_le t u : (t <= u)%Z -> sec t <= sec u.
Proof. unfold sec, Qle; cbn. lia. Qed.

Lemma sec_split d : inject_Z (Z.quot d 1000000000) + inject_Z (Z.rem d 1000000000) / inject_Z 1000000000 == sec d.
Proof. unfold sec. pose proof (Z.quot_rem' d 1000000000). unfold Qeq; cbn. lia. Qed.

Lemma time_Sub_pos t u : (u < t)%Z -> (0 < time_Sub t u <= int64_max)%Z /\ sec (time_Sub t u) <= sec t - sec u.
Proof. unfold sec, time_Sub, int64_min, int64_max, Qle; cbn. lia. Qed.

Lemma time_Sub_nonpos t u : (t <= u)%Z -> (time_Sub t u <= 0)%Z.
Proof. unfold time_Sub, int64_min, int64_max. lia. Qed.

Section Rate.
Context {F : Type} `{Float64Laws F}.

(** Scaling by [1 + err]. *)
Let g : Q := 1 + err.

Lemma g_bounds : 1 <= g /\ g <= 2.
Proof. pose proof err_small. unfold g, eps64 in *. lra. Qed.

Lemma le_g x : 0 <= x -> x <= x * g.
Proof. intros Hx. rewrite <- (Qmult_1_r x) at 1. rewrite !(Qmult_comm x). apply Qmult_le_compat_r; [apply g_bounds|done]. Qed.

Lemma mul_g x y : x <= y -> x * g <= y * g.
Proof. intros Hx. apply Qmult_le_compat_r; [done|]. pose proof g_bounds. lra. Qed.

Lemma g_double x : 0 <= x -> x * g <= x * 2.
Proof. intros Hx. rewrite !(Qmult_comm x). apply Qmult_le_compat_r; [apply g_bounds|done]. Qed.

Lemma within_upper x v : within err x v -> v <= x * g.
Proof. by intros [_ Hv]. Qed.

Lemma within_pos x v : 0 <= x -> within err x v -> x * (1 # 2) <= v.
Proof.
  intros Hx [Hv _]. eapply Qle_trans; [|exact Hv]. pose proof err_small. unfold eps64 in *.
  rewrite !(Qmult_comm x). apply Qmult_le_compat_r; lra.
Qed.

Lemma lt_fin_false x y : fin x -> fin y -> f_lt x y = false -> fval y <= fval x.
Proof.
  intros Hx Hy Hl. destruct (Qlt_le_dec (fval x) (fval y)) as [Hlt|]; [|done].
  apply (lt_fin x y Hx Hy) in Hlt. congruence.
Qed.

(** Elapsed time: positive if the clock has advanced, and then never much more than the truth. *)
Lemma Seconds_pos d : (0 < d <= int64_max)%Z ->
  fin (Seconds d) /\ tiny <= fval (Seconds d) /\ fval (Seconds d) <= sec d * g * g.
Proof.
  intros Hd. unfold int64_max in Hd. pose proof g_bounds as Hg.
  assert (Hq : (0 <= Z.quot d 1000000000 < 2 ^ 53)%Z).
  { split; [apply Z.quot_pos; lia|]. apply Z.quot_lt_upper_bound; lia. }
  assert (Hr : (0 <= Z.rem d 1000000000 < 1000000000)%Z) by (apply Z.rem_bound_pos; lia).
  assert (Hsum : sec d == inject_Z (Z.quot d 1000000000) + inject_Z (Z.rem d 1000000000) / inject_Z 1000000000)
    by (symmetry; apply sec_split).
  assert (Hsd : 1 # 1000000000 <= sec d) by (unfold sec, Qle; cbn; lia).
  assert (Hs1 : sec d <= inject_Z (2 ^ 54)) by (unfold sec, inject_Z, Qle; cbn; lia).
  unfold Seconds. destruct (of_int_fin _ Hq) as [Hfq Hvq].
  destruct (of_int_fin (Z.rem d 1000000000) ltac:(lia)) as [Hfr Hvr].
  destruct (of_int_fin 1000000000 ltac:(lia)) as [Hfb Hvb].
  set (q := inject_Z (Z.quot d 1000000000)) in *. set (r := inject_Z (Z.rem d 1000000000)) in *.
  assert (Hr0 : 0 <= r) by (unfold r; change 0 with (inject_Z 0); rewrite <- Zle_Qle; lia).
  assert (Hq0 : 0 <= q) by (unfold q; change 0 with (inject_Z 0); rewrite <- Zle_Qle; lia).
  assert (Hrd : 0 <= r / inject_Z 1000000000) by (apply Qle_shift_div_l; [reflexivity|lra]).
  destruct (div_fin (f_of_int (Z.rem d 1000000000)) (f_of_int 1000000000)) as [Hfd Hvd]; [done|done| | |].
  { rewrite Hvr. destruct (Z.eq_dec (Z.rem d 1000000000) 0) as [E|]; [left; unfold r; by rewrite E|right].
    unfold r, tiny, big, Qle; cbn. lia. }
  { rewrite Hvb. split; unfold Qle; cbn; lia. }
  assert (Hdv : fval (f_of_int (Z.rem d 1000000000)) / fval (f_of_int 1000000000) == r / inject_Z 1000000000)
    by (by rewrite Hvr, Hvb).
  unfold within in Hvd. rewrite Hdv in Hvd.
  pose proof (within_upper _ _ Hvd) as Hup. pose proof (within_pos _ _ Hrd Hvd) as Hlo.
  set (rd := r / inject_Z 1000000000) in *. pose proof (mul_g rd (inject_Z (2 ^ 54)) ltac:(lra)) as Hrg.
  assert (Hb1 : inject_Z (2 ^ 54) * g <= inject_Z (2 ^ 55)).
  { change (inject_Z (2 ^ 55)) with (inject_Z (2 ^ 54) * 2). apply g_double. unfold Qle; cbn; lia. }
  assert (Hbig : inject_Z (2 ^ 55) <= big) by (unfold big, Qle; cbn; lia).
  assert (Hqb : q <= inject_Z (2 ^ 55)).
  { apply Qle_trans with (inject_Z (2 ^ 54)); [lra|]. unfold Qle; cbn; lia. }
  destruct (add_fin (f_of_int (Z.quot d 1000000000)) (f_div (f_of_int (Z.rem d 1000000000)) (f_of_int 1000000000)))
    as [Hfs Hvs]; [done|done|rewrite Hvq; lra|lra|].
  split; [done|]. set (v := fval (f_div _ _)) in *.
  pose proof (within_upper _ _ Hvs) as Hsu. unfold within in Hvs. rewrite Hvq in Hsu.
  assert (Hvs' : within err (q + v) (fval (f_add (f_of_int (Z.quot d 1000000000))
    (f_div (f_of_int (Z.rem d 1000000000)) (f_of_int 1000000000))))) by (unfold within; by rewrite <- Hvq).
  apply within_pos in Hvs'; [|lra]. split.
  - unfold tiny. apply Qle_trans with ((1 # 1000000000) * (1 # 4)); [unfold Qle; cbn; lia|]. lra.
  - eapply Qle_trans; [exact Hsu|]. apply mul_g. rewrite Hsum. pose proof (le_g q Hq0).
    rewrite Qmult_plus_distr_l. lra.
Qed.

Lemma Seconds_nonpos d : (d <= 0)%Z -> f_lt (f_of_int 0) (Seconds d) = false.
Proof.
  intros Hd. apply lt_nonpos. unfold Seconds. destruct (of_int_fin 1000000000 ltac:(lia)) as [Hfb Hvb].
  apply add_nonpos; [|apply div_nonpos; [|done|rewrite Hvb; reflexivity]]; apply of_int_nonpos.
  - pose proof (Z.quot_pos (- d) 1000000000 ltac:(lia) ltac:(lia)) as Hq. rewrite Z.quot_opp_l in Hq by lia. lia.
  - pose proof (Z.rem_bound_pos (- d) 1000000000 ltac:(lia) ltac:(lia)) as Hr. rewrite Z.rem_opp_l in Hr by lia. lia.
Qed.

(** ** The invariant: every bucket holds between zero and [burst] tokens *)

Context (rpsZ burstZ : Z).
Hypothesis rps_range : (1 <= rpsZ < 2 ^ 52)%Z.
Hypothesis burst_range : (1 <= burstZ < 2 ^ 52)%Z.

Definition limiter_inv (l : ipRateLimiter F) : Prop :=
  rps l = f_of_int rpsZ /\ burst l = f_of_int burstZ /\
  forall ip b, buckets l !! ip = Some b -> fin (tokens b) /\ fval (tokens b) <= inject_Z burstZ.

Let R : Q := inject_Z rpsZ.
Let U : Q := inject_Z burstZ.

Lemma rate_facts : 1 <= R /\ R <= inject_Z (2 ^ 52) /\ 1 <= U /\ U <= inject_Z (2 ^ 52).
Proof. unfold R, U. change 1 with (inject_Z 1). rewrite <- !Zle_Qle. lia. Qed.

Lemma burst_fin : fin (f_of_int burstZ) /\ fval (f_of_int burstZ) == U.
Proof. apply of_int_fin. lia. Qed.

(** The bucket after one call, seen from the bucket before. *)
Definition refill (b : bucket F) (now : Z) : bucket F :=
  if f_lt (f_of_int 0) (Seconds (time_Sub now (last_seen b)))
  then MkBucket (go_min (f_of_int burstZ)
         (f_add (tokens b) (f_mul (Seconds (time_Sub now (last_seen b))) (f_of_int rpsZ)))) now
  else b.

(** Rounding adds at most [err * U] tokens to a sum that is capped at [U]. *)
Lemma capped_sum x v w : 0 <= x -> v <= x * g -> w <= v -> w <= U -> w <= x + err * U.
Proof.
  intros Hx Hv Hwv Hwu. pose proof err_small as [He _]. destruct (Qlt_le_dec U x) as [Hl|Hl].
  - pose proof rate_facts. assert (0 <= err * U) by (apply Qmult_le_0_compat; lra). lra.
  - assert (x * err <= U * err) by (by apply Qmult_le_compat_r). unfold g in Hv. rewrite Qmult_plus_distr_r in Hv.
    rewrite (Qmult_comm err U). lra.
Qed.

Lemma refill_spec b now :
  fin (tokens b) -> fval (tokens b) <= U ->
  fin (tokens (refill b now)) /\ fval (tokens (refill b now)) <= U /\
  ((last_seen b < now)%Z /\ last_seen (refill b now) = now /\
     fval (tokens (refill b now)) <= fval (tokens b) + (sec now - sec (last_seen b)) * (R * g * g * g) + err * U \/
   (now <= last_seen b)%Z /\ refill b now = b).
Proof.
  intros Hft Ht. unfold refill. destruct (Z_lt_le_dec (last_seen b) now) as [Hlt|Hle].
  2: { rewrite Seconds_nonpos by (by apply time_Sub_nonpos). auto. }
  destruct (time_Sub_pos _ _ Hlt) as [Hd Hsub]. destruct (Seconds_pos _ Hd) as (Hfs & Hlo & Hup).
  destruct (of_int_fin 0 ltac:(lia)) as [Hf0 Hv0]. destruct (of_int_fin rpsZ ltac:(lia)) as [Hfr Hvr].
  destruct burst_fin as [Hfb Hvb]. pose proof rate_facts as (HR1 & HR2 & HU1 & HU2). pose proof g_bounds as [Hg1 Hg2].
  assert (Htiny : 0 < tiny) by reflexivity. assert (Hs2 : sec (time_Sub now (last_seen b)) <= inject_Z (2 ^ 54)).
  { unfold sec, int64_max, inject_Z, Qle in *; cbn in *; lia. }
  set (e := Seconds (time_Sub now (last_seen b))) in *. set (sd := sec (time_Sub now (last_seen b))) in *.
  rewrite (proj2 (lt_fin _ e Hf0 Hfs)) by (rewrite Hv0; change (inject_Z 0) with 0; lra). cbn [tokens last_seen].
  assert (Hsd0 : 0 <= sd) by (unfold sd, sec, Qle; cbn; lia).
  assert (He : fval e <= inject_Z (2 ^ 56)).
  { apply Qle_trans with (inject_Z (2 ^ 54) * g * g); [eapply Qle_trans; [exact Hup|]; by apply mul_g, mul_g|].
    change (inject_Z (2 ^ 56)) with (inject_Z (2 ^ 54) * 2 * 2).
    apply Qle_trans with (inject_Z (2 ^ 54) * 2 * g); [apply mul_g|]; apply g_double; unfold Qle; cbn; lia. }
  assert (Hbg : forall n, (0 <= n <= 200)%Z -> inject_Z (2 ^ n) <= big).
  { intros n Hn. unfold big. rewrite <- Zle_Qle. apply Z.pow_le_mono_r; lia. }
  destruct (mul_fin e (f_of_int rpsZ)) as [Hfm Hvm]; [done|done| | |].
  { split; [done|]. pose proof (Hbg 56%Z ltac:(lia)). lra. }
  { rewrite Hvr. fold R. pose proof (Hbg 52%Z ltac:(lia)). assert (tiny <= 1) by (unfold Qle; cbn; lia). lra. }
  apply within_upper in Hvm. rewrite Hvr in Hvm. fold R in Hvm.
  assert (Hm1 : fval e * R <= sd * g * g * R) by (apply Qmult_le_compat_r; lra).
  assert (Hm2 : fval e * R <= inject_Z (2 ^ 56) * inject_Z (2 ^ 52)).
  { apply Qle_trans with (inject_Z (2 ^ 56) * R); [apply Qmult_le_compat_r; lra|].
    rewrite !(Qmult_comm (inject_Z (2 ^ 56))). apply Qmult_le_compat_r; [done|unfold Qle; cbn; lia]. }
  rewrite <- inject_Z_mult in Hm2. change (2 ^ 56 * 2 ^ 52)%Z with (2 ^ 108)%Z in Hm2.
  set (m := f_mul e (f_of_int rpsZ)) in *.
  assert (Hmb : fval m <= big).
  { apply mul_g in Hm2. pose proof (Hbg 109%Z ltac:(lia)) as H109. change (inject_Z (2 ^ 109)) with (inject_Z (2 ^ 108) * 2) in H109.
    pose proof (g_double (inject_Z (2 ^ 108)) ltac:(unfold Qle; cbn; lia)). lra. }
  assert (Hm0 : fval m <= (sec now - sec (last_seen b)) * (R * g * g * g)).
  { eapply Qle_trans; [exact Hvm|]. apply Qle_trans with (sd * g * g * R * g); [by apply mul_g|].
    assert (Hring : sd * g * g * R * g == sd * (R * g * g * g)) by ring. rewrite Hring. apply Qmult_le_compat_r; [lra|].
    repeat apply Qmult_le_0_compat; lra. }
  destruct (add_fin (tokens b) m) as [Hfa Hva]; [done|done|pose proof (Hbg 52%Z ltac:(lia)); lra|done|].
  apply within_upper in Hva. set (a := f_add (tokens b) m) in *.
  pose proof (fval_nonneg _ Hft). pose proof (fval_nonneg _ Hfm). unfold go_min.
  destruct (f_lt (f_of_int burstZ) a) eqn:E.
  - apply lt_fin in E; [|done..]. split; [done|]. split; [lra|]. left. split_and!; [done|done|].
    assert (fval (f_of_int burstZ) <= fval (tokens b) + fval m + err * U); [|lra].
    apply (capped_sum _ (fval a)); [lra|done|lra|lra].
  - apply lt_fin_false in E; [|done..]. split; [done|]. split; [lra|]. left. split_and!; [done|done|].
    assert (fval a <= fval (tokens b) + fval m + err * U); [|lra].
    apply (capped_sum _ (fval a)); [lra|done|lra|lra].
Qed.

(** Taking a token. *)
Lemma take_spec x : fin x -> fval x <= U -> f_lt x (f_of_int 1) = false ->
  fin (f_sub x (f_of_int 1)) /\ fval (f_sub x (f_of_int 1)) <= U /\
  fval (f_sub x (f_of_int 1)) + 1 <= fval x + err * U.
Proof.
  intros Hx Hu Hl. destruct (of_int_fin 1 ltac:(lia)) as [Hf1 Hv1]. apply lt_fin_false in Hl; [|done..].
  rewrite Hv1 in Hl. change (inject_Z 1) with 1 in *. pose proof rate_facts as (_ & _ & HU1 & HU2).
  assert (Hbig : inject_Z (2 ^ 52) <= big) by (unfold Qle; cbn; lia).
  destruct (sub_fin x (f_of_int 1)) as [Hf Hv]; [done|done|lra|lra|]. apply within_upper in Hv. rewrite Hv1 in Hv.
  pose proof err_small as [He Hes]. unfold eps64 in Hes.
  assert (Hm : (fval x - 1) * err <= (U - 1) * err) by (apply Qmult_le_compat_r; lra).
  assert (HUe : U * err <= inject_Z (2 ^ 52) * (1 # 4503599627370496)).
  { apply Qle_trans with (inject_Z (2 ^ 52) * err); [by apply Qmult_le_compat_r|].
    rewrite !(Qmult_comm (inject_Z (2 ^ 52))). apply Qmult_le_compat_r; [done|unfold Qle; cbn; lia]. }
  unfold g in Hv. rewrite Qmult_plus_distr_r in Hv.
  assert (Hexp : (U - 1) * err == U * err - err) by ring. rewrite Hexp in Hm. rewrite (Qmult_comm err U).
  change (inject_Z (2 ^ 52) * (1 # 4503599627370496)) with (4503599627370496 # 4503599627370496) in HUe.
  assert (Hone : 4503599627370496 # 4503599627370496 == 1) by reflexivity. split; [done|]. split; lra.
Qed.

Lemma allow_known l ip b now :
  limiter_inv l -> buckets l !! ip = Some b ->
  allow now ip l =
  if f_lt (tokens (refill b now)) (f_of_int 1) then (false, set_bucket ip (refill b now) l)
  else (true, set_bucket ip (MkBucket (f_sub (tokens (refill b now)) (f_of_int 1)) (last_seen (refill b now))) l).
Proof. intros (Hr & Hu & _) Hb. unfold allow, refill. by rewrite Hb, Hr, Hu. Qed.

Lemma allow_new l ip now :
  limiter_inv l -> buckets l !! ip = None ->
  allow now ip l = (true, set_bucket ip (MkBucket (f_sub (f_of_int burstZ) (f_of_int 1)) now) l).
Proof. intros (_ & Hu & _) Hb. unfold allow. by rewrite Hb, Hu. Qed.

Lemma burst_take : f_lt (f_of_int burstZ) (f_of_int 1) = false.
Proof.
  destruct burst_fin as [Hf Hv]. destruct (of_int_fin 1 ltac:(lia)) as [Hf1 Hv1].
  apply not_true_is_false. rewrite (lt_fin _ _ Hf Hf1), Hv, Hv1. change (inject_Z 1) with 1. pose proof rate_facts. lra.
Qed.

Lemma set_bucket_inv l ip b :
  limiter_inv l -> fin (tokens b) -> fval (tokens b) <= U -> limiter_inv (set_bucket ip b l).
Proof.
  intros (H1 & H2 & H3) Hf Hb. split_and!; [done..|]. intros ip' b'. cbn. rewrite lookup_insert.
  case_decide; [by intros [= <-]|apply H3].
Qed.

Lemma allow_inv now ip l : limiter_inv l -> limiter_inv (allow now ip l).2.
Proof.
  intros Hl. destruct (buckets l !! ip) as [b|] eqn:Hb.
  - pose proof Hl as (_ & _ & Hbk). destruct (Hbk _ _ Hb) as [Hf Hv]. destruct (refill_spec b now Hf Hv) as (Hf' & Hv' & _).
    rewrite (allow_known l ip b now Hl Hb). destruct (f_lt _ _) eqn:E; cbn [snd]; apply set_bucket_inv; try done; by apply take_spec.
  - rewrite (allow_new l ip now Hl Hb). cbn [snd]. destruct burst_fin as [Hf Hv].
    assert (Hvu : fval (f_of_int burstZ) <= U) by (rewrite Hv; apply Qle_refl).
    destruct (take_spec _ Hf Hvu burst_take) as (? & ? & _). by apply set_bucket_inv.
Qed.

Lemma allow_run_inv reqs l : limiter_inv l -> limiter_inv (allow_run reqs l).2.
Proof.
  revert l; induction reqs as [|[t ip] reqs IH]; intros l Hl; [done|]. cbn.
  pose proof (allow_inv t ip l Hl) as Hl'. destruct (allow t ip l) as [ok l'].
  specialize (IH l' Hl'). by destruct (allow_run reqs l').
Qed.

(** ** Accounting in a window of time [[A, B]]: [c] of [n] requests admitted *)

Definition slack (n : Z) : Q := inject_Z n * (2 * (err * U)).

Lemma slack_nonneg n : (0 <= n)%Z -> 0 <= slack n.
Proof.
  intros Hn. pose proof err_small as [He _]. pose proof rate_facts. unfold slack.
  apply Qmult_le_0_compat; [change 0 with (inject_Z 0); by rewrite <- Zle_Qle|].
  assert (0 <= err * U) by (apply Qmult_le_0_compat; lra). lra.
Qed.

Lemma slack_succ n : slack (n + 1) == slack n + 2 * (err * U).
Proof. unfold slack. rewrite inject_Z_plus. change (inject_Z 1) with 1. ring. Qed.

Lemma err_U : 0 <= err * U.
Proof. pose proof err_small as [He _]. pose proof rate_facts. apply Qmult_le_0_compat; lra. Qed.

(** Seconds times rate, with the rounding of the refill. *)
Definition rate_g : Q := R * g * g * g.

Definition credit (A B : Z) (b : bucket F) (c n : Z) : Prop :=
  (A <= last_seen b)%Z /\
  fval (tokens b) + inject_Z c <= U + (sec (Z.min (last_seen b) B) - sec A) * rate_g + slack n.

Definition window_inv (A B : Z) (ip : string) (l : ipRateLimiter F) (c n : Z) : Prop :=
  limiter_inv l /\ (0 <= n)%Z /\ (c = 0%Z \/ exists b, buckets l !! ip = Some b /\ credit A B b c n).

Lemma rate_g_pos : 0 <= rate_g.
Proof. pose proof rate_facts. pose proof g_bounds. unfold rate_g. repeat apply Qmult_le_0_compat; lra. Qed.

Lemma span_nonneg A x : (A <= x)%Z -> 0 <= (sec x - sec A) * rate_g.
Proof. intros HA. pose proof (sec_le A x HA). pose proof rate_g_pos. apply Qmult_le_0_compat; lra. Qed.

(** After the refill there is half of this request's slack left. *)
Lemma credit_refill A B b c n t :
  fin (tokens b) -> fval (tokens b) <= U -> (A <= t <= B)%Z -> (0 <= n)%Z -> c = 0%Z \/ credit A B b c n ->
  (A <= last_seen (refill b t))%Z /\
  fval (tokens (refill b t)) + inject_Z c <=
    U + (sec (Z.min (last_seen (refill b t)) B) - sec A) * rate_g + slack n + err * U.
Proof.
  intros Hf Hb Ht Hn Hc. destruct (refill_spec b t Hf Hb) as (_ & Hr & Hcase). pose proof err_U.
  assert (Hlast : (A <= last_seen (refill b t))%Z).
  { destruct Hcase as [(? & -> & _)|(? & ->)]; lia. }
  split; [done|]. destruct Hc as [->|[Ha Hcr]].
  - pose proof (span_nonneg A (Z.min (last_seen (refill b t)) B) ltac:(lia)). pose proof (slack_nonneg n Hn).
    change (inject_Z 0) with 0. lra.
  - destruct Hcase as [(Hlt & Hls & Htk)|(_ & ->)]; [|lra].
    rewrite Hls. rewrite Z.min_l by lia. rewrite Z.min_l in Hcr by lia. fold rate_g in Htk. lra.
Qed.

Lemma window_step A B ip l c n t ok l' :
  window_inv A B ip l c n -> (A <= t <= B)%Z -> allow t ip l = (ok, l') ->
  window_inv A B ip l' (if ok then c + 1 else c)%Z (n + 1).
Proof.
  intros (Hl & Hn & Hc) Ht Ha. split; [pose proof (allow_inv t ip l Hl) as Hi; by rewrite Ha in Hi|]. split; [lia|].
  pose proof err_U as HeU. right. destruct (buckets l !! ip) as [b|] eqn:Hb.
  - pose proof Hl as (_ & _ & Hbk). destruct (Hbk _ _ Hb) as [Hf Hv]. destruct (refill_spec b t Hf Hv) as (Hf' & Hv' & _).
    destruct (credit_refill A B b c n t Hf Hv Ht Hn) as [HA Hcr].
    { destruct Hc as [?|(b' & [= <-] & ?)]; [by left|by right]. }
    rewrite (allow_known l ip b t Hl Hb) in Ha. destruct (f_lt _ _) eqn:E; injection Ha as <- <-.
    all: eexists; split; [apply lookup_insert_eq|]; split; [done|]; rewrite slack_succ; cbn [tokens last_seen].
    + lra.
    + destruct (take_spec _ Hf' Hv' E) as (_ & _ & Htk). rewrite inject_Z_plus. change (inject_Z 1) with 1. lra.
  - destruct Hc as [->|(b' & [=] & _)]. rewrite (allow_new l ip t Hl Hb) in Ha. injection Ha as <- <-.
    eexists. split; [apply lookup_insert_eq|]. split; [cbn; lia|]. rewrite slack_succ. cbn [tokens last_seen].
    destruct burst_fin as [Hf Hv]. assert (Hvu : fval (f_of_int burstZ) <= U) by (rewrite Hv; apply Qle_refl).
    destruct (take_spec _ Hf Hvu burst_take) as (_ & _ & Htk).
    rewrite Z.min_l by lia. pose proof (span_nonneg A t ltac:(lia)). pose proof (slack_nonneg n Hn).
    change (inject_Z (0 + 1)) with 1. lra.
Qed.

Lemma window_run A B ip reqs l c n :
  window_inv A B ip l c n -> Forall (fun q => (A <= q.1 <= B)%Z /\ q.2 = ip) reqs ->
  window_inv A B ip (allow_run reqs l).2 (c + count_true (allow_run reqs l).1) (n + Z.of_nat (length reqs)).
Proof.
  revert l c n; induction reqs as [|[t ip'] reqs IH]; intros l c n Hw HF.
  - cbn. unfold count_true; cbn. by rewrite !Z.add_0_r.
  - apply Forall_cons in HF as [[Ht Hip] HF]. cbn in Ht, Hip. subst ip'. cbn [allow_run].
    destruct (allow t ip l) as [ok l1] eqn:E1.
    pose proof (window_step _ _ _ _ _ _ _ _ _ Hw Ht E1) as Hw1. specialize (IH l1 _ _ Hw1 HF).
    destruct (allow_run reqs l1) as [oks l2]. cbn [fst snd length] in *. rewrite count_true_cons.
    replace (c + ((if ok then 1 else 0) + count_true oks))%Z
      with ((if ok then c + 1 else c) + count_true oks)%Z by (destruct ok; lia).
    by replace (n + Z.of_nat (S (length reqs)))%Z with (n + 1 + Z.of_nat (length reqs))%Z by lia.
Qed.

Lemma window_inv_bound A B ip l c n :
  window_inv A B ip l c n -> (A <= B)%Z -> inject_Z c <= U + (sec B - sec A) * rate_g + slack n.
Proof.
  intros (Hl & Hn & Hc) HAB. pose proof Hl as (_ & _ & Hbk). pose proof rate_facts. pose proof (slack_nonneg n Hn).
  destruct Hc as [->|(b & Hb & HA & Hcr)].
  - pose proof (span_nonneg A B HAB). change (inject_Z 0) with 0. lra.
  - destruct (Hbk _ _ Hb) as [Hf _]. pose proof (fval_nonneg _ Hf). pose proof rate_g_pos.
    assert (sec (Z.min (last_seen b) B) <= sec B) by (apply sec_le; lia).
    assert ((sec (Z.min (last_seen b) B) - sec A) * rate_g <= (sec B - sec A) * rate_g)
      by (apply Qmult_le_compat_r; lra). lra.
Qed.

(** The bound, for any arithmetic with the laws and a stretch of calls for one client. *)
Lemma stretch_bound A B ip hist win l :
  limiter_inv l -> (A <= B)%Z -> Forall (fun q => q.2 = ip -> (A <= q.1 <= B)%Z) win ->
  inject_Z (count_true (decisions_of ip win (allow_run win (allow_run hist l).2).1)) <=
  U + (sec B - sec A) * rate_g + slack (Z.of_nat (length (filter (fun q => q.2 = ip) win))).
Proof.
  intros Hl HAB HF. rewrite (allow_run_local ip win _ (allow_run hist l).2) by done.
  apply (window_inv_bound _ _ ip (allow_run (filter (fun q => q.2 = ip) win) (allow_run hist l).2).2); [|done].
  apply (window_run A B ip (filter (fun q => q.2 = ip) win) (allow_run hist l).2 0 0).
  - split; [by apply allow_run_inv|]. split; [lia|by left].
  - apply Forall_forall. intros q [Hq Hin]%list_elem_of_filter. rewrite Forall_forall in HF. auto.
Qed.
End Rate.

Lemma newLimiter_inv {F} `{Float64Laws F} cfg :
  limiter_inv (go_max 1 (cfg_RPS cfg)) (go_max 1 (cfg_Burst cfg)) (newLimiter (F := F) cfg).
Proof. split_and!; [done..|]. intros ip b Hb. cbn in Hb. by rewrite lookup_empty in Hb. Qed.

Lemma go_max_range z : (z < 2 ^ 52)%Z -> (1 <= go_max 1 z < 2 ^ 52)%Z.
Proof. unfold go_max. case_match; breflect; lia. Qed.

(** C34: the advertised rate holds in the program's floating-point arithmetic. Take any stretch of
    consecutive calls of the limiter in which all readings of the clock for one client lie between
    [A] and [B] nanoseconds (in any order: a step backwards that stays in between is allowed),
    whatever happened before and whatever the other clients do. If [n] calls of the stretch are the
    client's, the number admitted is at most burst + rps * (B - A) / 10^9, except for rounding: the
    second term may be larger by the factor 1 + 4 * 2^-52, and n * burst * 2^-51 is added. For limits
    below 2^52; a limit below 1 counts as 1. *)
Theorem rate_limit_window cfg hist win ip A B :
  (cfg_RPS cfg < 2 ^ 52)%Z -> (cfg_Burst cfg < 2 ^ 52)%Z ->
  (A <= B)%Z -> Forall (fun q => q.2 = ip -> (A <= q.1 <= B)%Z) win ->
  let l := (allow_run hist (newLimiter (F := binary64) cfg)).2 in
  let admitted := count_true (decisions_of ip win (allow_run win l).1) in
  let n := Z.of_nat (length (filter (fun q => q.2 = ip) win)) in
  let rps := go_max 1 (cfg_RPS cfg) in
  let burst := go_max 1 (cfg_Burst cfg) in
  (2 ^ 52 * (1000000000 * admitted) <=
   2 ^ 52 * (1000000000 * burst + rps * (B - A)) + 4 * (rps * (B - A)) + 2 * (1000000000 * (n * burst)))%Z.
Proof.
  intros Hr Hu HAB HF. cbv zeta. set (r := go_max 1 (cfg_RPS cfg)). set (u := go_max 1 (cfg_Burst cfg)).
  assert (Hrr : (1 <= r < 2 ^ 52)%Z) by (by apply go_max_range). assert (Huu : (1 <= u < 2 ^ 52)%Z) by (by apply go_max_range).
  pose proof (stretch_bound r u Hrr Huu A B ip hist win _ (newLimiter_inv cfg) HAB HF) as Hb.
  set (k := count_true _) in *. set (n := Z.of_nat _) in *. unfold slack, rate_g in Hb.
  change (err (F := binary64)) with eps64 in Hb. unfold eps64 in Hb.
  assert (Hcube : inject_Z r * (1 + (1 # 4503599627370496)) * (1 + (1 # 4503599627370496)) * (1 + (1 # 4503599627370496)) <=
    inject_Z r * (4503599627370500 # 4503599627370496)).
  { rewrite <- !Qmult_assoc. rewrite !(Qmult_comm (inject_Z r)). apply Qmult_le_compat_r; [unfold Qle; cbn; lia|].
    unfold Qle; cbn; lia. }
  assert (Hspan : (sec B - sec A) * (inject_Z r * (1 + (1 # 4503599627370496)) * (1 + (1 # 4503599627370496)) * (1 + (1 # 4503599627370496))) <=
    (sec B - sec A) * (inject_Z r * (4503599627370500 # 4503599627370496))).
  { rewrite !(Qmult_comm (sec B - sec A)). apply Qmult_le_compat_r; [done|]. pose proof (sec_le A B HAB). lra. }
  assert (Hq : inject_Z k <= inject_Z u + (sec B - sec A) * (inject_Z r * (4503599627370500 # 4503599627370496)) +
    inject_Z n * (2 * ((1 # 4503599627370496) * inject_Z u))) by lra.
  clear -Hq. unfold sec, inject_Z, Qle in Hq. cbn in Hq. lia.
Qed.

Definition demo_limits : RateLimitConfig := MkRateLimitConfig 20 3.
Definition demo_reqs : list (Z * string) :=
  [(0, "10.0.0.1"); (0, "10.0.0.1"); (1, "10.0.0.2"); (2, "10.0.0.1"); (3, "10.0.0.1"); (50000003, "10.0.0.1")]%Z.

(** A run in binary64: the fourth request is refused, and one more token is there 50 ms later. *)
Example demo_binary64 :
  (allow_run demo_reqs (newLimiter (F := binary64) demo_limits)).1 = [true; true; true; true; false; true].
Proof. vm_compute; reflexivity. Qed.

Lemma rate_limit_window_witness :
  count_true (decisions_of "10.0.0.1" demo_reqs (allow_run demo_reqs (newLimiter (F := binary64) demo_limits)).1) = 4%Z /\
  (2 ^ 52 * (1000000000 * 4) <= 2 ^ 52 * (1000000000 * 3 + 20 * 50000003) + 4 * (20 * 50000003) + 2 * (1000000000 * (5 * 3)))%Z.
Proof.
  assert (Hk : count_true (decisions_of "10.0.0.1" demo_reqs
    (allow_run demo_reqs (newLimiter (F := binary64) demo_limits)).1) = 4%Z) by (vm_compute; reflexivity).
  split; [exact Hk|].
  assert (HF : Forall (fun q : Z * string => q.2 = "10.0.0.1" -> (0 <= q.1 <= 50000003)%Z) demo_reqs).
  { unfold demo_reqs. repeat (apply Forall_cons; split; [cbn; lia|]). by apply Forall_nil. }
  pose proof (rate_limit_window demo_limits [] demo_reqs "10.0.0.1" 0 50000003 ltac:(done) ltac:(done) ltac:(lia) HF) as Hw.
  cbv zeta in Hw. change (allow_run [] (newLimiter (F := binary64) demo_limits)).2 with (newLimiter (F := binary64) demo_limits) in Hw.
  rewrite Hk in Hw. exact Hw.
Defined.
