(* ===== verification/Cors.v ===== *)
(** * Cross-origin requests

    [internal/assets/cors.go]: the allow-list of origins and the middleware in front of the
    asset handler. *)

From S2P Require Import Prelude GoStrings GoHttp.

Record CORSConfig := MkCORS {
  AllowedOrigins : gset string;
  AllowCredentials : bool;
}.

Definition add_origin (origins : gset string) (part : string) : gset string :=
  let origin := TrimSpace part in
  if String.eqb origin "" then origins else {[origin]} ∪ origins.

Definition ParseAllowedOrigins (csv : string) : gset string :=
  foldl add_origin ∅ (Split csv comma).

Definition allowMethods : string := "GET, HEAD, OPTIONS".
Definition allowHeaders : string := "Range, If-Modified-Since, If-None-Match, Origin, Accept, Content-Type".
Definition exposeHeaders : string := "Content-Length, Content-Range, Accept-Ranges, ETag, Last-Modified".

Definition setCORSHeaders (origin : string) (allowCredentials : bool) (h : Header) : Header :=
  let h := hSet "Access-Control-Allow-Origin" origin h in
  let h := hAdd "Vary" "Origin" h in
  let h := if allowCredentials then hSet "Access-Control-Allow-Credentials" "true" h else h in
  let h := hSet "Access-Control-Allow-Methods" allowMethods h in
  let h := hSet "Access-Control-Allow-Headers" allowHeaders h in
  hSet "Access-Control-Expose-Headers" exposeHeaders h.

(** [next] is the wrapped handler; the middleware also says whether it was called. *)
Definition corsMiddleware {A} (cfg : CORSConfig) (next : Request -> RW -> A) (answer : RW -> A)
    (r : Request) (w : RW) : A :=
  let origin := hGet (r_header r) "Origin" in
  let allowed := bool_decide (origin ∈ AllowedOrigins cfg) in
  if String.eqb (r_method r) "OPTIONS" then
    if negb allowed then answer (writeJSONError 403 "cors_origin_forbidden" w)
    else answer (WriteHeader 204 (with_header (setCORSHeaders origin (AllowCredentials cfg)) w))
  else
    next r (if allowed then with_header (setCORSHeaders origin (AllowCredentials cfg)) w else w).

(** ** Lemmas *)

Lemma elem_of_add_origins (parts : list string) (acc : gset string) o :
  o ∈ foldl add_origin acc parts <->
  o ∈ acc \/ o <> "" /\ exists p, p ∈ parts /\ TrimSpace p = o.
Proof.
  revert acc; induction parts as [|p parts IH]; intros acc; cbn [foldl]; [set_solver|].
  rewrite IH. unfold add_origin. destruct (String.eqb_spec (TrimSpace p) "") as [E|E]; set_solver.
Qed.

Definition acao : string := "Access-Control-Allow-Origin".

Lemma setCORSHeaders_origin o c h : hGet (setCORSHeaders o c h) acao = o.
Proof.
  unfold setCORSHeaders, hGet, acao. rewrite !lookup_hSet_ne by (vm_compute; done).
  unfold hAdd. destruct c; rewrite ?lookup_hSet_ne by (vm_compute; done);
    rewrite lookup_insert_ne by (vm_compute; done); unfold hSet; by rewrite lookup_insert_eq.
Qed.

(** ** Theorems *)

(** The origin list is exactly the trimmed, non-empty entries of the comma-separated
    setting; in particular a request without an [Origin] header is never an allowed one. *)
Theorem ParseAllowedOrigins_spec csv o :
  o ∈ ParseAllowedOrigins csv <-> o <> "" /\ exists p, p ∈ Split csv comma /\ TrimSpace p = o.
Proof. unfold ParseAllowedOrigins. rewrite elem_of_add_origins. set_solver. Qed.

(** The middleware grants cross-origin access to allowed origins only, and never a
    wildcard. A preflight is answered by the middleware alone: 403 without any CORS header
    for other origins, 204 naming exactly the request's origin for allowed ones. Every other
    request reaches the handler, with the origin echoed in [Access-Control-Allow-Origin] iff
    it is allowed and the header left as it was otherwise. *)
Theorem cors_exact cfg r w :
  rw_sent w = None ->
  let origin := hGet (r_header r) "Origin" in
  let allowed := bool_decide (origin ∈ AllowedOrigins cfg) in
  match corsMiddleware cfg (fun _ w' => inl w') inr r w with
  | inr w' => r_method r = "OPTIONS" /\
      (if allowed
       then rw_status w' = Some 204%Z /\ hGet (sent_header w') acao = origin /\ rw_body w' = rw_body w
       else rw_status w' = Some 403%Z /\ sent_header w' !! acao = rw_header w !! acao)
  | inl w' => r_method r <> "OPTIONS" /\ rw_sent w' = None /\
      (if allowed then hGet (rw_header w') acao = origin else w' = w)
  end.
Proof.
  intros Hw origin allowed. destruct w as [h sent b]; cbn in Hw; subst sent.
  unfold corsMiddleware. fold origin. fold allowed.
  destruct (String.eqb_spec (r_method r) "OPTIONS") as [Hm|Hm].
  - destruct allowed; cbn -[setCORSHeaders acao hSet]; (split; [done|]).
    + split_and!; [done|apply setCORSHeaders_origin|done].
    + split; [done|]. by apply lookup_hSet_ne.
  - destruct allowed; cbn -[setCORSHeaders acao]; (split; [done|]); [|done].
    split; [done|]. apply setCORSHeaders_origin.
Qed.

Lemma cors_exact_witness :
  let cfg := MkCORS (ParseAllowedOrigins " https://a.example , ,https://b.example") false in
  let r := MkRequest "OPTIONS" "/assets/a/master.m3u8" "" {["Origin" := ["https://b.example"]]} "" false false in
  exists w, corsMiddleware cfg (fun _ w' => inl w') inr r new_rw = inr w /\
    rw_status w = Some 204%Z /\ r_method r = "OPTIONS".
Proof.
  intros cfg r. pose proof (cors_exact cfg r new_rw eq_refl) as H. cbv zeta in H.
  eexists. split; [vm_compute; reflexivity|]. split; [vm_compute; reflexivity|]. vm_compute in H. apply H.
Defined.
