(* ===== verification/AssetHandler.v ===== *)
(** * The asset handler

    [internal/assets/handler.go]: dispatch on method and storage mode, local serving, and
    the reverse proxy with its header rewriting, response limits and error answers. A
    handler run yields what was written to the client, whether it panicked, and the list of
    its observable effects (files opened, upstream requests, metrics, access-log fields). *)

From S2P Require Import Prelude GoStrings GoHttp AssetPath FsSecure MaxBytes ProxyGuard.

(** ** Header utilities *)

Definition hopByHopHeaders : list string :=
  ["Connection"; "Keep-Alive"; "Proxy-Authenticate"; "Proxy-Authorization"; "TE"; "Trailer";
   "Transfer-Encoding"; "Upgrade"].

Definition del_all (keys : list string) (h : Header) : Header := foldl (fun h k => hDel k h) h keys.

(** The header names listed in a [Connection] value. *)
Definition connection_fields (connection : string) : list string :=
  filter (fun f => f <> "") (TrimSpace <$> Split connection comma).

Definition removeHopByHopHeaders (h : Header) : Header :=
  let connection := hGet h "Connection" in
  let h1 := del_all hopByHopHeaders h in
  if String.eqb connection "" then h1 else del_all (connection_fields connection) h1.

Definition isSegmentLike (ext : string) : bool :=
  String.eqb ext ".ts" || String.eqb ext ".m4s" || String.eqb ext ".mp4".

Definition immutable_cache : string := "public, max-age=31536000, immutable".

Definition applyContentHeaders (ext : string) (setContentType : bool) (h : Header) : Header :=
  let ct (v : string) (h : Header) := if setContentType then hSet "Content-Type" v h else h in
  if String.eqb ext ".m3u8" then
    hSet "Cache-Control" "public, max-age=5" (ct "application/vnd.apple.mpegurl" h)
  else if String.eqb ext ".ts" then hSet "Cache-Control" immutable_cache (ct "video/mp2t" h)
  else if String.eqb ext ".m4s" then hSet "Cache-Control" immutable_cache (ct "video/iso.segment" h)
  else if String.eqb ext ".mp4" then hSet "Cache-Control" immutable_cache (ct "video/mp4" h)
  else h.

Definition singleJoiningSlash (a b : string) : string :=
  match HasSuffix a "/", HasPrefix b "/" with
  | true, true => a +:+ sdrop 1 b
  | false, false => a +:+ "/" +:+ b
  | _, _ => a +:+ b
  end.

Definition proxyResult (status : Z) : string :=
  if (200 <=? status)%Z && (status <? 400)%Z then "ok"
  else if (400 <=? status)%Z && (status <? 500)%Z then "client_error"
  else if (500 <=? status)%Z then "upstream_error"
  else "error".

(** ** Configuration and effects *)

(** An [OriginSigner] value: a nil interface, an interface holding a nil pointer (not equal to
    nil, and a method call on it panics), or a usable signer. *)
Inductive iface (S : Type) := NilIface | NilPtr | Impl (s : S).
Arguments NilIface {S}.
Arguments NilPtr {S}.
Arguments Impl {S} s.

Record HandlerConfig (S : Type) := MkHandlerConfig {
  AssetsRoot : string;
  MaxSegmentBytes : Z;
  CORSEnabled : bool;
  StorageMode : string;
  OriginBaseURL : string;
  OriginAuthMode : string;
  OriginSigner : iface S;
}.
Arguments AssetsRoot {S} _.
Arguments MaxSegmentBytes {S} _.
Arguments CORSEnabled {S} _.
Arguments StorageMode {S} _.
Arguments OriginBaseURL {S} _.
Arguments OriginAuthMode {S} _.
Arguments OriginSigner {S} _.

(** The request sent to the origin. *)
Record OutReq := MkOut {
  o_method : string;
  o_scheme : string;
  o_host : string;
  o_path : string;
  o_rawpath : string;
  o_rawquery : string;
  o_header : Header;
}.

(** The origin's response. [p_length] is -1 when the length is not announced. *)
Record UpResp := MkResp {
  p_status : Z;
  p_header : Header;
  p_length : Z;
  p_body : upstream;
  p_trailer : list string;
}.

Inductive proxy_err :=
| ErrOriginAuthUnavailable
| ErrProxySegmentTooLarge
| ErrBodyTooLarge
| ErrSign (m : string)
| ErrTransport (m : string).

Inductive log_value := LogString (s : string) | LogInt (z : Z).

Inductive effect :=
| EOpen (root filename : string)  (* a local lookup, successful or not *)
| EUpstream (o : OutReq)
| EObserveProxy (status : Z) (result : string)
| EUpstreamBusy
| ELogField (key : string) (value : log_value).

(** How a handler run ends. *)
Inductive run_end := Returned (w : RW) | Panicked (w : RW).
Definition end_rw (e : run_end) : RW := match e with Returned w | Panicked w => w end.

Definition bytes_string (l : list Z) : string := foldr (fun b s => String (char_of b) s) "" l.

Section Handler.
Context `{UnicodeLower}.
(** The signer's type and its [Sign] method (a new header map, or an error), the URL parser,
    [http.ServeContent], and what the transport answers. *)
Context {S : Type}.
Variable Sign : S -> OutReq -> Z -> result string Header.
Variable serveContent : Request -> FileInfo -> RW -> RW.
Variable transport : OutReq -> result string UpResp.

Definition normalizeStorageMode (mode : string) : string :=
  let m := ToLower (TrimSpace mode) in
  if String.eqb m "proxy" then "proxy" else if String.eqb m "hybrid" then "hybrid" else "filesystem".

Definition normalizeOriginAuthMode (mode : string) : string :=
  if String.eqb (ToLower (TrimSpace mode)) "hmac" then "hmac" else "none".

Record handler := MkHandler {
  h_cfg : HandlerConfig S;
  h_mode : string;
  h_authMode : string;
  h_proxy : option URL;
}.

(** [initProxy]: the origin the proxy is bound to, if there is one. *)
Definition initProxy (url_Parse : string -> option URL) (mode originBaseURL : string) : option URL :=
  if negb (String.eqb mode "proxy") && negb (String.eqb mode "hybrid") then None
  else match url_Parse (TrimSpace originBaseURL) with
       | None => None
       | Some origin =>
           if String.eqb (u_scheme origin) "" || String.eqb (u_host origin) "" then None
           else Some origin
       end.

Definition NewHandler (url_Parse : string -> option URL) (cfg : HandlerConfig S) : handler :=
  let mode := normalizeStorageMode (StorageMode cfg) in
  MkHandler cfg mode (normalizeOriginAuthMode (OriginAuthMode cfg)) (initProxy url_Parse mode (OriginBaseURL cfg)).

(** The semaphore [NewHandler] uses: the given one, or a new one if a limit is set. *)
Definition handlerSemaphore (given : option Semaphore) (maxUpstream : Z) : option Semaphore :=
  match given with
  | Some s => Some s
  | None => if (0 <? maxUpstream)%Z then NewSemaphore maxUpstream else None
  end.

(** A [*originauth.HMACSigner] passed where an [OriginSigner] is expected. *)
Definition signer_iface (p : option S) : iface S :=
  match p with None => NilPtr | Some s => Impl s end.

(** ** Error answers *)

Definition writeErrorStatus (status : Z) (w : RW) : RW :=
  if (status =? 400)%Z then writeJSONError 400 "invalid_request" w
  else if (status =? 404)%Z then writeJSONError 404 "not_found" w
  else if (status =? 413)%Z then writeJSONError 413 "segment_too_large" w
  else writeJSONError 500 "internal_error" w.

(** ** Local files *)

Definition os_IsNotExist (e : open_err) : bool := bool_decide (e = ErrOS ENOENT).

(** The status for a failed open. *)
Definition open_err_status (e : open_err) : Z :=
  if os_IsNotExist e then 404
  else match e with
       | ErrSymlink => 404
       | ErrNotRegular | ErrInvalidFilename => 404
       | ErrOS _ => 500
       end.

(** [TryServeLocal]: [inl] is "served" with the response, [inr] the status of the error. *)
Definition TryServeLocal (h : handler) (env : open_env) (r : Request) (req : assetRequest) (w : RW)
  : RW + Z :=
  match (OpenFileNoSymlinks env (root req) (filename req)).1.1 with
  | Err e => inr (open_err_status e)
  | Ok (_, st) =>
      if isSegmentLike (ext req) && (0 <? MaxSegmentBytes (h_cfg h))%Z &&
         (MaxSegmentBytes (h_cfg h) <? fi_size st)%Z
      then inr 413%Z
      else inl (serveContent r st (with_header (applyContentHeaders (ext req) true) w))
  end.

(** ** The reverse proxy *)

(** The [Rewrite] callback; [prepared] is the header map [ReverseProxy] hands to it. *)
Definition rewriteRequest (origin : URL) (inr : Request) (prepared : Header) : OutReq :=
  let hd := removeHopByHopHeaders prepared in
  let hd := hSet "X-Forwarded-For" (host_or_self (r_remote inr)) hd in
  let hd := hSet "X-Forwarded-Proto" (if r_tls inr then "https" else "http") hd in
  let path := singleJoiningSlash (u_path origin) (r_path inr) in
  MkOut (r_method inr) (u_scheme origin) (u_host origin) path path (r_rawquery inr) hd.

Record proxyRequestMeta := MkMeta { m_ext : string; m_max : Z }.

(** The body after [ModifyResponse]: passed on, or read through the limiter. *)
Inductive out_body := RawBody (u : upstream) | LimitedBody (r : maxBytesReadCloser upstream).

Definition modifyResponse (meta : option proxyRequestMeta) (resp : UpResp)
  : result proxy_err (UpResp * out_body) :=
  let hd := removeHopByHopHeaders (p_header resp) in
  match meta with
  | None => Ok (MkResp (p_status resp) hd (p_length resp) (p_body resp) [], RawBody (p_body resp))
  | Some m =>
      let hd := applyContentHeaders (m_ext m) false hd in
      if isSegmentLike (m_ext m) && (0 <? m_max m)%Z then
        if (m_max m <? p_length resp)%Z then Err ErrProxySegmentTooLarge
        else if (p_length resp <? 0)%Z then
          Ok (MkResp (p_status resp) (hDel "Content-Length" hd) (-1) (p_body resp) [],
              LimitedBody (newMaxBytes (p_body resp) (m_max m)))
        else Ok (MkResp (p_status resp) hd (p_length resp) (p_body resp) [], RawBody (p_body resp))
      else Ok (MkResp (p_status resp) hd (p_length resp) (p_body resp) [], RawBody (p_body resp))
  end.

Definition errorHandler (e : proxy_err) (w : RW) : RW :=
  match e with
  | ErrOriginAuthUnavailable => writeJSONError 503 "upstream_auth_unavailable" w
  | ErrProxySegmentTooLarge | ErrBodyTooLarge => writeJSONError 413 "segment_too_large" w
  | ErrSign _ | ErrTransport _ => writeJSONError 502 "upstream_error" w
  end.

Definition error_status (e : proxy_err) : Z :=
  match e with
  | ErrOriginAuthUnavailable => 503
  | ErrProxySegmentTooLarge | ErrBodyTooLarge => 413
  | ErrSign _ | ErrTransport _ => 502
  end.

Definition base_transport (o : OutReq) : result proxy_err UpResp :=
  match transport o with Ok p => Ok p | Err m => Err (ErrTransport m) end.

(** [RoundTrip]; [None] is the panic of a method call on a nil pointer. *)
Definition roundTrip (h : handler) (now : Z) (o : OutReq) : option (result proxy_err UpResp) * list effect :=
  if String.eqb (h_authMode h) "hmac" then
    match OriginSigner (h_cfg h) with
    | NilIface => (Some (Err ErrOriginAuthUnavailable), [])
    | NilPtr => (None, [])
    | Impl s =>
        match Sign s o now with
        | Err m => (Some (Err (ErrSign m)), [])
        | Ok hd =>
            let o' := MkOut (o_method o) (o_scheme o) (o_host o) (o_path o) (o_rawpath o) (o_rawquery o) hd in
            (Some (base_transport o'), [EUpstream o'])
        end
    end
  else (Some (base_transport o), [EUpstream o]).

(** [copyHeader]: every value of the response is added to the writer's headers. *)
Definition copyHeader (dst src : Header) : Header :=
  union_with (fun a b => Some (a ++ b)) dst src.

(** Copying a body to the client: what arrives, and whether the copy ended normally. The
    buffer is the proxy's 32 KiB one. *)
Definition copyBody (b : out_body) (k : nat) : list Z * bool :=
  match b with
  | RawBody u => (up_data u, bool_decide (up_final u = EOF))
  | LimitedBody r =>
      match copyLoop (length (up_data (lim_R (mb_reader r))) + 2) k r with
      | Some (bs, e) => (bs, bool_decide (e = EOF))
      | None => ([], false)
      end
  end.

(** [httputil.ReverseProxy.ServeHTTP] with the handler's callbacks: the status given to the
    writer, and the end of the run. A body that fails after the status was sent makes the
    proxy panic with [http.ErrAbortHandler]. *)
Definition reverseProxy (h : handler) (origin : URL) (now : Z) (k : nat) (r : Request)
    (prepared : Header) (meta : proxyRequestMeta) (w : RW) : option Z * run_end * list effect :=
  let '(rt, fx) := roundTrip h now (rewriteRequest origin r prepared) in
  match rt with
  | None => (None, Panicked w, fx)
  | Some (Err e) => (Some (error_status e), Returned (errorHandler e w), fx)
  | Some (Ok resp) =>
      match modifyResponse (Some meta) resp with
      | Err e => (Some (error_status e), Returned (errorHandler e w), fx)
      | Ok (resp', body) =>
          let w1 := WriteHeader (p_status resp')
                      (with_header (fun hd => copyHeader hd (p_header resp')) w) in
          let '(bs, ok) := copyBody body k in
          let w2 := match bs with [] => w1 | _ => Write (Bytes (bytes_string bs)) w1 end in
          (Some (p_status resp'), if ok then Returned w2 else Panicked w2, fx)
      end
  end.

(** The environment of one proxied request: its identity, the clock, the copy buffer, the
    headers [ReverseProxy] prepared, and the latency that is logged. *)
Record proxy_env := ProxyEnv {
  pe_id : nat;
  pe_now : Z;
  pe_buf : nat;
  pe_prepared : Header;
  pe_latency : Z;
}.

Definition latency_field (pe : proxy_env) : effect := ELogField "upstream_latency_ms" (LogInt (pe_latency pe)).

(** [h.cfg.Metrics] is not nil: [NewWithDeps] makes a collector when it is given none. *)
Definition ServeProxy (h : handler) (pe : proxy_env) (g : guard_state) (r : Request)
    (req : assetRequest) (w : RW) : run_end * list effect * guard_state :=
  match h_proxy h with
  | None =>
      (Returned (writeJSONError 500 "proxy_not_configured" w), [EObserveProxy 500 "error"], g)
  | Some origin =>
      if String.eqb (h_authMode h) "hmac" && match OriginSigner (h_cfg h) with NilIface => true | _ => false end
      then (Returned (writeJSONError 503 "upstream_auth_unavailable" w),
            [EObserveProxy 503 "upstream_auth_unavailable"], g)
      else
        let '(ok, g1) := guard_enter (pe_id pe) (r_ctx_done r) g in
        if negb ok then
          (Returned (writeJSONError 503 "upstream_busy" w),
           [ELogField "upstream_status" (LogInt 503); latency_field pe; EUpstreamBusy;
            EObserveProxy 503 "upstream_busy"], g1)
        else
          let meta := MkMeta (ext req) (MaxSegmentBytes (h_cfg h)) in
          let '(st, e, fx) := reverseProxy h origin (pe_now pe) (pe_buf pe) r (pe_prepared pe) meta w in
          let g2 := guard_leave (pe_id pe) g1 in
          match e with
          | Panicked w' => (Panicked w', fx, g2)
          | Returned w' =>
              let status := default 200%Z st in
              (Returned w',
               fx ++ [ELogField "upstream_status" (LogInt status); latency_field pe;
                      EObserveProxy status (proxyResult status)], g2)
          end
  end.

(** ** serveHTTP *)

Definition serveHTTP (h : handler) (getwd : result string string) (env : open_env) (pe : proxy_env)
    (g : guard_state) (r : Request) (w : RW) : run_end * list effect * guard_state :=
  let m := r_method r in
  if String.eqb m "GET" || String.eqb m "HEAD" then
    match parseRequest getwd (AssetsRoot (h_cfg h)) (r_path r) with
    | Err (status, _) => (Returned (writeErrorStatus status w), [], g)
    | Ok req =>
        let log := ELogField "mode" (LogString (h_mode h)) in
        let opened := EOpen (root req) (filename req) in
        if String.eqb (h_mode h) "proxy" then
          let '(e, fx, g') := ServeProxy h pe g r req w in (e, log :: fx, g')
        else if String.eqb (h_mode h) "hybrid" then
          match TryServeLocal h env r req w with
          | inl w' => (Returned w', [log; opened], g)
          | inr status =>
              if negb (status =? 404)%Z then (Returned (writeErrorStatus status w), [log; opened], g)
              else let '(e, fx, g') := ServeProxy h pe g r req w in (e, log :: opened :: fx, g')
          end
        else
          match TryServeLocal h env r req w with
          | inl w' => (Returned w', [log; opened], g)
          | inr status => (Returned (writeErrorStatus status w), [log; opened], g)
          end
    end
  else if String.eqb m "OPTIONS" then
    if CORSEnabled (h_cfg h) then (Returned (writeJSONError 403 "cors_origin_forbidden" w), [], g)
    else (Returned (writeJSONError 404 "not_found" w), [], g)
  else (Returned (writeJSONError 405 "method_not_allowed" w), [], g).

(** ** Lemmas: headers *)

Lemma del_all_None keys k (h : Header) : h !! k = None -> del_all keys h !! k = None.
Proof.
  revert h; induction keys as [|k' keys IH]; intros h Hk; [done|]. cbn. apply IH.
  by apply lookup_hDel_None.
Qed.

Lemma del_all_elem keys k (h : Header) : k ∈ keys -> del_all keys h !! CanonicalHeaderKey k = None.
Proof.
  revert h; induction keys as [|k' keys IH]; intros h Hk; [by apply not_elem_of_nil in Hk|].
  cbn. apply elem_of_cons in Hk as [<-|Hk]; [|by apply IH].
  apply del_all_None, lookup_hDel.
Qed.

Lemma del_all_other keys k (h : Header) :
  k ∉ CanonicalHeaderKey <$> keys -> del_all keys h !! k = h !! k.
Proof.
  revert h; induction keys as [|k' keys IH]; intros h Hk; [done|]. cbn in *.
  apply not_elem_of_cons in Hk as [Hne Hk]. change (del_all keys (hDel k' h) !! k = h !! k).
  rewrite IH by done. by apply lookup_hDel_ne.
Qed.

Lemma removeHop_None k (h : Header) :
  (h !! k = None \/ k ∈ CanonicalHeaderKey <$> hopByHopHeaders) ->
  removeHopByHopHeaders h !! k = None.
Proof.
  intros Hk. unfold removeHopByHopHeaders. cbv zeta.
  assert (Hh : del_all hopByHopHeaders h !! k = None).
  { destruct Hk as [Hk|(k' & -> & Hk)%list_elem_of_fmap]; [by apply del_all_None|by apply del_all_elem]. }
  case_match; [done|]. by apply del_all_None.
Qed.

(** No hop-by-hop header passes the proxy. After the filter none of the eight standard
    hop-by-hop headers and none of the headers named in the [Connection] value is left, and
    every other header is untouched. *)
Theorem removeHopByHopHeaders_exact (h : Header) k :
  removeHopByHopHeaders h !! k =
  if decide (k ∈ (CanonicalHeaderKey <$> hopByHopHeaders) ++
                 (CanonicalHeaderKey <$> connection_fields (hGet h "Connection")))
  then None else h !! k.
Proof.
  case_decide as Hk.
  - apply elem_of_app in Hk as [Hk|Hk]; [by apply removeHop_None; right|].
    unfold removeHopByHopHeaders. cbv zeta.
    destruct (String.eqb_spec (hGet h "Connection") "") as [Hc|Hc].
    { rewrite Hc in Hk. vm_compute in Hk. by apply not_elem_of_nil in Hk. }
    apply list_elem_of_fmap in Hk as (f & -> & Hf). by apply del_all_elem.
  - apply not_elem_of_app in Hk as [Hk1 Hk2]. unfold removeHopByHopHeaders. cbv zeta.
    case_match; rewrite ?del_all_other; done.
Qed.

(** ** Lemmas: paths and bodies *)

Lemma slen_bytes_string l : slen (bytes_string l) = length l.
Proof. induction l as [|b l IH]; [done|]. cbn. f_equal. exact IH. Qed.

Lemma singleJoiningSlash_slash a b :
  singleJoiningSlash a ("/" +:+ b) = (if HasSuffix a "/" then a else a +:+ "/") +:+ b.
Proof.
  unfold singleJoiningSlash.
  replace (HasPrefix ("/" +:+ b) "/") with true by (symmetry; apply HasPrefix_spec; eauto).
  destruct (HasSuffix a "/"); [done|]. by rewrite sapp_assoc.
Qed.

(** A response whose announced length, if any, bounds its body (what [net/http] guarantees). *)
Definition honest_length (resp : UpResp) : Prop :=
  (0 <= p_length resp)%Z -> (Z.of_nat (length (up_data (p_body resp))) <= p_length resp)%Z.

Lemma copyBody_limited u m k :
  (0 < k)%nat -> (0 < m < int64_max)%Z ->
  copyBody (LimitedBody (newMaxBytes u m)) k =
  if (Z.of_nat (length (up_data u)) <=? m)%Z then (up_data u, bool_decide (up_final u = EOF))
  else (take (Z.to_nat m) (up_data u), false).
Proof.
  intros Hk Hm. unfold copyBody. cbn [mb_reader newMaxBytes lim_R].
  rewrite (copyLoop_newMaxBytes u k m) by (done || lia).
  destruct (Z.of_nat (length (up_data u)) <=? m)%Z; [done|].
  by rewrite (bool_decide_false (ErrProxyBodyTooLarge = EOF)).
Qed.

(** What is written of a body: nothing if there is nothing to write. *)
Definition segment_chunk (bs : list Z) : list chunk := match bs with [] => [] | _ => [Bytes (bytes_string bs)] end.

(** After [ModifyResponse], copying gives at most the limit of the origin's bytes, from the first on, and all
    of them if the copy ends normally. *)
Lemma modifyResponse_bounded meta resp resp' body k :
  isSegmentLike (m_ext meta) = true -> (0 < m_max meta < int64_max)%Z -> (0 < k)%nat ->
  honest_length resp -> modifyResponse (Some meta) resp = Ok (resp', body) ->
  exists n, (Z.of_nat n <= m_max meta)%Z /\ (copyBody body k).1 = take n (up_data (p_body resp)) /\
    ((copyBody body k).2 = true -> take n (up_data (p_body resp)) = up_data (p_body resp)).
Proof.
  intros Hs Hm Hk Hh. unfold modifyResponse. rewrite Hs. cbn [andb]. cbv zeta.
  destruct (Z.ltb_spec 0 (m_max meta)); [|lia].
  destruct (Z.ltb_spec (m_max meta) (p_length resp)); [done|].
  destruct (Z.ltb_spec (p_length resp) 0).
  - intros [= <- <-]. rewrite copyBody_limited by done.
    destruct (Z.leb_spec (Z.of_nat (length (up_data (p_body resp)))) (m_max meta)); cbn [fst snd].
    + exists (length (up_data (p_body resp))). rewrite firstn_all. done.
    + exists (Z.to_nat (m_max meta)). split; [lia|]. by split.
  - intros [= <- <-]. cbn [copyBody fst snd]. specialize (Hh ltac:(lia)).
    exists (length (up_data (p_body resp))). rewrite firstn_all. split; [lia|]. done.
Qed.

Lemma errorHandler_body e w :
  exists code, rw_body (errorHandler e w) = rw_body w ++ [Bytes (json_field "error" code)].
Proof.
  assert (Hw : forall st code, rw_body (writeJSONError st code w) = rw_body w ++ [Bytes (json_field "error" code)]).
  { intros st code. destruct w as [hd [p|] b]; reflexivity. }
  destruct e; cbn [errorHandler]; eauto.
Qed.

Lemma Write_body c w : rw_body (Write c w) = rw_body w ++ [c].
Proof. destruct w as [hd [p|] b]; reflexivity. Qed.

Lemma WriteHeader_body st w : rw_body (WriteHeader st w) = rw_body w.
Proof. destruct w as [hd [p|] b]; reflexivity. Qed.

(** ** Lemmas: effects *)

Lemma roundTrip_upstream h now o rt fx o' :
  roundTrip h now o = (rt, fx) -> EUpstream o' ∈ fx ->
  o_method o' = o_method o /\ o_scheme o' = o_scheme o /\ o_host o' = o_host o /\
  o_path o' = o_path o /\ o_rawquery o' = o_rawquery o.
Proof.
  unfold roundTrip. repeat case_match; intros [= <- <-]; intros Hin;
    rewrite ?elem_of_nil, ?list_elem_of_singleton in Hin; naive_solver.
Qed.

Lemma roundTrip_no_open h now o rt fx rt0 f0 :
  roundTrip h now o = (rt, fx) -> EOpen rt0 f0 ∉ fx.
Proof.
  unfold roundTrip. repeat case_match; intros [= <- <-]; set_solver.
Qed.

Lemma reverseProxy_effects h origin now k r prepared meta w st e fx :
  reverseProxy h origin now k r prepared meta w = (st, e, fx) ->
  exists rt, roundTrip h now (rewriteRequest origin r prepared) = (rt, fx).
Proof.
  unfold reverseProxy. destruct (roundTrip h now _) as [rt fx0]. exists rt.
  repeat case_match; simplify_eq; done.
Qed.

(** What a proxied request sends, it sends in [roundTrip] of the rewritten request. *)
Lemma ServeProxy_roundTrip h pe g r req w e fx g' o :
  ServeProxy h pe g r req w = (e, fx, g') -> EUpstream o ∈ fx ->
  exists origin rt fx0, h_proxy h = Some origin /\
    roundTrip h (pe_now pe) (rewriteRequest origin r (pe_prepared pe)) = (rt, fx0) /\ EUpstream o ∈ fx0.
Proof.
  unfold ServeProxy. destruct (h_proxy h) as [origin|]; [|intros [= <- <- <-]; set_solver].
  case_match; [intros [= <- <- <-]; set_solver|].
  destruct (guard_enter _ _ _) as [ok g1].
  destruct ok; cbn [negb]; [|intros [= <- <- <-]; unfold latency_field; set_solver].
  destruct (reverseProxy _ _ _ _ _ _ _ _) as [[st e0] fx0] eqn:Er.
  apply reverseProxy_effects in Er as [rt Ert]. intros Heq Hin.
  exists origin, rt, fx0. split; [done|]. split; [done|].
  destruct e0; injection Heq as <- <- <-; [|done]. unfold latency_field in Hin. set_solver.
Qed.

(** Everything a proxied request sends goes to the configured origin. *)
Lemma ServeProxy_upstream h pe g r req w e fx g' o :
  ServeProxy h pe g r req w = (e, fx, g') -> EUpstream o ∈ fx ->
  exists origin, h_proxy h = Some origin /\ o_method o = r_method r /\
    o_scheme o = u_scheme origin /\ o_host o = u_host origin /\
    o_path o = singleJoiningSlash (u_path origin) (r_path r) /\ o_rawquery o = r_rawquery r.
Proof.
  intros Hs Hin. destruct (ServeProxy_roundTrip _ _ _ _ _ _ _ _ _ _ Hs Hin) as (origin & rt & fx0 & Hp & Hr & Hin0).
  exists origin. split; [done|]. apply (roundTrip_upstream _ _ _ _ _ _ Hr Hin0).
Qed.

Lemma ServeProxy_no_open h pe g r req w e fx g' rt f :
  ServeProxy h pe g r req w = (e, fx, g') -> EOpen rt f ∉ fx.
Proof.
  unfold ServeProxy. destruct (h_proxy h) as [origin|]; [|intros [= <- <- <-]; set_solver].
  case_match; [intros [= <- <- <-]; set_solver|].
  destruct (guard_enter _ _ _) as [ok g1].
  destruct ok; cbn [negb]; [|intros [= <- <- <-]; unfold latency_field; set_solver].
  destruct (reverseProxy _ _ _ _ _ _ _ _) as [[st e0] fx0] eqn:Er.
  apply reverseProxy_effects in Er as [rt0 Ert].
  pose proof (roundTrip_no_open _ _ _ _ _ rt f Ert).
  destruct e0; intros [= <- <- <-]; unfold latency_field; set_solver.
Qed.

(** Nothing is sent but by [ServeProxy]. *)
Lemma serveHTTP_ServeProxy h getwd env pe g r w e fx g' o :
  serveHTTP h getwd env pe g r w = (e, fx, g') -> EUpstream o ∈ fx ->
  exists req e0 fx0 g0, ServeProxy h pe g r req w = (e0, fx0, g0) /\ EUpstream o ∈ fx0.
Proof.
  unfold serveHTTP. cbv zeta.
  destruct (_ || _); [|repeat case_match; intros [= <- <- <-]; set_solver].
  destruct (parseRequest _ _ _) as [req|[status ?]]; [|intros [= <- <- <-]; set_solver].
  destruct (ServeProxy h pe g r req w) as [[e0 fx0] g0] eqn:Hs.
  destruct (String.eqb _ "proxy").
  - intros [= <- <- <-] Hin. exists req, e0, fx0, g0. split; [done|set_solver].
  - destruct (String.eqb _ "hybrid"); destruct (TryServeLocal _ _ _ _ _); [| destruct (negb _)| |];
      intros [= <- <- <-] Hin; try (exfalso; set_solver).
    exists req, e0, fx0, g0. split; [done|set_solver].
Qed.

Lemma accepted_upstream_path origin getwd rt path req :
  parseRequest getwd rt path = Ok req ->
  singleJoiningSlash (u_path origin) path =
  (if HasSuffix (u_path origin) "/" then u_path origin else u_path origin +:+ "/") +:+
  "assets/" +:+ assetID req +:+ "/" +:+ filename req.
Proof.
  intros (-> & _)%parseRequest_Ok.
  exact (singleJoiningSlash_slash (u_path origin) ("assets/" +:+ assetID req +:+ "/" +:+ filename req)).
Qed.

(** ** Theorems *)

(** What the reverse proxy writes for a segment: one JSON error; nothing, if it panics before it has an
    answer; or at most [MaxSegmentBytes] of the bytes of the origin's answer, from the first on, and all
    of them if it returns normally. *)
Definition segment_written (max : Z) (w : RW) (e : run_end) (fx : list effect) : Prop :=
  (exists code, e = Returned (end_rw e) /\ rw_body (end_rw e) = rw_body w ++ [Bytes (json_field "error" code)]) \/
  e = Panicked w \/
  exists o resp n, EUpstream o ∈ fx /\ transport o = Ok resp /\ (Z.of_nat n <= max)%Z /\
    rw_body (end_rw e) = rw_body w ++ segment_chunk (take n (up_data (p_body resp))) /\
    (e = Returned (end_rw e) -> take n (up_data (p_body resp)) = up_data (p_body resp)).

Lemma reverseProxy_segment h origin now k r prepared meta w st e fx :
  isSegmentLike (m_ext meta) = true -> (0 < m_max meta < int64_max)%Z -> (0 < k)%nat ->
  (forall o resp, transport o = Ok resp -> honest_length resp) ->
  reverseProxy h origin now k r prepared meta w = (st, e, fx) -> segment_written (m_max meta) w e fx.
Proof.
  intros Hs Hm Hk Hh. unfold reverseProxy, segment_written.
  destruct (roundTrip h now _) as [rt fx0] eqn:Ert. destruct rt as [[resp|err]|].
  - assert (Ho : exists o, EUpstream o ∈ fx0 /\ transport o = Ok resp).
    { revert Ert. unfold roundTrip, base_transport.
      repeat case_match; intros; simplify_eq; eexists; (split; [apply list_elem_of_singleton; reflexivity|done]). }
    destruct Ho as (o & Ho & Hr). destruct (modifyResponse (Some meta) resp) as [[resp' body]|err] eqn:Em.
    + destruct (modifyResponse_bounded meta resp resp' body k Hs Hm Hk (Hh _ _ Hr) Em) as (n & Hn & Hb & Hall).
      destruct (copyBody body k) as [bs ok] eqn:Ec. cbn [fst snd] in Hb, Hall. subst bs.
      intros Heq. injection Heq as <- <- <-. right; right. exists o, resp, n. split_and!; [done..| |].
      * destruct ok, (take n (up_data (p_body resp))); cbn [end_rw]; rewrite ?Write_body, WriteHeader_body, ?app_nil_r; done.
      * destruct ok; [by intros _; apply Hall|done].
    + intros Heq. injection Heq as <- <- <-. left. destruct (errorHandler_body err w) as [code Hc]. by exists code.
  - intros Heq. injection Heq as <- <- <-. left. destruct (errorHandler_body err w) as [code Hc]. by exists code.
  - intros Heq. injection Heq as <- <- <-. right; by left.
Qed.

Lemma ServeProxy_segment h pe g r req w e fx g' :
  isSegmentLike (ext req) = true -> (0 < MaxSegmentBytes (h_cfg h) < int64_max)%Z -> (0 < pe_buf pe)%nat ->
  (forall o resp, transport o = Ok resp -> honest_length resp) ->
  ServeProxy h pe g r req w = (e, fx, g') -> segment_written (MaxSegmentBytes (h_cfg h)) w e fx.
Proof.
  intros Hs Hm Hk Hh. unfold ServeProxy.
  assert (Hj : forall st code, rw_body (writeJSONError st code w) = rw_body w ++ [Bytes (json_field "error" code)]).
  { intros st code. destruct w as [hd [p|] b]; reflexivity. }
  destruct (h_proxy h) as [origin|]; [|intros [= <- <- <-]; left; eauto].
  case_match; [intros [= <- <- <-]; left; eauto|].
  destruct (guard_enter _ _ _) as [ok g1]. destruct ok; cbn [negb]; [|intros [= <- <- <-]; left; eauto].
  destruct (reverseProxy _ _ _ _ _ _ _ _) as [[st e0] fx0] eqn:Er.
  apply reverseProxy_segment in Er; [|done..]. cbn [m_max] in Er.
  destruct e0; intros [= <- <- <-]; [|done].
  destruct Er as [?|[?|(o & resp & n & Ho & ?)]]; [by left|done|]. right; right. exists o, resp, n. split; [set_solver|done].
Qed.

(** C3: nothing but validated asset files is ever touched. Whatever the request, mode and
    environment, a local lookup is made only for a GET or HEAD whose path passed validation,
    and only in that asset's directory; and a request leaves for the upstream only under the
    same condition, only to the configured origin's scheme and host, and only for
    [<origin path>/assets/<id>/<file>] with the client's method and query. *)
Theorem serveHTTP_touches_only_assets h getwd env pe g r w e fx g' :
  serveHTTP h getwd env pe g r w = (e, fx, g') ->
  (forall rt f, EOpen rt f ∈ fx ->
     (r_method r = "GET" \/ r_method r = "HEAD") /\
     exists req, parseRequest getwd (AssetsRoot (h_cfg h)) (r_path r) = Ok req /\
       rt = Join [AssetsRoot (h_cfg h); assetID req] /\ f = filename req) /\
  (forall o, EUpstream o ∈ fx ->
     (r_method r = "GET" \/ r_method r = "HEAD") /\
     exists origin req, h_proxy h = Some origin /\
       parseRequest getwd (AssetsRoot (h_cfg h)) (r_path r) = Ok req /\
       o_method o = r_method r /\ o_scheme o = u_scheme origin /\ o_host o = u_host origin /\
       o_path o = (if HasSuffix (u_path origin) "/" then u_path origin else u_path origin +:+ "/") +:+
                  "assets/" +:+ assetID req +:+ "/" +:+ filename req /\
       o_rawquery o = r_rawquery r).
Proof.
  unfold serveHTTP. cbv zeta.
  destruct (String.eqb (r_method r) "GET" || String.eqb (r_method r) "HEAD") eqn:Hm;
    [|repeat case_match; intros [= <- <- <-]; set_solver].
  assert (Hm' : r_method r = "GET" \/ r_method r = "HEAD").
  { apply orb_true_iff in Hm as [Hm|Hm]; apply String.eqb_eq in Hm; auto. }
  destruct (parseRequest _ _ _) as [req|[status ?]] eqn:Hp; [|intros [= <- <- <-]; set_solver].
  pose proof (parseRequest_Ok _ _ _ _ Hp) as (_ & _ & _ & _ & _ & Hroot & _).
  assert (Hup : forall e0 fx0 g0 o, ServeProxy h pe g r req w = (e0, fx0, g0) -> EUpstream o ∈ fx0 ->
    exists origin req0, h_proxy h = Some origin /\ Ok req = @Ok (Z * string) _ req0 /\
       o_method o = r_method r /\ o_scheme o = u_scheme origin /\ o_host o = u_host origin /\
       o_path o = (if HasSuffix (u_path origin) "/" then u_path origin else u_path origin +:+ "/") +:+
                  "assets/" +:+ assetID req0 +:+ "/" +:+ filename req0 /\ o_rawquery o = r_rawquery r).
  { intros e0 fx0 g0 o Hs Hin. destruct (ServeProxy_upstream _ _ _ _ _ _ _ _ _ _ Hs Hin)
      as (origin & ? & ? & ? & ? & Hpath & ?).
    exists origin, req. rewrite Hpath, (accepted_upstream_path origin _ _ _ _ Hp). done. }
  destruct (String.eqb (h_mode h) "proxy").
  - destruct (ServeProxy h pe g r req w) as [[e0 fx0] g0] eqn:Hs. intros [= <- <- <-].
    pose proof (fun rt f => ServeProxy_no_open _ _ _ _ _ _ _ _ _ rt f Hs) as Hno. split.
    + intros rt f Hin. exfalso. apply (Hno rt f). set_solver.
    + intros o Hin. split; [done|]. apply (Hup _ _ _ o eq_refl). set_solver.
  - destruct (String.eqb (h_mode h) "hybrid"); destruct (TryServeLocal h env r req w) as [w'|status];
      [|destruct (negb _)| |]; try (intros [= <- <- <-]; split; [|set_solver]; intros rt f Hin;
        split; [done|]; exists req; split; [done|]; assert (EOpen rt f = EOpen (root req) (filename req)) by set_solver;
        naive_solver).
    destruct (ServeProxy h pe g r req w) as [[e0 fx0] g0] eqn:Hs. intros [= <- <- <-].
    pose proof (fun rt f => ServeProxy_no_open _ _ _ _ _ _ _ _ _ rt f Hs) as Hno. split.
    + intros rt f Hin. split; [done|]. exists req. split; [done|].
      assert (EOpen rt f = EOpen (root req) (filename req)) by (specialize (Hno rt f); set_solver).
      naive_solver.
    + intros o Hin. split; [done|]. apply (Hup _ _ _ o eq_refl). set_solver.
Qed.

(** Storage modes are respected. In filesystem mode no request ever leaves for the
    upstream and the concurrency guard is not touched; in proxy mode no local file is looked
    up; in hybrid mode the upstream is asked only after the local lookup ended in 404, so a
    local file that is too large or unreadable is never replaced by the origin's. *)
Theorem serveHTTP_mode_isolation h getwd env pe g r w e fx g' :
  serveHTTP h getwd env pe g r w = (e, fx, g') ->
  (h_mode h = "filesystem" -> g' = g /\ forall o, EUpstream o ∉ fx) /\
  (h_mode h = "proxy" -> forall rt f, EOpen rt f ∉ fx) /\
  (h_mode h = "hybrid" -> forall o, EUpstream o ∈ fx ->
     exists req, parseRequest getwd (AssetsRoot (h_cfg h)) (r_path r) = Ok req /\
                 TryServeLocal h env r req w = inr 404%Z).
Proof.
  unfold serveHTTP. cbv zeta.
  destruct (_ || _); [|repeat case_match; intros [= <- <- <-]; set_solver].
  destruct (parseRequest _ _ _) as [req|[status ?]]; [|intros [= <- <- <-]; set_solver].
  destruct (String.eqb_spec (h_mode h) "proxy") as [Hp|Hp].
  - rewrite Hp. destruct (ServeProxy h pe g r req w) as [[e0 fx0] g0] eqn:Hs. intros [= <- <- <-].
    pose proof (fun rt f => ServeProxy_no_open _ _ _ _ _ _ _ _ _ rt f Hs) as Hno.
    split; [done|]. split; [|done]. intros _ rt f. specialize (Hno rt f). set_solver.
  - destruct (String.eqb_spec (h_mode h) "hybrid") as [Hh|Hh].
    + rewrite Hh. destruct (TryServeLocal h env r req w) as [w'|status] eqn:Ht;
        [intros [= <- <- <-]; set_solver|].
      destruct (Z.eqb_spec status 404) as [->|]; cbn [negb]; [|intros [= <- <- <-]; set_solver].
      destruct (ServeProxy h pe g r req w) as [[e0 fx0] g0]. intros [= <- <- <-]. naive_solver.
    + destruct (TryServeLocal h env r req w); intros [= <- <- <-]; set_solver.
Qed.

(** The upstream slot is always given back. Whether the proxied request is answered,
    refused, fails or panics half-way through the body, after [ServeProxy] the semaphore,
    the set of requests in the guarded part and the in-flight gauge are what they were before. *)
Theorem ServeProxy_releases h pe g r req w e fx g' :
  pe_id pe ∉ guard_ids g -> ServeProxy h pe g r req w = (e, fx, g') ->
  gs_sem g' = gs_sem g /\ guard_ids g' = guard_ids g /\ gs_gauge g' = gs_gauge g.
Proof.
  intros Hid. unfold ServeProxy.
  destruct (h_proxy h) as [origin|]; [|by intros [= <- <- <-]].
  case_match; [by intros [= <- <- <-]|].
  destruct (guard_enter (pe_id pe) (r_ctx_done r) g) as [ok g1] eqn:Hg. destruct ok; cbn [negb].
  - destruct (reverseProxy _ _ _ _ _ _ _ _) as [[st e0] fx0].
    destruct e0; intros [= <- <- <-]; by rewrite (guard_enter_leave _ (r_ctx_done r) g).
  - intros [= <- <- <-]. by apply guard_enter_refused in Hg as (? & ? & ? & _).
Qed.

(** A file system that does not change during a request. *)
Definition stable_env (s : fs) (target : string) : open_env :=
  OpenEnv s s s (match resolve_path s false target with
                 | Ok (NReg _ sz mt _) => Ok (sz, mt)
                 | _ => Err EIO
                 end).

Lemma open_stable s rootDir f ri :
  plain f -> Contains f "\" = false -> os_Lstat s rootDir = Ok ri -> fi_kind ri = KDir ->
  (OpenFileNoSymlinks (stable_env s (Join [rootDir; f])) rootDir f).1.1 =
  match resolve_path s false (Join [rootDir; f]) with
  | Ok (NReg i sz mt true) => Ok (MkHandle KReg i, MkInfo KReg i sz mt)
  | Ok (NReg _ _ _ false) => Err (ErrOS EACCES)
  | Ok (NLink _ _) => Err ErrSymlink
  | Ok _ => Err ErrNotRegular
  | Err e => Err (ErrOS e)
  end.
Proof.
  intros Hf Hbs Hr Hk. pose proof (Base_plain _ Hf) as Hb. destruct Hf as (Hne & _ & _ & Hs).
  assert (Hs' : Contains f "/" = false) by (by rewrite (Contains_char "/"%char)).
  unfold OpenFileNoSymlinks, open_prechecks, stable_env. cbn [at_lstat_root at_lstat_target at_open].
  rewrite (proj2 (String.eqb_neq _ _) Hne), Hb, String.eqb_refl, Hs', Hbs, Hr. cbn.
  unfold IsDir, IsSymlink, os_Lstat. rewrite Hk. cbn.
  destruct (resolve_path s false (Join [rootDir; f])) as [n|err] eqn:Hn; cbn; [|done].
  destruct n as [i sz mt rd|i rd es|i t|i]; cbn; [|done..].
  assert (Ho : resolve_path s true (Join [rootDir; f]) = Ok (NReg i sz mt rd)).
  { unfold resolve_path in *. case_match; [done|]. by apply resolve_follow. }
  unfold os_Open. rewrite Ho. destruct rd; cbn; [|done].
  unfold open_postchecks, os_SameFile; cbn. by rewrite Z.eqb_refl.
Qed.

(** C32: what a client gets in filesystem mode, on every branch. For an accepted GET or HEAD
    in an existing asset directory: a readable regular file is handed to
    [http.ServeContent] with the headers of its extension, unless it is a segment larger
    than the limit (413); a link, a directory, a special file or a missing entry is 404;
    every other failure of the lookup is 500. *)
Theorem filesystem_answer h getwd s pe g r w req ri :
  h_mode h = "filesystem" -> (r_method r = "GET" \/ r_method r = "HEAD") ->
  parseRequest getwd (AssetsRoot (h_cfg h)) (r_path r) = Ok req ->
  os_Lstat s (root req) = Ok ri -> fi_kind ri = KDir ->
  (serveHTTP h getwd (stable_env s (target req)) pe g r w).1.1 = Returned
    match resolve_path s false (target req) with
    | Ok (NReg i sz mt true) =>
        if isSegmentLike (ext req) && (0 <? MaxSegmentBytes (h_cfg h))%Z && (MaxSegmentBytes (h_cfg h) <? sz)%Z
        then writeJSONError 413 "segment_too_large" w
        else serveContent r (MkInfo KReg i sz mt) (with_header (applyContentHeaders (ext req) true) w)
    | Ok (NReg _ _ _ false) => writeJSONError 500 "internal_error" w
    | Ok _ => writeJSONError 404 "not_found" w
    | Err ENOENT => writeJSONError 404 "not_found" w
    | Err _ => writeJSONError 500 "internal_error" w
    end.
Proof.
  intros Hm Hmeth Hp Hr Hk. unfold serveHTTP. cbv zeta.
  replace (String.eqb (r_method r) "GET" || String.eqb (r_method r) "HEAD") with true
    by (destruct Hmeth as [-> | ->]; done).
  pose proof (parseRequest_Ok _ _ _ _ Hp) as (_ & _ & Hf & Hbs & _ & _ & Ht).
  rewrite Hp, Hm. cbn [String.eqb]. unfold TryServeLocal. rewrite Ht.
  rewrite (open_stable s (root req) (filename req) ri Hf Hbs Hr Hk).
  destruct (resolve_path s false _) as [[i sz mt []| | |]|err]; cbn; try reflexivity.
  - destruct (_ && _ && _); reflexivity.
  - by destruct err.
Qed.

(** An over-long body of unknown length aborts the run after the status went out. When
    the origin announces no length and sends more than the limit, the client has already
    been given the origin's status and exactly the first [MaxSegmentBytes] bytes, and the
    proxy panics: the 413 answer of [errorHandler] is not reachable for such a body. *)
Lemma overlong_stream_panics h origin now k r prepared ext0 m hd0 resp :
  h_authMode h = "none" -> isSegmentLike ext0 = true -> (0 < m < int64_max)%Z -> (0 < k)%nat ->
  transport (rewriteRequest origin r prepared) = Ok resp -> (p_length resp < 0)%Z ->
  (m < Z.of_nat (length (up_data (p_body resp))))%Z ->
  exists w', (reverseProxy h origin now k r prepared (MkMeta ext0 m) (MkRW hd0 None [] [])).1.2 = Panicked w' /\
    rw_status w' = Some (p_status resp) /\
    rw_body w' = [Bytes (bytes_string (take (Z.to_nat m) (up_data (p_body resp))))].
Proof.
  intros Ha Hs Hm Hk Ht Hlen Hlong.
  assert (exists hd, modifyResponse (Some (MkMeta ext0 m)) resp =
    Ok (MkResp (p_status resp) hd (-1) (p_body resp) [], LimitedBody (newMaxBytes (p_body resp) m))) as [hd Hmod].
  { eexists. unfold modifyResponse. cbv zeta. cbn [m_ext m_max]. rewrite Hs. cbn [andb].
    destruct (Z.ltb_spec 0 m); [|lia]. destruct (Z.ltb_spec m (p_length resp)); [lia|].
    destruct (Z.ltb_spec (p_length resp) 0); [|lia]. reflexivity. }
  unfold reverseProxy, roundTrip, base_transport. rewrite Ha, Ht.
  change (String.eqb "none" "hmac") with false. cbn beta iota.
  rewrite Hmod, copyBody_limited by done.
  destruct (Z.leb_spec (Z.of_nat (length (up_data (p_body resp)))) m); [lia|].
  destruct (take (Z.to_nat m) (up_data (p_body resp))) as [|b bs] eqn:Htk.
  { apply (f_equal length) in Htk. rewrite length_take in Htk. cbn in Htk. lia. }
  cbn [fst snd]. eexists. split; [reflexivity|]. split; reflexivity.
Qed.

(** A missing secret does not lead to the 503 that the code means to give. When start-up
    could not load the secret, the signer is a nil [*HMACSigner] inside a non-nil interface,
    so the nil test of [ServeProxy] does not see it and every proxied request that gets a
    slot panics inside [Sign], without any answer having been written. *)
Theorem nil_signer_panics h pe g r req w origin :
  h_proxy h = Some origin -> h_authMode h = "hmac" ->
  OriginSigner (h_cfg h) = signer_iface None ->
  (guard_enter (pe_id pe) (r_ctx_done r) g).1 = true ->
  (ServeProxy h pe g r req w).1.1 = Panicked w.
Proof.
  intros Hp Ha Hsg Hg. unfold ServeProxy. rewrite Hp, Ha, Hsg. cbn [String.eqb andb signer_iface].
  destruct (guard_enter _ _ _) as [ok g1]. cbn in Hg. subst ok. cbn [negb].
  unfold reverseProxy, roundTrip. rewrite Ha, Hsg. reflexivity.
Qed.
End Handler.

(** ** Witnesses *)

Module HandlerDemo.
#[local] Instance demo_lower : UnicodeLower := fun s => s.
Definition sign (_ : unit) (o : OutReq) (_ : Z) : result string Header := Ok (o_header o).
Definition parse (_ : string) : option URL := Some (MkURL "http" "origin:9000" "/media/").
Definition content (_ : Request) (i : FileInfo) (w : RW) : RW := Write (FileContent (fi_ino i) (fi_size i)) w.
Definition body : upstream := Upstream [65; 66; 67; 68; 69]%Z [1; 0]%nat EOF false.
Definition origin_says (_ : OutReq) : result string UpResp := Ok (MkResp 200 ∅ (-1) body []).
Definition cfg (mode auth : string) (sg : iface unit) : HandlerConfig unit :=
  MkHandlerConfig _ "data" 3 false mode "http://origin:9000/media/" auth sg.
Definition h (mode auth : string) (sg : iface unit) : handler := NewHandler parse (cfg mode auth sg).
Definition get (path : string) : Request := MkRequest "GET" path "v=1" ∅ "10.1.2.3:999" false false.
Definition pe : proxy_env := ProxyEnv 1 0 2 ∅ 0.
Definition ts_req : assetRequest := AssetRequest "a1" "s.ts" ".ts" "data/a1" "data/a1/s.ts".
Definition pl_req : assetRequest :=
  AssetRequest "a1" "master.m3u8" ".m3u8" "data/a1" "data/a1/master.m3u8".
Definition env : open_env := stable_env demo_fs "data/a1/s.ts".

Lemma serveHTTP_touches_only_assets_witness :
  let res := serveHTTP sign content origin_says (h "hybrid" "none" NilIface) (Ok "/srv") env pe
               (guard_init 2) (get "/assets/a1/s.ts") new_rw in
  res.1.2 !! 1 = Some (EOpen "data/a1" "s.ts") /\
  (forall o, EUpstream o ∈ res.1.2 -> o_host o = "origin:9000" /\ o_path o = "/media/assets/a1/s.ts").
Proof.
  intros res. split; [vm_compute; reflexivity|]. intros o Ho.
  destruct (serveHTTP_touches_only_assets (S := unit) sign content origin_says (h "hybrid" "none" NilIface)
    (Ok "/srv") env pe (guard_init 2) (get "/assets/a1/s.ts") new_rw res.1.1 res.1.2 res.2) as [_ Hup].
  { subst res. by destruct (serveHTTP _ _ _ _ _ _ _ _ _ _) as [[? ?] ?]. }
  destruct (Hup o Ho) as (_ & origin & req & Hor & Hp & _ & _ & -> & -> & _).
  vm_compute in Hor. injection Hor as <-. vm_compute in Hp. injection Hp as <-. split; vm_compute; reflexivity.
Defined.

Lemma serveHTTP_mode_isolation_witness :
  let res := serveHTTP sign content origin_says (h " Filesystem" "none" NilIface) (Ok "/srv") env pe
               (guard_init 2) (get "/assets/a1/s.ts") new_rw in
  rw_status (end_rw res.1.1) = Some 404%Z /\ res.2 = guard_init 2.
Proof.
  intros res. split; [vm_compute; reflexivity|].
  apply (serveHTTP_mode_isolation (S := unit) sign content origin_says (h " Filesystem" "none" NilIface)
    (Ok "/srv") env pe (guard_init 2) (get "/assets/a1/s.ts") new_rw res.1.1 res.1.2 res.2).
  - subst res. by destruct (serveHTTP _ _ _ _ _ _ _ _ _ _) as [[? ?] ?].
  - vm_compute; reflexivity.
Defined.

Lemma ServeProxy_releases_witness :
  let res := ServeProxy sign origin_says (h "proxy" "none" NilIface) pe (guard_init 2)
               (get "/assets/a1/s.ts") ts_req new_rw in
  (exists w, res.1.1 = Panicked w) /\ gs_inflight res.2 = ∅.
Proof.
  intros res. split; [eexists; vm_compute; reflexivity|].
  apply (ServeProxy_releases (S := unit) sign origin_says (h "proxy" "none" NilIface) pe (guard_init 2)
    (get "/assets/a1/s.ts") ts_req new_rw res.1.1 res.1.2 res.2).
  - vm_compute; congruence.
  - subst res. by destruct (ServeProxy _ _ _ _ _ _ _ _) as [[? ?] ?].
Defined.

Lemma filesystem_answer_witness :
  (serveHTTP sign content origin_says (h "filesystem" "none" NilIface) (Ok "/srv")
     (stable_env demo_fs (target pl_req)) pe (guard_init 2) (get "/assets/a1/master.m3u8") new_rw).1.1
  = Returned (content (get "") (MkInfo KReg 4 120 0) (with_header (applyContentHeaders ".m3u8" true) new_rw)).
Proof.
  rewrite (filesystem_answer (S := unit) sign content origin_says (h "filesystem" "none" NilIface) (Ok "/srv")
    demo_fs pe (guard_init 2) (get "/assets/a1/master.m3u8") new_rw pl_req (MkInfo KDir 3 0 0)).
  - vm_compute; reflexivity.
  - vm_compute; reflexivity.
  - by left.
  - vm_compute; reflexivity.
  - vm_compute; reflexivity.
  - reflexivity.
Defined.

Example overlong_stream_demo :
  exists w', (reverseProxy sign origin_says (h "proxy" "none" NilIface) (MkURL "http" "o" "/") 0 2
      (get "/assets/a1/s.ts") ∅ (MkMeta ".ts" 3) new_rw).1.2 = Panicked w' /\
    rw_status w' = Some 200%Z /\ rw_body w' = [Bytes "ABC"].
Proof.
  apply (overlong_stream_panics (S := unit) sign origin_says (h "proxy" "none" NilIface) (MkURL "http" "o" "/") 0 2
    (get "/assets/a1/s.ts") ∅ ".ts" 3 ∅ (MkResp 200 ∅ (-1) body [])); try reflexivity.
  - vm_compute; done.
  - lia.
Qed.

Lemma nil_signer_panics_witness :
  (ServeProxy sign origin_says (h "proxy" "hmac" (signer_iface None)) pe (guard_init 2)
     (get "/assets/a1/s.ts") ts_req new_rw).1.1 = Panicked new_rw.
Proof.
  apply (nil_signer_panics (S := unit) sign origin_says (h "proxy" "hmac" (signer_iface None)) pe (guard_init 2)
    (get "/assets/a1/s.ts") ts_req new_rw (MkURL "http" "origin:9000" "/media/")); vm_compute; reflexivity.
Defined.
End HandlerDemo.
