(* ===== verification/OriginAuth.v ===== *)
(** * Authentication towards the origin

    [internal/originauth/hmac.go]: the signer that adds key id, timestamp, nonce, signature and
    provider id to every upstream request, what it uses of [net/url] (escaping of paths), and the
    part of [main] that loads its secret. The theorems say that the signed text determines the
    request it was made for, that whoever holds the secret can check a signed request from the
    request alone, and that with [hmac] configured nothing leaves for the origin without such a
    signature, whatever headers the client sent. *)

From S2P Require Import Prelude GoStrings GoHttp GoTime Sha256 ProxyGuard AssetPath FsSecure AssetHandler.
Open Scope Z_scope.

(** ** Escaping of paths ([net/url]) *)

Definition one_of (l : list Z) (c : Ascii.ascii) : bool := existsb (Z.eqb (byte_of c)) l.

Definition is_alnum (c : Ascii.ascii) : bool :=
  let b := byte_of c in
  ((97 <=? b) && (b <=? 122)) || ((65 <=? b) && (b <=? 90)) || ((48 <=? b) && (b <=? 57)).

(** [shouldEscape] in the mode for paths: letters, digits and [-_.~$&+,/:;=@] stay. *)
Definition shouldEscape (c : Ascii.ascii) : bool :=
  negb (is_alnum c || one_of [45; 95; 46; 126; 36; 38; 43; 44; 47; 58; 59; 61; 64] c).

(** [validEncoded] accepts in addition [!'()*[]%]. *)
Definition valid_encoded_byte (c : Ascii.ascii) : bool :=
  one_of [33; 39; 40; 41; 42; 91; 93; 37] c || negb (shouldEscape c).

Definition validEncoded (s : string) : bool := sall valid_encoded_byte s.

Definition upperhex (n : Z) : Ascii.ascii := char_of (if n <? 10 then 48 + n else 55 + n).

Definition unhex (c : Ascii.ascii) : option Z :=
  let b := byte_of c in
  if (48 <=? b) && (b <=? 57) then Some (b - 48)
  else if (97 <=? b) && (b <=? 102) then Some (b - 87)
  else if (65 <=? b) && (b <=? 70) then Some (b - 55)
  else None.

Fixpoint escape (s : string) : string :=
  match s with
  | EmptyString => ""
  | String c s' =>
      if shouldEscape c
      then String "%"%char (String (upperhex (byte_of c / 16)) (String (upperhex (byte_of c mod 16)) (escape s')))
      else String c (escape s')
  end.

Fixpoint unescape (s : string) : option string :=
  match s with
  | EmptyString => Some ""
  | String c s' =>
      if Ascii.eqb c "%"%char then
        match s' with
        | String a (String b s'') =>
            match unhex a, unhex b with
            | Some x, Some y => String (char_of (16 * x + y)) <$> unescape s''
            | _, _ => None
            end
        | _ => None
        end
      else String c <$> unescape s'
  end.

(** [URL.EscapedPath]: the raw path if it is an encoding of the path, else the default one. *)
Definition EscapedPath (path rawpath : string) : string :=
  if negb (String.eqb rawpath "") && validEncoded rawpath && bool_decide (unescape rawpath = Some path)
  then rawpath
  else if String.eqb path "*" then "*" else escape path.

(** ** The signer *)

(** [cryptoNonceSource.Bytes] over the system's random bytes. *)
Definition cryptoNonceSource (rand : Z -> result string (list Z)) (n : Z) : result string (list Z) :=
  if n <=? 0 then Err "invalid nonce size" else rand n.

Record HMACSigner := MkSigner {
  keyID : string;
  secret : list Z;
  providerID : string;
  includeQuery : bool;
  nonceSource : Z -> result string (list Z);
}.

Definition NewHMACSignerWithNonceSource (rand : Z -> result string (list Z)) (keyID : string) (secret : list Z)
    (providerID : string) (includeQuery : bool) (nonceSource : option (Z -> result string (list Z)))
  : HMACSigner :=
  MkSigner (if String.eqb (TrimSpace keyID) "" then "v1" else keyID) secret providerID includeQuery
    (default (cryptoNonceSource rand) nonceSource).

Definition NewHMACSigner (rand : Z -> result string (list Z)) (keyID : string) (secret : list Z)
    (providerID : string) (includeQuery : bool) : HMACSigner :=
  NewHMACSignerWithNonceSource rand keyID secret providerID includeQuery (Some (cryptoNonceSource rand)).

Definition hKeyId : string := "X-AudistroProvider-KeyId".
Definition hTimestamp : string := "X-AudistroProvider-Timestamp".
Definition hNonce : string := "X-AudistroProvider-Nonce".
Definition hSignature : string := "X-AudistroProvider-Signature".
Definition hProviderId : string := "X-AudistroProvider-ProviderId".

(** What of the URL is signed. *)
Definition pathWithQuery (includeQuery : bool) (o : OutReq) : string :=
  let p := EscapedPath (o_path o) (o_rawpath o) in
  let p := if String.eqb p "" then "/" else p in
  if includeQuery && negb (String.eqb (o_rawquery o) "") then p +:+ "?" +:+ o_rawquery o else p.

Definition lf : Ascii.ascii := "010"%char.

Definition canonical (method pathq ts nonce pid : string) : string :=
  method +:+ String lf (pathq +:+ String lf (ts +:+ String lf (nonce +:+ String lf pid))).

Definition signature (secret : list Z) (text : string) : string :=
  hexEncode (hmac_sha256 secret (bytes_of text)).

Definition signWithNonce (s : HMACSigner) (o : OutReq) (now : Z) (nonceBytes : list Z) : result string Header :=
  if negb (String.eqb (o_method o) "GET" || String.eqb (o_method o) "HEAD") then Err ("unsupported method " +:+ quote +:+ o_method o +:+ quote)
  else if negb (Nat.eqb (length nonceBytes) 16) then Err "nonce must be 16 bytes"
  else
    let ts := Itoa (Unix now) in
    let nonce := hexEncode nonceBytes in
    let text := canonical (o_method o) (pathWithQuery (includeQuery s) o) ts nonce (providerID s) in
    Ok (hSet hProviderId (providerID s)
       (hSet hSignature (signature (secret s) text)
       (hSet hNonce nonce
       (hSet hTimestamp ts
       (hSet hKeyId (keyID s) (o_header o)))))).

(** [Sign]; [None] is a nil request. *)
Definition Sign (s : HMACSigner) (req : option OutReq) (now : Z) : result string Header :=
  match req with
  | None => Err "request is nil"
  | Some o =>
      match nonceSource s 16 with
      | Err m => Err ("generate nonce: " +:+ m)
      | Ok nonceBytes => signWithNonce s o now nonceBytes
      end
  end.

(** The [Sign] method as the asset handler calls it, always with a request. *)
Definition signerSign (s : HMACSigner) (o : OutReq) (now : Z) : result string Header := Sign s (Some o) now.

(** ** Loading the secret ([main]) *)

Definition eol_byte (b : Z) : bool := (b =? 13) || (b =? 10).

Fixpoint drop_eol (l : list Z) : list Z :=
  match l with
  | [] => []
  | b :: l' => if eol_byte b then drop_eol l' else l
  end.

(** [bytes.TrimRight(secret, "\r\n")]. *)
Definition trimSecret (l : list Z) : list Z := rev (drop_eol (rev l)).

(** The signer, if there is one, and [originAuthReady]. *)
Definition loadOriginSigner (rand : Z -> result string (list Z)) (originAuthMode : string)
    (file : result string (list Z)) (keyID providerID : string) (includeQuery : bool)
  : option HMACSigner * bool :=
  if String.eqb originAuthMode "hmac" then
    match file with
    | Err _ => (None, false)
    | Ok raw =>
        let secretBytes := trimSecret raw in
        if (length secretBytes <? 16)%nat then (None, false)
        else (Some (NewHMACSigner rand keyID secretBytes providerID includeQuery), true)
    end
  else (None, true).

(** ** Lemmas: escaping *)

Lemma unhex_upperhex n : 0 <= n < 16 -> unhex (upperhex n) = Some n.
Proof.
  intros Hn. unfold unhex, upperhex.
  destruct (Z.ltb_spec n 10); rewrite byte_of_char_of by lia; repeat case_match; breflect; f_equal; lia.
Qed.

Lemma upperhex_valid n : 0 <= n < 16 -> valid_encoded_byte (upperhex n) = true.
Proof.
  intros Hn. unfold valid_encoded_byte, shouldEscape, is_alnum, upperhex. rewrite negb_involutive.
  destruct (Z.ltb_spec n 10); rewrite byte_of_char_of by lia;
    rewrite !orb_true_iff, !andb_true_iff, !Z.leb_le; lia.
Qed.

Lemma byte_nibbles c : 0 <= byte_of c / 16 < 16 /\ 0 <= byte_of c mod 16 < 16 /\
  byte_of c = 16 * (byte_of c / 16) + byte_of c mod 16.
Proof. apply nibbles. apply byte_of_range. Qed.

Lemma unescape_escape s : unescape (escape s) = Some s.
Proof.
  induction s as [|c s IH]; [done|]. cbn [escape].
  destruct (shouldEscape c) eqn:Hc.
  - destruct (byte_nibbles c) as (Hh & Hl & Hb). cbn [unescape]. change (Ascii.eqb "%" "%") with true. cbn iota.
    rewrite (unhex_upperhex _ Hh), (unhex_upperhex _ Hl), IH, <- Hb, char_of_byte_of. done.
  - cbn [unescape]. destruct (Ascii.eqb_spec c "%"%char) as [->|]; [by vm_compute in Hc|]. by rewrite IH.
Qed.

Lemma escape_valid s : validEncoded (escape s) = true.
Proof.
  unfold validEncoded. induction s as [|c s IH]; [done|]. cbn [escape].
  destruct (shouldEscape c) eqn:Hc; cbn [sall]; rewrite IH, andb_true_r.
  - destruct (byte_nibbles c) as (Hh & Hl & _).
    rewrite (upperhex_valid _ Hh), (upperhex_valid _ Hl). done.
  - unfold valid_encoded_byte. rewrite Hc. apply orb_true_r.
Qed.

Lemma EscapedPath_valid path rawpath : validEncoded (EscapedPath path rawpath) = true.
Proof.
  unfold EscapedPath. destruct (negb _ && _ && _) eqn:E; [by breflect|].
  destruct (String.eqb path "*"); [done|apply escape_valid].
Qed.

Lemma unescape_EscapedPath path rawpath : unescape (EscapedPath path rawpath) = Some path.
Proof.
  unfold EscapedPath. destruct (negb _ && _ && _) eqn:E; [by breflect|].
  destruct (String.eqb_spec path "*") as [->|]; [done|apply unescape_escape].
Qed.

Lemma EscapedPath_no c path rawpath :
  valid_encoded_byte c = false -> has_char c (EscapedPath path rawpath) = false.
Proof. intros Hc. eapply sall_has_char; [exact Hc|apply EscapedPath_valid]. Qed.

(** ** Lemmas: the signed text *)

(** The path a request names: an empty one stands for the root. *)
Definition effective_path (o : OutReq) : string := if String.eqb (o_path o) "" then "/" else o_path o.

(** The part of the query that is signed. *)
Definition signed_query (iq : bool) (o : OutReq) : string := if iq then o_rawquery o else "".

Definition signed_path (o : OutReq) : string :=
  let p := EscapedPath (o_path o) (o_rawpath o) in if String.eqb p "" then "/" else p.

Lemma unescape_empty s : unescape s = Some "" -> s = "".
Proof.
  destruct s as [|c s]; [done|]. cbn [unescape]. destruct (Ascii.eqb c "%"); [|by destruct (unescape s)].
  destruct s as [|a [|b s]]; [done..|]. destruct (unhex a) as [x|], (unhex b) as [y|]; try done.
  by destruct (unescape s).
Qed.

Lemma signed_path_decodes o : unescape (signed_path o) = Some (effective_path o).
Proof.
  pose proof (unescape_EscapedPath (o_path o) (o_rawpath o)) as Hu. unfold signed_path, effective_path. cbv zeta.
  destruct (String.eqb_spec (EscapedPath (o_path o) (o_rawpath o)) "") as [E|E].
  - rewrite E in Hu. injection Hu as Hu. by rewrite <- Hu.
  - destruct (String.eqb_spec (o_path o) "") as [Ep|]; [|done]. exfalso. rewrite Ep in Hu at 2.
    by apply unescape_empty in Hu.
Qed.

Lemma signed_path_no_mark o : has_char "?"%char (signed_path o) = false.
Proof.
  unfold signed_path. cbv zeta. destruct (String.eqb_spec (EscapedPath (o_path o) (o_rawpath o)) ""); [done|].
  by apply EscapedPath_no.
Qed.

Lemma pathWithQuery_eq iq o :
  pathWithQuery iq o = signed_path o +:+
    (if String.eqb (signed_query iq o) "" then "" else String "?"%char (signed_query iq o)).
Proof.
  unfold pathWithQuery, signed_query. fold (signed_path o).
  destruct iq; cbn [andb]; [|by rewrite sapp_nil_r].
  destruct (String.eqb_spec (o_rawquery o) "") as [E|E]; cbn [negb]; [|done]. by rewrite sapp_nil_r.
Qed.

(** The signed path and query determine the path and the signed part of the query. *)
Lemma pathWithQuery_inj iq1 iq2 o1 o2 :
  pathWithQuery iq1 o1 = pathWithQuery iq2 o2 ->
  effective_path o1 = effective_path o2 /\ signed_query iq1 o1 = signed_query iq2 o2.
Proof.
  rewrite !pathWithQuery_eq. pose proof (signed_path_no_mark o1) as H1. pose proof (signed_path_no_mark o2) as H2.
  intros E.
  assert (signed_path o1 = signed_path o2 /\ signed_query iq1 o1 = signed_query iq2 o2) as [Ep ->].
  { destruct (String.eqb_spec (signed_query iq1 o1) "") as [E1|E1],
             (String.eqb_spec (signed_query iq2 o2) "") as [E2|E2].
    - rewrite !sapp_nil_r in E. by rewrite E1, E2.
    - rewrite sapp_nil_r in E. rewrite E, has_char_app, has_char_cons, Ascii.eqb_refl, orb_true_r in H1. done.
    - rewrite sapp_nil_r in E. rewrite <- E, has_char_app, has_char_cons, Ascii.eqb_refl, orb_true_r in H2. done.
    - by apply (sep_left_inj "?"%char) in E. }
  split; [|done]. apply (f_equal unescape) in Ep. rewrite !signed_path_decodes in Ep. by injection Ep.
Qed.

Lemma Itoa_no_lf x : has_char lf (Itoa x) = false.
Proof. eapply sall_has_char; [|apply Itoa_chars]. reflexivity. Qed.

Lemma hexEncode_no_lf bs : Forall is_byte bs -> has_char lf (hexEncode bs) = false.
Proof. intros. eapply sall_has_char; [|by apply hexEncode_hex]. reflexivity. Qed.

(** The text is determined by its fields, even if the signed query contains a line feed. *)
Lemma canonical_inj m1 p1 t1 n1 d1 m2 p2 t2 n2 d2 :
  Forall (fun x => has_char lf x = false) [m1; t1; n1; d1] ->
  Forall (fun x => has_char lf x = false) [m2; t2; n2; d2] ->
  canonical m1 p1 t1 n1 d1 = canonical m2 p2 t2 n2 d2 ->
  m1 = m2 /\ p1 = p2 /\ t1 = t2 /\ n1 = n2 /\ d1 = d2.
Proof.
  unfold canonical. rewrite !Forall_cons, !Forall_nil. intros (? & ? & ? & ? & _) (? & ? & ? & ? & _) E.
  apply sep_left_inj in E as [-> E]; [|done..].
  replace (p1 +:+ _) with (((p1 +:+ String lf t1) +:+ String lf n1) +:+ String lf d1) in E
    by (by rewrite !sapp_assoc).
  replace (p2 +:+ _) with (((p2 +:+ String lf t2) +:+ String lf n2) +:+ String lf d2) in E
    by (by rewrite !sapp_assoc).
  apply sep_right_inj in E as [E ->]; [|done..]. apply sep_right_inj in E as [E ->]; [|done..].
  by apply sep_right_inj in E as [-> ->].
Qed.

(** ** Lemmas: signing *)

(** The text that is signed for a request. *)
Definition signed_text (s : HMACSigner) (o : OutReq) (now : Z) (nonceBytes : list Z) : string :=
  canonical (o_method o) (pathWithQuery (includeQuery s) o) (Itoa (Unix now)) (hexEncode nonceBytes) (providerID s).

Definition signable (o : OutReq) : Prop := o_method o = "GET" \/ o_method o = "HEAD".

Definition auth_headers : list string :=
  CanonicalHeaderKey <$> [hKeyId; hTimestamp; hNonce; hSignature; hProviderId].

(** A request carries a header with exactly one value. *)
Definition carries (o : OutReq) (k v : string) : Prop := o_header o !! CanonicalHeaderKey k = Some [v].

(** What a party that knows the key can check: the signature is the one of the request's own
    method, path and query, and of the time, nonce and provider in its headers. *)
Definition verifies (key : list Z) (iq : bool) (o : OutReq) : Prop :=
  exists ts nonce pid, carries o hTimestamp ts /\ carries o hNonce nonce /\ carries o hProviderId pid /\
    carries o hSignature (signature key (canonical (o_method o) (pathWithQuery iq o) ts nonce pid)).

Definition with_out_header (hd : Header) (o : OutReq) : OutReq :=
  MkOut (o_method o) (o_scheme o) (o_host o) (o_path o) (o_rawpath o) (o_rawquery o) hd.

Ltac header_lookup := unfold carries; cbn [o_header with_out_header]; unfold hSet;
  repeat first [ rewrite lookup_insert_eq; reflexivity
               | rewrite lookup_insert_ne by (vm_compute; congruence) ].

Lemma signWithNonce_Ok s o now n hd :
  signWithNonce s o now n = Ok hd ->
  signable o /\ length n = 16%nat /\
  let o' := with_out_header hd o in
  carries o' hKeyId (keyID s) /\ carries o' hTimestamp (Itoa (Unix now)) /\ carries o' hNonce (hexEncode n) /\
  carries o' hProviderId (providerID s) /\ carries o' hSignature (signature (secret s) (signed_text s o now n)) /\
  forall k, k ∉ auth_headers -> hd !! k = o_header o !! k.
Proof.
  unfold signWithNonce, signable. destruct (negb _) eqn:Hm; [done|]. destruct (negb (Nat.eqb _ _)) eqn:Hn; [done|].
  cbv zeta. intros [= <-]. apply negb_false_iff in Hm, Hn. apply Nat.eqb_eq in Hn.
  apply orb_true_iff in Hm. rewrite !String.eqb_eq in Hm. split; [done|]. split; [done|].
  split_and!; try header_lookup.
  intros k Hk. unfold auth_headers in Hk. cbn [fmap list_fmap] in Hk. unfold hSet.
  rewrite !lookup_insert_ne by set_solver. done.
Qed.

Lemma Sign_Ok s o now hd :
  Sign s (Some o) now = Ok hd <-> exists n, nonceSource s 16 = Ok n /\ signWithNonce s o now n = Ok hd.
Proof. cbn. destruct (nonceSource s 16); naive_solver. Qed.

(** ** Theorems *)

(** The signed path decodes to the requested path. Whatever raw path the URL carries, the
    path put into the signed text contains no [?] and no line feed, and decoding it gives back
    the path of the request; so an origin that decodes what was signed sees the path asked for. *)
Theorem EscapedPath_roundtrip path rawpath :
  unescape (EscapedPath path rawpath) = Some path /\
  has_char "?"%char (EscapedPath path rawpath) = false /\ has_char lf (EscapedPath path rawpath) = false.
Proof. split; [apply unescape_EscapedPath|]. split; by apply EscapedPath_no. Qed.

(** C30: a signature is good for one request only. If the texts signed for two requests, by
    signers with provider ids without line feeds, are the same, the requests have the same
    method, the same path, the same query as far as it is signed, the same time in seconds, the
    same nonce and the same provider. This holds even if a query contains a line feed. *)
Theorem signed_text_binds s1 s2 o1 o2 now1 now2 n1 n2 :
  has_char lf (providerID s1) = false -> has_char lf (providerID s2) = false ->
  signable o1 -> signable o2 -> Forall is_byte n1 -> Forall is_byte n2 ->
  signed_text s1 o1 now1 n1 = signed_text s2 o2 now2 n2 ->
  o_method o1 = o_method o2 /\ effective_path o1 = effective_path o2 /\
  signed_query (includeQuery s1) o1 = signed_query (includeQuery s2) o2 /\
  Unix now1 = Unix now2 /\ n1 = n2 /\ providerID s1 = providerID s2.
Proof.
  intros Hp1 Hp2 Hm1 Hm2 Hn1 Hn2 E.
  assert (Hlf : forall o, signable o -> has_char lf (o_method o) = false) by (intros o [-> | ->]; done).
  apply canonical_inj in E as (Hm & Hpq & Hts & Hn & Hp);
    [|rewrite !Forall_cons; auto using Itoa_no_lf, hexEncode_no_lf..].
  apply pathWithQuery_inj in Hpq as [Hpath Hq]. apply Itoa_inj in Hts. apply hexEncode_inj in Hn; [|done..].
  done.
Qed.

(** C5: with [hmac] configured nothing leaves unsigned, and a client cannot forge or add to the
    authentication headers. Every request that the asset handler sends to the origin in this
    mode was made with a usable signer; it verifies under the signer's secret; it carries each
    of the five headers with exactly one value, the signer's key id and provider id, the second
    of signing and a nonce of 32 digits, whatever headers the client sent under these names or
    listed in [Connection]; and every other header is the one the proxy had prepared. *)
Theorem upstream_requests_signed `{UnicodeLower} serveContent transport h getwd env pe g r w e fx g' o :
  serveHTTP signerSign serveContent transport h getwd env pe g r w = (e, fx, g') ->
  h_authMode h = "hmac" -> EUpstream o ∈ fx ->
  exists s n origin, OriginSigner (h_cfg h) = Impl s /\ h_proxy h = Some origin /\
    nonceSource s 16 = Ok n /\ length n = 16%nat /\
    carries o hKeyId (keyID s) /\ carries o hProviderId (providerID s) /\
    carries o hTimestamp (Itoa (Unix (pe_now pe))) /\ carries o hNonce (hexEncode n) /\
    verifies (secret s) (includeQuery s) o /\
    (forall k, k ∉ auth_headers ->
       o_header o !! k = o_header (rewriteRequest origin r (pe_prepared pe)) !! k).
Proof.
  intros Hs Ha Hin. destruct (serveHTTP_ServeProxy _ _ _ _ _ _ _ _ _ _ _ _ _ _ Hs Hin) as (req & e0 & fx0 & g0 & Hsp & Hin0).
  destruct (ServeProxy_roundTrip _ serveContent _ _ _ _ _ _ _ _ _ _ _ Hsp Hin0) as (origin & rt & fx1 & Hp & Hrt & Hin1).
  unfold roundTrip in Hrt. rewrite Ha, String.eqb_refl in Hrt.
  destruct (OriginSigner (h_cfg h)) as [| |s] eqn:Hsg;
    [injection Hrt as <- <-; set_solver..|].
  destruct (signerSign s _ _) as [hd|] eqn:Hsign;
    [|injection Hrt as <- <-; set_solver]. injection Hrt as <- <-.
  apply list_elem_of_singleton in Hin1 as [= ->].
  apply Sign_Ok in Hsign as (n & Hn & Hw). apply signWithNonce_Ok in Hw as (_ & Hlen & Hk & Ht & Hno & Hpid & Hsig & Hrest).
  exists s, n, origin. split_and!; try done. by exists (Itoa (Unix (pe_now pe))), (hexEncode n), (providerID s).
Qed.

(** *** Loading the secret *)

Lemma drop_eol_split l : exists e, l = e ++ drop_eol l /\ forallb eol_byte e = true.
Proof.
  induction l as [|b l (e & He & Hb)]; [by exists []|]. cbn [drop_eol].
  destruct (eol_byte b) eqn:Eb; [|by exists []].
  exists (b :: e). cbn. rewrite Eb, <- He. done.
Qed.

Lemma drop_eol_head l b l' : drop_eol l = b :: l' -> eol_byte b = false.
Proof.
  induction l as [|c l IH]; [done|]. cbn [drop_eol]. destruct (eol_byte c) eqn:Ec; [done|]. by intros [= <- _].
Qed.

Lemma trimSecret_spec raw :
  (exists e, raw = trimSecret raw ++ e /\ forallb eol_byte e = true) /\
  (forall b, last (trimSecret raw) = Some b -> eol_byte b = false).
Proof.
  unfold trimSecret. split.
  - destruct (drop_eol_split (rev raw)) as (e & He & Hb). exists (rev e). split.
    + rewrite <- rev_app_distr, <- He. by rewrite rev_involutive.
    + rewrite forallb_forall in *. intros b Hin. apply Hb. by apply in_rev.
  - intros b. destruct (drop_eol (rev raw)) as [|c l] eqn:E; [done|]. cbn. rewrite last_snoc. intros [= <-].
    by eapply drop_eol_head.
Qed.

Lemma drop_eol_unique e k : forallb eol_byte e = true -> (forall b, head k = Some b -> eol_byte b = false) ->
  drop_eol (e ++ k) = k.
Proof.
  intros He Hk. induction e as [|b e IH]; cbn in *.
  - destruct k as [|c k]; [done|]. cbn. by rewrite (Hk c).
  - apply andb_true_iff in He as [-> He]. by apply IH.
Qed.

Lemma trim_unique key eol :
  forallb eol_byte eol = true -> (forall b, last key = Some b -> eol_byte b = false) ->
  trimSecret (key ++ eol) = key.
Proof.
  intros He Hk. unfold trimSecret. rewrite rev_app_distr, drop_eol_unique; [apply rev_involutive|..].
  - rewrite forallb_forall in *. intros b Hb. apply He. by apply in_rev.
  - intros b Hb. apply Hk. destruct key as [|c key _] using rev_ind; [done|].
    rewrite rev_app_distr in Hb. cbn in Hb. rewrite last_snoc. done.
Qed.

(** A signer exists exactly when the secret is usable. With [hmac] configured, the start-up
    code makes a signer, and reports origin authentication as ready, iff the secret file can be
    read and holds at least 16 bytes besides the line ends at its end; the signer's secret is
    then the file without exactly those line ends, and its key id is never blank. Without
    [hmac] there is no signer and authentication counts as ready. *)
Theorem loadOriginSigner_exact rand mode file kid pid iq :
  let '(sg, ready) := loadOriginSigner rand mode file kid pid iq in
  (sg = None <-> ready = false \/ mode <> "hmac") /\
  (mode <> "hmac" -> ready = true) /\
  (mode = "hmac" ->
     ready = true <-> exists raw key eol, file = Ok raw /\ raw = key ++ eol /\ forallb eol_byte eol = true /\
                        (forall b, last key = Some b -> eol_byte b = false) /\ (16 <= length key)%nat) /\
  (forall s, sg = Some s -> (16 <= length (secret s))%nat /\ TrimSpace (keyID s) <> "" /\ providerID s = pid).
Proof.
  unfold loadOriginSigner. destruct (String.eqb_spec mode "hmac") as [->|Hm]; [|naive_solver].
  destruct file as [raw|m]; [|naive_solver]. cbv zeta.
  destruct (trimSecret_spec raw) as [(e & He & Hb) Hl].
  destruct (Nat.ltb_spec (length (trimSecret raw)) 16) as [Hlen|Hlen].
  - split; [naive_solver|]. split; [done|]. split; [|done]. intros _. split; [done|].
    intros (raw' & key & eol & [= <-] & Hr & Hbe & Hlk & Hk). exfalso.
    rewrite Hr, trim_unique in Hlen by done. lia.
  - split; [naive_solver|]. split; [done|]. split.
    + intros _. split; [|done]. intros _. by exists raw, (trimSecret raw), e.
    + intros s [= <-]. cbn. split; [done|]. split; [|done].
      destruct (String.eqb_spec (TrimSpace kid) ""); [by vm_compute|done].
Qed.

(** ** Witnesses *)

Module OriginAuthDemo.
#[local] Instance demo_lower : UnicodeLower := fun s => s.
Definition key : list Z := bytes_of "0123456789abcdef0123456789abcdef".
Definition nonce : list Z := map (fun i => 17 * i) (seqZ 0 16).
Definition signer (iq : bool) : HMACSigner :=
  NewHMACSignerWithNonceSource (fun _ => Err "no entropy") "v1" key "11111111-2222-3333-4444-555555555555" iq
    (Some (fun _ => Ok nonce)).
Definition out (method path query : string) : OutReq := MkOut method "https" "origin" path "" query ∅.
Definition now : Z := TimeUnix 1700000000.

(** The vector of [hmac_test.go]. *)
Example sign_vector :
  match Sign (signer true) (Some (out "GET" "/assets/asset1/seg_0001.m4s" "token=abc&v=1")) now with
  | Ok hd => (hGet hd hKeyId, hGet hd hTimestamp, hGet hd hNonce, hGet hd hSignature)
  | Err m => (m, "", "", "")
  end = ("v1", "1700000000", "00112233445566778899aabbccddeeff",
         "43f55125833fbb8d9413a0c6d797070abbb7c25312b3a7ce5344a2ba16ff1d90").
Proof. vm_compute. reflexivity. Qed.
Example sign_post : is_ok (Sign (signer true) (Some (out "POST" "/" "")) now) = false.
Proof. reflexivity. Qed.
Example sign_no_entropy :
  Sign (NewHMACSigner (fun _ => Err "no entropy") " " key "p" true) (Some (out "GET" "/" "")) now =
  Err "generate nonce: no entropy".
Proof. reflexivity. Qed.
Example escape_space : EscapedPath "/a b?/c" "/a%20b%3f/c" = "/a%20b%3f/c" /\ EscapedPath "/a b?" "/a b?" = "/a%20b%3F".
Proof. split; vm_compute; reflexivity. Qed.

Lemma signed_text_binds_witness :
  signed_text (signer true) (out "GET" "" "") now nonce = signed_text (signer false) (out "GET" "/" "x=1") (now + 5) nonce /\
  effective_path (out "GET" "" "") = effective_path (out "GET" "/" "x=1").
Proof.
  assert (E : signed_text (signer true) (out "GET" "" "") now nonce =
              signed_text (signer false) (out "GET" "/" "x=1") (now + 5) nonce) by (vm_compute; reflexivity).
  assert (Hn : Forall is_byte nonce) by (vm_compute; repeat constructor; discriminate).
  split; [exact E|]. refine (proj1 (proj2 (signed_text_binds (signer true) (signer false) (out "GET" "" "")
    (out "GET" "/" "x=1") now (now + 5) nonce nonce _ _ _ _ Hn Hn E))); (by left) || reflexivity.
Defined.

(** A client that sends its own signature headers, and lists one of them in [Connection]. *)
Definition forged : Header :=
  list_to_map [("X-Audistroprovider-Signature", ["00"; "11"]); ("X-Audistroprovider-Keyid", ["evil"]);
               ("Connection", ["X-AudistroProvider-Nonce"])].
Definition h : handler :=
  NewHandler HandlerDemo.parse (MkHandlerConfig _ "data" 3 false "proxy" "http://origin:9000/media/" "hmac"
    (signer_iface (Some (signer true)))).
Definition pe : proxy_env := ProxyEnv 1 now 2 forged 0.
Definition run := serveHTTP signerSign HandlerDemo.content HandlerDemo.origin_says h (Ok "/srv") HandlerDemo.env pe
  (guard_init 2) (HandlerDemo.get "/assets/a1/s.ts") new_rw.
Definition sent (fx : list effect) : list OutReq := omap (fun e => match e with EUpstream o => Some o | _ => None end) fx.

Lemma upstream_requests_signed_witness :
  exists o, sent run.1.2 = [o] /\ carries o hKeyId "v1" /\ o_path o = "/media/assets/a1/s.ts" /\
    verifies key true o.
Proof.
  eexists. split; [vm_compute; reflexivity|]. set (o := MkOut _ _ _ _ _ _ _).
  destruct (upstream_requests_signed HandlerDemo.content HandlerDemo.origin_says h (Ok "/srv") HandlerDemo.env pe
    (guard_init 2) (HandlerDemo.get "/assets/a1/s.ts") new_rw run.1.1 run.1.2 run.2 o)
    as (s & n & origin & Hs & _ & _ & _ & Hk & _ & _ & _ & Hv & _).
  - unfold run. by destruct (serveHTTP _ _ _ _ _ _ _ _ _ _) as [[? ?] ?].
  - vm_compute; reflexivity.
  - vm_compute. right. left.
  - assert (signer true = s) as <- by (cbn in Hs; by injection Hs).
    split; [exact Hk|]. split; [reflexivity|exact Hv].
Defined.

Example loaded : (loadOriginSigner (fun _ => Err "") "hmac" (Ok (key ++ [13; 10])) "" "p" true).2 = true /\
  (loadOriginSigner (fun _ => Err "") "hmac" (Ok [1; 2; 10]) "" "p" true).2 = false.
Proof. split; reflexivity. Qed.
End OriginAuthDemo.
