(* ===== verification/Middleware.v ===== *)
(** * The server's middleware

    [internal/httpserver/middleware.go], [metrics_middleware.go], [openapi_validation.go] and
    [Chain] of [server.go]: every request passes metrics, access log, panic recovery, OpenAPI
    validation and request id, in that order, before it reaches the mux. The mux and the OpenAPI
    library are parameters. The theorems: every request is answered and counted exactly once
    whatever the handler does; what a client sees of a panic; and what the access log can say. *)

From S2P Require Import Prelude GoStrings GoHttp GoTime Sha256 FsSecure MaxBytes AssetPath AssetHandler.
Open Scope Z_scope.

(** ** Handlers *)

(** What a request leaves behind besides its response. *)
Inductive record :=
| RAccess (method path : string) (status bytes latency : Z) (request_id remote_ip : string)
          (fields : list (string * log_value))
| RPanic (request_id : string)
| RInFlight (route : string) (delta : Z)
| RObserve (route method : string) (status : Z) (bytes : Z)
| RHandler (e : effect).

(** A handler: the request id of its context, the request, the writer; [latency] and the request
    identifier to be drawn are part of the environment. *)
Definition Handler : Type := option string -> Request -> RW -> run_end * list record.

Definition RequestIDFromContext (ctx : option string) : string := default "" ctx.

(** ** Writers that count *)

Definition chunk_size (c : chunk) : Z :=
  match c with Bytes s => Z.of_nat (slen s) | FileContent _ size => size end.

(** What a [responseWriter] put around [w] has recorded when the inner writer is [w']: the last
    status it was given (200 if none) and the bytes written. *)
Definition seen_status (w w' : RW) : Z := default 200 (last (drop (length (rw_calls w)) (rw_calls w'))).
Definition seen_bytes (w w' : RW) : Z :=
  foldr (fun c n => chunk_size c + n) 0 (drop (length (rw_body w)) (rw_body w')).

(** The fields the handlers attached with [SetAccessLogField], sorted by key; a later value
    replaces an earlier one, and the empty key is ignored. *)
Definition log_fields (l : list record) : gmap string log_value :=
  foldl (fun m x => match x with
                    | RHandler (ELogField k v) => if String.eqb k "" then m else <[k := v]> m
                    | _ => m
                    end) ∅ l.

Definition key_le (a b : string * log_value) : Prop := sle a.1 b.1.
#[export] Instance key_le_dec a b : Decision (key_le a b).
Proof. unfold key_le. apply _. Defined.

Definition sorted_fields (m : gmap string log_value) : list (string * log_value) :=
  merge_sort key_le (map_to_list m).

(** ** The layers *)

Definition RequestID (requestID : string) (next : Handler) : Handler := fun _ r w =>
  next (Some requestID) r (with_header (hSet "X-Request-Id" requestID) w).

(** [http.Error]. *)
Definition http_Error (msg : string) (code : Z) (w : RW) : RW :=
  let w := with_header (hDel "Content-Length") w in
  let w := with_header (hSet "Content-Type" "text/plain; charset=utf-8") w in
  let w := with_header (hSet "X-Content-Type-Options" "nosniff") w in
  Write (Bytes (msg +:+ newline)) (WriteHeader code w).

Definition internal_error_text : string := "Internal Server Error".

Definition Recover (next : Handler) : Handler := fun ctx r w =>
  match next ctx r w with
  | (Panicked w', l) => (Returned (http_Error internal_error_text 500 w'), l ++ [RPanic (RequestIDFromContext ctx)])
  | res => res
  end.

Definition AccessLog (latency : Z) (next : Handler) : Handler := fun ctx r w =>
  match next ctx r w with
  | (Returned w', l) =>
      (Returned w', l ++ [RAccess (r_method r) (r_path r) (seen_status w w') (seen_bytes w w') latency
                            (RequestIDFromContext ctx) (host_or_self (r_remote r))
                            (sorted_fields (log_fields l))])
  | res => res
  end.

Definition routeLabel (path : string) : string :=
  if String.eqb path "/healthz" then "healthz"
  else if String.eqb path "/readyz" then "readyz"
  else if String.eqb path "/metrics" then "metrics"
  else if HasPrefix path "/assets/" then "assets"
  else if String.eqb path "/internal/rescan" then "internal_rescan"
  else if String.eqb path "/internal/announce" then "internal_announce"
  else "other".

(** The gauge is lowered by a deferred call, whatever the handler does. *)
Definition HTTPMetrics (next : Handler) : Handler := fun ctx r w =>
  let route := routeLabel (r_path r) in
  let '(e, l) := next ctx r w in
  let observed := match e with
                  | Returned w' => [RObserve route (r_method r) (seen_status w w') (seen_bytes w w')]
                  | Panicked _ => []
                  end in
  (e, RInFlight route 1 :: l ++ observed ++ [RInFlight route (-1)]).

(** ** OpenAPI validation *)

Definition openAPIYAMLPath : string := "/openapi.yaml".
Definition openAPIJSONPath : string := "/openapi.json".

Definition shouldValidateOpenAPIRequest (path : string) : bool :=
  if String.eqb path "/healthz" || String.eqb path "/readyz" then true
  else if String.eqb path "/metrics" then false
  else if String.eqb path openAPIYAMLPath || String.eqb path openAPIJSONPath ||
          String.eqb path "/docs" || String.eqb path "/docs/" then false
  else if HasPrefix path "/assets/" then false
  else if HasPrefix path "/internal/" then true
  else false.

(** A route of the OpenAPI document: the content types of its request body, if it has one. *)
Record oa_route := OaRoute { oa_body : option (list string) }.

(** [json.NewEncoder(w).Encode] of the validation error; [msg] is already escaped. *)
Definition validation_json (msg : string) : string :=
  "{" +:+ quote +:+ "error" +:+ quote +:+ ":" +:+ quote +:+ "invalid_request" +:+ quote +:+
  (if String.eqb msg "" then "" else "," +:+ quote +:+ "message" +:+ quote +:+ ":" +:+ quote +:+ msg +:+ quote) +:+
  "}" +:+ newline.

Definition writeValidationError (msg : string) (w : RW) : RW :=
  Write (Bytes (validation_json msg)) (WriteHeader 400 (with_header (hSet "Content-Type" "application/json") w)).

Section OpenAPI.
Context `{UnicodeLower}.

(** The library: which route a request has, and what is wrong with it (escaped for JSON). *)
Variable FindRoute : Request -> option oa_route.
Variable ValidateRequest : oa_route -> Request -> option string.

Definition requestContentTypeAllowed (route : oa_route) (r : Request) : bool :=
  match oa_body route with
  | None | Some [] => true
  | Some contentTypes =>
      let contentType := TrimSpace (ToLower (default "" (head (Split (hGet (r_header r) "Content-Type") ";"%char)))) in
      if String.eqb contentType "" then false else bool_decide (contentType ∈ contentTypes)
  end.

Definition OpenAPIValidation (next : Handler) : Handler := fun ctx r w =>
  if negb (shouldValidateOpenAPIRequest (r_path r)) then next ctx r w
  else match FindRoute r with
       | None => next ctx r w
       | Some route =>
           if negb (requestContentTypeAllowed route r) then
             (Returned (writeValidationError "content type does not match OpenAPI contract" w), [])
           else match ValidateRequest route r with
                | Some msg => (Returned (writeValidationError msg w), [])
                | None => next ctx r w
                end
       end.

(** ** The chain *)

(** The first middleware of the list is the outermost. *)
Definition Chain (next : Handler) (mws : list (Handler -> Handler)) : Handler :=
  foldr (fun mw h => mw h) next mws.

Definition serverHandler (requestID : string) (latency : Z) (mux : Handler) : Handler :=
  Chain mux [HTTPMetrics; AccessLog latency; Recover; OpenAPIValidation; RequestID requestID].

(** The server starts from an empty context and a fresh writer. *)
Definition serve (requestID : string) (latency : Z) (mux : Handler) (r : Request) : run_end * list record :=
  serverHandler requestID latency mux None r new_rw.
End OpenAPI.

(** ** Request identifiers *)

(** [newUUIDv4]: [random] is the 16 bytes read, or the clock that is used instead. *)
Definition newUUIDv4 (random : result Z (list Z)) : string :=
  match random with
  | Err unixNano => Itoa unixNano
  | Ok buf =>
      let buf := <[6%nat := Z.lor (Z.land (default 0 (buf !! 6%nat)) 0x0f) 0x40]> buf in
      let buf := <[8%nat := Z.lor (Z.land (default 0 (buf !! 8%nat)) 0x3f) 0x80]> buf in
      let hexStr := hexEncode buf in
      String.substring 0 8 hexStr +:+ "-" +:+ String.substring 8 4 hexStr +:+ "-" +:+
      String.substring 12 4 hexStr +:+ "-" +:+ String.substring 16 4 hexStr +:+ "-" +:+
      String.substring 20 12 hexStr
  end.

(** ** Lemmas *)

(** The mux only leaves records of the handlers behind it. *)
Definition handler_records (l : list record) : Prop := Forall (fun x => exists e, x = RHandler e) l.

Lemma assets_not_validated path : HasPrefix path "/assets/" = true -> shouldValidateOpenAPIRequest path = false.
Proof.
  intros Hp. unfold shouldValidateOpenAPIRequest. rewrite Hp.
  assert (Hne : forall p, HasPrefix p "/assets/" = false -> String.eqb path p = false).
  { intros p Hq. destruct (String.eqb_spec path p) as [->|]; [congruence|done]. }
  rewrite !Hne by reflexivity. done.
Qed.

Section ChainFacts.
Context `{UnicodeLower} (FindRoute : Request -> option oa_route) (ValidateRequest : oa_route -> Request -> option string).
Context (mux : Handler) (mux_records : forall ctx r w, handler_records (mux ctx r w).2).

(** Inside the panic recovery: a run that may panic, with records of the handlers only. *)
Definition inner (requestID : string) : Handler :=
  OpenAPIValidation FindRoute ValidateRequest (RequestID requestID mux).

Lemma inner_records requestID ctx r w : handler_records (inner requestID ctx r w).2.
Proof.
  unfold inner, OpenAPIValidation, RequestID. repeat case_match; try apply mux_records; constructor.
Qed.

Lemma inner_unvalidated requestID ctx r w :
  shouldValidateOpenAPIRequest (r_path r) = false ->
  inner requestID ctx r w = mux (Some requestID) r (with_header (hSet "X-Request-Id" requestID) w).
Proof. intros Hs. unfold inner, OpenAPIValidation. by rewrite Hs. Qed.

(** The whole chain, from the run of its inner part. *)
Lemma serve_inner requestID latency r e l :
  inner requestID None r new_rw = (e, l) ->
  let w := match e with Returned w => w | Panicked w => http_Error internal_error_text 500 w end in
  let mid := l ++ match e with Returned _ => [] | Panicked _ => [RPanic ""] end in
  let route := routeLabel (r_path r) in
  serve FindRoute ValidateRequest requestID latency mux r =
    (Returned w, RInFlight route 1 :: mid ++
       [RAccess (r_method r) (r_path r) (seen_status new_rw w) (seen_bytes new_rw w) latency ""
          (host_or_self (r_remote r)) (sorted_fields (log_fields mid));
        RObserve route (r_method r) (seen_status new_rw w) (seen_bytes new_rw w); RInFlight route (-1)]).
Proof.
  unfold inner. intros Hi. cbv zeta. unfold serve, serverHandler, Chain. cbn [foldr].
  unfold HTTPMetrics, AccessLog, Recover. rewrite Hi.
  destruct e as [w|w]; rewrite ?app_nil_r; cbn [RequestIDFromContext default]; do 2 f_equal;
    by rewrite <- !app_assoc.
Qed.

(** ** Theorems *)

(** C35: every request is answered and accounted for exactly once. For every mux and every request the
    chain returns (no panic reaches the server), and leaves exactly: the in-flight gauge raised and
    lowered again for the request's route, one access-log line and one metric observation, which
    carry the same status and number of bytes; in between come the records of the handlers, and
    after them one report of a panic if the handlers panicked and none if they returned. If they
    returned, the answer is theirs; if they panicked, an internal error is written to it. *)
Theorem every_request_accounted requestID latency r :
  exists w l st n fields (panicked : bool),
    let route := routeLabel (r_path r) in
    serve FindRoute ValidateRequest requestID latency mux r =
      (Returned w, RInFlight route 1 :: (l ++ if panicked then [RPanic ""] else []) ++
         [RAccess (r_method r) (r_path r) st n latency "" (host_or_self (r_remote r)) fields;
          RObserve route (r_method r) st n; RInFlight route (-1)]) /\
    st = seen_status new_rw w /\ n = seen_bytes new_rw w /\ handler_records l /\
    exists w', inner requestID None r new_rw = ((if panicked then Panicked w' else Returned w'), l) /\
      w = if panicked then http_Error internal_error_text 500 w' else w'.
Proof.
  destruct (inner requestID None r new_rw) as [e l] eqn:Hi.
  pose proof (inner_records requestID None r new_rw) as Hl. rewrite Hi in Hl. cbn in Hl.
  pose proof (serve_inner requestID latency r e l Hi) as Hs. cbv zeta in Hs |- *. destruct e as [w|w].
  - exists w, l. do 3 eexists. exists false. split; [exact Hs|]. split_and!; [done..|]. by exists w.
  - exists (http_Error internal_error_text 500 w), l. do 3 eexists. exists true. split; [exact Hs|].
    split_and!; [done..|]. by exists w.
Qed.

(** The request id is never logged. The identifier that is sent to the client and put into the
    handlers' context is set by the innermost layer, so the access log and the panic report, which
    read the outer context, always record an empty [request_id]. *)
Theorem request_id_lost requestID latency r :
  shouldValidateOpenAPIRequest (r_path r) = false -> requestID <> "" ->
  let w0 := with_header (hSet "X-Request-Id" requestID) new_rw in
  hGet (rw_header w0) "X-Request-Id" = requestID /\
  (exists w, serve FindRoute ValidateRequest requestID latency mux r =
     (Returned w, (serve FindRoute ValidateRequest requestID latency mux r).2) /\
     (forall w1 l1, mux (Some requestID) r w0 = (Returned w1, l1) -> w = w1)) /\
  forall m p st n lat id ip fs,
    RAccess m p st n lat id ip fs ∈ (serve FindRoute ValidateRequest requestID latency mux r).2 -> id = "".
Proof.
  intros Hs Hid w0. split; [apply hGet_hSet|].
  pose proof (inner_unvalidated requestID None r new_rw Hs) as Hi.
  destruct (mux (Some requestID) r w0) as [e l] eqn:Hm.
  pose proof (mux_records (Some requestID) r w0) as Hl. rewrite Hm in Hl. cbn in Hl. fold w0 in Hi. rewrite Hm in Hi.
  rewrite (serve_inner requestID latency r e l Hi). cbn [snd]. split.
  - eexists. split; [reflexivity|]. by intros w1 l1 [= -> _].
  - intros m p st n lat id ip fs Hin. unfold handler_records in Hl. rewrite Forall_forall in Hl.
    rewrite elem_of_cons, !elem_of_app, !elem_of_cons in Hin.
    destruct Hin as [[=]|[[Hin|Hin]|[[= _ _ _ _ _ -> _ _]|[[=]|[[=]|Hin]]]]]; [| |done|].
    + by destruct (Hl _ Hin).
    + destruct e; set_solver.
    + by apply not_elem_of_nil in Hin.
Qed.
End ChainFacts.

(** The mux that hands every request to the proxy of the asset handler. *)
Definition proxy_mux {S} (Sign : S -> OutReq -> Z -> result string Header) transport
    (h : handler (S := S)) pe g (req : assetRequest) : Handler := fun _ r w =>
  let '(e, fx, _) := ServeProxy Sign transport h pe g r req w in (e, map RHandler fx).

Lemma ServeProxy_panic {S} (Sign : S -> OutReq -> Z -> result string Header) transport h pe g r req w origin w' :
  h_proxy h = Some origin -> h_authMode h = "none" ->
  (ProxyGuard.guard_enter (pe_id pe) (r_ctx_done r) g).1 = true ->
  (reverseProxy Sign transport h origin (pe_now pe) (pe_buf pe) r (pe_prepared pe)
     (MkMeta (ext req) (MaxSegmentBytes (h_cfg h))) w).1.2 = Panicked w' ->
  (ServeProxy Sign transport h pe g r req w).1.1 = Panicked w'.
Proof.
  intros Hp Ha Hg Hr. unfold ServeProxy. rewrite Hp, Ha. change (String.eqb "none" "hmac") with false. cbn [andb].
  destruct (ProxyGuard.guard_enter _ _ _) as [ok g1]. cbn in Hg. subst ok. cbn [negb].
  destruct (reverseProxy _ _ _ _ _ _ _ _ _ _) as [[st e] fx]. cbn in Hr. subst e. done.
Qed.

(** C4: what a client receives for a proxied segment. For an origin whose announced lengths are honest and a
    limit below [2^63 - 1], the body the server sends is one JSON error, or the text of an internal error,
    or some of the bytes of the origin's answer to this request, from the first on and at most
    [MaxSegmentBytes] of them, however the origin chunks its body and whether or not it announced a
    length; if they are not all of them, the text of an internal error follows. *)
Theorem proxied_segment_bounded `{UnicodeLower} {S} FindRoute ValidateRequest requestID latency
    (Sign : S -> OutReq -> Z -> result string Header) transport (h : handler (S := S)) pe g r req :
  HasPrefix (r_path r) "/assets/" = true -> isSegmentLike (ext req) = true ->
  (0 < MaxSegmentBytes (h_cfg h) < int64_max)%Z -> (0 < pe_buf pe)%nat ->
  (forall o resp, transport o = Ok resp -> honest_length resp) ->
  exists w l,
    serve FindRoute ValidateRequest requestID latency (proxy_mux Sign transport h pe g req) r = (Returned w, l) /\
    ((exists code, rw_body w = [Bytes (json_field "error" code)]) \/
     rw_body w = [Bytes (internal_error_text +:+ newline)] \/
     exists o resp n, RHandler (EUpstream o) ∈ l /\ transport o = Ok resp /\
       let data := up_data (p_body resp) in
       (Z.of_nat n <= MaxSegmentBytes (h_cfg h))%Z /\
       (rw_body w = segment_chunk (take n data) /\ take n data = data \/
        rw_body w = segment_chunk (take n data) ++ [Bytes (internal_error_text +:+ newline)])).
Proof.
  intros Hpath Hs Hm Hk Hh.
  pose proof (inner_unvalidated FindRoute ValidateRequest (proxy_mux Sign transport h pe g req) requestID None r new_rw
    (assets_not_validated _ Hpath)) as Hi.
  unfold proxy_mux at 2 in Hi. set (w0 := with_header (hSet "X-Request-Id" requestID) new_rw) in Hi.
  destruct (ServeProxy Sign transport h pe g r req w0) as [[e fx] g'] eqn:E.
  eapply ServeProxy_segment in E; [|done..].
  rewrite (serve_inner FindRoute ValidateRequest _ requestID latency r _ _ Hi).
  assert (Herr : forall w, rw_body (http_Error internal_error_text 500 w) = rw_body w ++ [Bytes (internal_error_text +:+ newline)]).
  { intros w. destruct w as [hd [p|] b c]; reflexivity. }
  do 2 eexists. split; [reflexivity|]. destruct E as [(code & -> & Hb)|[-> |(o & resp & n & Ho & Hr & Hn & Hb & Hall)]].
  - left. exists code. exact Hb.
  - right; left. rewrite Herr. done.
  - right; right. exists o, resp, n. split; [rewrite elem_of_cons, !elem_of_app, list_elem_of_fmap; naive_solver|].
    split; [done|]. split; [done|]. destruct e as [w|w]; cbn [end_rw] in Hb, Hall.
    + left. split; [exact Hb|by apply Hall].
    + right. rewrite Herr, Hb. done.
Qed.

(** A segment that is too long is delivered as if it were complete. When the origin streams a
    segment without announcing its length and it exceeds the limit, the proxy aborts after the
    limit; but the recovery layer turns the abort into an ordinary end of the response: the client
    receives the origin's status, the first [MaxSegmentBytes] bytes, and the text of an internal
    error appended to them, on a connection that is closed properly, while the access log
    records a 500. *)
Theorem overlong_segment_ends_normally `{UnicodeLower} {S} FindRoute ValidateRequest requestID latency
    (Sign : S -> OutReq -> Z -> result string Header) transport (h : handler (S := S)) pe g r req origin resp :
  h_proxy h = Some origin -> h_authMode h = "none" -> HasPrefix (r_path r) "/assets/" = true ->
  (ProxyGuard.guard_enter (pe_id pe) (r_ctx_done r) g).1 = true ->
  isSegmentLike (ext req) = true -> (0 < MaxSegmentBytes (h_cfg h) < int64_max)%Z -> (0 < pe_buf pe)%nat ->
  transport (rewriteRequest origin r (pe_prepared pe)) = Ok resp -> (p_length resp < 0)%Z ->
  (MaxSegmentBytes (h_cfg h) < Z.of_nat (length (up_data (p_body resp))))%Z ->
  exists w l,
    serve FindRoute ValidateRequest requestID latency (proxy_mux Sign transport h pe g req) r = (Returned w, l) /\
    rw_status w = Some (p_status resp) /\
    rw_body w = [Bytes (bytes_string (take (Z.to_nat (MaxSegmentBytes (h_cfg h))) (up_data (p_body resp))));
                 Bytes (internal_error_text +:+ newline)] /\
    seen_status new_rw w = 500%Z.
Proof.
  intros Hp Ha Hpath Hg Hs Hm Hk Ht Hl Hlong.
  destruct (overlong_stream_panics Sign transport h origin (pe_now pe) (pe_buf pe) r (pe_prepared pe) (ext req)
    (MaxSegmentBytes (h_cfg h)) (hSet "X-Request-Id" requestID ∅) resp Ha Hs Hm Hk Ht Hl Hlong) as (w' & Hw & Hst & Hb).
  apply (ServeProxy_panic Sign transport h pe g r req _ origin w' Hp Ha Hg) in Hw.
  pose proof (inner_unvalidated FindRoute ValidateRequest (proxy_mux Sign transport h pe g req) requestID None r new_rw
    (assets_not_validated _ Hpath)) as Hi.
  unfold proxy_mux at 2 in Hi.
  change (with_header (hSet "X-Request-Id" requestID) new_rw) with (MkRW (hSet "X-Request-Id" requestID ∅) None [] []) in Hi.
  destruct (ServeProxy Sign transport h pe g r req _) as [[e fx] g'] eqn:E. cbn in Hw. subst e.
  rewrite (serve_inner FindRoute ValidateRequest _ requestID latency r _ _ Hi).
  do 2 eexists. split; [reflexivity|].
  unfold rw_status in Hst. destruct w' as [hd [[st0 hs]|] b c]; [|done]. cbn in Hst, Hb |- *. injection Hst as ->. subst b.
  split; [done|]. split; [done|]. change (default 200%Z (last (c ++ [500%Z])) = 500%Z). by rewrite last_snoc.
Qed.

Definition variant_char (c : Ascii.ascii) : bool :=
  Ascii.eqb c "8" || Ascii.eqb c "9" || Ascii.eqb c "a" || Ascii.eqb c "b".

Lemma uuid_nibbles b :
  is_byte b ->
  hex_digit (Z.lor (Z.land b 15) 64 / 16) = "4"%char /\ variant_char (hex_digit (Z.lor (Z.land b 63) 128 / 16)) = true.
Proof.
  intros Hb.
  assert (Hall : forallb (fun n => let b := Z.of_nat n in
    Ascii.eqb (hex_digit (Z.lor (Z.land b 15) 64 / 16)) "4" &&
    variant_char (hex_digit (Z.lor (Z.land b 63) 128 / 16))) (seq 0 256) = true) by (vm_compute; reflexivity).
  rewrite forallb_forall in Hall. unfold is_byte in Hb. specialize (Hall (Z.to_nat b) ltac:(apply in_seq; lia)).
  cbv zeta in Hall. rewrite Z2Nat.id in Hall by lia. apply andb_true_iff in Hall as [H1 H2].
  split; [by apply Ascii.eqb_eq|done].
Qed.

(** Request ids are version-4 UUIDs. From 16 random bytes, [newUUIDv4] makes 36 characters with
    dashes at positions 8, 13, 18 and 23, the version digit 4, a variant digit among 8, 9, a and b,
    and the other random bits unchanged in their hexadecimal form. *)
Theorem newUUIDv4_format buf :
  length buf = 16%nat -> Forall is_byte buf ->
  let u := newUUIDv4 (Ok buf) in
  slen u = 36%nat /\
  Forall (fun i => String.get i u = Some "-"%char) [8; 13; 18; 23]%nat /\
  String.get 14 u = Some "4"%char /\
  (exists c, String.get 19 u = Some c /\ variant_char c = true) /\
  String.substring 0 8 u = hexEncode (take 4 buf) /\ String.substring 24 12 u = hexEncode (drop 10 buf).
Proof.
  intros Hlen Hb.
  destruct buf as [|b0 [|b1 [|b2 [|b3 [|b4 [|b5 [|b6 [|b7 [|b8 [|b9 [|b10 [|b11 [|b12 [|b13 [|b14 [|b15 [|]]]]]]]]]]]]]]]]]; try done. cbv zeta.
  rewrite !Forall_cons in Hb. destruct Hb as (_ & _ & _ & _ & _ & _ & H6 & _ & H8 & _).
  destruct (uuid_nibbles b6 H6) as [H4 _], (uuid_nibbles b8 H8) as [_ Hv].
  cbn. rewrite H4. split_and!; try done; [repeat constructor|eauto].
Qed.

(** ** Witnesses *)

Module MiddlewareDemo.
Import HandlerDemo.
#[local] Instance demo_lower2 : UnicodeLower := fun s => s.
Definition no_route (_ : Request) : option oa_route := None.
Definition valid (_ : oa_route) (_ : Request) : option string := None.
Definition plain_mux : Handler := fun _ _ w => (Returned (Write (Bytes "ok") w), []).
Definition broken_mux : Handler := fun _ _ w => (Panicked w, [RHandler EUpstreamBusy]).

Lemma plain_records ctx r w : handler_records (plain_mux ctx r w).2.
Proof. constructor. Qed.
Lemma broken_records ctx r w : handler_records (broken_mux ctx r w).2.
Proof. repeat constructor. eauto. Qed.

Lemma every_request_accounted_witness :
  exists w l st n fields (panicked : bool),
    serve no_route valid "id1" 3 broken_mux (get "/assets/x") =
      (Returned w, RInFlight "assets" 1 :: (l ++ if panicked then [RPanic ""] else []) ++
         [RAccess "GET" "/assets/x" st n 3 "" "10.1.2.3" fields; RObserve "assets" "GET" st n; RInFlight "assets" (-1)]) /\
    st = seen_status new_rw w /\ n = seen_bytes new_rw w /\ handler_records l /\
    exists w', inner no_route valid broken_mux "id1" None (get "/assets/x") new_rw =
      ((if panicked then Panicked w' else Returned w'), l) /\
      w = if panicked then http_Error internal_error_text 500 w' else w'.
Proof. exact (every_request_accounted no_route valid broken_mux broken_records "id1" 3 (get "/assets/x")). Defined.

Lemma request_id_lost_witness :
  forall m p st n lat id ip fs,
    RAccess m p st n lat id ip fs ∈ (serve no_route valid "id1" 3 plain_mux (get "/assets/x")).2 -> id = "".
Proof. apply (request_id_lost no_route valid plain_mux plain_records "id1" 3 (get "/assets/x")); done. Defined.

Lemma proxied_segment_bounded_witness :
  exists w l,
    serve no_route valid "id1" 3
      (proxy_mux sign origin_says (h "proxy" "none" (NilIface (S := unit))) pe (ProxyGuard.guard_init 2) ts_req)
      (get "/assets/a1/s.ts") = (Returned w, l) /\ rw_body w = [Bytes "ABC"; Bytes (internal_error_text +:+ newline)].
Proof.
  destruct (proxied_segment_bounded no_route valid "id1" 3 sign origin_says (h "proxy" "none" (NilIface (S := unit))) pe
    (ProxyGuard.guard_init 2) (get "/assets/a1/s.ts") ts_req) as (w & l & Hw & _).
  - reflexivity.
  - reflexivity.
  - vm_compute; done.
  - vm_compute; lia.
  - intros o resp Ho. injection Ho as <-. intros Hc. cbn in Hc. lia.
  - exists w, l. split; [exact Hw|]. vm_compute in Hw. injection Hw as <- _. reflexivity.
Defined.

Lemma overlong_segment_ends_normally_witness :
  exists w l,
    serve no_route valid "id1" 3
      (proxy_mux sign origin_says (h "proxy" "none" (NilIface (S := unit))) pe (ProxyGuard.guard_init 2) ts_req)
      (get "/assets/a1/s.ts") = (Returned w, l) /\
    rw_status w = Some 200 /\ rw_body w = [Bytes "ABC"; Bytes (internal_error_text +:+ newline)] /\
    seen_status new_rw w = 500.
Proof.
  apply (overlong_segment_ends_normally no_route valid "id1" 3 sign origin_says (h "proxy" "none" NilIface) pe
    (ProxyGuard.guard_init 2) (get "/assets/a1/s.ts") ts_req (MkURL "http" "origin:9000" "/media/")
    (MkResp 200 ∅ (-1) body [])); try (vm_compute; reflexivity).
  - vm_compute; done.
  - vm_compute; lia.
Defined.

Lemma newUUIDv4_format_witness :
  newUUIDv4 (Ok (replicate 16 255)) = "ffffffff-ffff-4fff-bfff-ffffffffffff" /\
  String.get 14 (newUUIDv4 (Ok (replicate 16 255))) = Some "4"%char.
Proof.
  split; [vm_compute; reflexivity|].
  apply (newUUIDv4_format (replicate 16 255)); [done|]. repeat constructor; lia.
Defined.
End MiddlewareDemo.
