(* ===== verification/Server.v ===== *)
(** * Wiring the asset endpoint

    The part of [NewWithDeps] in [internal/httpserver/server.go] that builds the asset endpoint
    from the configuration: the handler, its semaphore, the CORS layer and the rate limiter. The
    theorem connects [Config.Validate] with what these components assume: a configuration that
    passed validation yields an endpoint whose error branches for missing configuration cannot be
    reached. *)

From S2P Require Import Prelude GoStrings GoHttp GoTime Config FsSecure ProxyGuard Float64 RateLimit Cors AssetPath AssetHandler.
Open Scope Z_scope.

Section Server.
Context `{UnicodeLower}.
Context {S : Type}.

(** The literal passed to [assets.NewHandler]. *)
Definition assetsConfig (cfg : Config) (originSigner : iface S) : HandlerConfig S :=
  MkHandlerConfig S (Join [DataPath cfg; AssetsSubdir cfg]) (Config.MaxSegmentBytes cfg) (EnableCORS cfg)
    (Config.StorageMode cfg) (Config.OriginBaseURL cfg) (Config.OriginAuthMode cfg) originSigner.

Definition upstreamSemaphore (cfg : Config) : option Semaphore :=
  NewSemaphore (ProxyMaxUpstreamConcurrency cfg).

Definition corsConfig (cfg : Config) : CORSConfig :=
  MkCORS (ParseAllowedOrigins (CORSAllowedOrigins cfg)) (CORSAllowCredentials cfg).

Definition limiterConfig (cfg : Config) : RateLimitConfig :=
  MkRateLimitConfig (RateLimitRPS cfg) (RateLimitBurst cfg).

(** ** The endpoint *)

Context {F : Type} `{Float64 F}.
Variable Sign : S -> OutReq -> Z -> result string Header.
Variable serveContent : Request -> FileInfo -> RW -> RW.
Variable transport : OutReq -> result string UpResp.

(** The state the endpoint keeps between requests. *)
Record endpoint := MkEndpoint { ep_limiter : ipRateLimiter F; ep_guard : guard_state }.

(** CORS in front of the handler, if enabled. *)
Definition withCORS (cfg : Config) (h : handler) (getwd : result string string) (env : open_env)
    (pe : proxy_env) (g : guard_state) (r : Request) (w : RW) : run_end * list effect * guard_state :=
  let run r w := serveHTTP Sign serveContent transport h getwd env pe g r w in
  if EnableCORS cfg then corsMiddleware (corsConfig cfg) run (fun w => (Returned w, [], g)) r w
  else run r w.

(** The rate limiter in front of that. *)
Definition serveAssets (cfg : Config) (h : handler) (getwd : result string string) (env : open_env)
    (pe : proxy_env) (now : Z) (s : endpoint) (r : Request) (w : RW) : run_end * list effect * endpoint :=
  let '(ok, l') := allow now (host_or_self (r_remote r)) (ep_limiter s) in
  if ok then
    let '(e, fx, g') := withCORS cfg h getwd env pe (ep_guard s) r w in (e, fx, MkEndpoint l' g')
  else (Returned (writeJSONError 429 "rate_limited" w), [], MkEndpoint l' (ep_guard s)).

(** ** Lemmas *)

Lemma mode_agrees m mode :
  resolve_mode m = Some mode -> normalizeStorageMode m = mode /\ mode ∈ ["filesystem"; "proxy"; "hybrid"].
Proof.
  unfold resolve_mode, normalizeStorageMode, StorageModeFilesystem, StorageModeProxy, StorageModeHybrid.
  set (x := ToLower (TrimSpace m)).
  destruct (String.eqb_spec x "") as [->|]; [intros [= <-]; cbn; set_solver|].
  destruct (String.eqb_spec x "filesystem") as [->|]; [intros [= <-]; cbn; set_solver|].
  destruct (String.eqb_spec x "proxy") as [->|]; [intros [= <-]; cbn; set_solver|].
  destruct (String.eqb_spec x "hybrid") as [->|]; [intros [= <-]; cbn; set_solver|done].
Qed.

Lemma mode_resolved m mode :
  resolve_mode m = Some mode -> mode = if String.eqb (ToLower (TrimSpace m)) "" then "filesystem" else ToLower (TrimSpace m).
Proof.
  unfold resolve_mode, StorageModeFilesystem, StorageModeProxy, StorageModeHybrid. set (x := ToLower (TrimSpace m)).
  destruct (String.eqb_spec x "") as [->|]; [by intros [= <-]|]. destruct (String.eqb_spec x "filesystem") as [->|]; [by intros [= <-]|].
  cbn. destruct (_ || _); [|done]. by intros [= <-].
Qed.

Lemma lower_scheme_nonempty s : ToLower s = "http" \/ ToLower s = "https" -> s <> "".
Proof. intros Hs ->. by destruct Hs. Qed.

Lemma validated_origin {N} (ve : validate_env N) c mode :
  validate_origin ve c mode = Ok tt -> mode = "proxy" \/ mode = "hybrid" ->
  exists origin, initProxy (url_parse ve) mode (Config.OriginBaseURL c) = Some origin /\
    (ToLower (u_scheme origin) = "http" \/ ToLower (u_scheme origin) = "https") /\ u_host origin <> "".
Proof.
  unfold validate_origin, StorageModeProxy, StorageModeHybrid. intros Hv Hm.
  replace (String.eqb mode "proxy" || String.eqb mode "hybrid") with true in Hv by (by destruct Hm as [-> | ->]).
  inv_ok. match goal with Hu : validateURL _ _ _ = Ok ?u |- _ => destruct (validateURL_Ok _ _ _ _ Hu) as (Hp & Hh & Hs); exists u end.
  split; [|done]. unfold initProxy.
  replace (negb (String.eqb mode "proxy") && negb (String.eqb mode "hybrid")) with false by (by destruct Hm as [-> | ->]).
  rewrite Hp. apply lower_scheme_nonempty in Hs as Hne. apply String.eqb_neq in Hne, Hh. by rewrite Hne, Hh.
Qed.

(** ** Theorems *)

(** C36: a configuration that passed validation wires a working asset endpoint. The handler runs in
    the configured storage mode (trimmed and in lower case, filesystem if it is blank), which is one
    of the three; in proxy and hybrid mode it has an origin with an http or https
    scheme and a host, so that the branch [proxy_not_configured] is not taken; segments and upstream
    concurrency are limited by positive bounds; and with CORS enabled the list of allowed origins is
    not empty and contains no wildcard. *)
Theorem validated_config_wires {N} (ve : validate_env N) cfg sg :
  Validate ve cfg = Ok tt ->
  let h := NewHandler (url_parse ve) (assetsConfig cfg sg) in
  (let m := ToLower (TrimSpace (Config.StorageMode cfg)) in h_mode h = if String.eqb m "" then "filesystem" else m) /\
  h_mode h ∈ ["filesystem"; "proxy"; "hybrid"] /\
  (h_mode h = "proxy" \/ h_mode h = "hybrid" ->
   exists origin, h_proxy h = Some origin /\
     (ToLower (u_scheme origin) = "http" \/ ToLower (u_scheme origin) = "https") /\ u_host origin <> "") /\
  0 < AssetHandler.MaxSegmentBytes (h_cfg h) /\
  (exists n, upstreamSemaphore cfg = Some (MkSem (Some (Chan n 0))) /\ (0 < n)%nat) /\
  (EnableCORS cfg = true ->
   AllowedOrigins (corsConfig cfg) <> ∅ /\ "*" ∉ AllowedOrigins (corsConfig cfg)).
Proof.
  intros Hv. destruct (Validate_Ok _ _ Hv) as (mode & pub & Hmode & Hlim & _ & _ & Horg & _ & _ & Hcors & _).
  destruct (mode_agrees _ _ Hmode) as [Hm Hin]. destruct (validate_limits_Ok _ Hlim) as (Hseg & _ & _ & _ & Hsem).
  cbv zeta. unfold NewHandler, assetsConfig. cbn [h_mode h_proxy h_cfg AssetHandler.StorageMode AssetHandler.OriginBaseURL
    AssetHandler.MaxSegmentBytes]. rewrite Hm.
  split; [by apply mode_resolved|]. split; [done|]. split; [intros Hp; by apply validated_origin|]. split; [done|]. split.
  - unfold upstreamSemaphore, NewSemaphore. destruct (Z.leb_spec (ProxyMaxUpstreamConcurrency cfg) 0); [lia|].
    eexists. split; [done|]. lia.
  - intros He. destruct (validate_cors_Ok _ Hcors He) as [Hne Hstar].
    assert (Hset : forall o, o ∈ AllowedOrigins (corsConfig cfg) <-> o ∈ splitCSV (CORSAllowedOrigins cfg)).
    { intros o. cbn [corsConfig AllowedOrigins]. unfold ParseAllowedOrigins. rewrite elem_of_add_origins, elem_of_splitCSV.
      set_solver. }
    split; [|by rewrite Hset]. intros Hempty.
    destruct (splitCSV (CORSAllowedOrigins cfg)) as [|o l] eqn:El; [done|].
    apply (not_elem_of_empty (C := gset string) o). rewrite <- Hempty, Hset. left.
Qed.
End Server.

(** ** Witnesses *)

Module ServerDemo.
#[local] Instance demo_lower : UnicodeLower := fun s => s.
Definition ve : validate_env string :=
  ValidateEnv _ (fun _ => Ok tt) (fun _ => Err "none") (fun s => Some (MkURL "HTTPS" s "/")) Some.
Definition cfg : Config :=
  Load {[ "PROVIDER_STORAGE_MODE" := " Hybrid"; "PROVIDER_ORIGIN_BASE_URL" := "origin.example";
          "PROVIDER_ENABLE_CORS" := "true"; "PROVIDER_CORS_ALLOWED_ORIGINS" := "https://a.example, https://b.example" ]}.

Lemma validated_config_wires_witness :
  Validate ve cfg = Ok tt /\ AllowedOrigins (corsConfig cfg) <> ∅ /\
  exists origin, h_proxy (NewHandler (url_parse ve) (assetsConfig cfg (NilIface (S := unit)))) = Some origin /\
    u_host origin <> "".
Proof.
  assert (Hv : Validate ve cfg = Ok tt) by (vm_compute; reflexivity). split; [exact Hv|].
  destruct (validated_config_wires (S := unit) ve cfg NilIface Hv) as (_ & _ & Hp & _ & _ & Hc).
  split; [apply Hc; vm_compute; reflexivity|].
  destruct Hp as (origin & Ho & _ & Hh); [right; vm_compute; reflexivity|]. eauto.
Defined.
End ServerDemo.
