(* ===== verification/Scanner.v ===== *)
(** * The asset scanner

    [internal/scanner/scanner.go]: which directories below the assets root are assets, what is
    recorded of each, and the content hash. What the operating system answers to each call is an
    argument, so that the theorems hold for a file system that changes during the scan. The
    theorems say which assets a scan finds, that the content hash depends on the files and not
    on the order in which they were listed, that its text determines the files, and that the
    scanner and the asset handler allow the same files. *)

From Stdlib Require Import Btauto.
From S2P Require Import Prelude GoStrings GoTime Sha256 AssetPath FsSecure Repository.
Open Scope Z_scope.

(** ** Data *)

Record Asset := MkAsset {
  as_AssetID : string;
  as_MasterPlaylistPath : string;
  as_ContentHash : string;
  as_FileCount : Z;
  as_TotalSizeBytes : Z;
  as_LastScannedAt : Z;
}.

Record ScanResult := MkScan { sr_Assets : list Asset; sr_ScannedAssets : Z }.

Record fileMeta := MkMeta { fm_name : string; fm_size : Z; fm_modUnix : Z }.

(** An entry of [os.ReadDir]. *)
Record dirent := MkEnt { de_name : string; de_kind : kind }.

Inductive scan_err :=
| ErrEnsureRoot (e : errno) | ErrReadRoot (e : errno) | ErrCanceled
| ErrLstatAsset (id : string) (e : errno) | ErrReadAsset (id : string) (e : errno)
| ErrStatFile (name id : string) (e : errno).

(** The answers of the operating system during one scan; [cancelled i] says whether the context
    is done when the [i]-th entry is reached, [scannedAt] is the clock. *)
Record os_view := OsView {
  v_mkdirAll : string -> result errno unit;
  v_readDir : string -> result errno (list dirent);
  v_lstat : string -> result errno FileInfo;
  v_info : string -> string -> result errno FileInfo;
  v_cancelled : nat -> bool;
  v_scannedAt : string -> Z;
}.

Section Scanner.
Context `{UnicodeLower}.

(** ** Allowed files *)

Definition isAllowedInitMP4 (name : string) : bool :=
  let lower := ToLower name in
  if String.eqb lower "init.mp4" then true
  else if HasPrefix lower "init-" && HasSuffix lower ".mp4" && (slen "init-.mp4" <? slen lower)%nat then true
  else false.

Definition isAllowedFile (name ext : string) : bool :=
  if String.eqb ext ".m3u8" || String.eqb ext ".ts" || String.eqb ext ".m4s" then true
  else if String.eqb ext ".mp4" then isAllowedInitMP4 name
  else false.

(** ** The content hash *)

Definition nl : Ascii.ascii := "010"%char.

Definition by_name (f g : fileMeta) : Prop := sle (fm_name f) (fm_name g).
#[export] Instance by_name_dec f g : Decision (by_name f g).
Proof. unfold by_name. apply _. Defined.

(** One line of the hashed text: name, size and time, with bars and a line feed. *)
Definition file_line (f : fileMeta) : string :=
  fm_name f +:+ "|" +:+ Itoa (fm_size f) +:+ "|" +:+ Itoa (fm_modUnix f) +:+ String nl "".

Definition listing (files : list fileMeta) : string :=
  foldr (fun f s => file_line f +:+ s) "" (merge_sort by_name files).

Definition computeContentHash (files : list fileMeta) : string :=
  hexEncode (sha256 (bytes_of (listing files))).

(** ** One asset directory *)

Record dir_scan := MkDirScan {
  ds_master : bool;
  ds_playable : bool;
  ds_files : list fileMeta;
  ds_total : Z;
}.

(** The loop over the entries: [None] is the early return for a symbolic link. *)
Fixpoint scan_entries (info : string -> result errno FileInfo) (id : string) (acc : dir_scan)
    (entries : list dirent) : result scan_err (option dir_scan) :=
  match entries with
  | [] => Ok (Some acc)
  | e :: rest =>
      let name := de_name e in
      if bool_decide (de_kind e = KLink) then Ok None
      else if bool_decide (de_kind e = KDir) then scan_entries info id acc rest
      else
        let ext := ToLower (Ext name) in
        if negb (isAllowedFile name ext) then scan_entries info id acc rest
        else match info name with
             | Err er => Err (ErrStatFile name id er)
             | Ok i =>
                 scan_entries info id
                   (MkDirScan (EqualFold name "master.m3u8" || ds_master acc)
                      (String.eqb ext ".ts" || String.eqb ext ".m4s" || isAllowedInitMP4 name || ds_playable acc)
                      (ds_files acc ++ [MkMeta name (fi_size i) (fi_mtime i)])
                      (wrap64 (ds_total acc + fi_size i)))
                   rest
             end
  end.

Definition scanAssetDir (v : os_view) (assetsRoot assetID : string) : result scan_err (option Asset) :=
  let assetDir := Join [assetsRoot; assetID] in
  match v_lstat v assetDir with
  | Err e => Err (ErrLstatAsset assetID e)
  | Ok di =>
      if IsSymlink (Some di) then Ok None
      else match v_readDir v assetDir with
           | Err e => Err (ErrReadAsset assetID e)
           | Ok entries =>
               r ← scan_entries (v_info v assetID) assetID (MkDirScan false false [] 0) entries;
               match r with
               | None => Ok None
               | Some ds =>
                   if negb (ds_master ds) || negb (ds_playable ds) then Ok None
                   else Ok (Some (MkAsset assetID (Join [assetID; "master.m3u8"])
                                    (computeContentHash (ds_files ds)) (Z.of_nat (length (ds_files ds)))
                                    (ds_total ds) (v_scannedAt v assetID)))
               end
           end
  end.

(** ** The scan *)

Fixpoint scan_loop (v : os_view) (assetsRoot : string) (i : nat) (entries : list dirent)
  : result scan_err (list Asset) :=
  match entries with
  | [] => Ok []
  | e :: rest =>
      if v_cancelled v i then Err ErrCanceled
      else if bool_decide (de_kind e = KLink) then scan_loop v assetsRoot (S i) rest
      else if negb (bool_decide (de_kind e = KDir)) then scan_loop v assetsRoot (S i) rest
      else if negb (assetIDRegex (de_name e)) then scan_loop v assetsRoot (S i) rest
      else
        a ← scanAssetDir v assetsRoot (de_name e);
        l ← scan_loop v assetsRoot (S i) rest;
        Ok (match a with Some x => x :: l | None => l end)
  end.

Definition by_id (a b : Asset) : Prop := sle (as_AssetID a) (as_AssetID b).
#[export] Instance by_id_dec a b : Decision (by_id a b).
Proof. unfold by_id. apply _. Defined.

(** The result, and the label the scan is counted under. *)
Definition Scan (v : os_view) (assetsRoot : string) : result scan_err ScanResult * string :=
  match v_mkdirAll v assetsRoot with
  | Err e => (Err (ErrEnsureRoot e), "error")
  | Ok _ =>
      match v_readDir v assetsRoot with
      | Err e => (Err (ErrReadRoot e), "error")
      | Ok entries =>
          match scan_loop v assetsRoot 0 entries with
          | Err e => (Err e, "error")
          | Ok assets =>
              let assets := merge_sort by_id assets in
              (Ok (MkScan assets (Z.of_nat (length assets))), "ok")
          end
      end
  end.

(** ** Lemmas on the content hash *)

#[export] Instance by_name_total : Total by_name.
Proof. intros f g. apply sle_total. Qed.
#[export] Instance by_name_trans : Transitive by_name.
Proof. intros f g h. unfold by_name. apply sle_trans. Qed.
#[export] Instance by_id_total : Total by_id.
Proof. intros f g. apply sle_total. Qed.

Lemma NoDup_map_inj {A} (f : A -> string) l x y :
  NoDup (f <$> l) -> x ∈ l -> y ∈ l -> f x = f y -> x = y.
Proof.
  intros Hnd Hx Hy E. apply list_elem_of_lookup in Hx as [i Hi], Hy as [j Hj].
  assert (i = j) as ->; [|congruence].
  eapply NoDup_lookup; [exact Hnd| |]; rewrite list_lookup_fmap; [by rewrite Hi|rewrite Hj; cbn; congruence].
Qed.

(** Files with distinct names have one sorted order. *)
Lemma sorted_files_unique fs gs :
  fs ≡ₚ gs -> NoDup (fm_name <$> fs) -> merge_sort by_name fs = merge_sort by_name gs.
Proof.
  intros Hp Hnd. apply (Sorted_unique_strong by_name); [|apply Sorted_merge_sort, _..|].
  - intros x y Hx Hy Hxy Hyx. rewrite merge_sort_Permutation in Hx, Hy. rewrite <- Hp in Hy.
    apply (NoDup_map_inj fm_name fs); [done..|]. by apply sle_anti.
  - by rewrite !merge_sort_Permutation.
Qed.

Definition no_nl (s : string) : Prop := has_char nl s = false.

Lemma Itoa_no_char c z : is_digit c = false -> c <> "-"%char -> has_char c (Itoa z) = false.
Proof.
  intros Hd Hm. eapply sall_has_char; [|apply Itoa_chars]. cbv beta. rewrite Hd. by apply Ascii.eqb_neq.
Qed.

Lemma line_inj f g :
  fm_name f +:+ "|" +:+ Itoa (fm_size f) +:+ "|" +:+ Itoa (fm_modUnix f) =
  fm_name g +:+ "|" +:+ Itoa (fm_size g) +:+ "|" +:+ Itoa (fm_modUnix g) -> f = g.
Proof.
  assert (F : forall x y z, x +:+ "|" +:+ Itoa y +:+ "|" +:+ z = (x +:+ String "|" (Itoa y)) +:+ String "|" z).
  { intros. by rewrite sapp_assoc. }
  rewrite !F. intros [E Em]%(sep_right_inj "|"%char); [|by apply Itoa_no_char..].
  apply (sep_right_inj "|"%char) in E as [En Es]; [|by apply Itoa_no_char..].
  apply Itoa_inj in Em, Es. destruct f, g; cbn in *. congruence.
Qed.

Lemma file_line_sep f s :
  file_line f +:+ s =
  (fm_name f +:+ "|" +:+ Itoa (fm_size f) +:+ "|" +:+ Itoa (fm_modUnix f)) +:+ String nl s.
Proof. unfold file_line. by rewrite !sapp_assoc. Qed.

Lemma line_no_nl f : no_nl (fm_name f) ->
  has_char nl (fm_name f +:+ "|" +:+ Itoa (fm_size f) +:+ "|" +:+ Itoa (fm_modUnix f)) = false.
Proof.
  unfold no_nl. intros Hn. rewrite !has_char_app, Hn, !Itoa_no_char by done. done.
Qed.

Lemma lines_inj fs gs :
  Forall (fun f => no_nl (fm_name f)) fs -> Forall (fun f => no_nl (fm_name f)) gs ->
  foldr (fun f s => file_line f +:+ s) "" fs = foldr (fun f s => file_line f +:+ s) "" gs -> fs = gs.
Proof.
  intros Hf; revert gs; induction Hf as [|f fs Hf _ IH]; intros gs Hg; destruct Hg as [|g gs Hg Hgs]; cbn [foldr].
  - done.
  - rewrite file_line_sep. intros E%(f_equal String.length). rewrite slen_app in E. cbn in E. lia.
  - rewrite file_line_sep. intros E%(f_equal String.length). rewrite slen_app in E. cbn in E. lia.
  - rewrite !file_line_sep. intros [E Es]%(sep_left_inj nl); [|by apply line_no_nl..].
    apply line_inj in E as ->. f_equal. by apply IH.
Qed.

(** ** Lemmas on the scan *)

Definition allowed (e : dirent) : bool := isAllowedFile (de_name e) (ToLower (Ext (de_name e))).
Definition is_master (e : dirent) : bool := EqualFold (de_name e) "master.m3u8".
Definition is_playable (e : dirent) : bool :=
  let ext := ToLower (Ext (de_name e)) in
  String.eqb ext ".ts" || String.eqb ext ".m4s" || isAllowedInitMP4 (de_name e).

(** The entries that are counted as files of the asset. *)
Definition counted (es : list dirent) : list dirent :=
  filter (fun e => de_kind e <> KDir /\ allowed e = true) es.

Lemma scan_entries_Some info id acc es ds :
  scan_entries info id acc es = Ok (Some ds) ->
  Forall (fun e => de_kind e <> KLink) es /\
  fm_name <$> ds_files ds = (fm_name <$> ds_files acc) ++ (de_name <$> counted es) /\
  ds_master ds = ds_master acc || existsb is_master (counted es) /\
  ds_playable ds = ds_playable acc || existsb is_playable (counted es).
Proof.
  revert acc; induction es as [|e es IH]; intros acc; cbn [scan_entries].
  - intros [= <-]. rewrite app_nil_r, !orb_false_r. done.
  - unfold counted. rewrite filter_cons.
    destruct (bool_decide_reflect (de_kind e = KLink)) as [|Hl]; [done|].
    destruct (bool_decide_reflect (de_kind e = KDir)) as [Hd|Hd].
    + rewrite decide_False by naive_solver. intros Hs%IH. naive_solver.
    + fold (allowed e). destruct (allowed e) eqn:Ha; cbn [negb].
      * rewrite decide_True by done. destruct (info (de_name e)) as [i|]; [|done].
        intros (Hk & Hn & Hm & Hp)%IH. cbn in *. split; [by constructor|].
        rewrite Hn, fmap_app, <- app_assoc. cbn. split; [done|].
        rewrite Hm, Hp. fold (is_master e) (is_playable e). unfold counted. split; btauto.
      * rewrite decide_False by naive_solver. intros Hs%IH. naive_solver.
Qed.

Lemma scan_entries_None info id acc es :
  scan_entries info id acc es = Ok None -> Exists (fun e => de_kind e = KLink) es.
Proof.
  revert acc; induction es as [|e es IH]; intros acc; cbn [scan_entries]; [done|].
  destruct (bool_decide_reflect (de_kind e = KLink)) as [|Hl]; [by left|].
  intros Hs. right. repeat case_match; naive_solver.
Qed.

(** What makes a directory an asset: no symbolic link in it, and among its allowed files a master
    playlist and something to play. *)
Definition servable (es : list dirent) : Prop :=
  Forall (fun e => de_kind e <> KLink) es /\
  (exists e, e ∈ counted es /\ is_master e = true) /\ (exists e, e ∈ counted es /\ is_playable e = true).

Lemma existsb_elem {A} (p : A -> bool) l : existsb p l = true <-> exists x, x ∈ l /\ p x = true.
Proof. rewrite existsb_exists. by setoid_rewrite list_elem_of_In. Qed.

Lemma scanAssetDir_Ok v root id r :
  scanAssetDir v root id = Ok r ->
  exists di, v_lstat v (Join [root; id]) = Ok di /\
    ((r = None /\ fi_kind di = KLink) \/
     exists es, v_readDir v (Join [root; id]) = Ok es /\ (is_Some r <-> servable es) /\
       forall a, r = Some a ->
         as_AssetID a = id /\ as_MasterPlaylistPath a = Join [id; "master.m3u8"] /\
         as_FileCount a = Z.of_nat (length (counted es)) /\
         exists files, fm_name <$> files = de_name <$> counted es /\ as_ContentHash a = computeContentHash files).
Proof.
  unfold scanAssetDir. destruct (v_lstat v _) as [di|]; [|done]. intros Hr. exists di. split; [done|].
  unfold IsSymlink in Hr. destruct (kind_eqb (fi_kind di) KLink) eqn:Hk; [injection Hr as <-; left; by apply kind_eqb_eq in Hk|].
  destruct (v_readDir v _) as [es|]; [|done]. right. exists es. split; [done|].
  apply bind_Ok in Hr as (x & Hs & Hx). destruct x as [ds|].
  - apply scan_entries_Some in Hs as (Hl & Hf & Hm & Hp). cbn in Hf, Hm, Hp. unfold servable.
    rewrite <- !existsb_elem, <- Hm, <- Hp.
    assert (Hlen : length (ds_files ds) = length (counted es)).
    { rewrite <- (length_fmap fm_name), Hf. by rewrite length_fmap. }
    destruct (ds_master ds), (ds_playable ds); cbn in Hx; injection Hx as <-.
    2-4: split; [split; [by intros []|naive_solver]|done].
    split; [split; eauto|]. intros a [= <-]. cbn. rewrite Hlen. eauto 8.
  - injection Hx as <-. apply scan_entries_None in Hs. split; [|done].
    split; [by intros []|]. intros (Hl & _). exfalso.
    apply Exists_exists in Hs as (e & He & Hk'). rewrite Forall_forall in Hl. by apply (Hl e).
Qed.

Lemma elem_of_skip {A} (P : A -> Prop) x l :
  ~ P x -> (exists y, y ∈ x :: l /\ P y) <-> exists y, y ∈ l /\ P y.
Proof. intros Hx. setoid_rewrite elem_of_cons. naive_solver. Qed.

Lemma scan_loop_elem v root i es l :
  scan_loop v root i es = Ok l ->
  forall a, a ∈ l <-> exists e, e ∈ es /\ de_kind e = KDir /\ assetIDRegex (de_name e) = true /\
                         scanAssetDir v root (de_name e) = Ok (Some a).
Proof.
  revert i l; induction es as [|e es IH]; intros i l; cbn [scan_loop].
  { intros [= <-] a. set_solver. }
  destruct (v_cancelled v i); [done|].
  destruct (bool_decide_reflect (de_kind e = KLink)) as [Hl|Hl].
  { intros Hs a. rewrite (IH _ _ Hs a). symmetry. apply elem_of_skip. intros (? & _). congruence. }
  destruct (bool_decide_reflect (de_kind e = KDir)) as [Hd|Hd]; cbn [negb].
  2: { intros Hs a. rewrite (IH _ _ Hs a). symmetry. apply elem_of_skip. by intros (? & _). }
  destruct (assetIDRegex (de_name e)) eqn:Hre; cbn [negb].
  2: { intros Hs a. rewrite (IH _ _ Hs a). symmetry. apply elem_of_skip. intros (_ & ? & _). congruence. }
  intros (x & Hx & (l' & Hl' & Hs)%bind_Ok)%bind_Ok a. injection Hs as <-.
  setoid_rewrite elem_of_cons. destruct x as [y|].
  - rewrite elem_of_cons, (IH _ _ Hl' a). split.
    + intros [->|(e' & ? & ?)]; eauto 6.
    + intros (e' & [->|He'] & ? & ? & Ha); [left; congruence|right; eauto].
  - rewrite (IH _ _ Hl' a). split.
    + intros (e' & ? & ?); eauto 6.
    + intros (e' & [->|He'] & ? & ? & Ha); [congruence|eauto].
Qed.

Lemma scan_loop_ok v root i es l e :
  scan_loop v root i es = Ok l -> e ∈ es -> de_kind e = KDir -> assetIDRegex (de_name e) = true ->
  exists r, scanAssetDir v root (de_name e) = Ok r.
Proof.
  revert i l; induction es as [|e' es IH]; intros i l; cbn [scan_loop]; [set_solver|].
  destruct (v_cancelled v i); [done|]. intros Hs [->|Hin]%elem_of_cons Hd Hre.
  - rewrite Hd, Hre, bool_decide_false, bool_decide_true in Hs by done. cbn in Hs. inv_ok. eauto.
  - repeat case_match; eauto. inv_ok. eauto.
Qed.

(** ** Theorems *)

(** C22: a scan finds exactly the playable assets. When a scan succeeds, an identifier is among the
    assets found exactly when the root has a real directory of that (valid) name which, when it
    was looked at, was not a symbolic link, contained no symbolic link, and held a master playlist
    and a playable segment among its allowed files; the result is in byte order of the ids, and
    the reported number is its length. *)
Theorem scan_finds_exactly_playable v root res label entries :
  Scan v root = (Ok res, label) -> v_readDir v root = Ok entries ->
  label = "ok" /\ Sorted by_id (sr_Assets res) /\ sr_ScannedAssets res = Z.of_nat (length (sr_Assets res)) /\
  forall id,
    id ∈ (as_AssetID <$> sr_Assets res) <->
    MkEnt id KDir ∈ entries /\ assetIDRegex id = true /\
    (exists di, v_lstat v (Join [root; id]) = Ok di /\ fi_kind di <> KLink) /\
    exists es, v_readDir v (Join [root; id]) = Ok es /\ servable es.
Proof.
  unfold Scan. intros Hs He. rewrite He in Hs. destruct (v_mkdirAll v root) as [u|]; [|done].
  destruct (scan_loop v root 0 entries) as [l|] eqn:Hl; [|done]. injection Hs as <- <-. cbn [sr_Assets sr_ScannedAssets].
  split; [done|]. split; [apply Sorted_merge_sort, _|]. split; [done|]. intros id.
  rewrite list_elem_of_fmap. setoid_rewrite merge_sort_Permutation. setoid_rewrite (scan_loop_elem _ _ _ _ _ Hl).
  split.
  - intros (a & -> & [n k] & Hin & Hk & Hre & Ha). cbn in *. subst k.
    destruct (scanAssetDir_Ok _ _ _ _ Ha) as (di & Hdi & [[? _]|(es & Hes & Hiff & Hall)]); [done|].
    destruct (Hall a eq_refl) as (Hid & _). rewrite Hid. split_and!; [done..| |naive_solver].
    exists di. split; [done|]. intros Hlk. unfold scanAssetDir in Ha. rewrite Hdi in Ha. unfold IsSymlink in Ha.
    rewrite Hlk in Ha. done.
  - intros (Hin & Hre & (di & Hdi & Hk) & es & Hes & Hsv).
    destruct (scan_loop_ok _ _ _ _ _ _ Hl Hin eq_refl Hre) as [r Hr]. cbn in Hr.
    destruct (scanAssetDir_Ok _ _ _ _ Hr) as (di' & Hdi' & [[_ ?]|(es' & Hes' & Hiff & Hall)]); [congruence|].
    assert (es' = es) as -> by congruence. pose proof (proj2 Hiff Hsv) as [a Ha]. rewrite Ha in *.
    destruct (Hall a eq_refl) as (Hid & _). exists a. split; [done|]. by exists (MkEnt id KDir).
Qed.

(** The content hash identifies the files. Listing the same files in another order gives the
    same hash; and if two asset directories have the same hashed text, they have the same files
    with the same sizes and modification times (names without line feeds, which every name the
    handler serves satisfies), so that different contents can share a hash only through a
    collision of SHA-256. *)
Theorem content_hash_identifies fs gs :
  NoDup (fm_name <$> fs) ->
  (fs ≡ₚ gs -> computeContentHash fs = computeContentHash gs) /\
  (Forall (fun f => no_nl (fm_name f)) fs -> Forall (fun f => no_nl (fm_name f)) gs ->
   listing fs = listing gs -> fs ≡ₚ gs).
Proof.
  intros Hnd. split.
  - intros Hp. unfold computeContentHash, listing. by rewrite (sorted_files_unique fs gs).
  - unfold listing. intros Hf Hg E. apply lines_inj in E; [|by rewrite merge_sort_Permutation..].
    rewrite <- (merge_sort_Permutation by_name fs), E. apply merge_sort_Permutation.
Qed.

Lemma ToLower_ascii s : is_ascii s = true -> ToLower s = smap lower_char s.
Proof. unfold ToLower. by intros ->. Qed.

Lemma smap_app f s t : smap f (s +:+ t) = smap f s +:+ smap f t.
Proof. induction s; cbn; congruence. Qed.

Lemma last_dot_suffix s e : last_dot s = Some e -> exists t, s = t +:+ e.
Proof.
  revert e; induction s as [|c s IH]; intros e; cbn; [done|].
  destruct (last_dot s) as [e'|]; [|destruct (Ascii.eqb c dot); [|done]].
  - intros [= <-]. destruct (IH e' eq_refl) as [t ->]. by exists (String c t).
  - intros [= <-]. by exists "".
Qed.

Lemma Ext_suffix s : has_char slash s = false -> exists t, s = t +:+ Ext s.
Proof.
  intros Hs. unfold Ext. rewrite last_comp_nosep by done.
  destruct (last_dot s) as [e|] eqn:E; cbn; [by apply last_dot_suffix|]. exists s. by rewrite sapp_nil_r.
Qed.

Lemma lower_has_suffix s e :
  is_ascii s = true -> has_char slash s = false -> ToLower (Ext s) = e -> HasSuffix (ToLower s) e = true.
Proof.
  intros Ha Hs He. destruct (Ext_suffix s Hs) as [t Ht]. apply HasSuffix_spec. exists (smap lower_char t).
  assert (is_ascii (Ext s) = true) as Hae.
  { unfold is_ascii in *. rewrite Ht, sall_app in Ha. by apply andb_true_iff in Ha as [_ Ha]. }
  rewrite ToLower_ascii in He by done. rewrite ToLower_ascii by done. rewrite Ht at 1. rewrite smap_app. congruence.
Qed.

(** The scanner counts exactly the files the asset handler would serve. The two allow-lists
    are written independently; on every ASCII file name without a slash they agree. *)
Theorem allowlists_agree name :
  name <> "" -> is_ascii name = true -> has_char slash name = false ->
  isAllowedFile name (ToLower (Ext name)) = is_ok (validateExtension name).
Proof.
  intros Hn Ha Hs. unfold isAllowedFile, validateExtension. rewrite Base_nosep by done.
  destruct (String.eqb (ToLower (Ext name)) ".m3u8" || String.eqb (ToLower (Ext name)) ".ts" ||
            String.eqb (ToLower (Ext name)) ".m4s"); [done|].
  destruct (String.eqb_spec (ToLower (Ext name)) ".mp4") as [He|]; [|done].
  unfold isAllowedInitMP4. rewrite (lower_has_suffix name ".mp4") by done.
  destruct (String.eqb (ToLower name) "init.mp4"); [done|].
  rewrite andb_true_r. by destruct (HasPrefix (ToLower name) "init-" && _).
Qed.
End Scanner.

(** ** Witnesses *)

Module ScannerDemo.
#[local] Instance demo_lower : UnicodeLower := fun s => s.

(** Two assets: one playable, one whose only playlist is spelled in capitals. *)
Definition view : os_view :=
  OsView (fun _ => Ok tt)
    (fun p => if String.eqb p "data" then Ok [MkEnt "b1" KDir; MkEnt "a1" KDir; MkEnt "x.txt" KReg]
              else Ok [MkEnt (if String.eqb p "data/a1" then "master.m3u8" else "MASTER.M3U8") KReg;
                       MkEnt "sub" KDir; MkEnt "s1.ts" KReg])
    (fun p => Ok (MkInfo KDir 1 0 0)) (fun id name => Ok (MkInfo KReg 2 100 5)) (fun _ => false) (fun _ => 0).

Definition scanned : result scan_err ScanResult := (Scan view "data").1.

Lemma scan_finds_exactly_playable_witness :
  exists res, Scan view "data" = (Ok res, "ok") /\ (as_AssetID <$> sr_Assets res) = ["a1"; "b1"] /\
    assetIDRegex "b1" = true.
Proof.
  assert (Hs : exists res, Scan view "data" = (Ok res, "ok") /\ (as_AssetID <$> sr_Assets res) = ["a1"; "b1"]).
  { eexists. split; vm_compute; reflexivity. }
  destruct Hs as (res & Hs & Hids). exists res. split; [exact Hs|]. split; [exact Hids|].
  destruct (scan_finds_exactly_playable view "data" res "ok" [MkEnt "b1" KDir; MkEnt "a1" KDir; MkEnt "x.txt" KReg]
    Hs eq_refl) as (_ & _ & _ & Hiff).
  apply (Hiff "b1"). rewrite Hids. set_solver.
Defined.

(** The playlist of [b1] is recorded under a name that is not in the directory. *)
Example scanned_master_absent :
  match scanned with
  | Ok res => as_MasterPlaylistPath <$> sr_Assets res
  | Err _ => []
  end = ["a1/master.m3u8"; "b1/master.m3u8"].
Proof. vm_compute. reflexivity. Qed.

Definition files : list fileMeta := [MkMeta "s1.ts" 100 5; MkMeta "master.m3u8" 20 7].

Lemma content_hash_identifies_witness :
  computeContentHash files = computeContentHash (rev files) /\ listing files = listing (rev files).
Proof.
  split; [|vm_compute; reflexivity].
  apply (content_hash_identifies files (rev files)).
  - vm_compute. repeat constructor; set_solver.
  - vm_compute. apply Permutation_swap.
Defined.

Lemma allowlists_agree_witness :
  isAllowedFile "INIT-1.MP4" (ToLower (Ext "INIT-1.MP4")) = true /\
  isAllowedFile "INIT-1.MP4" (ToLower (Ext "INIT-1.MP4")) = is_ok (validateExtension "INIT-1.MP4").
Proof. split; [vm_compute; reflexivity|]. apply allowlists_agree; [done|vm_compute; reflexivity..]. Defined.
End ScannerDemo.
