(* ===== verification/Jobs.v ===== *)
(** * Background jobs

    [internal/jobs]: the rescan, the announce sweep and the clean-up, and the runner that
    repeats them. A job is a function of the database (with its schedule of faults), the back-off
    state, the clock and the outside world: what the scanner sees, what the catalog answers to
    each request, the nonces and the jitter. The theorems: a rescan makes the active assets of the
    database exactly the assets on disk; a sweep announces each asset at most once and only when
    it is active, due and not backed off, and misses none that is; its counters add up; and an
    announced asset is left alone until its expiry comes within the threshold. *)

From S2P Require Import Prelude GoStrings GoHttp GoTime Config Sha256 Catalog Backoff Repository Scanner.
Open Scope Z_scope.

(** ** rescan_job.go *)

Record RescanResult := MkRescan { ScannedAssets : Z; ActiveAssets : Z; MissingAssets : Z }.

Inductive job_err := JScan (e : scan_err) | JRepo (e : repo_err).

Definition record_of (a : Asset) : AssetRecord :=
  MkAssetRecord (as_AssetID a) (as_MasterPlaylistPath a) (as_ContentHash a) (as_FileCount a)
                (as_TotalSizeBytes a) (as_LastScannedAt a).

(** The database part of the job. *)
Definition store_scan (scanResult : ScanResult) (now : Z) : DB RescanResult :=
  let records := map record_of (sr_Assets scanResult) in
  let seen := map as_AssetID (sr_Assets scanResult) in
  UpsertAssets records now;;
  missing ← MarkMissing seen now;
  active ← CountActive;
  mret (MkRescan (sr_ScannedAssets scanResult) active missing).

Definition RunRescanJob (scan : result scan_err ScanResult) (now : Z) (d : db)
  : result job_err RescanResult * db :=
  match scan with
  | Err e => (Err (JScan e), d)
  | Ok scanResult =>
      match store_scan scanResult now d with
      | (Ok r, d') => (Ok r, d')
      | (Err e, d') => (Err (JRepo e), d')
      end
  end.

(** ** announce_sweep.go *)

Record AnnounceSweepResult := MkSweep {
  Attempted : Z;
  OK : Z;
  Rejected : Z;
  Failed : Z;
  Deferred : Z;
}.

Definition no_sweep : AnnounceSweepResult := MkSweep 0 0 0 0 0.

Definition needsReannounce (row : option AnnouncementRow) (threshold : Z) : bool :=
  match row with
  | None => true
  | Some r =>
      if negb (String.eqb (Status r) "ok") then true
      else if IsZero (ExpiresAt r) then true
      else Before (ExpiresAt r) threshold
  end.

(** The world around a sweep. *)
Record sweep_env (K : Type) := SweepEnv {
  se_sign : K -> list Z -> result string (list Z);
  se_id : Identity K;
  se_cfg : Config;
  se_nonce : string -> result string (list Z);
  se_announce : AnnounceRequest -> option catalog_err;
  se_jitter : string -> Z -> Z;
}.
Arguments se_sign {K} _.
Arguments se_id {K} _.
Arguments se_cfg {K} _.
Arguments se_nonce {K} _.
Arguments se_announce {K} _.
Arguments se_jitter {K} _.

(** The adapter around the client: the error of [Announce]. *)
Definition adapterAnnounce {K} (post : URL -> payload -> result string catalog_resp) (baseURL : URL)
    (id : Identity K) (req : AnnounceRequest) : option catalog_err :=
  match (Announce post baseURL id req).1 with Ok _ => None | Err e => Some e end.

(** The state a sweep threads: database, back-off, counters, metric labels and requests sent. *)
Record sweep_state := SweepState {
  ss_db : db;
  ss_backoff : BackoffState;
  ss_result : AnnounceSweepResult;
  ss_metrics : list string;
  ss_sent : list AnnounceRequest;
}.

Definition count_failed (r : AnnounceSweepResult) : AnnounceSweepResult :=
  MkSweep (Attempted r) (OK r) (Rejected r) (Failed r + 1) (Deferred r).
Definition count_deferred (r : AnnounceSweepResult) : AnnounceSweepResult :=
  MkSweep (Attempted r) (OK r) (Rejected r) (Failed r) (Deferred r + 1).
Definition count_attempted (r : AnnounceSweepResult) : AnnounceSweepResult :=
  MkSweep (Attempted r + 1) (OK r) (Rejected r) (Failed r) (Deferred r).
Definition count_ok (r : AnnounceSweepResult) : AnnounceSweepResult :=
  MkSweep (Attempted r) (OK r + 1) (Rejected r) (Failed r) (Deferred r).
Definition count_rejected (r : AnnounceSweepResult) : AnnounceSweepResult :=
  MkSweep (Attempted r) (OK r) (Rejected r + 1) (Failed r) (Deferred r).

(** Counter, metric label and stored status of each class of outcome. *)
Definition class_counter (class : ErrorClass) : AnnounceSweepResult -> AnnounceSweepResult :=
  if String.eqb class ClassOK then count_ok
  else if String.eqb class ClassRejected then count_rejected
  else count_failed.
Definition class_label (class : ErrorClass) : string :=
  if String.eqb class ClassOK then "ok"
  else if String.eqb class ClassRejected then "rejected"
  else if String.eqb class ClassUnauthorized then "unauthorized"
  else "failed".
Definition class_status (class : ErrorClass) : string :=
  if String.eqb class ClassOK then "ok"
  else if String.eqb class ClassRejected then "rejected"
  else "failed".

Section Sweep.
Context {K : Type} `{TimeParseLenient} (env : sweep_env K).

(** The body of the loop for one asset; errors of the final upsert are discarded. *)
Definition sweep_asset (now threshold : Z) (assetID : string) (s : sweep_state) : sweep_state :=
  let '(row, d) := GetAnnouncement assetID (ss_db s) in
  match row with
  | Err _ => SweepState d (ss_backoff s) (count_failed (ss_result s)) (ss_metrics s) (ss_sent s)
  | Ok row =>
      if negb (needsReannounce row threshold) then
        SweepState d (ss_backoff s) (ss_result s) (ss_metrics s) (ss_sent s)
      else if negb (CanAttempt assetID now (ss_backoff s)) then
        SweepState d (ss_backoff s) (count_deferred (ss_result s)) (ss_metrics s) (ss_sent s)
      else
        let res := count_attempted (ss_result s) in
        match BuildAnnouncement (se_sign env) (se_nonce env assetID) (se_id env) (se_cfg env) assetID now with
        | Err _ =>
            let b := Record_ (se_jitter env assetID) assetID ClassPermanent now (ss_backoff s) in
            let d := (UpsertAnnouncementStatus assetID zero_time zero_time "failed" now d).2 in
            SweepState d b (count_failed res) (ss_metrics s ++ ["failed"]) (ss_sent s)
        | Ok req =>
            let class := ClassifyError (se_announce env req) in
            let expiresAt := TimeUnix (ar_ExpiresAt req) in
            let d := (UpsertAnnouncementStatus assetID now expiresAt (class_status class) now d).2 in
            let b := Record_ (se_jitter env assetID) assetID class now (ss_backoff s) in
            SweepState d b (class_counter class res) (ss_metrics s ++ [class_label class]) (ss_sent s ++ [req])
        end
  end.

Definition sweep_loop (now threshold : Z) (ids : list string) (s : sweep_state) : sweep_state :=
  foldl (fun s id => sweep_asset now threshold id s) s ids.

(** [announcer] says whether there is one; [now] is the clock in UTC. *)
Definition RunAnnounceSweep (announcer : bool) (now : Z) (d : db) (b : BackoffState)
  : result repo_err AnnounceSweepResult * sweep_state :=
  if negb announcer then (Ok no_sweep, SweepState d b no_sweep [] [])
  else
    match ListActiveAssetIDs d with
    | (Err e, d') => (Err e, SweepState d' b no_sweep [] [])
    | (Ok activeIDs, d') =>
        let threshold := TimeAdd now (durationOf (ReannounceThresholdSeconds (se_cfg env)) Second) in
        let s := sweep_loop now threshold activeIDs (SweepState d' b no_sweep [] []) in
        (Ok (ss_result s), s)
    end.
End Sweep.

(** ** cleanup_job.go *)

Definition RunCleanupJob (graceSeconds now wallclock : Z) : DB Z :=
  let cutoff := Unix (TimeAdd now (wrap64 (wrap64 (- graceSeconds) * Second))) in
  MarkExpiredBefore wallclock cutoff.

(** ** runner.go *)

(** The jobs' part of the health report. *)
Record JobStatus := MkStatus {
  jobsEnabled : bool;
  lastRescanAt : Z;
  lastAnnounceSweepAt : Z;
  deferredAnnouncesCount : Z;
}.

Definition NewStatus (enabled : bool) : JobStatus := MkStatus enabled zero_time zero_time 0.
Definition setLastRescanAt (t : Z) (s : JobStatus) : JobStatus :=
  MkStatus (jobsEnabled s) t (lastAnnounceSweepAt s) (deferredAnnouncesCount s).
Definition setLastAnnounceSweep (t deferred : Z) (s : JobStatus) : JobStatus :=
  MkStatus (jobsEnabled s) (lastRescanAt s) t deferred.

(** Gauges and counters the jobs set. *)
Inductive job_metric :=
| MActive (n : Z) | MMissing (n : Z) | MDeferred (n : Z) | MSweep (label : string) | MAnnounce (label : string).

Record runner := MkRunner {
  rn_db : db;
  rn_backoff : BackoffState;
  rn_status : JobStatus;
  rn_metrics : list job_metric;
}.

(** One run of the rescan loop: [now] and [later] are the two readings of the clock. *)
Definition rescanTick (scan : result scan_err ScanResult) (now later : Z) (r : runner) : runner :=
  match RunRescanJob scan now (rn_db r) with
  | (Err _, d) => MkRunner d (rn_backoff r) (rn_status r) (rn_metrics r)
  | (Ok res, d) =>
      let '(missing, d') := CountMissing d in
      let ms := rn_metrics r ++ [MActive (ActiveAssets res)] ++
                match missing with Ok n => [MMissing n] | Err _ => [] end in
      MkRunner d' (rn_backoff r) (setLastRescanAt later (rn_status r)) ms
  end.

Definition announceSweepTick {K} `{TimeParseLenient} (env : sweep_env K) (announcer : bool)
    (now later : Z) (r : runner) : runner :=
  let '(res, s) := RunAnnounceSweep env announcer now (rn_db r) (rn_backoff r) in
  let ms := rn_metrics r ++ map MAnnounce (ss_metrics s) in
  match res with
  | Err _ => MkRunner (ss_db s) (ss_backoff s) (rn_status r) (ms ++ [MSweep "error"])
  | Ok _ =>
      let n := CountDeferred later (ss_backoff s) in
      MkRunner (ss_db s) (ss_backoff s) (setLastAnnounceSweep later n (rn_status r))
               (ms ++ [MDeferred n; MSweep "ok"])
  end.

Definition cleanupTick (graceSeconds now wallclock : Z) (r : runner) : runner :=
  MkRunner (RunCleanupJob graceSeconds now wallclock (rn_db r)).2 (rn_backoff r) (rn_status r) (rn_metrics r).

(** The ticker's interval in [runPeriodic]; the loop itself is in [Runner]. *)
Definition periodicInterval (interval : Z) : Z := if interval <=? 0 then 5 * Minute else interval.

(** ** The rescan *)

Definition rescanned (ids : list string) (records : list AssetRecord) (now : Z) (t : gmap string asset_row)
  : gmap string asset_row :=
  (update_where (unseen ids) (set_missing (FormatRFC3339 now)) (foldl (upsert_asset (FormatRFC3339 now)) t records)).1.

Lemma store_scan_inv sr now d res d' :
  store_scan sr now d = (Ok res, d') ->
  let ids := map as_AssetID (sr_Assets sr) in
  let records := map record_of (sr_Assets sr) in
  announcements d' = announcements d /\ assets d' = rescanned ids records now (assets d) /\
  res = MkRescan (sr_ScannedAssets sr) (count_status "active" (assets d'))
          (Z.of_nat (size (filter (unseen ids) (foldl (upsert_asset (FormatRFC3339 now)) (assets d) records)))).
Proof.
  intros Hr ids records. unfold store_scan in Hr. fold ids records in Hr.
  apply bind_inv in Hr as [(u & d1 & Hu & Hr)|(? & _ & ?)]; [|done].
  apply bind_inv in Hr as [(m & d2 & Hm & Hr)|(? & _ & ?)]; [|done].
  apply bind_inv in Hr as [(a & d3 & Ha & Hr)|(? & _ & ?)]; [|done].
  unfold mret, db_ret in Hr. injection Hr as <- <-.
  apply UpsertAssets_inv in Hu as [Hu1 Hu2]. apply MarkMissing_inv in Hm as [Hm1 Hm2].
  destruct Hm2 as [(? & [=] & _)|[Hm2 Hm3]]. apply CountActive_inv in Ha as [[Ha1 Ha2] Ha3].
  unfold rescanned. rewrite Hu2 in Hm2, Hm3. split; [congruence|]. split; [congruence|].
  rewrite (Ha3 a eq_refl), (Hm3 m eq_refl), Ha1. done.
Qed.

Lemma wf_active r : asset_wf r -> a_status r <> "missing" <-> a_status r = "active".
Proof. unfold asset_wf. intros [[-> _]|[-> _]]; split; congruence. Qed.

Lemma last_filter_ids id l :
  last (filter (fun a => AssetID a = id) (map record_of l)) = None <-> id ∉ map as_AssetID l.
Proof.
  rewrite last_None. split.
  - intros E Hin%list_elem_of_fmap. destruct Hin as (a & -> & Ha).
    assert (Hf : record_of a ∈ filter (fun x => AssetID x = as_AssetID a) (map record_of l)).
    { apply list_elem_of_filter. split; [done|]. apply list_elem_of_fmap. eauto. }
    rewrite E in Hf. set_solver.
  - intros Hn. destruct (filter _ _) as [|x xs] eqn:E; [done|].
    assert (Hx : x ∈ filter (fun a => AssetID a = id) (map record_of l)) by (rewrite E; set_solver).
    apply list_elem_of_filter in Hx as [<- Hx]. apply list_elem_of_fmap in Hx as (a & -> & Ha).
    destruct Hn. apply list_elem_of_fmap. eauto.
Qed.

(** A row after a rescan: refreshed if seen, marked if it was active and not seen. *)
Lemma rescanned_lookup l now t id :
  let ids := map as_AssetID l in
  (id ∈ ids -> exists r, rescanned ids (map record_of l) now t !! id = Some r /\ a_status r = "active") /\
  (id ∉ ids -> rescanned ids (map record_of l) now t !! id =
     (fun a => if decide (a_status a <> "missing") then set_missing (FormatRFC3339 now) a else a) <$> t !! id).
Proof.
  intros ids. unfold rescanned. rewrite update_lookup, upserts_lookup. split; intros Hid.
  - destruct (last _) as [a|] eqn:E; [|by apply last_filter_ids in E]. cbn. eexists. split; [done|].
    rewrite decide_False; [done|]. unfold unseen. naive_solver.
  - apply last_filter_ids in Hid as E. rewrite E. destruct (t !! id) as [a|]; [|done]. cbn. f_equal.
    unfold unseen. cbn. destruct (decide (a_status a <> "missing")), (decide _); naive_solver.
Qed.

Lemma rescanned_active l now t id :
  table_wf t ->
  let ids := map as_AssetID l in
  (exists r, rescanned ids (map record_of l) now t !! id = Some r /\ a_status r = "active") <-> id ∈ ids.
Proof.
  cbv zeta. intros Hwf. destruct (rescanned_lookup l now t id) as [Hin Hout]. split; [|exact Hin].
  intros (r & Hr & Ha). destruct (decide (id ∈ map as_AssetID l)) as [|Hn]; [done|]. rewrite Hout in Hr by done.
  destruct (t !! id) as [a|] eqn:E; [|done]. cbn in Hr. injection Hr as <-.
  case_decide as Hd; [done|]. apply (wf_active a (Hwf id a E)) in Ha. done.
Qed.

Lemma active_count_set t (X : gset string) :
  (forall id, (exists r, t !! id = Some r /\ a_status r = "active") <-> id ∈ X) ->
  count_status "active" t = Z.of_nat (size X).
Proof.
  intros HX. rewrite <- length_active_ids. f_equal.
  rewrite <- (size_list_to_set (C := gset string)) by apply NoDup_active_ids. f_equal.
  apply set_eq. intros id. by rewrite elem_of_list_to_set, elem_of_active_ids.
Qed.

Lemma unseen_before l nowStr t :
  let ids := map as_AssetID l in
  filter (unseen ids) (foldl (upsert_asset nowStr) t (map record_of l)) = filter (unseen ids) t.
Proof.
  intros ids. apply map_eq. intros id. apply option_eq. intros r. rewrite !map_lookup_filter_Some, upserts_lookup.
  destruct (last _) as [a|] eqn:E; [|done].
  assert (id ∈ ids).
  { destruct (decide (id ∈ ids)) as [|Hn]; [done|]. apply last_filter_ids in Hn. congruence. }
  unfold unseen. naive_solver.
Qed.

(** C18: after a rescan the database mirrors the disk. From any consistent table, when the job
    succeeds: the active assets are exactly those the scan found; every asset that was active and
    was not found is now missing as of this run; rows are never dropped and keep their creation
    times; the reported counts are the number of assets found, the number of active rows and the
    number of rows that just went missing; announcements are untouched. *)
Theorem rescan_mirrors_disk sr now d res d' :
  table_wf (assets d) ->
  RunRescanJob (Ok sr) now d = (Ok res, d') ->
  let ids := map as_AssetID (sr_Assets sr) in
  (forall id, (exists r, assets d' !! id = Some r /\ a_status r = "active") <-> id ∈ ids) /\
  (forall id r, assets d !! id = Some r -> a_status r = "active" -> id ∉ ids ->
     assets d' !! id = Some (set_missing (FormatRFC3339 now) r)) /\
  table_wf (assets d') /\ keeps_created (assets d) (assets d') /\
  announcements d' = announcements d /\
  ScannedAssets res = sr_ScannedAssets sr /\
  ActiveAssets res = Z.of_nat (size (list_to_set ids : gset string)) /\
  MissingAssets res = Z.of_nat (size (filter (unseen ids) (assets d))).
Proof.
  intros Hwf Hr ids. unfold RunRescanJob in Hr.
  destruct (store_scan sr now d) as [[r0|] d0] eqn:Hs; [|done]. injection Hr as <- <-.
  apply store_scan_inv in Hs as (Hann & Ha & ->). fold ids in Ha |- *. cbn [ScannedAssets ActiveAssets MissingAssets].
  assert (Hact : forall id, (exists r, assets d0 !! id = Some r /\ a_status r = "active") <-> id ∈ ids).
  { intros id. rewrite Ha. by apply rescanned_active. }
  destruct (upserts_wf (FormatRFC3339 now) (map record_of (sr_Assets sr)) (assets d) Hwf) as [Hw1 Hk1].
  destruct (mark_wf ids (FormatRFC3339 now) _ Hw1) as [Hw2 Hk2].
  split; [exact Hact|]. split.
  { intros id r Hr Hst Hn. rewrite Ha. destruct (rescanned_lookup (sr_Assets sr) now (assets d) id) as [_ Hout].
    specialize (Hout Hn). fold ids in Hout. rewrite Hout, Hr. cbn. rewrite decide_True; [done|]. by rewrite Hst. }
  rewrite Ha. split; [exact Hw2|]. split; [by etrans|]. split; [done|]. split; [done|]. split.
  - apply active_count_set. intros id. rewrite elem_of_list_to_set, <- Ha. apply Hact.
  - f_equal. f_equal. apply unseen_before.
Qed.

(** ** The sweep *)

Section SweepFacts.
Context {K : Type} `{TimeParseLenient} (env : sweep_env K).

(** The row as the sweep reads it, if it can be read. *)
Definition readable (d : db) (id : string) : option (option AnnouncementRow) :=
  match announcements d !! id with
  | None => Some None
  | Some n => match read_row id n with Ok r => Some (Some r) | Err _ => None end
  end.

(** Whether the loop's two guards let an asset through. *)
Definition passes (now threshold : Z) (d : db) (b : BackoffState) (id : string) : bool :=
  match readable d id with
  | Some row => needsReannounce row threshold
  | None => false
  end && CanAttempt id now b.

(** The specification, in terms of the stored columns and the back-off entries. A column holds a
    time if it is empty (the zero time) or in the database's time format. *)
Definition column_time (col : string) (t : Z) : Prop :=
  (col = "" /\ t = zero_time) \/ (col <> "" /\ ParseRFC3339 col = Some t).

(** An asset needs an announcement if none is stored, or one whose times can be read and that was
    not accepted, has no expiry or expires before [threshold]. *)
Definition needs_announcement (threshold : Z) (d : db) (id : string) : Prop :=
  match announcements d !! id with
  | None => True
  | Some n =>
      exists last exp announced expires,
        n_last_announced_at n = Some last /\ n_expires_at n = Some exp /\
        column_time last announced /\ column_time exp expires /\
        (n_status n <> "ok" \/ expires = zero_time \/ expires < threshold)
  end.

Definition not_backed_off (now : Z) (b : BackoffState) (id : string) : Prop :=
  forall e, entries b !! id = Some e -> NextAttemptAt e <= now.

Definition due (now threshold : Z) (d : db) (b : BackoffState) (id : string) : Prop :=
  needs_announcement threshold d id /\ not_backed_off now b id.

Lemma parse_column_spec op id col t : parse_column op id col = Ok t <-> column_time col t.
Proof.
  unfold parse_column, column_time. destruct (String.eqb_spec col "") as [->|Hne]; [naive_solver|].
  destruct (ParseRFC3339 col) as [t'|]; naive_solver.
Qed.

Lemma needsReannounce_spec row threshold :
  needsReannounce (Some row) threshold = true <->
  Status row <> "ok" \/ ExpiresAt row = zero_time \/ ExpiresAt row < threshold.
Proof.
  unfold needsReannounce, IsZero, Before. destruct (String.eqb_spec (Status row) "ok") as [|]; cbn [negb]; [|tauto].
  destruct (Z.eqb_spec (ExpiresAt row) zero_time); [tauto|]. rewrite Z.ltb_lt. tauto.
Qed.

Lemma read_row_spec id n row :
  read_row id n = Ok row ->
  exists last exp, n_last_announced_at n = Some last /\ n_expires_at n = Some exp /\
    column_time last (LastAnnouncedAt row) /\ column_time exp (ExpiresAt row) /\ n_status n = Status row.
Proof.
  unfold read_row. destruct (n_last_announced_at n) as [last|]; [|done]. destruct (n_expires_at n) as [exp|]; [|done].
  intros (t1 & H1%parse_column_spec & H2)%bind_Ok. apply bind_Ok in H2 as (t2 & H2%parse_column_spec & [= <-]). cbn. eauto 10.
Qed.

Lemma read_row_total id n last exp t1 t2 :
  n_last_announced_at n = Some last -> n_expires_at n = Some exp -> column_time last t1 -> column_time exp t2 ->
  exists row, read_row id n = Ok row /\ Status row = n_status n /\ ExpiresAt row = t2.
Proof.
  intros H1 H2 H3 H4. unfold read_row. rewrite H1, H2.
  rewrite (proj2 (parse_column_spec _ _ last t1) H3). cbn. rewrite (proj2 (parse_column_spec _ _ exp t2) H4). cbn. eauto.
Qed.

Lemma needs_announcement_spec threshold d id :
  match readable d id with Some row => needsReannounce row threshold | None => false end = true <->
  needs_announcement threshold d id.
Proof.
  unfold readable, needs_announcement. destruct (announcements d !! id) as [n|]; [|done]. split.
  - destruct (read_row id n) as [row|] eqn:E; [|done]. intros Hn%needsReannounce_spec.
    apply read_row_spec in E as (last & exp & ? & ? & ? & ? & Hs). rewrite Hs. eauto 10.
  - intros (last & exp & t1 & t2 & H1 & H2 & H3 & H4 & Hn).
    destruct (read_row_total id n last exp t1 t2 H1 H2 H3 H4) as (row & -> & Hs & He).
    apply needsReannounce_spec. by rewrite Hs, He.
Qed.

Lemma CanAttempt_spec id now b : CanAttempt id now b = true <-> not_backed_off now b id.
Proof.
  unfold CanAttempt, not_backed_off, After. destruct (entries b !! id) as [e|]; [|naive_solver].
  rewrite negb_true_iff, Z.ltb_ge. naive_solver.
Qed.

(** The guards of the loop implement the specification. *)
Lemma passes_due now threshold d b id : passes now threshold d b id = true <-> due now threshold d b id.
Proof. unfold passes, due. by rewrite andb_true_iff, needs_announcement_spec, CanAttempt_spec. Qed.

#[global] Instance due_dec now threshold d b id : Decision (due now threshold d b id).
Proof. refine (cast_if (decide (passes now threshold d b id = true))); by rewrite <- passes_due. Defined.

Definition build (id : string) (now : Z) : result build_err AnnounceRequest :=
  BuildAnnouncement (se_sign env) (se_nonce env id) (se_id env) (se_cfg env) id now.

Lemma GetAnnouncement_cases id d :
  exists d', same_tables d d' /\ (faults d = [] -> faults d' = []) /\
    ((exists row, GetAnnouncement id d = (Ok row, d') /\ readable d id = Some row) \/
     (exists e, GetAnnouncement id d = (Err e, d') /\ (faults d = [] -> readable d id = None))).
Proof.
  unfold GetAnnouncement, mbind, db_bind, call, readable, same_tables.
  exists (MkDB (assets d) (announcements d) (tail (faults d)) (enforced d)). split; [done|]. split; [by intros ->|].
  destruct (faults d) as [|[c|] fs]; cbn; [|right; eexists; split; [done|done]|];
    (destruct (announcements d !! id) as [n|]; [|left; eauto]);
    destruct (read_row id n) as [r|e]; eauto.
Qed.

Lemma Upsert_cases id la ex st now d :
  let d' := (UpsertAnnouncementStatus id la ex st now d).2 in
  assets d' = assets d /\ (faults d = [] -> faults d' = []) /\
  (forall id', id' <> id -> announcements d' !! id' = announcements d !! id') /\
  (faults d = [] -> is_Some (assets d !! id) -> UpsertAnnouncementStatus id la ex st now d = (Ok tt, d')).
Proof.
  cbv zeta. destruct (UpsertAnnouncementStatus id la ex st now d) as [r d'] eqn:E. cbn [snd].
  destruct (UpsertAnnouncementStatus_inv _ _ _ _ _ _ _ _ E) as [Ha Hr]. split; [done|].
  assert (Hf : faults d = [] -> (is_Some (assets d !! id) -> r = Ok tt) /\ faults d' = []).
  { intros Hf. revert E. unfold UpsertAnnouncementStatus, mbind, db_bind, call, check_fk. rewrite Hf. cbn.
    case_bool_decide as Hn; [rewrite Hn|]; destruct (enforced d); intros [= <- <-]; (split; [|done]); try done. }
  split; [intros E'; by apply Hf|]. split; [|intros E' Hs; by rewrite (proj1 (Hf E') Hs)].
  intros id' Hne. destruct r; rewrite Hr; [by apply lookup_insert_ne|done].
Qed.

(** What one iteration leaves alone. *)
Lemma sweep_asset_frame now thr id s :
  let s' := sweep_asset env now thr id s in
  assets (ss_db s') = assets (ss_db s) /\
  (faults (ss_db s) = [] -> faults (ss_db s') = []) /\
  (forall id', id' <> id -> announcements (ss_db s') !! id' = announcements (ss_db s) !! id' /\
                            entries (ss_backoff s') !! id' = entries (ss_backoff s) !! id').
Proof.
  cbv zeta. unfold sweep_asset.
  destruct (GetAnnouncement_cases id (ss_db s)) as (d & [Ha Hn] & Hf & [(row & -> & _)|(e & -> & _)]).
  2: { cbn. rewrite Ha, Hn. done. }
  destruct (needsReannounce row thr); cbn [negb]; [|cbn; rewrite Ha, Hn; done].
  destruct (CanAttempt id now (ss_backoff s)); cbn [negb]; [|cbn; rewrite Ha, Hn; done].
  fold (build id now). destruct (build id now) as [req|e]; cbn [ss_db ss_backoff].
  - destruct (Upsert_cases id now (TimeUnix (ar_ExpiresAt req)) (class_status (ClassifyError (se_announce env req))) now d)
      as (Hu1 & Hu2 & Hu3 & _). split; [congruence|]. split; [auto|]. intros id' Hne.
    rewrite Hu3, Hn by done. split; [done|]. by apply Record_other.
  - destruct (Upsert_cases id zero_time zero_time "failed" now d) as (Hu1 & Hu2 & Hu3 & _).
    split; [congruence|]. split; [auto|]. intros id' Hne. rewrite Hu3, Hn by done. split; [done|]. by apply Record_other.
Qed.

(** What one iteration sends: the announcement of its asset, if the guards let it through. *)
Lemma sweep_asset_sent now thr id s :
  exists new, ss_sent (sweep_asset env now thr id s) = ss_sent s ++ new /\
    (new = [] \/ passes now thr (ss_db s) (ss_backoff s) id = true /\ exists req, build id now = Ok req /\ new = [req]) /\
    (faults (ss_db s) = [] -> (exists req, build id now = Ok req) ->
     new = [] -> passes now thr (ss_db s) (ss_backoff s) id = false).
Proof.
  unfold sweep_asset, passes.
  destruct (GetAnnouncement_cases id (ss_db s)) as (d & _ & _ & [(row & -> & ->)|(e & -> & Hr)]).
  2: { exists []. rewrite app_nil_r. split; [done|]. split; [by left|]. intros Hf _ _. by rewrite Hr. }
  destruct (needsReannounce row thr); cbn [negb]; [|exists []; rewrite app_nil_r; auto].
  destruct (CanAttempt id now (ss_backoff s)); cbn [negb]; [|exists []; rewrite app_nil_r; auto].
  fold (build id now). destruct (build id now) as [req|e]; cbn [ss_sent].
  - exists [req]. split; [done|]. split; [right; eauto|done].
  - exists []. rewrite app_nil_r. split; [done|]. split; [by left|]. by intros _ [? ?].
Qed.

Lemma build_id id now req : build id now = Ok req -> ar_AssetID req = id.
Proof. unfold build. intros Hb. by apply BuildAnnouncement_Ok in Hb as (? & ? & ? & ? & ? & ? & ? & ? & _). Qed.

(** Whether an asset passes depends on its own row and entry only. *)
Lemma passes_ext now thr d b d' b' id :
  announcements d' !! id = announcements d !! id -> entries b' !! id = entries b !! id ->
  passes now thr d' b' id = passes now thr d b id.
Proof. unfold passes, readable, CanAttempt. by intros -> ->. Qed.

Lemma sweep_loop_frame now thr ids s :
  let s' := sweep_loop env now thr ids s in
  assets (ss_db s') = assets (ss_db s) /\
  (faults (ss_db s) = [] -> faults (ss_db s') = []) /\
  (forall id', id' ∉ ids -> announcements (ss_db s') !! id' = announcements (ss_db s) !! id' /\
                            entries (ss_backoff s') !! id' = entries (ss_backoff s) !! id').
Proof.
  cbv zeta. revert s; induction ids as [|id ids IH]; intros s; cbn [sweep_loop foldl]; [done|].
  destruct (sweep_asset_frame now thr id s) as (Ha & Hf & Hn).
  destruct (IH (sweep_asset env now thr id s)) as (Ha' & Hf' & Hn'). unfold sweep_loop in *.
  split; [congruence|]. split; [auto|]. intros id' [Hne Hni]%not_elem_of_cons.
  destruct (Hn id' Hne) as [E1 E2], (Hn' id' Hni) as [E3 E4]. split; congruence.
Qed.

Lemma filter_ext_in {A} (P Q : A -> Prop) `{forall x, Decision (P x)} `{forall x, Decision (Q x)} (l : list A) :
  (forall x, x ∈ l -> P x <-> Q x) -> filter P l = filter Q l.
Proof.
  induction l as [|x l IH]; intros Hpq; [done|]. rewrite !filter_cons, IH by set_solver.
  specialize (Hpq x ltac:(set_solver)). by destruct (decide (P x)), (decide (Q x)); try tauto.
Qed.

Lemma sweep_loop_sent now thr ids s :
  NoDup ids ->
  exists new, ss_sent (sweep_loop env now thr ids s) = ss_sent s ++ new /\
    sublist (ar_AssetID <$> new) ids /\
    Forall (fun r => passes now thr (ss_db s) (ss_backoff s) (ar_AssetID r) = true) new /\
    (faults (ss_db s) = [] -> Forall (fun id => exists req, build id now = Ok req) ids ->
     ar_AssetID <$> new = filter (fun id => passes now thr (ss_db s) (ss_backoff s) id = true) ids).
Proof.
  intros Hnd. revert s; induction Hnd as [|id ids Hni Hnd IH]; intros s; cbn [sweep_loop foldl].
  { exists []. rewrite app_nil_r. split_and!; [done|constructor|done|done]. }
  destruct (sweep_asset_sent now thr id s) as (n1 & E1 & Hn1 & Hc1).
  destruct (sweep_asset_frame now thr id s) as (_ & Hf & Hfr).
  destruct (IH (sweep_asset env now thr id s)) as (n2 & E2 & Hs2 & Hd2 & Hc2). unfold sweep_loop in E2.
  assert (Hext : forall i, i ∈ ids -> passes now thr (ss_db (sweep_asset env now thr id s))
     (ss_backoff (sweep_asset env now thr id s)) i = passes now thr (ss_db s) (ss_backoff s) i).
  { intros i Hi. destruct (Hfr i) as [? ?]; [set_solver|]. by apply passes_ext. }
  exists (n1 ++ n2). rewrite E2, E1, app_assoc. split; [done|].
  assert (Hd2' : Forall (fun r => passes now thr (ss_db s) (ss_backoff s) (ar_AssetID r) = true) n2).
  { apply Forall_forall. intros r Hr. rewrite Forall_forall in Hd2. rewrite <- (Hd2 r Hr). symmetry. apply Hext.
    assert (ar_AssetID r ∈ ar_AssetID <$> n2) by (apply list_elem_of_fmap; eauto).
    eapply elem_of_sublist; eauto. }
  assert (Hfil : filter (fun i => passes now thr (ss_db (sweep_asset env now thr id s))
     (ss_backoff (sweep_asset env now thr id s)) i = true) ids =
     filter (fun i => passes now thr (ss_db s) (ss_backoff s) i = true) ids).
  { apply filter_ext_in. intros i Hi. by rewrite Hext. }
  rewrite filter_cons, fmap_app.
  destruct Hn1 as [->|(Hdue & req & Hb & ->)]; cbn [app fmap list_fmap].
  - split; [by apply sublist_cons|]. split; [done|]. intros Hff [Hbid Hbs]%Forall_cons.
    rewrite decide_False by (rewrite Hc1; done). rewrite Hc2, Hfil by auto. done.
  - rewrite (build_id _ _ _ Hb). split; [by apply sublist_skip|]. split; [constructor; [by rewrite (build_id _ _ _ Hb)|done]|].
    intros Hff [Hbid Hbs]%Forall_cons. rewrite decide_True by done. rewrite Hc2, Hfil by auto. done.
Qed.

(** The row an answered announcement is to leave. *)
Definition answered_row (now : Z) (req : AnnounceRequest) (old : option ann_row) : ann_row :=
  AnnRow (Some (time_column now)) (Some (time_column (TimeUnix (ar_ExpiresAt req))))
    (class_status (ClassifyError (se_announce env req)))
    (match old with Some o => n_created_at o | None => FormatRFC3339 now end) (FormatRFC3339 now).

(** An iteration that sent a request: what it built, recorded and stored. The row is stored unless
    a database call failed. *)
Lemma sweep_asset_answered now thr id s req :
  ss_sent (sweep_asset env now thr id s) = ss_sent s ++ [req] ->
  let s' := sweep_asset env now thr id s in
  let old := announcements (ss_db s) !! id in
  ss_backoff s' = Record_ (se_jitter env id) id (ClassifyError (se_announce env req)) now (ss_backoff s) /\
  (announcements (ss_db s') !! id = old \/ announcements (ss_db s') !! id = Some (answered_row now req old)) /\
  (faults (ss_db s) = [] -> is_Some (assets (ss_db s) !! id) ->
   announcements (ss_db s') !! id = Some (answered_row now req old)).
Proof.
  cbv zeta. unfold sweep_asset.
  assert (Hnil : forall l : list AnnounceRequest, l = l ++ [req] -> False).
  { intros l E%(f_equal length). rewrite length_app in E. cbn in E. lia. }
  destruct (GetAnnouncement_cases id (ss_db s)) as (d & [Had Hn] & Hfd & [(row & -> & _)|(e & -> & _)]); [|by intros ?%Hnil].
  destruct (needsReannounce row thr); cbn [negb]; [|by intros ?%Hnil].
  destruct (CanAttempt id now (ss_backoff s)); cbn [negb]; [|by intros ?%Hnil].
  destruct (BuildAnnouncement _ _ _ _ _ _) as [r|e]; cbn [ss_sent ss_backoff ss_db]; [|by intros ?%Hnil].
  intros E%app_inv_head. injection E as ->. split; [done|]. rewrite <- Hn, <- Had. unfold answered_row.
  set (st := class_status _). destruct (Upsert_cases id now (TimeUnix (ar_ExpiresAt req)) st now d) as (_ & _ & _ & Hok).
  destruct (UpsertAnnouncementStatus id now (TimeUnix (ar_ExpiresAt req)) st now d) as [r' d'] eqn:E. cbn [snd] in *.
  apply UpsertAnnouncementStatus_inv in E as [_ Hr]. split.
  - destruct r'; rewrite Hr; [right; by rewrite lookup_insert_eq|by left].
  - intros Hf Hex. specialize (Hok (Hfd Hf) Hex). injection Hok as ->. by rewrite Hr, lookup_insert_eq.
Qed.

(** The iteration of an asset whose row cannot be read leaves the row alone. *)
Lemma sweep_asset_unreadable now thr id s :
  readable (ss_db s) id = None ->
  announcements (ss_db (sweep_asset env now thr id s)) !! id = announcements (ss_db s) !! id.
Proof.
  intros Hr. unfold sweep_asset.
  destruct (GetAnnouncement_cases id (ss_db s)) as (d & [_ Hn] & _ & [(row & -> & Hr')|(e & -> & _)]); [congruence|].
  cbn. by rewrite Hn.
Qed.

Lemma loop_split now thr pre id post s :
  sweep_loop env now thr (pre ++ id :: post) s =
  sweep_loop env now thr post (sweep_asset env now thr id (sweep_loop env now thr pre s)).
Proof. unfold sweep_loop. by rewrite foldl_app. Qed.

(** The own row and entry of an asset just before its turn and after the sweep. *)
Lemma sweep_loop_own now thr ids s id :
  NoDup ids -> id ∈ ids ->
  exists s1, announcements (ss_db s1) !! id = announcements (ss_db s) !! id /\
    assets (ss_db s1) = assets (ss_db s) /\
    entries (ss_backoff s1) !! id = entries (ss_backoff s) !! id /\
    (faults (ss_db s) = [] -> faults (ss_db s1) = []) /\
    announcements (ss_db (sweep_loop env now thr ids s)) !! id =
      announcements (ss_db (sweep_asset env now thr id s1)) !! id /\
    entries (ss_backoff (sweep_loop env now thr ids s)) !! id =
      entries (ss_backoff (sweep_asset env now thr id s1)) !! id /\
    (forall r, r ∈ ss_sent (sweep_loop env now thr ids s) -> ar_AssetID r = id ->
       r ∈ ss_sent s \/ ss_sent (sweep_asset env now thr id s1) = ss_sent s1 ++ [r]).
Proof.
  intros Hnd (pre & post & ->)%list_elem_of_split. apply NoDup_app in Hnd as (Hnd1 & Hpre & [Hpost Hnd2]%NoDup_cons).
  exists (sweep_loop env now thr pre s).
  destruct (sweep_loop_frame now thr pre s) as (Has & Hf & Hn). destruct (Hn id) as [E1 E2].
  { intros Hin. apply (Hpre id Hin). set_solver. }
  rewrite loop_split.
  destruct (sweep_loop_frame now thr post (sweep_asset env now thr id (sweep_loop env now thr pre s))) as (_ & _ & Hn2).
  destruct (Hn2 id Hpost) as [E3 E4]. split_and!; [done..|]. intros r Hr <-.
  destruct (sweep_loop_sent now thr pre s Hnd1) as (n1 & S1 & Hs1 & _).
  destruct (sweep_asset_sent now thr (ar_AssetID r) (sweep_loop env now thr pre s)) as (n2 & S2 & Hn' & _).
  destruct (sweep_loop_sent now thr post (sweep_asset env now thr (ar_AssetID r) (sweep_loop env now thr pre s)) Hnd2)
    as (n3 & S3 & Hs3 & _).
  assert (Hnot : forall n l, sublist (ar_AssetID <$> n) l -> ar_AssetID r ∉ l -> r ∉ n).
  { intros n l Hs Hni Hin. apply Hni. eapply elem_of_sublist; [|exact Hs]. apply list_elem_of_fmap. eauto. }
  rewrite S3, S2, S1, !elem_of_app in Hr. rewrite S2. destruct Hr as [[[Hr|Hr]|Hr]|Hr].
  - by left.
  - exfalso. eapply Hnot; [exact Hs1| |exact Hr]. intros Hin. apply (Hpre _ Hin). set_solver.
  - right. destruct Hn' as [->|(_ & req & _ & ->)]; [set_solver|]. by apply list_elem_of_singleton in Hr as ->.
  - exfalso. by eapply Hnot.
Qed.

Definition threshold_at (now : Z) : Z :=
  TimeAdd now (durationOf (ReannounceThresholdSeconds (se_cfg env)) Second).

Lemma RunAnnounceSweep_loop now d b res s :
  RunAnnounceSweep env true now d b = (Ok res, s) ->
  exists d1, same_tables d d1 /\ (faults d = [] -> faults d1 = []) /\
    s = sweep_loop env now (threshold_at now) (active_ids (assets d)) (SweepState d1 b no_sweep [] []) /\
    res = ss_result s.
Proof.
  unfold RunAnnounceSweep. cbn [negb]. destruct (ListActiveAssetIDs d) as [[ids|] d1] eqn:E; [|done].
  destruct (ListActiveAssetIDs_inv _ _ _ E) as [Hs Hids]. rewrite (Hids ids eq_refl) in *. intros [= <- <-].
  exists d1. split; [done|]. split; [|done]. intros Hf. rewrite ListActiveAssetIDs_nofault in E by done.
  by injection E as <-.
Qed.

(** ** Counters *)

Definition label_count (l : string) (ms : list string) : Z := Z.of_nat (length (filter (fun m => m = l) ms)).

Lemma label_count_app l ms ms' : label_count l (ms ++ ms') = label_count l ms + label_count l ms'.
Proof. unfold label_count. rewrite filter_app, length_app. lia. Qed.

Lemma label_count_one l m : label_count l [m] = if String.eqb m l then 1 else 0.
Proof.
  unfold label_count. rewrite filter_cons, filter_nil.
  destruct (String.eqb_spec m l); [by rewrite decide_True|by rewrite decide_False].
Qed.

(** The counters agree with the metric labels; [n] assets were looked at. *)
Definition counts_ok (n : Z) (s : sweep_state) : Prop :=
  let r := ss_result s in
  Attempted r = Z.of_nat (length (ss_metrics s)) /\
  OK r = label_count "ok" (ss_metrics s) /\ Rejected r = label_count "rejected" (ss_metrics s) /\
  Attempted r <= OK r + Rejected r + Failed r /\
  OK r + Rejected r + Failed r + Deferred r <= n /\
  0 <= Deferred r /\ Z.of_nat (length (ss_sent s)) <= Attempted r.

Lemma class_counts class r :
  let r' := class_counter class r in
  let l := class_label class in
  Attempted r' = Attempted r /\ Deferred r' = Deferred r /\
  OK r' = OK r + label_count "ok" [l] /\ Rejected r' = Rejected r + label_count "rejected" [l] /\
  OK r' + Rejected r' + Failed r' = OK r + Rejected r + Failed r + 1.
Proof.
  cbv zeta. rewrite !label_count_one. unfold class_counter, class_label.
  destruct (String.eqb class ClassOK); [cbn; lia|]. destruct (String.eqb class ClassRejected); [cbn; lia|].
  destruct (String.eqb class ClassUnauthorized); cbn; lia.
Qed.

Lemma sweep_asset_counts now thr id s n :
  counts_ok n s -> counts_ok (n + 1) (sweep_asset env now thr id s).
Proof.
  unfold counts_ok, sweep_asset. intros Hc.
  destruct (GetAnnouncement_cases id (ss_db s)) as (d & _ & _ & [(row & -> & _)|(e & -> & _)]); [|cbn; lia].
  destruct (needsReannounce row thr); cbn [negb]; [|cbn; lia].
  destruct (CanAttempt id now (ss_backoff s)); cbn [negb]; [|cbn; lia].
  destruct (BuildAnnouncement _ _ _ _ _ _) as [req|e]; cbn [ss_result ss_metrics ss_sent].
  - pose proof (class_counts (ClassifyError (se_announce env req)) (count_attempted (ss_result s))) as Hk.
    cbv zeta in Hk. rewrite !label_count_app, !length_app. cbn [length count_attempted Attempted OK Rejected Failed Deferred] in *. lia.
  - rewrite !label_count_app, !length_app, !label_count_one. cbn. lia.
Qed.

Lemma sweep_loop_counts now thr ids s n :
  counts_ok n s -> counts_ok (n + Z.of_nat (length ids)) (sweep_loop env now thr ids s).
Proof.
  revert s n; induction ids as [|id ids IH]; intros s n Hc; cbn [sweep_loop foldl length].
  - by rewrite Z.add_0_r.
  - replace (n + Z.of_nat (S (length ids))) with (n + 1 + Z.of_nat (length ids)) by lia.
    apply IH. by apply sweep_asset_counts.
Qed.

Lemma sweep_loop_all_read now thr ids s :
  NoDup ids -> faults (ss_db s) = [] -> Forall (fun id => is_Some (readable (ss_db s) id)) ids ->
  Attempted (ss_result s) = OK (ss_result s) + Rejected (ss_result s) + Failed (ss_result s) ->
  let r := ss_result (sweep_loop env now thr ids s) in Attempted r = OK r + Rejected r + Failed r.
Proof.
  cbv zeta. intros Hnd; revert s; induction Hnd as [|id ids Hni Hnd IH]; intros s Hf Hr He; cbn [sweep_loop foldl]; [done|].
  apply Forall_cons in Hr as [[row Hrow] Hr].
  destruct (sweep_asset_frame now thr id s) as (_ & Hf' & Hfr). apply IH; [by apply Hf'| |].
  - apply Forall_forall. intros i Hi. rewrite Forall_forall in Hr. specialize (Hr i Hi).
    unfold readable in *. destruct (Hfr i) as [-> _]; [set_solver|done].
  - unfold sweep_asset.
    destruct (GetAnnouncement_cases id (ss_db s)) as (d & _ & _ & [(row' & -> & _)|(e & _ & Hn)]);
      [|rewrite Hn in Hrow; done].
    destruct (needsReannounce row' thr); cbn [negb]; [|done].
    destruct (CanAttempt id now (ss_backoff s)); cbn [negb]; [|done].
    destruct (BuildAnnouncement _ _ _ _ _ _) as [req|e]; cbn [ss_result].
    + pose proof (class_counts (ClassifyError (se_announce env req)) (count_attempted (ss_result s))) as Hk.
      cbv zeta in Hk. cbn [count_attempted Attempted OK Rejected Failed Deferred] in *. lia.
    + cbn. lia.
Qed.

(** ** Theorems *)

Lemma sweep_sends_due now d b res s :
  RunAnnounceSweep env true now d b = (Ok res, s) ->
  Forall (fun r => ar_AssetID r ∈ active_ids (assets d) /\ due now (threshold_at now) d b (ar_AssetID r)) (ss_sent s).
Proof.
  intros (d1 & [Ha Hn] & Hf & -> & _)%RunAnnounceSweep_loop.
  destruct (sweep_loop_sent now (threshold_at now) (active_ids (assets d)) (SweepState d1 b no_sweep [] [])
    (NoDup_active_ids _)) as (new & -> & Hsub & Hall & _). cbn [ss_sent ss_db ss_backoff app] in *.
  apply Forall_forall. intros r Hr. rewrite Forall_forall in Hall. specialize (Hall r Hr).
  rewrite (passes_ext _ _ d b) in Hall by (by rewrite ?Hn). apply passes_due in Hall.
  split; [|done]. eapply elem_of_sublist; [|exact Hsub]. apply list_elem_of_fmap. eauto.
Qed.

(** C17: a sweep announces exactly what is due. Whatever fails on the way, a sweep that runs sends at
    most one announcement per asset, and only of assets that are active, for which no announcement
    is stored or one whose times can be read and that was not accepted, has no expiry or expires
    before the clock plus the threshold, and whose back-off entry, if any, allows an attempt by now;
    and if the database works and announcements can be built, it sends one for each such asset, in
    the order of the ids. *)
Theorem sweep_announces_exactly_due now d b res s :
  RunAnnounceSweep env true now d b = (Ok res, s) ->
  let ids := active_ids (assets d) in
  let is_due := due now (threshold_at now) d b in
  NoDup (ar_AssetID <$> ss_sent s) /\
  Forall (fun r => ar_AssetID r ∈ ids /\ is_due (ar_AssetID r)) (ss_sent s) /\
  (faults d = [] -> Forall (fun id => exists req, build id now = Ok req) ids ->
   ar_AssetID <$> ss_sent s = filter is_due ids).
Proof.
  intros Hrun. pose proof (sweep_sends_due _ _ _ _ _ Hrun) as Hall.
  apply RunAnnounceSweep_loop in Hrun as (d1 & [Ha Hn] & Hf & -> & _). cbv zeta.
  destruct (sweep_loop_sent now (threshold_at now) (active_ids (assets d)) (SweepState d1 b no_sweep [] [])
    (NoDup_active_ids _)) as (new & E & Hsub & _ & Hex). cbn [ss_sent ss_db ss_backoff app] in *. rewrite E in *.
  split; [eapply sublist_NoDup; eauto using NoDup_active_ids|]. split; [done|].
  intros Hfd Hb. rewrite Hex by auto. apply filter_ext_in. intros id _.
  rewrite <- passes_due, (passes_ext _ _ d b) by (by rewrite ?Hn). done.
Qed.

Lemma column_time_written t : four_digit_year t -> column_time (time_column t) (TimeUnix (Unix t)).
Proof. intros Ht. apply (parse_column_spec "" ""). by apply parse_time_column. Qed.

Lemma column_time_inj col t t' : column_time col t -> column_time col t' -> t = t'.
Proof. unfold column_time. naive_solver. Qed.

(** Whether a row the sweep wrote for an accepted announcement needs a new one. *)
Lemma needs_announcement_accepted d id now req old thr :
  announcements d !! id = Some (answered_row now req old) -> se_announce env req = None ->
  four_digit_year now -> four_digit_year (TimeUnix (ar_ExpiresAt req)) -> TimeUnix (ar_ExpiresAt req) <> zero_time ->
  needs_announcement thr d id <-> TimeUnix (ar_ExpiresAt req) < thr.
Proof.
  intros Hrow Hacc Hnow Hexp Hz. unfold needs_announcement. rewrite Hrow. unfold answered_row.
  rewrite Hacc. cbn [n_last_announced_at n_expires_at n_status].
  pose proof (column_time_written _ Hexp) as Hc. rewrite Unix_TimeUnix in Hc. split.
  - intros (last & exp & t1 & t2 & [= <-] & [= <-] & _ & H2 & Hn). rewrite (column_time_inj _ _ _ H2 Hc) in Hn.
    destruct Hn as [Hn|[Hn|Hn]]; [by destruct Hn|done|done].
  - intros Hlt. eexists _, _, _, _. split_and!; [done..|by apply column_time_written|exact Hc|auto].
Qed.

(** C39: an accepted announcement is renewed in time and, unless the database failed, not before.
    After a sweep that sent an announcement the catalog accepted, the asset is not backed off; either
    its row was stored, and it is due again at any later time exactly when the expiry that was
    announced lies before that time plus the threshold; or its row could not be stored, which
    happens only if a database call failed, and it is due again exactly when its former row needs an
    announcement, as it did before the sweep. Assumes that the clock and the announced expiry are in
    the years 0 to 9999, which the stored format can write, and that the expiry is not Go's zero
    time (1 January of year 1). *)
Theorem accepted_announcement_renewal now d b res s req :
  RunAnnounceSweep env true now d b = (Ok res, s) ->
  req ∈ ss_sent s -> se_announce env req = None ->
  four_digit_year now -> four_digit_year (TimeUnix (ar_ExpiresAt req)) ->
  TimeUnix (ar_ExpiresAt req) <> zero_time ->
  let id := ar_AssetID req in
  needs_announcement (threshold_at now) d id /\
  (forall now2, not_backed_off now2 (ss_backoff s) id) /\
  ((forall now2, due now2 (threshold_at now2) (ss_db s) (ss_backoff s) id <->
                 TimeUnix (ar_ExpiresAt req) < threshold_at now2) \/
   faults d <> [] /\ announcements (ss_db s) !! id = announcements d !! id /\
   (forall now2, due now2 (threshold_at now2) (ss_db s) (ss_backoff s) id <->
                 needs_announcement (threshold_at now2) d id)).
Proof.
  intros Hrun Hreq Hacc Hnow Hexp Hz id.
  assert (Hsent : id ∈ active_ids (assets d) /\ due now (threshold_at now) d b id).
  { apply sweep_sends_due in Hrun. rewrite Forall_forall in Hrun. by apply Hrun. }
  destruct Hsent as [Hin [Hneeds _]]. apply RunAnnounceSweep_loop in Hrun as (d1 & [Ha Hn] & Hf & -> & _).
  split; [exact Hneeds|].
  destruct (sweep_loop_own now (threshold_at now) (active_ids (assets d)) (SweepState d1 b no_sweep [] []) id
    (NoDup_active_ids _) Hin) as (s1 & En & Eas & Ee & Hf1 & En' & Ee' & Hown).
  cbn [ss_db ss_sent] in *. rewrite Hn in En. rewrite Ha in Eas.
  destruct (Hown req Hreq eq_refl) as [Hno|Hs]; [by apply not_elem_of_nil in Hno|].
  apply sweep_asset_answered in Hs as (Hbk & Hrow & Hstored). rewrite Hbk, Hacc in Ee'. rewrite En in Hrow, Hstored.
  rewrite <- En' in Hrow, Hstored.
  assert (Hfree : forall now2, not_backed_off now2 (ss_backoff (sweep_loop env now (threshold_at now)
    (active_ids (assets d)) (SweepState d1 b no_sweep [] []))) id).
  { intros now2 e. rewrite Ee'. unfold Record_. change (String.eqb (ClassifyError None) ClassOK) with true. cbn [entries].
    by rewrite lookup_delete_eq. }
  split; [exact Hfree|].
  assert (Hdue : forall now2 P, (needs_announcement (threshold_at now2) (ss_db (sweep_loop env now (threshold_at now)
    (active_ids (assets d)) (SweepState d1 b no_sweep [] []))) id <-> P) -> due now2 (threshold_at now2)
    (ss_db (sweep_loop env now (threshold_at now) (active_ids (assets d)) (SweepState d1 b no_sweep [] [])))
    (ss_backoff (sweep_loop env now (threshold_at now) (active_ids (assets d)) (SweepState d1 b no_sweep [] []))) id <-> P).
  { intros now2 P HP. unfold due. specialize (Hfree now2). tauto. }
  assert (Hex : is_Some (assets (ss_db s1) !! id)).
  { rewrite Eas. apply elem_of_active_ids in Hin as (r & Hr & _). eauto. }
  destruct (decide (faults d = [])) as [E|Hfl]; [specialize (Hstored (Hf1 (Hf E)) Hex)|destruct Hrow as [Hrow|Hst]].
  2: { right. split_and!; [done..|]. intros now2. apply Hdue. unfold needs_announcement. by rewrite Hrow. }
  all: left; intros now2; apply Hdue; by eapply needs_announcement_accepted.
Qed.

(** An announcement row with a NULL time, as the schema migration leaves them in a database that
    predates the time columns, is never announced and never repaired: every sweep fails to read it,
    skips the asset and leaves the row as it is. *)
Theorem null_row_never_announced now d b res s id n :
  RunAnnounceSweep env true now d b = (Ok res, s) ->
  announcements d !! id = Some n -> n_last_announced_at n = None \/ n_expires_at n = None ->
  (forall r, r ∈ ss_sent s -> ar_AssetID r <> id) /\ announcements (ss_db s) !! id = Some n.
Proof.
  intros (d1 & [Ha Hn] & Hf & -> & _)%RunAnnounceSweep_loop Hrow Hnull.
  assert (Hr : forall d', announcements d' !! id = Some n -> readable d' id = None).
  { intros d' Hd'. unfold readable, read_row. rewrite Hd'. destruct Hnull as [-> | ->]; [done|].
    by destruct (n_last_announced_at n). }
  split.
  - intros r Hin <-. destruct (sweep_loop_sent now (threshold_at now) (active_ids (assets d))
      (SweepState d1 b no_sweep [] []) (NoDup_active_ids _)) as (new & E & _ & Hall & _). rewrite E in Hin.
    rewrite Forall_forall in Hall. specialize (Hall r Hin). unfold passes in Hall. cbn [ss_db] in Hall.
    rewrite Hr in Hall; [done|by rewrite Hn].
  - destruct (decide (id ∈ active_ids (assets d))) as [Hin|Hni].
    + destruct (sweep_loop_own now (threshold_at now) (active_ids (assets d)) (SweepState d1 b no_sweep [] []) id
        (NoDup_active_ids _) Hin) as (s1 & En & _ & _ & _ & -> & _).
      cbn [ss_db] in En. rewrite Hn, Hrow in En. rewrite sweep_asset_unreadable by auto. done.
    + destruct (sweep_loop_frame now (threshold_at now) (active_ids (assets d)) (SweepState d1 b no_sweep [] []))
        as (_ & _ & Hfr). destruct (Hfr id Hni) as [-> _]. cbn. by rewrite Hn.
Qed.
(** The counters of a sweep add up. The number of attempts is the number of outcomes counted in
    the metrics, the OK and rejected counts are those of the metrics, the counted assets never
    exceed the active ones, and no more is sent than attempted; and when every stored announcement
    can be read, each attempt is counted in exactly one of OK, rejected and failed. *)
Theorem sweep_accounting now d b res s :
  RunAnnounceSweep env true now d b = (Ok res, s) ->
  let total := Z.of_nat (length (active_ids (assets d))) in
  Attempted res = Z.of_nat (length (ss_metrics s)) /\
  OK res = label_count "ok" (ss_metrics s) /\ Rejected res = label_count "rejected" (ss_metrics s) /\
  Attempted res <= OK res + Rejected res + Failed res /\
  OK res + Rejected res + Failed res + Deferred res <= total /\
  Z.of_nat (length (ss_sent s)) <= Attempted res /\
  (faults d = [] -> (forall id, id ∈ active_ids (assets d) -> is_Some (readable d id)) ->
   Attempted res = OK res + Rejected res + Failed res).
Proof.
  intros (d1 & [Ha Hn] & Hf & -> & ->)%RunAnnounceSweep_loop. cbv zeta.
  assert (H0 : counts_ok 0 (SweepState d1 b no_sweep [] [])).
  { unfold counts_ok, label_count. cbn [ss_result ss_metrics ss_sent]. rewrite !filter_nil. cbn. lia. }
  apply (sweep_loop_counts now (threshold_at now) (active_ids (assets d))) in H0.
  destruct H0 as (? & ? & ? & ? & ? & ? & ?). rewrite Z.add_0_l in *.
  split_and!; try done. intros Hfd Hr. apply sweep_loop_all_read; [apply NoDup_active_ids|by apply Hf| |done].
  apply Forall_forall. intros id Hid. cbn [ss_db]. destruct (Hr id Hid) as [row Hrow]. exists row.
  rewrite <- Hrow. unfold readable. by rewrite Hn.
Qed.
End SweepFacts.

(** ** The runner *)

(** What the runner can do next: a run of one of the three loops, in any order. *)
Inductive job (K : Type) :=
| JRescan (scan : result scan_err ScanResult) (now later : Z)
| JSweep (env : sweep_env K) (announcer : bool) (now later : Z)
| JCleanup (graceSeconds now wallclock : Z).
Arguments JRescan {K} _ _ _.
Arguments JSweep {K} _ _ _ _.
Arguments JCleanup {K} _ _ _.

Definition run_job {K} `{TimeParseLenient} (r : runner) (j : job K) : runner :=
  match j with
  | JRescan scan now later => rescanTick scan now later r
  | JSweep env announcer now later => announceSweepTick env announcer now later r
  | JCleanup grace now wall => cleanupTick grace now wall r
  end.

Lemma store_scan_wf sr now d :
  table_wf (assets d) ->
  table_wf (assets (store_scan sr now d).2) /\ keeps_created (assets d) (assets (store_scan sr now d).2).
Proof.
  intros Hwf. destruct (store_scan sr now d) as [r d'] eqn:E. cbn [snd]. unfold store_scan in E.
  apply bind_inv in E as [(u & d1 & Hu & E)|(e & Hu & ->)]; apply UpsertAssets_inv in Hu as [_ Hu];
    [|rewrite Hu; done].
  destruct (upserts_wf (FormatRFC3339 now) (map record_of (sr_Assets sr)) _ Hwf) as [Hw1 Hk1].
  rewrite <- Hu in Hw1, Hk1.
  apply bind_inv in E as [(m & d2 & Hm & E)|(e & Hm & ->)]; apply MarkMissing_inv in Hm as [_ Hm].
  - destruct Hm as [(? & [=] & _)|[Hm _]].
    destruct (mark_wf (map as_AssetID (sr_Assets sr)) (FormatRFC3339 now) _ Hw1) as [Hw2 Hk2].
    assert (Heq : assets d' = assets d2).
    { apply bind_inv in E as [(c & d3 & Hc & E)|(e & Hc & ->)]; apply CountActive_inv in Hc as [[Hc _] _]; [|done].
      unfold mret, db_ret in E. by injection E as _ <-. }
    rewrite Heq, Hm. split; [done|]. by etrans.
  - destruct Hm as [(? & _ & ->)|[-> _]]; [done|].
    destruct (mark_wf (map as_AssetID (sr_Assets sr)) (FormatRFC3339 now) _ Hw1) as [Hw2 Hk2].
    split; [done|]. by etrans.
Qed.

Lemma run_job_wf {K} `{TimeParseLenient} (r : runner) (j : job K) :
  table_wf (assets (rn_db r)) ->
  table_wf (assets (rn_db (run_job r j))) /\ keeps_created (assets (rn_db r)) (assets (rn_db (run_job r j))).
Proof.
  intros Hwf. destruct j as [scan now later|env announcer now later|grace now wall]; cbn [run_job].
  - unfold rescanTick, RunRescanJob. destruct scan as [sr|e]; [|done].
    pose proof (store_scan_wf sr now (rn_db r) Hwf) as Hs.
    destruct (store_scan sr now (rn_db r)) as [[res|e] d]; [|done].
    destruct (CountMissing d) as [m d'] eqn:E. apply CountMissing_inv in E as [[Ed _] _]. cbn in *. by rewrite Ed.
  - unfold announceSweepTick, RunAnnounceSweep. destruct announcer; cbn [negb]; [|done].
    destruct (ListActiveAssetIDs (rn_db r)) as [[ids|e] d] eqn:E; apply ListActiveAssetIDs_inv in E as [[Ed _] _];
      cbn [rn_db ss_db]; [|by rewrite Ed].
    destruct (sweep_loop_frame env now (TimeAdd now (durationOf (ReannounceThresholdSeconds (se_cfg env)) Second)) ids
      (SweepState d (rn_backoff r) no_sweep [] [])) as [-> _]. cbn. by rewrite Ed.
  - unfold cleanupTick, RunCleanupJob. cbn [rn_db].
    destruct (MarkExpiredBefore _ _ _) as [x d] eqn:E. apply MarkExpiredBefore_inv in E as [Ed _]. cbn. by rewrite Ed.
Qed.

(** The jobs cannot corrupt the asset table. Whatever order the three loops run in, whatever the
    scanner, the catalog, the clock and the random sources deliver, and whichever database calls
    fail, the asset table stays consistent, no row disappears and creation times stay. *)
Theorem jobs_preserve_invariant {K} `{TimeParseLenient} (r : runner) (js : list (job K)) :
  table_wf (assets (rn_db r)) ->
  table_wf (assets (rn_db (foldl run_job r js))) /\
  keeps_created (assets (rn_db r)) (assets (rn_db (foldl run_job r js))).
Proof.
  revert r; induction js as [|j js IH]; intros r Hwf; cbn [foldl]; [done|].
  destruct (run_job_wf r j Hwf) as [Hw Hk]. destruct (IH _ Hw) as [? ?]. split; [done|]. by etrans.
Qed.

(** ** Witnesses *)

Module JobsDemo.
Import CatalogDemo RepositoryDemo.
#[local] Instance demo_times : TimeParseLenient := fun _ => None.
Definition sr : ScanResult := MkScan [MkAsset "a" "a/master.m3u8" "h" 2 300 0; MkAsset "c" "c/master.m3u8" "h" 2 300 0] 2.

Lemma rescan_mirrors_disk_witness :
  exists res, RunRescanJob (Ok sr) now d1 = (Ok res, (RunRescanJob (Ok sr) now d1).2) /\ res = MkRescan 2 2 1 /\
    (exists r, assets (RunRescanJob (Ok sr) now d1).2 !! "c" = Some r /\ a_status r = "active").
Proof.
  exists (MkRescan 2 2 1). split; [vm_compute; reflexivity|]. split; [done|].
  destruct (rescan_mirrors_disk sr now d1 (MkRescan 2 2 1) (RunRescanJob (Ok sr) now d1).2) as [Hact _].
  - assert (Hd : assets d1 = foldl (upsert_asset (FormatRFC3339 now)) ∅ [rec "a"; rec "b"]) by (vm_compute; reflexivity).
    rewrite Hd. apply upserts_wf, map_Forall_empty.
  - vm_compute; reflexivity.
  - apply Hact. right. left.
Defined.

(** The catalog accepts ["a"] and refuses everything else. *)
Definition env : sweep_env Z :=
  SweepEnv _ sign id cfg (fun _ => Ok [0; 255])
    (fun req => if String.eqb (ar_AssetID req) "a" then None else Some ErrNotFound) (fun _ _ => 0).
Definition b0 : BackoffState := NewBackoffState (MkBackoff 0 0 0 0).
Definition swept := RunAnnounceSweep env true now d1 b0.

Lemma sweep_announces_exactly_due_witness :
  swept.1 = Ok (MkSweep 2 1 1 0 0) /\ NoDup (ar_AssetID <$> ss_sent swept.2) /\
  (ar_AssetID <$> ss_sent swept.2) = ["a"; "b"].
Proof.
  split; [vm_compute; reflexivity|].
  assert (Hs : (ar_AssetID <$> ss_sent swept.2) = ["a"; "b"]) by (vm_compute; reflexivity).
  split; [|exact Hs].
  apply (sweep_announces_exactly_due env now d1 b0 (MkSweep 2 1 1 0 0) swept.2). vm_compute. reflexivity.
Defined.

Definition req_a : AnnounceRequest :=
  MkAnnounce "a" "https" "https://p.example/assets/a" 10 604800 1700604800 "00ff" "07ff".

Lemma accepted_announcement_renewal_witness :
  needs_announcement (threshold_at env now) d1 "a" /\
  (TimeUnix 1700604800 < threshold_at env (now + 5 * Hour) ->
   due (now + 5 * Hour) (threshold_at env (now + 5 * Hour)) (ss_db swept.2) (ss_backoff swept.2) "a").
Proof.
  destruct (accepted_announcement_renewal env now d1 b0 (MkSweep 2 1 1 0 0) swept.2 req_a) as (Hn & _ & Hcase).
  - vm_compute; reflexivity.
  - assert (E : ss_sent swept.2 = [req_a; MkAnnounce "b" "https" "https://p.example/assets/b" 10 604800 1700604800 "00ff" "07ff"])
      by (vm_compute; reflexivity). rewrite E. left.
  - vm_compute; reflexivity.
  - vm_compute; split; congruence.
  - vm_compute; split; congruence.
  - vm_compute; congruence.
  - split; [exact Hn|]. destruct Hcase as [Hok|[Hf _]]; [|by destruct Hf]. intros Hlt. by apply Hok.
Defined.

(** A row from before the time columns were added. *)
Definition legacy : ann_row := AnnRow None None "failed" "" "".
Definition d_legacy : db := MkDB (assets d1) {[ "b" := legacy ]} [] true.

Lemma null_row_never_announced_witness :
  (RunAnnounceSweep env true now d_legacy b0).1 = Ok (MkSweep 1 1 0 1 0) /\
  announcements (ss_db (RunAnnounceSweep env true now d_legacy b0).2) !! "b" = Some legacy.
Proof.
  split; [vm_compute; reflexivity|].
  apply (null_row_never_announced env now d_legacy b0 (MkSweep 1 1 0 1 0)
           (RunAnnounceSweep env true now d_legacy b0).2 "b" legacy).
  - vm_compute; reflexivity.
  - vm_compute; reflexivity.
  - by left.
Defined.

Lemma sweep_accounting_witness :
  swept.1 = Ok (MkSweep 2 1 1 0 0) /\ Attempted (MkSweep 2 1 1 0 0) = label_count "ok" ["ok"; "rejected"] + 1.
Proof.
  split; [vm_compute; reflexivity|].
  destruct (sweep_accounting env now d1 b0 (MkSweep 2 1 1 0 0) swept.2) as (Ha & Ho & _).
  - vm_compute; reflexivity.
  - rewrite Ha. vm_compute. reflexivity.
Defined.

Lemma jobs_preserve_invariant_witness :
  let r0 := MkRunner d0 b0 (NewStatus true) [] in
  let js := [JRescan (Ok sr) now now; JSweep env true now now; JCleanup 86400 now now] in
  deferredAnnouncesCount (rn_status (foldl run_job r0 js)) = 1 /\ table_wf (assets (rn_db (foldl run_job r0 js))).
Proof.
  intros r0 js. split; [vm_compute; reflexivity|].
  apply (jobs_preserve_invariant r0 js). apply map_Forall_empty.
Defined.
End JobsDemo.
