(* ===== verification/Runner.v ===== *)
(** * The runner of the background jobs

    [internal/jobs/runner.go] as a concurrent program: three goroutines, one per job, that share
    the database, the back-off state and the status, and the main goroutine, which cancels their
    context and waits for them. [runPeriodic] is a small state machine per goroutine, and the
    whole runner is a labelled step relation in which the goroutines, the tickers and the main
    goroutine move in any order. A job's body is one of [Jobs.run_job]; its effect on the shared
    state is taken when the body ends. The statements of bodies that overlap in time are
    therefore not interleaved.

    The theorems: the wait group counts the goroutines that live, so [Done] never drives it below
    zero and [Wait] returns only when all of them have ended, after which nothing of the runner
    touches the shared state; and [Wait] does return, with a bound on the number of steps. *)

From S2P Require Import Prelude GoStrings GoTime Config Backoff Repository Scanner Jobs.
Open Scope Z_scope.

(** ** Building a runner *)

(** [Clock]: what the clock shows at an instant. *)
Definition Clock : Type := Z -> Z.
Definition realClock : Clock := fun t => t.

Record Runner := MkR {
  r_cfg : Config;
  r_announcer : bool;
  r_clock : Clock;
  r_shared : runner;
  r_wg : Z;
}.

(** [NewCatalogAnnouncer]: no client, no announcer (and not an adapter around nil). *)
Definition NewCatalogAnnouncer (client : bool) : bool := if negb client then false else true.

Definition NewRunner (cfg : Config) (d : db) (announcer : bool) (status : option JobStatus) : Runner :=
  let status := match status with None => NewStatus (EnableJobs cfg) | Some s => s end in
  MkR cfg announcer realClock (MkRunner d (NewBackoffStateFromConfig cfg) status []) 0.

Definition SetClock (clock : option Clock) (r : Runner) : Runner :=
  match clock with
  | None => r
  | Some c => MkR (r_cfg r) (r_announcer r) c (r_shared r) (r_wg r)
  end.

Definition SetBackoffState (state : option BackoffState) (r : Runner) : Runner :=
  match state with
  | None => r
  | Some b =>
      let sh := r_shared r in
      MkR (r_cfg r) (r_announcer r) (r_clock r) (MkRunner (rn_db sh) b (rn_status sh) (rn_metrics sh)) (r_wg r)
  end.

Definition StatusSnapshot (r : Runner) : JobStatus := rn_status (r_shared r).

Definition set_shared (sh : runner) (r : Runner) : Runner :=
  MkR (r_cfg r) (r_announcer r) (r_clock r) sh (r_wg r).
Definition wg_add (n : Z) (r : Runner) : Runner :=
  MkR (r_cfg r) (r_announcer r) (r_clock r) (r_shared r) (r_wg r + n).

(** ** The three loops *)

Inductive loop := rescanLoop | announceSweepLoop | cleanupLoop.
#[global] Instance loop_eq_dec : EqDecision loop.
Proof. solve_decision. Defined.

(** The interval each loop asks for; [runPeriodic] replaces one that is not positive. *)
Definition loop_interval (l : loop) (c : Config) : Z :=
  match l with
  | rescanLoop => durationOf (RescanIntervalSeconds c) Second
  | announceSweepLoop | cleanupLoop => durationOf (AnnounceSweepIntervalSeconds c) Second
  end.

(** What one run of a body meets outside the runner: the instants at which it reads the clock, the
    wall clock, the scanner's and the catalog's answers. *)
Record job_world (K : Type) := JobWorld {
  jw_scan : result scan_err ScanResult;
  jw_env : sweep_env K;
  jw_start : Z;
  jw_end : Z;
  jw_wall : Z;
}.
Arguments JobWorld {K} _ _ _ _ _.
Arguments jw_scan {K} _.
Arguments jw_env {K} _.
Arguments jw_start {K} _.
Arguments jw_end {K} _.
Arguments jw_wall {K} _.

Definition loop_job {K} (r : Runner) (l : loop) (w : job_world K) : job K :=
  let now := r_clock r (jw_start w) in
  let later := r_clock r (jw_end w) in
  match l with
  | rescanLoop => JRescan (jw_scan w) now later
  | announceSweepLoop => JSweep (jw_env w) (r_announcer r) now later
  | cleanupLoop => JCleanup (AnnouncementExpiryGraceSeconds (r_cfg r)) now (jw_wall w)
  end.

(** Where a goroutine is in [runPeriodic]. The ticker exists from the end of the first run on; its
    channel holds one tick, and further ticks are dropped. *)
Inductive phase :=
| Spawned                    (* the go statement has run, the goroutine has not *)
| First                      (* in the first call of fn *)
| Running (pending : bool)   (* in a later call of fn *)
| Selecting (pending : bool) (* at the select *)
| Exited.                    (* returned: wg.Done has run *)

#[global] Instance phase_eq_dec : EqDecision phase.
Proof. solve_decision. Defined.

(** The runner with its goroutines, whether the context is cancelled and [Wait] has returned. *)
Record state := State {
  st_runner : Runner;
  st_loops : list (loop * phase);
  st_cancelled : bool;
  st_waited : bool;
}.

Definition Start (r : Runner) : Runner * list (loop * phase) :=
  if negb (EnableJobs (r_cfg r)) then (r, [])
  else (wg_add 3 r, [(rescanLoop, Spawned); (announceSweepLoop, Spawned); (cleanupLoop, Spawned)]).

Definition started (r : Runner) : state := let '(r', ls) := Start r in State r' ls false false.

(** ** Steps *)

Inductive label (K : Type) :=
| Begin (i : nat)                     (* the goroutine starts and calls fn *)
| Finish (i : nat) (w : job_world K)  (* fn returns *)
| TickAt (i : nat)                    (* the ticker fires *)
| Take (i : nat)                      (* select: case <-ticker.C *)
| Exit (i : nat)                      (* select: case <-ctx.Done(), and the deferred calls *)
| Cancel                              (* main: jobsCancel() *)
| WaitReturns.                        (* main: Wait() returns *)
Arguments Begin {K} _.
Arguments Finish {K} _ _.
Arguments TickAt {K} _.
Arguments Take {K} _.
Arguments Exit {K} _.
Arguments Cancel {K}.
Arguments WaitReturns {K}.

Section Steps.
Context {K : Type} `{TimeParseLenient}.

Definition move (i : nat) (l : loop) (p : phase) (s : state) : state :=
  State (st_runner s) (<[i := (l, p)]> (st_loops s)) (st_cancelled s) (st_waited s).

Definition with_runner (r : Runner) (s : state) : state :=
  State r (st_loops s) (st_cancelled s) (st_waited s).

(** The body has run: its effect on what the goroutines share. *)
Definition finished (l : loop) (w : job_world K) (s : state) : state :=
  let r := st_runner s in
  with_runner (set_shared (run_job (r_shared r) (loop_job r l w)) r) s.

(** The state after a step, or [None] where the step is not possible. Both cases of the select
    are open when both channels are ready. *)
Definition step (a : label K) (s : state) : option state :=
  match a with
  | Begin i =>
      match st_loops s !! i with
      | Some (l, Spawned) => Some (move i l First s)
      | _ => None
      end
  | Finish i w =>
      match st_loops s !! i with
      | Some (l, First) => Some (move i l (Selecting false) (finished l w s))
      | Some (l, Running p) => Some (move i l (Selecting p) (finished l w s))
      | _ => None
      end
  | TickAt i =>
      match st_loops s !! i with
      | Some (l, Running _) => Some (move i l (Running true) s)
      | Some (l, Selecting _) => Some (move i l (Selecting true) s)
      | _ => None
      end
  | Take i =>
      match st_loops s !! i with
      | Some (l, Selecting true) => Some (move i l (Running false) s)
      | _ => None
      end
  | Exit i =>
      match st_loops s !! i with
      | Some (l, Selecting _) =>
          if st_cancelled s then Some (move i l Exited (with_runner (wg_add (-1) (st_runner s)) s)) else None
      | _ => None
      end
  | Cancel =>
      if st_cancelled s then None else Some (State (st_runner s) (st_loops s) true (st_waited s))
  | WaitReturns =>
      if st_cancelled s && negb (st_waited s) && (r_wg (st_runner s) =? 0)
      then Some (State (st_runner s) (st_loops s) true true) else None
  end.

(** Runs of the program: a label per step. *)
Inductive steps : state -> list (label K) -> state -> Prop :=
| steps_nil s : steps s [] s
| steps_cons s a s1 tr s2 : step a s = Some s1 -> steps s1 tr s2 -> steps s (a :: tr) s2.

Definition is_tick (a : label K) : bool := match a with TickAt _ => true | _ => false end.
Definition ticks (tr : list (label K)) : nat := length (filter (fun a => is_tick a = true) tr).

(** ** The invariant *)

Definition live (p : phase) : bool := match p with Exited => false | _ => true end.
Definition count (f : phase -> nat) (ls : list (loop * phase)) : nat := sum_list_with (fun lp => f lp.2) ls.
Definition lives : list (loop * phase) -> nat := count (fun p => if live p then 1%nat else 0%nat).

Record inv (s : state) : Prop := {
  inv_wg : r_wg (st_runner s) = Z.of_nat (lives (st_loops s));
  inv_cancelled : forall i l, st_loops s !! i = Some (l, Exited) -> st_cancelled s = true;
  inv_waited : st_waited s = true -> st_cancelled s = true /\ lives (st_loops s) = 0%nat;
}.

(** How far a goroutine is from its end. *)
Definition weight (p : phase) : nat :=
  match p with
  | Spawned => 3 | First => 2
  | Running q => if q then 4 else 2
  | Selecting q => if q then 3 else 1
  | Exited => 0
  end.

Definition measure (s : state) : nat :=
  (count weight (st_loops s) + (if st_cancelled s then 0 else 1) + (if st_waited s then 0 else 1))%nat.

Lemma count_insert f ls i l p l' p' :
  ls !! i = Some (l, p) -> (count f (<[i := (l', p')]> ls) + f p = count f ls + f p')%nat.
Proof.
  intros Hi. unfold count. rewrite <- (take_drop_middle _ _ _ Hi) at 2.
  rewrite insert_take_drop by (by eapply lookup_lt_Some). rewrite !sum_list_with_app. cbn. lia.
Qed.

Lemma count_lookup f ls i l p : ls !! i = Some (l, p) -> (f p <= count f ls)%nat.
Proof.
  intros Hi. unfold count. rewrite <- (take_drop_middle _ _ _ Hi), sum_list_with_app. cbn. lia.
Qed.

Lemma lives_insert ls i l p l' p' :
  ls !! i = Some (l, p) ->
  (lives (<[i := (l', p')]> ls) + (if live p then 1 else 0) = lives ls + (if live p' then 1 else 0))%nat.
Proof. apply (count_insert (fun p => if live p then 1%nat else 0%nat)). Qed.

Lemma lives_0 ls : lives ls = 0%nat <-> forall i l p, ls !! i = Some (l, p) -> p = Exited.
Proof.
  split.
  - intros Hz i l p Hi. pose proof (count_lookup (fun p => if live p then 1%nat else 0%nat) _ _ _ _ Hi) as Hle.
    fold lives in Hle. rewrite Hz in Hle. destruct p; cbn in Hle; (done || lia).
  - induction ls as [|[l p] ls IH]; intros Hall; [done|]. unfold lives, count. cbn.
    rewrite (Hall 0%nat l p eq_refl). cbn. apply IH. intros i. apply (Hall (S i)).
Qed.

(** The steps of a goroutine leave the others, the context and the main goroutine alone. *)
Definition goroutine_step (a : label K) (s s' : state) : Prop :=
  exists i l p p', st_loops s !! i = Some (l, p) /\ live p = true /\ st_loops s' = <[i := (l, p')]> (st_loops s) /\
    st_cancelled s' = st_cancelled s /\ st_waited s' = st_waited s /\
    r_wg (st_runner s') = r_wg (st_runner s) + (if live p' then 0 else -1) /\
    (p' = Exited -> st_cancelled s = true) /\
    (if is_tick a then weight p' <= weight p + 2 else weight p' < weight p)%nat /\
    (r_shared (st_runner s') = r_shared (st_runner s) \/
     exists j : job K, r_shared (st_runner s') = run_job (r_shared (st_runner s)) j).

Lemma step_cases a s s' :
  step a s = Some s' ->
  goroutine_step a s s' \/
  (a = Cancel /\ st_cancelled s = false /\ s' = State (st_runner s) (st_loops s) true (st_waited s)) \/
  (a = WaitReturns /\ st_cancelled s = true /\ st_waited s = false /\ r_wg (st_runner s) = 0 /\
   s' = State (st_runner s) (st_loops s) true true).
Proof.
  unfold goroutine_step. destruct a as [i|i w|i|i|i| |]; cbn [step is_tick]; intros Hs.
  1-5: left; destruct (st_loops s !! i) as [[l p]|] eqn:Hi; [|done];
    destruct p as [| |q|q|]; try done; try (destruct q; try done); try (destruct (st_cancelled s) eqn:Hc; try done);
    injection Hs as <-; exists i, l; do 2 eexists; (split; [done|]); cbn; split_and!; eauto; cbn; (done || lia).
  - destruct (st_cancelled s) eqn:Hc; [done|]. injection Hs as <-. right; left; done.
  - destruct (st_cancelled s) eqn:Hc, (st_waited s) eqn:Hw; try done. cbn in Hs.
    destruct (Z.eqb_spec (r_wg (st_runner s)) 0); [|done]. injection Hs as <-. right; right; split_and!; done.
Qed.

Lemma step_inv a s s' : inv s -> step a s = Some s' -> inv s'.
Proof.
  intros [Hwg Hc Hw] [(i & l & p & p' & Hi & Hl & El & Ec & Ew & Eg & Hx & _)|[(-> & ? & ->)|(-> & ? & ? & ? & ->)]]%step_cases.
  - pose proof (lives_insert _ i l p l p' Hi) as Hn. rewrite <- El, Hl in Hn. split.
    + rewrite Eg, Hwg. destruct (live p'); lia.
    + intros k l'. rewrite El, Ec, list_lookup_insert_Some. intros [(_ & [= <- ->] & _)|[_ Hk]]; eauto.
    + rewrite Ew, Ec. intros [? Hz]%Hw. split; [done|]. apply lives_0 in Hi; [|done]. by subst p.
  - split; cbn; [done|done|]. intros Hwt. apply Hw in Hwt. destruct Hwt as [? ?]. done.
  - split; [done|done|]. intros _. split; [done|]. apply Nat2Z.inj. cbn [st_loops]. by rewrite <- Hwg.
Qed.

Lemma steps_inv s tr s' : steps s tr s' -> inv s -> inv s'.
Proof. induction 1; eauto using step_inv. Qed.

Lemma started_inv r : r_wg r = 0 -> inv (started r).
Proof.
  intros Hr. unfold started, Start. destruct (EnableJobs (r_cfg r)); split; cbn; try done; try lia.
  intros i l Hi. do 3 (destruct i as [|i]; [done|]). done.
Qed.

Lemma steps_waited s tr s' :
  steps s tr s' -> inv s -> st_waited s = true -> r_shared (st_runner s') = r_shared (st_runner s) /\ inv s' /\ st_waited s' = true.
Proof.
  induction 1 as [s|s a s1 tr s2 Hs _ IH]; intros Hi Hw; [done|]. pose proof (step_inv _ _ _ Hi Hs) as Hi1.
  apply step_cases in Hs as [(i & l & p & p' & Hp & Hl & _)|[(-> & ? & _)|(-> & _ & ? & _)]].
  - apply (inv_waited _ Hi) in Hw as [_ Hz]. apply lives_0 in Hp; [|done]. by subst p.
  - apply (inv_waited _ Hi) in Hw as [? _]. congruence.
  - congruence.
Qed.

Lemma steps_tables s tr s' :
  steps s tr s' -> table_wf (assets (rn_db (r_shared (st_runner s)))) ->
  table_wf (assets (rn_db (r_shared (st_runner s')))) /\
  keeps_created (assets (rn_db (r_shared (st_runner s)))) (assets (rn_db (r_shared (st_runner s')))).
Proof.
  induction 1 as [s|s a s1 tr s2 Hs _ IH]; intros Hwf; [done|].
  assert (H1 : table_wf (assets (rn_db (r_shared (st_runner s1)))) /\
    keeps_created (assets (rn_db (r_shared (st_runner s)))) (assets (rn_db (r_shared (st_runner s1))))).
  { apply step_cases in Hs as [(? & ? & ? & ? & _ & _ & _ & _ & _ & _ & _ & _ & [->|(j & ->)])|[(_ & _ & ->)|(_ & _ & _ & _ & ->)]];
      try done. by apply run_job_wf. }
  destruct H1 as [Hw1 Hk1]. destruct (IH Hw1) as [? Hk2]. split; [done|]. by etrans.
Qed.

Lemma started_db r : r_shared (st_runner (started r)) = r_shared r.
Proof. unfold started, Start. by destruct (EnableJobs (r_cfg r)). Qed.

(** ** Progress *)

Lemma started_measure r : (measure (started r) <= 11)%nat.
Proof. unfold started, Start. destruct (EnableJobs (r_cfg r)); cbn; lia. Qed.

Lemma step_measure a s s' :
  step a s = Some s' -> (if is_tick a then measure s' <= measure s + 2 else measure s' < measure s)%nat.
Proof.
  unfold measure. intros [(i & l & p & p' & Hi & _ & El & -> & -> & _ & _ & Hm & _)|[(-> & -> & ->)|(-> & -> & -> & _ & ->)]]%step_cases.
  - pose proof (count_insert weight _ i l p l p' Hi) as Hn. rewrite <- El in Hn. destruct (is_tick a); lia.
  - cbn -[count]. lia.
  - cbn -[count]. lia.
Qed.

Lemma steps_length s tr s' : steps s tr s' -> (length tr + measure s' <= measure s + 3 * ticks tr)%nat.
Proof.
  induction 1 as [s|s a s1 tr s2 Hs _ IH]; [cbn; lia|]. apply step_measure in Hs. cbn [length].
  unfold ticks in *. rewrite filter_cons. destruct (is_tick a) eqn:E; [rewrite decide_True by done|rewrite decide_False by done];
    cbn [length]; lia.
Qed.

Lemma progress (w : job_world K) s :
  inv s -> st_waited s = false -> exists a, is_tick a = false /\ is_Some (step a s).
Proof.
  intros [Hwg _ _] Hw. destruct (decide (lives (st_loops s) = 0%nat)) as [Hz|Hz].
  - destruct (st_cancelled s) eqn:Hc; [exists WaitReturns|exists Cancel]; cbn; rewrite ?Hc, ?Hw; [|eauto].
    rewrite Hwg, Hz. cbn. eauto.
  - destruct (decide (Exists (fun lp => live lp.2 = true) (st_loops s))) as [He|Hn].
    + apply list.Exists_exists in He as ([l p] & [i Hi]%list_elem_of_lookup & Hl). cbn in Hl.
      destruct (st_cancelled s) eqn:Hc; [|exists Cancel; cbn; rewrite Hc; eauto].
      destruct p as [| |q|q|]; [exists (Begin i)|exists (Finish i w)|exists (Finish i w)|exists (Exit i)|done];
        cbn; rewrite Hi, ?Hc; eauto.
    + destruct Hz. apply lives_0. intros i l p Hi. destruct (live p) eqn:Hl; [|by destruct p].
      destruct Hn. apply list.Exists_exists. exists (l, p). split; [by eapply list_elem_of_lookup_2|done].
Qed.

(** C13: stopping the jobs is safe. Along every run of the three goroutines, their tickers and the main
    goroutine, in any order, the wait group is the number of goroutines that have not ended, so it is
    never negative; when [Wait] has returned the context is cancelled, every goroutine has ended, and
    whatever may still happen leaves database, back-off and status as they are; and the asset table
    is consistent throughout, with no row lost. *)
Theorem stopping_is_safe cfg d announcer status tr s :
  steps (started (NewRunner cfg d announcer status)) tr s ->
  r_wg (st_runner s) = Z.of_nat (lives (st_loops s)) /\
  (st_waited s = true -> st_cancelled s = true /\ (forall i l p, st_loops s !! i = Some (l, p) -> p = Exited) /\
   forall tr' s', steps s tr' s' -> r_shared (st_runner s') = r_shared (st_runner s)) /\
  (table_wf (assets d) ->
   table_wf (assets (rn_db (r_shared (st_runner s)))) /\
   keeps_created (assets d) (assets (rn_db (r_shared (st_runner s))))).
Proof.
  intros Hs. pose proof (steps_inv _ _ _ Hs (started_inv (NewRunner cfg d announcer status) eq_refl)) as Hi. split_and!.
  - apply Hi.
  - intros Hw. destruct (inv_waited _ Hi Hw) as [Hc Hz]. split_and!; [done|by apply lives_0|].
    intros tr' s' Hs'. by apply (steps_waited _ _ _ Hs').
  - intros Hd. apply steps_tables in Hs; [by rewrite started_db in Hs|by rewrite started_db].
Qed.

(** C12: the runner always stops. A run has at most eleven steps and three more for each tick of a
    ticker; and as long as [Wait] has not returned, something other than a ticker can move: a
    goroutine, the cancellation, or the return of [Wait]. So with finitely many ticks, whichever
    way the scheduler and the selects choose, the run comes to an end, and it ends only with the
    context cancelled, the goroutines ended and [Wait] returned. A run of a job is taken to return. *)
Theorem wait_returns cfg d announcer status tr s :
  steps (started (NewRunner cfg d announcer status)) tr s ->
  (length tr <= 11 + 3 * ticks tr)%nat /\
  forall w : job_world K, st_waited s = true \/ exists a, is_tick a = false /\ is_Some (step a s).
Proof.
  intros Hs. pose proof (steps_inv _ _ _ Hs (started_inv (NewRunner cfg d announcer status) eq_refl)) as Hi. split.
  - apply steps_length in Hs. pose proof (started_measure (NewRunner cfg d announcer status)). lia.
  - intros w. destruct (st_waited s) eqn:Hw; [by left|right]. by apply progress.
Qed.
End Steps.

(** ** Witnesses *)

Module RunnerDemo.
Import RepositoryDemo JobsDemo.
#[local] Instance demo_lower : UnicodeLower := fun s => s.
#[local] Instance demo_times : TimeParseLenient := fun _ => None.

Definition cfg_on : Config := Load ∅.
Definition r0 : Runner := NewRunner cfg_on d1 (NewCatalogAnnouncer true) None.
Definition w : job_world Z := JobWorld (Ok sr) env now now now.

(** The clean-up has not begun when the context is cancelled: it still runs once. The rescan takes a
    tick although the context is done, and runs again. *)
Definition shutdown : list (label Z) :=
  [Begin 0; Begin 1; Finish 0 w; TickAt 0; Finish 1 w; Cancel; Take 0; Exit 1; Begin 2; TickAt 0; TickAt 0;
   Finish 0 w; Exit 0; Finish 2 w; Exit 2; WaitReturns]%nat.

Fixpoint run (tr : list (label Z)) (s : state) : option state :=
  match tr with
  | [] => Some s
  | a :: tr' => match step a s with Some s' => run tr' s' | None => None end
  end.

Lemma run_steps tr s s' : run tr s = Some s' -> steps s tr s'.
Proof.
  revert s; induction tr as [|a tr IH]; intros s; cbn; [intros [= ->]; constructor|].
  destruct (step a s) as [s1|] eqn:E; [|done]. intros Hr. econstructor; eauto.
Qed.

Definition stopped : state := default (started r0) (run shutdown (started r0)).

Lemma stopped_steps : steps (started r0) shutdown stopped.
Proof. apply run_steps. vm_compute. reflexivity. Qed.

Lemma stopping_is_safe_witness :
  st_waited stopped = true /\ r_wg (st_runner stopped) = 0 /\
  map snd (st_loops stopped) = [Exited; Exited; Exited] /\
  forall (tr' : list (label Z)) s', steps stopped tr' s' -> r_shared (st_runner s') = r_shared (st_runner stopped).
Proof.
  split; [vm_compute; reflexivity|]. split; [vm_compute; reflexivity|]. split; [vm_compute; reflexivity|].
  apply (stopping_is_safe cfg_on d1 (NewCatalogAnnouncer true) None shutdown stopped stopped_steps).
  vm_compute. reflexivity.
Defined.

Lemma wait_returns_witness : length shutdown = 16%nat /\ ticks shutdown = 3%nat /\ (16 <= 11 + 3 * 3)%nat.
Proof.
  split; [reflexivity|]. split; [reflexivity|].
  apply (wait_returns cfg_on d1 (NewCatalogAnnouncer true) None shutdown stopped stopped_steps).
Defined.

(** The intervals of the default configuration. *)
Example default_intervals :
  map (fun l => periodicInterval (loop_interval l cfg_on)) [rescanLoop; announceSweepLoop; cleanupLoop] =
  [5 * Minute; 5 * Minute; 5 * Minute].
Proof. vm_compute. reflexivity. Qed.
End RunnerDemo.
