(* ===== verification/InternalApi.v ===== *)
(** * The internal API

    [internal/internalapi]: the middleware that admits only clients in configured networks, the
    rescan endpoint and the announce endpoint. The endpoints are functions of the request, the
    database, the catalog's health state and the outside world. The theorems: who is admitted, in
    terms of the peer's address and of a header that only trusted proxies may set; that a validated
    configuration is read here exactly as it was validated; what a rescan leaves in the database;
    and that an announce run tries every asset once, records every outcome and reports it. *)

From S2P Require Import Prelude GoStrings GoHttp GoTime GoNet Config Sha256 Catalog Repository Scanner Jobs.
Open Scope Z_scope.

(** ** ip_allowlist.go *)

Record ipAllowlist := MkAllowlist {
  allowedCIDRs : list IPNet;
  trustProxyHeaders : bool;
  trustedProxyCIDRs : list IPNet;
}.

(** The first entry that does not parse fails the list; blank entries are skipped. *)
Definition parseCIDRList (value : string) : option (list IPNet) :=
  let trimmed := TrimSpace value in
  if String.eqb trimmed "" then Some []
  else mapM ParseCIDR (filter (fun t => t <> "") (TrimSpace <$> Split trimmed comma)).

Definition ipInCIDRs (ip : list Z) (cidrs : list IPNet) : bool := existsb (fun c => IPNet_Contains c ip) cidrs.

Definition parseRemoteIP (remoteAddr : string) : option (list Z) :=
  match SplitHostPort remoteAddr with
  | None => ParseIP (TrimSpace remoteAddr)
  | Some (host, _) => ParseIP (TrimSpace host)
  end.

(** The address in front of the first comma of [X-Forwarded-For], if it is one. *)
Definition forwardedIP (xff : string) : option (list Z) :=
  if String.eqb xff "" then None
  else let first := TrimSpace (default "" (head (SplitN2 xff comma))) in
       if String.eqb first "" then None else ParseIP first.

Definition clientIP (a : ipAllowlist) (r : Request) : option (list Z) :=
  match parseRemoteIP (r_remote r) with
  | None => None
  | Some remote =>
      if negb (trustProxyHeaders a) || negb (ipInCIDRs remote (trustedProxyCIDRs a)) then Some remote
      else match forwardedIP (hGet (r_header r) "X-Forwarded-For") with
           | None => Some remote
           | Some forwarded => Some forwarded
           end
  end.

(** A list that does not parse is replaced by the empty one. *)
Definition newAllowlist (cfg : Config) : ipAllowlist :=
  MkAllowlist (default [] (parseCIDRList (InternalAllowedCIDRs cfg))) (TrustProxyHeaders cfg)
              (default [] (parseCIDRList (TrustedProxyCIDRs cfg))).

(** What the endpoints share: the database and the catalog's health state. *)
Record api_state := MkApi { api_db : db; api_health : HealthState }.

Definition ApiHandler : Type := Request -> RW -> api_state -> RW * api_state.

Definition IPAllowlistMiddleware (cfg : Config) (next : ApiHandler) : ApiHandler := fun r w s =>
  let allowlist := newAllowlist cfg in
  match clientIP allowlist r with
  | Some ip => if ipInCIDRs ip (allowedCIDRs allowlist) then next r w s
               else (writeJSONError 403 "forbidden" w, s)
  | None => (writeJSONError 403 "forbidden" w, s)
  end.

(** ** JSON answers *)

Definition json_int (f : string * Z) : string := quote +:+ f.1 +:+ quote +:+ ":" +:+ Itoa f.2.

(** [json.NewEncoder(w).Encode] of a struct of integers. *)
Definition json_ints (fs : list (string * Z)) : string :=
  "{" +:+ String.concat "," (json_int <$> fs) +:+ "}" +:+ newline.

Definition writeJSON (body : string) (w : RW) : RW :=
  Write (Bytes body) (WriteHeader 200 (with_header (hSet "Content-Type" "application/json") w)).

(** ** rescan_handler.go *)

Record RescanResponse := MkRescanResponse {
  rr_ScannedAssets : Z;
  rr_ActiveAssets : Z;
  rr_MissingAssets : Z;
  rr_DurationMS : Z;
}.

(** [scan] is what the scanner returns, with the time it took. *)
Definition RunRescan (scan : result scan_err (ScanResult * Z)) (now : Z) (d : db)
  : result job_err RescanResponse * db :=
  match scan with
  | Err e => (Err (JScan e), d)
  | Ok (res, duration) =>
      let records := map record_of (sr_Assets res) in
      let seenIDs := map as_AssetID (sr_Assets res) in
      let store : DB RescanResponse :=
        UpsertAssets records now;;
        missing ← MarkMissing seenIDs now;
        active ← CountActive;
        mret (MkRescanResponse (sr_ScannedAssets res) active missing (Z.quot duration Millisecond)) in
      match store d with
      | (Ok r, d') => (Ok r, d')
      | (Err e, d') => (Err (JRepo e), d')
      end
  end.

Definition rescan_json (r : RescanResponse) : string :=
  json_ints [("scanned_assets", rr_ScannedAssets r); ("active_assets", rr_ActiveAssets r);
             ("missing_assets", rr_MissingAssets r); ("duration_ms", rr_DurationMS r)].

Definition RescanHandler (scan : result scan_err (ScanResult * Z)) (now : Z) : ApiHandler := fun r w s =>
  if negb (String.eqb (r_method r) "POST") then (writeJSONError 405 "method_not_allowed" w, s)
  else
    let '(res, d) := RunRescan scan now (api_db s) in
    let s' := MkApi d (api_health s) in
    match res with
    | Err _ => (writeJSONError 500 "rescan_failed" w, s')
    | Ok resp => (writeJSON (rescan_json resp) w, s')
    end.

(** ** announce_handler.go *)

Record announceSummary := MkSummary { sm_Attempted : Z; sm_OK : Z; sm_Rejected : Z; sm_Failed : Z }.

Definition summary_json (s : announceSummary) : string :=
  json_ints [("attempted", sm_Attempted s); ("ok", sm_OK s); ("rejected", sm_Rejected s); ("failed", sm_Failed s)].

(** The texts of the errors, as the health state keeps them. *)
Definition catalog_err_text (e : catalog_err) : string :=
  match e with
  | ErrNotFound => "catalog not found"
  | ErrUnauthorized => "catalog unauthorized"
  | ErrConflict => "catalog conflict"
  | ErrBadRequest => "catalog bad request"
  | ErrServer => "catalog server error"
  | ErrUnexpected st => "catalog unexpected response: status=" +:+ Itoa st
  | ErrUnconfigured => "catalog client unconfigured"
  | ErrOther m => m
  end.

Definition build_err_text (e : build_err) : string :=
  match e with
  | ErrNoPublicURL => "public base url is required"
  | ErrNoAssetID => "asset_id is required"
  | ErrNonce m => "generate nonce: " +:+ m
  | ErrSigning m => "sign announcement: " +:+ m
  end.

(** The world around an announce request. *)
Record announce_env (K : Type) := AnnounceEnv {
  ae_sign : K -> list Z -> result string (list Z);
  ae_id : Identity K;
  ae_cfg : Config;
  ae_nonce : string -> result string (list Z);
  ae_announce : AnnounceRequest -> option catalog_err;  (* the client's [Announce], its error *)
  ae_sink : bool;  (* whether there is an error sink *)
}.
Arguments ae_sign {K} _.
Arguments ae_id {K} _.
Arguments ae_cfg {K} _.
Arguments ae_nonce {K} _.
Arguments ae_announce {K} _.
Arguments ae_sink {K} _.

(** The state the loop threads: the shared state, the summary, and the requests sent. *)
Record loop_state := LoopState {
  ls_api : api_state;
  ls_summary : announceSummary;
  ls_sent : list AnnounceRequest;
}.

Definition add_ok (s : announceSummary) : announceSummary :=
  MkSummary (sm_Attempted s) (sm_OK s + 1) (sm_Rejected s) (sm_Failed s).
Definition add_rejected (s : announceSummary) : announceSummary :=
  MkSummary (sm_Attempted s) (sm_OK s) (sm_Rejected s + 1) (sm_Failed s).
Definition add_failed (s : announceSummary) : announceSummary :=
  MkSummary (sm_Attempted s) (sm_OK s) (sm_Rejected s) (sm_Failed s + 1).

Section Announce.
Context {K : Type} (env : announce_env K).

Definition sink (err : option string) (h : HealthState) : HealthState :=
  if ae_sink env then Set_ err h else h.

(** One iteration; errors of the upsert are discarded. *)
Definition announceOne (now : Z) (assetID : string) (s : loop_state) : loop_state :=
  let d := api_db (ls_api s) in
  let h := api_health (ls_api s) in
  match BuildAnnouncement (ae_sign env) (ae_nonce env assetID) (ae_id env) (ae_cfg env) assetID now with
  | Err e =>
      let d' := (UpsertAnnouncementStatus assetID zero_time zero_time "failed" now d).2 in
      LoopState (MkApi d' (sink (Some (build_err_text e)) h)) (add_failed (ls_summary s)) (ls_sent s)
  | Ok req =>
      let expiresAt := TimeUnix (ar_ExpiresAt req) in
      match ae_announce env req with
      | None =>
          let d' := (UpsertAnnouncementStatus assetID now expiresAt "ok" now d).2 in
          LoopState (MkApi d' (sink None h)) (add_ok (ls_summary s)) (ls_sent s ++ [req])
      | Some err =>
          let '(add, status) := match err with ErrNotFound => (add_rejected, "rejected") | _ => (add_failed, "failed") end in
          let d' := (UpsertAnnouncementStatus assetID now expiresAt status now d).2 in
          LoopState (MkApi d' (sink (Some (catalog_err_text err)) h)) (add (ls_summary s)) (ls_sent s ++ [req])
      end
  end.

Definition announceAll (now : Z) (ids : list string) (s : loop_state) : loop_state :=
  foldl (fun s id => announceOne now id s) s ids.

(** [body] is what decoding the request's body gives, [None] without a body; [client] says
    whether there is a catalog client. The requests sent are returned with the answer. *)
Definition announceHandler (client : bool) (body : option decoded) (now : Z) (r : Request) (w : RW) (s : api_state)
  : RW * api_state * list AnnounceRequest :=
  if negb (String.eqb (r_method r) "POST") then (writeJSONError 405 "method_not_allowed" w, s, [])
  else if String.eqb (TrimSpace (PublicBaseURL (ae_cfg env))) "" then (writeJSONError 400 "public_base_url_required" w, s, [])
  else if negb client then (writeJSONError 503 "catalog_not_configured" w, s, [])
  else
    match body with
    | Some (DecErr _) => (writeJSONError 400 "invalid_json" w, s, [])
    | _ =>
        let requested := TrimSpace match body with Some (DecOk id) => id | _ => "" end in
        let '(ids, d) := if negb (String.eqb requested "") then (Ok [requested], api_db s)
                         else ListActiveAssetIDs (api_db s) in
        let s1 := MkApi d (api_health s) in
        match ids with
        | Err _ => (writeJSONError 500 "db_active_assets_failed" w, s1, [])
        | Ok assetIDs =>
            let l := announceAll now assetIDs (LoopState s1 (MkSummary (Z.of_nat (length assetIDs)) 0 0 0) []) in
            (writeJSON (summary_json (ls_summary l)) w, ls_api l, ls_sent l)
        end
    end.

Definition AnnounceHandler (client : bool) (body : option decoded) (now : Z) : ApiHandler := fun r w s =>
  (announceHandler client body now r w s).1.
End Announce.

(** ** Lemmas: admission *)

Lemma ipInCIDRs_spec ip nets : ipInCIDRs ip nets = true <-> exists n, n ∈ nets /\ IPNet_Contains n ip = true.
Proof.
  unfold ipInCIDRs. rewrite existsb_exists. split; intros (n & Hn & Hc); exists n; (split; [|done]); by apply list_elem_of_In.
Qed.

(** What a configured list lists: its comma-separated entries, blanks around them removed, the
    blank ones left out. *)
Definition listed (value : string) : list string := filter (fun t => t <> "") (TrimSpace <$> Split value comma).

(** The address lies in a listed network, and every entry of the list is a network. *)
Definition in_networks (value : string) (ip : list Z) : Prop :=
  Forall (is_Some ∘ ParseCIDR) (listed value) /\
  exists e n, e ∈ listed value /\ ParseCIDR e = Some n /\ IPNet_Contains n ip = true.

Lemma parseCIDRList_listed value : parseCIDRList value = mapM ParseCIDR (listed value).
Proof.
  unfold parseCIDRList, listed. rewrite <- (trim_split value).
  destruct (String.eqb_spec (TrimSpace value) "") as [->|_]; reflexivity.
Qed.

Lemma in_networks_default value ip : ipInCIDRs ip (default [] (parseCIDRList value)) = true <-> in_networks value ip.
Proof.
  rewrite ipInCIDRs_spec, parseCIDRList_listed. unfold in_networks. rewrite <- mapM_is_Some.
  destruct (mapM ParseCIDR (listed value)) as [nets|] eqn:E; cbn.
  - setoid_rewrite (elem_of_mapM_option _ _ _ _ E). naive_solver.
  - split; [|by intros [[? ?] _]]. intros (n & Hn & _). by apply not_elem_of_nil in Hn.
Qed.

(** The address [t] writes, blanks around it aside. *)
Definition writes_ip (t : string) (ip : list Z) : Prop := ParseIP (TrimSpace t) = Some ip.

(** The address of the TCP peer: the host of [host:port], or the whole text if it has no port. *)
Definition peer_ip (remote : string) (ip : list Z) : Prop :=
  (exists host port, SplitHostPort remote = Some (host, port) /\ writes_ip host ip) \/
  (SplitHostPort remote = None /\ writes_ip remote ip).

(** The address a header claims: what stands in front of the first comma, or the whole header. *)
Definition claimed_ip (xff : string) (ip : list Z) : Prop :=
  exists first, has_char comma first = false /\ writes_ip first ip /\
    (xff = first \/ exists rest, xff = first +:+ String comma rest).

Lemma parseRemoteIP_spec remote ip : parseRemoteIP remote = Some ip <-> peer_ip remote ip.
Proof.
  unfold parseRemoteIP, peer_ip, writes_ip. destruct (SplitHostPort remote) as [[host port]|]; naive_solver.
Qed.

Lemma head_piece_spec xff first :
  head (SplitN2 xff comma) = Some first <->
  has_char comma first = false /\ (xff = first \/ exists rest, xff = first +:+ String comma rest).
Proof.
  unfold SplitN2. destruct (cut comma xff) as [[a b]|] eqn:E; cbn [head]; split.
  - intros [= ->]. apply cut_Some in E. naive_solver.
  - intros [Hf [->|[rest ->]]].
    + apply cut_Some in E as [-> _]. rewrite has_char_app, has_char_cons in Hf. by destruct (has_char comma a).
    + rewrite (proj2 (cut_Some comma _ first rest)) in E by done. by injection E as <- <-.
  - intros [= ->]. split; [|by left]. by apply cut_None.
  - intros [Hf [->|[rest ->]]]; [done|]. by rewrite (proj2 (cut_Some comma _ first rest)) in E.
Qed.

Lemma forwardedIP_spec xff ip : forwardedIP xff = Some ip <-> claimed_ip xff ip.
Proof.
  assert (Hh : exists first, head (SplitN2 xff comma) = Some first) by (unfold SplitN2; destruct (cut _ _) as [[? ?]|]; eauto).
  destruct Hh as [first Hh].
  assert (Hc : claimed_ip xff ip <-> writes_ip first ip).
  { unfold claimed_ip. split; [|apply head_piece_spec in Hh; naive_solver].
    intros (f & Hf & Hw & Hx). assert (E : head (SplitN2 xff comma) = Some f) by (by apply head_piece_spec).
    rewrite Hh in E. by injection E as ->. }
  rewrite Hc. unfold forwardedIP, writes_ip. rewrite Hh. cbn [default from_option id].
  destruct (String.eqb_spec xff "") as [->|_]; [injection Hh as <-; done|].
  by destruct (String.eqb_spec (TrimSpace first) "") as [->|_].
Qed.

(** The peer is a proxy whose header is believed. *)
Definition trusted_proxy (cfg : Config) (peer : list Z) : Prop :=
  TrustProxyHeaders cfg = true /\ in_networks (TrustedProxyCIDRs cfg) peer.

(** The address a request counts as: the one in the header if a trusted proxy sent one, else the
    peer's. *)
Definition effective_ip (cfg : Config) (r : Request) (peer ip : list Z) : Prop :=
  (trusted_proxy cfg peer /\ claimed_ip (hGet (r_header r) "X-Forwarded-For") ip) \/
  (~ (trusted_proxy cfg peer /\ exists ip', claimed_ip (hGet (r_header r) "X-Forwarded-For") ip') /\ ip = peer).

Definition admitted (cfg : Config) (r : Request) : Prop :=
  exists peer ip, peer_ip (r_remote r) peer /\ effective_ip cfg r peer ip /\
    in_networks (InternalAllowedCIDRs cfg) ip.

Lemma trusted_bool cfg peer :
  negb (trustProxyHeaders (newAllowlist cfg)) || negb (ipInCIDRs peer (trustedProxyCIDRs (newAllowlist cfg))) = false <->
  trusted_proxy cfg peer.
Proof. unfold trusted_proxy. rewrite orb_false_iff, !negb_false_iff.
  cbn [newAllowlist trustProxyHeaders trustedProxyCIDRs]. by rewrite in_networks_default.
Qed.

Lemma clientIP_spec cfg r ip :
  clientIP (newAllowlist cfg) r = Some ip <->
  exists peer, peer_ip (r_remote r) peer /\ effective_ip cfg r peer ip.
Proof.
  unfold clientIP, effective_ip. setoid_rewrite <- parseRemoteIP_spec. setoid_rewrite <- forwardedIP_spec.
  destruct (parseRemoteIP (r_remote r)) as [peer|]; [|naive_solver].
  pose proof (trusted_bool cfg peer) as Ht.
  destruct (negb (trustProxyHeaders _) || _).
  - assert (~ trusted_proxy cfg peer) by (intros Hp%Ht; done). naive_solver.
  - destruct Ht as [Ht _]. specialize (Ht eq_refl).
    destruct (forwardedIP _) as [f|]; [|split].
    + split; [naive_solver|]. intros (p & [= <-] & [[_ [= ->]]|[Hn _]]); [done|]. destruct Hn. eauto.
    + intros [= <-]. exists peer. split; [done|]. right. split; [|done]. by intros [_ [? ?]].
    + naive_solver.
Qed.

Lemma parseCIDRList_splitCSV value : parseCIDRList value = mapM ParseCIDR (splitCSV value).
Proof. exact (parseCIDRList_listed value). Qed.

(** ** Theorems: admission *)

Lemma internal_access_lemma cfg next r w s :
  (admitted cfg r -> IPAllowlistMiddleware cfg next r w s = next r w s) /\
  (~ admitted cfg r -> IPAllowlistMiddleware cfg next r w s = (writeJSONError 403 "forbidden" w, s)).
Proof.
  unfold IPAllowlistMiddleware, admitted. cbv zeta. split.
  - intros (peer & ip & Hp & He & Hn). rewrite (proj2 (clientIP_spec cfg r ip)) by eauto.
    cbn [newAllowlist allowedCIDRs]. by rewrite (proj2 (in_networks_default _ _)).
  - intros Hna. destruct (clientIP _ r) as [ip|] eqn:E; [|done]. apply clientIP_spec in E as (peer & Hp & He).
    destruct (ipInCIDRs _ _) eqn:Ei; [|done]. destruct Hna. exists peer, ip. split; [done|]. split; [done|].
    by apply in_networks_default.
Qed.

Lemma access_cases cfg next r w s :
  admitted cfg r \/ IPAllowlistMiddleware cfg next r w s = (writeJSONError 403 "forbidden" w, s).
Proof.
  unfold IPAllowlistMiddleware, admitted. cbv zeta.
  destruct (clientIP _ r) as [ip|] eqn:E; [|by right]. apply clientIP_spec in E as (peer & Hp & He).
  destruct (ipInCIDRs _ _) eqn:Ei; [|by right]. left. exists peer, ip. split; [done|]. split; [done|].
  by apply in_networks_default.
Qed.

(** C6: the internal endpoints are open to configured networks only. A request reaches the endpoint
    behind the allowlist iff its address lies in one of the allowed networks, and is otherwise
    answered with 403 with nothing else done. The address is that of the TCP peer; it is taken from
    [X-Forwarded-For] only if proxy headers are enabled and the peer itself lies in a trusted proxy
    network. A list of networks that is blank or does not parse admits nobody and trusts nobody. *)
Theorem internal_access_exact cfg next r w s :
  (admitted cfg r -> IPAllowlistMiddleware cfg next r w s = next r w s) /\
  (~ admitted cfg r -> IPAllowlistMiddleware cfg next r w s = (writeJSONError 403 "forbidden" w, s)).
Proof. apply internal_access_lemma. Qed.

(** A list of networks means the addresses with one of the listed prefixes. An address is in a
    configured list that parses iff some entry [addr/n] of the list, blanks around it aside, agrees
    with it in the first [n] bits, addresses being 128-bit numbers with IPv4 at [::ffff:0:0/96] (so
    that [n] bits of an IPv4 block are the first [96 + n]); except that an IPv6 block of fewer than
    96 bits, [::/0] included, never covers an IPv4 address. *)
Theorem allowlist_semantics value nets t ip :
  parseCIDRList value = Some nets -> ParseIP t = Some ip ->
  ipInCIDRs ip nets = true <->
  exists addr mask bits a n, addr +:+ String slash mask ∈ splitCSV value /\
    ParseAddr addr = Some (bits, a) /\ parse_len mask = Some n /\ n <= bits /\
    has_char slash addr = false /\
    same_prefix (n + (128 - bits)) a ip /\ (mapped ip -> 96 <= n + (128 - bits)).
Proof.
  intros Hl Hip%ParseIP_ok.
  assert (Hm : mapM ParseCIDR (splitCSV value) = Some nets).
  { by rewrite <- parseCIDRList_splitCSV. }
  clear Hl. rewrite ipInCIDRs_spec. setoid_rewrite (elem_of_mapM_option _ _ _ _ Hm). split.
  - intros (net & (e & He & Hp) & Hc).
    apply ParseCIDR_network in Hp as (addr & mask & bits & a & n & -> & Hs & Ha & Hn & Hr & ->).
    exists addr, mask, bits, a, n. destruct (ParseAddr_ok _ _ _ Ha) as [Ha16 Hb].
    apply Contains_network in Hc; [|done..]. split_and!; try done; [lia|apply Hc..].
  - intros (addr & mask & bits & a & n & He & Ha & Hn & Hr & Hs & Hpre).
    exists (network bits a n). split; [exists (addr +:+ String slash mask); split; [done|by apply ParseCIDR_make]|].
    destruct (ParseAddr_ok _ _ _ Ha) as [Ha16 Hb]. pose proof (parse_len_nonneg _ _ Hn). by apply Contains_network.
Qed.

(** C31: a validated configuration is applied as it was validated. [Validate] and the allowlist parse
    the lists of networks with separately written code; for a configuration that passed, they read
    the same networks: the allowlist of an enabled internal API is the validated, non-empty list,
    and the trusted proxies are the validated ones, so that the silent fallback to an empty list is
    never taken. *)
Theorem validated_allowlist `{UnicodeLower} (ve : validate_env IPNet) cfg :
  parse_cidr ve = ParseCIDR -> Validate ve cfg = Ok tt ->
  (InternalEnable cfg = true ->
   allowedCIDRs (newAllowlist cfg) <> [] /\
   parseCIDRs ve (InternalAllowedCIDRs cfg) = Some (allowedCIDRs (newAllowlist cfg))) /\
  (TrimSpace (TrustedProxyCIDRs cfg) <> "" ->
   parseCIDRs ve (TrustedProxyCIDRs cfg) = Some (trustedProxyCIDRs (newAllowlist cfg))) /\
  is_Some (parseCIDRList (TrustedProxyCIDRs cfg)).
Proof.
  intros Hpc Hv.
  assert (Hsame : forall v nets, TrimSpace v <> "" -> parseCIDRs ve v = Some nets -> parseCIDRList v = Some nets).
  { intros v nets Hne Hs. rewrite parseCIDRList_splitCSV. unfold parseCIDRs in Hs. rewrite Hpc in Hs.
    by destruct (splitCSV v). }
  apply Validate_Ok in Hv as (mode & pub & Hv). assert (Hc : validate_cidrs ve cfg = Ok tt) by tauto. clear Hv.
  assert (Ht : TrimSpace (TrustedProxyCIDRs cfg) <> "" -> exists nets, parseCIDRs ve (TrustedProxyCIDRs cfg) = Some nets).
  { intros Hne. unfold validate_cidrs in Hc. rewrite (proj2 (String.eqb_neq _ _) Hne) in Hc.
    apply bind_Ok in Hc as (u & _ & Hc). unfold require in Hc. destruct (parseCIDRs ve (TrustedProxyCIDRs cfg)); [eauto|done]. }
  split; [|split].
  - intros Hi. destruct (validate_cidrs_Ok _ _ Hc Hi) as (Hne & nets & Hn & Hnn). cbn. by rewrite (Hsame _ nets).
  - intros Hne. destruct (Ht Hne) as [nets Hn]. cbn. by rewrite (Hsame _ nets).
  - unfold parseCIDRList. destruct (String.eqb_spec (TrimSpace (TrustedProxyCIDRs cfg)) "") as [|Hne]; [eauto|].
    destruct (Ht Hne) as [nets Hn]. pose proof (Hsame _ _ Hne Hn) as Hl. unfold parseCIDRList in Hl.
    rewrite (proj2 (String.eqb_neq _ _) Hne) in Hl. eauto.
Qed.

(** The first address counts, not the last. A proxy that appends its peer's address to the header it
    received, as reverse proxies do by default, passes on whatever the client wrote in front: behind
    a trusted proxy of this kind, a client is admitted under any allowed address it claims. *)
Theorem appending_proxy_spoofable cfg next r w s peer claimed real ip :
  peer_ip (r_remote r) peer -> trusted_proxy cfg peer ->
  has_char comma claimed = false -> writes_ip claimed ip ->
  hGet (r_header r) "X-Forwarded-For" = claimed +:+ ", " +:+ real ->
  in_networks (InternalAllowedCIDRs cfg) ip ->
  IPAllowlistMiddleware cfg next r w s = next r w s.
Proof.
  intros Hp Ht Hc Hip Hx Hin. apply (proj1 (internal_access_lemma cfg next r w s)).
  exists peer, ip. split; [done|]. split; [|done]. left. split; [done|]. rewrite Hx. exists claimed.
  split_and!; [done..|]. right. by exists (" " +:+ real).
Qed.

(** ** Theorems: the rescan endpoint *)

Lemma RunRescan_store sr dur now d :
  RunRescan (Ok (sr, dur)) now d =
  match store_scan sr now d with
  | (Ok r, d') => (Ok (MkRescanResponse (ScannedAssets r) (ActiveAssets r) (MissingAssets r) (Z.quot dur Millisecond)), d')
  | (Err e, d') => (Err (JRepo e), d')
  end.
Proof.
  unfold RunRescan, store_scan, mbind, db_bind.
  destruct (UpsertAssets _ now d) as [[u|e] d1]; [|done].
  destruct (MarkMissing _ now d1) as [[m|e] d2]; [|done].
  destruct (CountActive d2) as [[a|e] d3]; done.
Qed.

(** The rescan endpoint and the rescan job are the same operation. They are written twice; from
    the same scan, time and database they leave the same database, succeed together and report the
    same counts. The endpoint answers 200 with these counts exactly if the operation succeeded, 500
    if it failed, and 405, touching nothing, for any method but POST; it never touches the health
    state. *)
Theorem rescan_endpoint scan dur now r w s w' s' :
  rw_sent w = None ->
  RescanHandler (match scan with Ok sr => Ok (sr, dur) | Err e => Err e end) now r w s = (w', s') ->
  let job := RunRescanJob scan now (api_db s) in
  api_health s' = api_health s /\
  (r_method r <> "POST" -> s' = s /\ rw_status w' = Some 405) /\
  (r_method r = "POST" ->
   api_db s' = job.2 /\
   match job.1 with
   | Ok res => rw_status w' = Some 200 /\
       rw_body w' = rw_body w ++ [Bytes (json_ints
         [("scanned_assets", ScannedAssets res); ("active_assets", ActiveAssets res);
          ("missing_assets", MissingAssets res); ("duration_ms", Z.quot dur Millisecond)])]
   | Err _ => rw_status w' = Some 500 /\ rw_body w' = rw_body w ++ [Bytes (json_field "error" "rescan_failed")]
   end).
Proof.
  intros Hw. cbv zeta. unfold RescanHandler, RunRescanJob.
  destruct (String.eqb_spec (r_method r) "POST") as [Hm|Hm]; cbn [negb].
  2: { intros [= <- <-]. split; [done|]. split; [|done]. intros _. split; [done|]. by apply writeJSONError_fresh. }
  assert (Hok : forall b, rw_status (writeJSON b w) = Some 200 /\ rw_body (writeJSON b w) = rw_body w ++ [Bytes b]).
  { intros b. destruct w as [h [p|] bd c]; done. }
  destruct scan as [sr|e].
  - rewrite RunRescan_store. destruct (store_scan sr now (api_db s)) as [[res|e] d]; intros [= <- <-]; cbn [api_db api_health];
      (split; [done|]); (split; [done|]); intros _; (split; [done|]); [apply Hok|by apply writeJSONError_fresh].
  - cbn [RunRescan api_db api_health fst snd]. intros [= <- <-]. split; [done|]. split; [done|]. intros _. split; [done|].
    by apply writeJSONError_fresh.
Qed.

(** ** Theorems: the announce endpoint *)

Section AnnounceFacts.
Context {K : Type} (env : announce_env K).

Definition api_build (now : Z) (id : string) : result build_err AnnounceRequest :=
  BuildAnnouncement (ae_sign env) (ae_nonce env id) (ae_id env) (ae_cfg env) id now.

(** The status recorded for an asset. *)
Definition outcome (now : Z) (id : string) : string :=
  match api_build now id with
  | Err _ => "failed"
  | Ok req => match ae_announce env req with
              | None => "ok"
              | Some ErrNotFound => "rejected"
              | Some _ => "failed"
              end
  end.

(** The requests sent for a list of assets. *)
Definition requests (now : Z) (ids : list string) : list AnnounceRequest :=
  omap (fun id => match api_build now id with Ok req => Some req | Err _ => None end) ids.

Definition outcome_count (now : Z) (st : string) (ids : list string) : Z :=
  Z.of_nat (length (filter (fun id => outcome now id = st) ids)).

Lemma outcome_count_cons now st id ids :
  outcome_count now st (id :: ids) = (if String.eqb (outcome now id) st then 1 else 0) + outcome_count now st ids.
Proof.
  unfold outcome_count. rewrite filter_cons. destruct (String.eqb_spec (outcome now id) st) as [E|E].
  - rewrite decide_True by done. cbn [length]. lia.
  - rewrite decide_False by done. lia.
Qed.

Lemma outcome_count_nil now st : outcome_count now st [] = 0.
Proof. done. Qed.

(** One iteration: what is sent, counted and stored. *)
Lemma announceOne_spec now id s :
  let s' := announceOne env now id s in
  let o := outcome now id in
  ls_sent s' = ls_sent s ++ requests now [id] /\
  ls_summary s' = MkSummary (sm_Attempted (ls_summary s)) (sm_OK (ls_summary s) + outcome_count now "ok" [id])
    (sm_Rejected (ls_summary s) + outcome_count now "rejected" [id])
    (sm_Failed (ls_summary s) + outcome_count now "failed" [id]) /\
  exists la ex, api_db (ls_api s') = (UpsertAnnouncementStatus id la ex o now (api_db (ls_api s))).2.
Proof.
  cbv zeta. unfold outcome_count. rewrite !filter_cons, !filter_nil. unfold announceOne, requests, outcome. cbn [omap list_omap].
  fold (api_build now id). destruct (api_build now id) as [req|e].
  - destruct (ae_announce env req) as [[]|]; cbn; rewrite ?Z.add_0_r; eauto.
  - cbn. rewrite ?Z.add_0_r, app_nil_r. eauto.
Qed.

(** The status of a stored announcement. *)
Definition stored_status (d : db) (id : string) : option string := n_status <$> announcements d !! id.

Lemma Upsert_stores id la ex st now d :
  faults d = [] -> is_Some (assets d !! id) ->
  let d' := (UpsertAnnouncementStatus id la ex st now d).2 in
  stored_status d' id = Some st /\ faults d' = [].
Proof.
  intros Hf Hex. cbv zeta. destruct (Upsert_cases id la ex st now d) as (_ & Hf' & _ & Hok).
  split; [|by apply Hf']. specialize (Hok Hf Hex). apply UpsertAnnouncementStatus_inv in Hok as [_ Hok].
  unfold stored_status. by rewrite Hok, lookup_insert_eq.
Qed.

Lemma announceAll_spec now ids s :
  let s' := announceAll env now ids s in
  ls_sent s' = ls_sent s ++ requests now ids /\
  ls_summary s' = MkSummary (sm_Attempted (ls_summary s)) (sm_OK (ls_summary s) + outcome_count now "ok" ids)
    (sm_Rejected (ls_summary s) + outcome_count now "rejected" ids)
    (sm_Failed (ls_summary s) + outcome_count now "failed" ids) /\
  assets (api_db (ls_api s')) = assets (api_db (ls_api s)) /\
  (forall id, id ∉ ids -> announcements (api_db (ls_api s')) !! id = announcements (api_db (ls_api s)) !! id) /\
  (faults (api_db (ls_api s)) = [] -> Forall (fun id => is_Some (assets (api_db (ls_api s)) !! id)) ids -> NoDup ids ->
   forall id, id ∈ ids -> stored_status (api_db (ls_api s')) id = Some (outcome now id)).
Proof.
  revert s; induction ids as [|id ids IH]; intros s; cbn [announceAll foldl]; cbv zeta.
  { unfold outcome_count. rewrite !filter_nil. cbn. rewrite app_nil_r, !Z.add_0_r.
    split; [done|]. split; [by destruct (ls_summary s)|]. split; [done|]. split; [done|].
    intros _ _ _ id Hin. by apply not_elem_of_nil in Hin. }
  destruct (announceOne_spec now id s) as (Es & Ec & la & ex & Ed). fold (announceAll env now ids (announceOne env now id s)).
  destruct (IH (announceOne env now id s)) as (Es' & Ec' & Ea' & Hfr & Hst).
  destruct (Upsert_cases id la ex (outcome now id) now (api_db (ls_api s))) as (Ha1 & Hf1 & Hn1 & _).
  rewrite <- Ed in Ha1, Hf1, Hn1. rewrite Es', Ec', Es, Ec, Ea', Ha1. cbn [sm_Attempted sm_OK sm_Rejected sm_Failed].
  split; [by rewrite <- app_assoc; unfold requests; rewrite <- omap_app|]. split.
  { rewrite !(outcome_count_cons now _ id ids), !(outcome_count_cons now _ id []), !outcome_count_nil. f_equal; lia. }
  split; [done|]. split.
  { intros id' [Hne Hni]%not_elem_of_cons. rewrite Hfr by done. by apply Hn1. }
  intros Hf [Hex Hall]%Forall_cons [Hni Hnd]%NoDup_cons id' Hin.
  destruct (Upsert_stores id la ex (outcome now id) now (api_db (ls_api s)) Hf Hex) as [Hs1 Hff]. rewrite <- Ed in Hs1, Hff.
  apply elem_of_cons in Hin as [->|Hin].
  - unfold stored_status in *. by rewrite Hfr.
  - apply Hst; [done|by rewrite Ha1|done|done].
Qed.

(** The assets an announce request is about. *)
Definition target_ids (body : option decoded) (d : db) : list string :=
  let requested := TrimSpace match body with Some (DecOk id) => id | _ => "" end in
  if String.eqb requested "" then active_ids (assets d) else [requested].

Lemma outcomes_cover now ids :
  outcome_count now "ok" ids + outcome_count now "rejected" ids + outcome_count now "failed" ids = Z.of_nat (length ids).
Proof.
  induction ids as [|id ids IH]; [done|]. rewrite !outcome_count_cons. cbn [length].
  assert (Ho : outcome now id ∈ ["ok"; "rejected"; "failed"]).
  { unfold outcome. repeat case_match; set_solver. }
  rewrite !elem_of_cons, elem_of_nil in Ho. destruct Ho as [->|[->|[->|[]]]]; cbn [String.eqb Ascii.eqb Bool.eqb]; cbn; lia.
Qed.

(** A request that was refused: an error answer, and nothing else. *)
Definition refused (s : api_state) (w' : RW) (s' : api_state) (sent : list AnnounceRequest) : Prop :=
  exists st, rw_status w' = Some st /\ st ∈ [405; 400; 503; 500] /\ sent = [] /\
    same_tables (api_db s) (api_db s') /\ api_health s' = api_health s.

Lemma refused_intro st code w s d :
  rw_sent w = None -> st ∈ [405; 400; 503; 500] -> same_tables (api_db s) d ->
  refused s (writeJSONError st code w) (MkApi d (api_health s)) [].
Proof. intros Hw Hst Hd. exists st. destruct (writeJSONError_fresh st code w Hw) as [-> _]. done. Qed.

Lemma refused_same st code w s : rw_sent w = None -> st ∈ [405; 400; 503; 500] -> refused s (writeJSONError st code w) s [].
Proof. intros Hw Hst. destruct s as [d h]. by apply (refused_intro st code w (MkApi d h) d). Qed.

(** The ids the handler works on, and the database after it asked for them. *)
Lemma target_ids_spec body d ids d' :
  (if negb (String.eqb (TrimSpace match body with Some (DecOk id) => id | _ => "" end) "")
   then (Ok [TrimSpace match body with Some (DecOk id) => id | _ => "" end], d) else ListActiveAssetIDs d) = (ids, d') ->
  same_tables d d' /\ (faults d = [] -> d' = d) /\ (forall l, ids = Ok l -> l = target_ids body d) /\ NoDup (target_ids body d).
Proof.
  unfold target_ids. set (x := TrimSpace _). destruct (String.eqb x ""); cbn [negb].
  - intros E. destruct (ListActiveAssetIDs_inv _ _ _ E) as [Hs Hl]. split; [done|].
    split; [|split; [done|apply NoDup_active_ids]]. intros Hf. rewrite ListActiveAssetIDs_nofault in E by done. congruence.
  - intros [= <- <-]. split; [done|]. split; [done|]. split; [by intros l [= <-]|apply NoDup_singleton].
Qed.

(** C16: an announce request tries every asset once, and reports and records what happened. Either it
    is refused (405, 400, 503 or 500), and then nothing was sent and no table changed; or it is
    answered with 200 and the summary. Then it was about the one asset the body names, or all
    active assets; one announcement was sent for each of them for which one can be built, in this
    order; the summary counts each asset exactly once; the asset table and the announcements of
    other assets are untouched; and if the database works and knows the assets, the announcement
    row of each of them has the status that was counted. *)
Theorem announce_endpoint client body now r w s w' s' sent :
  rw_sent w = None -> announceHandler env client body now r w s = (w', s', sent) ->
  refused s w' s' sent \/
  (let ids := target_ids body (api_db s) in
   let count st := outcome_count now st ids in
   let n := Z.of_nat (length ids) in
   rw_status w' = Some 200 /\
   rw_body w' = rw_body w ++ [Bytes (summary_json (MkSummary n (count "ok") (count "rejected") (count "failed")))] /\
   count "ok" + count "rejected" + count "failed" = n /\
   sent = requests now ids /\
   assets (api_db s') = assets (api_db s) /\
   (forall id, id ∉ ids -> announcements (api_db s') !! id = announcements (api_db s) !! id) /\
   (faults (api_db s) = [] -> Forall (fun id => is_Some (assets (api_db s) !! id)) ids ->
    forall id, id ∈ ids -> stored_status (api_db s') id = Some (outcome now id))).
Proof.
  intros Hw. unfold announceHandler. cbv zeta.
  destruct (negb (String.eqb (r_method r) "POST")); [intros [= <- <- <-]; left; apply refused_same; [done|set_solver]|].
  destruct (String.eqb _ ""); [intros [= <- <- <-]; left; apply refused_same; [done|set_solver]|].
  destruct (negb client); [intros [= <- <- <-]; left; apply refused_same; [done|set_solver]|].
  destruct (if negb _ then _ else _) as [ids d] eqn:Hi. apply target_ids_spec in Hi as (Hs & Hf & Hids & Hnd).
  intros Hr.
  assert (Hcase : refused s w' s' sent \/
    match ids with
    | Err _ => (writeJSONError 500 "db_active_assets_failed" w, MkApi d (api_health s), [])
    | Ok assetIDs =>
        let l := announceAll env now assetIDs (LoopState (MkApi d (api_health s)) (MkSummary (Z.of_nat (length assetIDs)) 0 0 0) []) in
        (writeJSON (summary_json (ls_summary l)) w, ls_api l, ls_sent l)
    end = (w', s', sent)).
  { destruct body as [[]|]; [right; exact Hr..| |right; exact Hr].
    left. injection Hr as <- <- <-. apply refused_same; [done|set_solver]. }
  clear Hr. destruct Hcase as [Hrf|Hr]; [by left|]. destruct ids as [l|e].
  2: { left. injection Hr as <- <- <-. apply refused_intro; [done|set_solver|done]. }
  right. rewrite (Hids l eq_refl) in Hr. set (ids := target_ids body (api_db s)) in *. injection Hr as <- <- <-.
  destruct (announceAll_spec now ids (LoopState (MkApi d (api_health s)) (MkSummary (Z.of_nat (length ids)) 0 0 0) []))
    as (-> & -> & -> & Hfr & Hst). cbn [ls_summary ls_api api_db ls_sent sm_Attempted sm_OK sm_Rejected sm_Failed] in *.
  rewrite !Z.add_0_l. destruct Hs as [Ha Hn].
  assert (Hok : forall b, rw_status (writeJSON b w) = Some 200 /\ rw_body (writeJSON b w) = rw_body w ++ [Bytes b]).
  { intros b. destruct w as [h [p|] bd c]; done. }
  split_and!; try apply Hok; try done.
  - apply outcomes_cover.
  - intros id Hni. rewrite Hfr by done. by rewrite Hn.
  - intros Hff Hall. apply Hst; [|by rewrite Ha|done]. by rewrite (Hf Hff).
Qed.
End AnnounceFacts.

(** ** Witnesses *)

Module InternalApiDemo.
#[local] Instance demo_lower : UnicodeLower := fun s => s.
Definition cfg : Config :=
  Load {[ "PROVIDER_INTERNAL_ENABLE" := "true"; "PROVIDER_ENV" := "prod"; "PROVIDER_INTERNAL_ALLOWED_CIDRS" := " 10.1.0.0/16 , ::1/128,";
          "PROVIDER_TRUST_PROXY_HEADERS" := "true"; "PROVIDER_TRUSTED_PROXY_CIDRS" := "192.0.2.7/32";
          "PROVIDER_PUBLIC_BASE_URL" := "https://p.example" ]}.
Definition post (remote xff : string) : Request :=
  MkRequest "POST" "/internal/rescan" "" {[ "X-Forwarded-For" := [xff] ]} remote false false.
Definition next : ApiHandler := fun _ w s => (writeJSON "ok" w, s).
Definition s0 : api_state := MkApi RepositoryDemo.d1 (NewHealthState true).
Definition status_of (remote xff : string) : option Z :=
  rw_status (IPAllowlistMiddleware cfg next (post remote xff) new_rw s0).1.

Example access_peer : status_of "10.1.2.3:999" "" = Some 200. Proof. vm_compute. reflexivity. Qed.
Example access_spoof : status_of "203.0.113.9:999" "10.1.2.3" = Some 403. Proof. vm_compute. reflexivity. Qed.
Example access_proxy : status_of "192.0.2.7:1" "10.1.2.3, 192.0.2.7" = Some 200. Proof. vm_compute. reflexivity. Qed.
Example access_v6 : status_of "[::1]:1" "" = Some 200. Proof. vm_compute. reflexivity. Qed.

Lemma internal_access_exact_witness :
  IPAllowlistMiddleware cfg next (post "192.0.2.7:1" " 10.1.2.3, x") new_rw s0 = (writeJSON "ok" new_rw, s0).
Proof.
  apply (proj1 (internal_access_exact cfg next (post "192.0.2.7:1" " 10.1.2.3, x") new_rw s0)).
  exists (v4InV6Prefix ++ [192; 0; 2; 7]), (v4InV6Prefix ++ [10; 1; 2; 3]).
  split; [left; exists "192.0.2.7", "1"; split; vm_compute; reflexivity|]. split.
  - left. split; [split; [vm_compute; reflexivity|]|].
    + split; [apply (bool_decide_unpack _); vm_compute; done|].
      eexists "192.0.2.7/32", _. split; [left|split; vm_compute; reflexivity].
    + exists " 10.1.2.3". split_and!; [vm_compute; reflexivity..|]. right. exists " x". reflexivity.
  - split; [apply (bool_decide_unpack _); vm_compute; done|].
    eexists "10.1.0.0/16", _. split; [left|split; vm_compute; reflexivity].
Defined.

Lemma allowlist_semantics_witness :
  ipInCIDRs (v4InV6Prefix ++ [10; 1; 7; 9]) (default [] (parseCIDRList " 10.1.0.0/16 , ::1/128,")) = true /\
  exists addr mask bits a n, addr +:+ String slash mask ∈ splitCSV " 10.1.0.0/16 , ::1/128," /\
    ParseAddr addr = Some (bits, a) /\ parse_len mask = Some n /\ n <= bits /\ has_char slash addr = false /\
    same_prefix (n + (128 - bits)) a (v4InV6Prefix ++ [10; 1; 7; 9]) /\
    (mapped (v4InV6Prefix ++ [10; 1; 7; 9]) -> 96 <= n + (128 - bits)).
Proof.
  split; [vm_compute; reflexivity|].
  apply (allowlist_semantics " 10.1.0.0/16 , ::1/128," (default [] (parseCIDRList " 10.1.0.0/16 , ::1/128,")) "10.1.7.9"
    (v4InV6Prefix ++ [10; 1; 7; 9])); vm_compute; reflexivity.
Defined.

Definition ve : validate_env IPNet :=
  ValidateEnv _ (fun _ => Ok tt) (fun _ => Err "none") (fun s => Some (MkURL "https" s "/")) ParseCIDR.

Lemma validated_allowlist_witness :
  Validate ve cfg = Ok tt /\ allowedCIDRs (newAllowlist cfg) <> [] /\ is_Some (parseCIDRList (TrustedProxyCIDRs cfg)).
Proof.
  assert (Hv : Validate ve cfg = Ok tt) by (vm_compute; reflexivity).
  destruct (validated_allowlist ve cfg eq_refl Hv) as (Ha & _ & Ht).
  split; [exact Hv|]. split; [|exact Ht]. apply Ha. vm_compute; reflexivity.
Defined.

Lemma rescan_endpoint_witness :
  let res := RescanHandler (Ok (JobsDemo.sr, 7 * Millisecond)) RepositoryDemo.now (post "" "") new_rw s0 in
  rw_body res.1 = [Bytes (json_ints [("scanned_assets", 2); ("active_assets", 2); ("missing_assets", 1); ("duration_ms", 7)])] /\
  api_db res.2 = (RunRescanJob (Ok JobsDemo.sr) RepositoryDemo.now (api_db s0)).2.
Proof.
  intros res. split; [vm_compute; reflexivity|].
  destruct (rescan_endpoint (Ok JobsDemo.sr) (7 * Millisecond) RepositoryDemo.now (post "" "") new_rw s0 res.1 res.2
    eq_refl (surjective_pairing res)) as (_ & _ & Hpost).
  destruct (Hpost eq_refl) as [Hdb _]. exact Hdb.
Defined.

(** The catalog accepts ["a"] and refuses everything else. *)
Definition env : announce_env Z :=
  AnnounceEnv _ CatalogDemo.sign CatalogDemo.id CatalogDemo.cfg (fun _ => Ok [0; 255]) (se_announce JobsDemo.env) true.
Definition announced (body : option decoded) := announceHandler env true body RepositoryDemo.now (post "" "") new_rw s0.

Example announce_named : ar_AssetID <$> (announced (Some (DecOk " b "))).2 = ["b"].
Proof. vm_compute. reflexivity. Qed.
Example announce_bad_json : rw_status (announced (Some (DecErr "eof"))).1.1 = Some 400.
Proof. vm_compute. reflexivity. Qed.

Lemma announce_endpoint_witness :
  ar_AssetID <$> (announced (Some DecEOF)).2 = ["a"; "b"] /\
  rw_body (announced (Some DecEOF)).1.1 = [Bytes (summary_json (MkSummary 2 1 1 0))] /\
  assets (api_db (announced (Some DecEOF)).1.2) = assets (api_db s0).
Proof.
  split; [vm_compute; reflexivity|]. split; [vm_compute; reflexivity|].
  destruct (announce_endpoint env true (Some DecEOF) RepositoryDemo.now (post "" "") new_rw s0
    (announced (Some DecEOF)).1.1 (announced (Some DecEOF)).1.2 (announced (Some DecEOF)).2)
    as [(st & Hst & Hin & _)|(_ & _ & _ & _ & Ha & _)]; [reflexivity| | |exact Ha].
  - unfold announced. by destruct (announceHandler _ _ _ _ _ _ _) as [[? ?] ?].
  - exfalso. assert (Hok : rw_status (announced (Some DecEOF)).1.1 = Some 200) by (vm_compute; reflexivity).
    rewrite Hok in Hst. injection Hst as <-. rewrite !elem_of_cons, elem_of_nil in Hin. lia.
Defined.
End InternalApiDemo.
