(* ===== verification/Health.v ===== *)
(** * Health and readiness: [internal/health], and the checks of [main]

    [Handler] reports what the provider knows of itself, [ReadyHandler] whether it can serve. The
    readiness check is the closure of [main]: the database answers, the assets root is a directory
    without symbolic links where that is enforced, and the secret for the origin is loaded where it is
    needed. *)

From S2P Require Import Prelude GoStrings GoHttp GoTime Config Sha256 GoJson Catalog Repository FsSecure AssetPath AssetHandler OriginAuth Scanner Jobs.

Open Scope Z_scope.

(** ** [handler.go] *)

(** [time.Time] as JSON: [RFC3339Nano], without the zeros at the end of the fraction. *)
Definition FormatRFC3339Nano (t : Z) : string :=
  let s := Unix t in
  let frac := t mod Second in
  date_string (s / day_secs) +:+ "T" +:+ clock_string (s mod day_secs) +:+
  (if frac =? 0 then "" else "." +:+ TrimRightFunc (Ascii.eqb "0") (dig 9 frac)) +:+ "Z".

Record Response := MkResponse {
  hr_Status : string;
  hr_Service : string;
  hr_Version : string;
  hr_Time : Z;
  hr_Region : string;
  hr_PublicBaseURL : string;
  hr_ProviderID : string;
  hr_PublicKey : string;
  hr_ActiveAssetsCount : option Z;
  hr_Warning : string;
  hr_CatalogEnabled : bool;
  hr_CatalogLastError : string;
  hr_MetricsEnabled : bool;
  hr_JobsEnabled : bool;
  hr_LastRescanAt : option Z;
  hr_LastAnnounceSweepAt : option Z;
  hr_DeferredAnnouncesCount : Z;
}.

(** [omitempty] for a string and for a pointer. *)
Definition if_nonempty (k s : string) : list (string * scalar_value) := if String.eqb s "" then [] else [(k, SString s)].
Definition if_set (k : string) (o : option Z) : list (string * scalar_value) :=
  match o with Some z => [(k, SInt z)] | None => [] end.

Definition response_fields (r : Response) : list (string * scalar_value) :=
  [("status", SString (hr_Status r)); ("service", SString (hr_Service r)); ("version", SString (hr_Version r));
   ("time", SString (FormatRFC3339Nano (hr_Time r)))] ++
  if_nonempty "region" (hr_Region r) ++ if_nonempty "public_base_url" (hr_PublicBaseURL r) ++
  [("provider_id", SString (hr_ProviderID r)); ("public_key", SString (hr_PublicKey r))] ++
  if_set "active_assets_count" (hr_ActiveAssetsCount r) ++ if_nonempty "warning" (hr_Warning r) ++
  [("catalog_enabled", SBool (hr_CatalogEnabled r))] ++ if_nonempty "catalog_last_error" (hr_CatalogLastError r) ++
  [("metrics_enabled", SBool (hr_MetricsEnabled r)); ("jobs_enabled", SBool (hr_JobsEnabled r))] ++
  if_set "last_rescan_at" (hr_LastRescanAt r) ++ if_set "last_announce_sweep_at" (hr_LastAnnounceSweepAt r) ++
  [("deferred_announces_count", SInt (hr_DeferredAnnouncesCount r))].

(** What the server passes to [Handler]; the three functions may be nil, [counter] may fail. *)
Record health_deps := HealthDeps {
  hd_service : string;
  hd_version : string;
  hd_region : string;
  hd_publicBaseURL : string;
  hd_providerID : string;
  hd_publicKey : string;
  hd_counter : option (result string Z);
  hd_catalogStatus : option (bool * string);
  hd_jobsStatus : option JobStatus;
}.

Definition unix_if_set (t : Z) : option Z := if IsZero t then None else Some (Unix t).

Definition health_response (d : health_deps) (now : Z) : Response :=
  MkResponse "ok" (hd_service d) (hd_version d) now (hd_region d) (hd_publicBaseURL d) (hd_providerID d)
    (hd_publicKey d)
    (match hd_counter d with Some (Ok n) => Some n | _ => None end)
    (match hd_counter d with Some (Err _) => "active_assets_count_unavailable" | _ => "" end)
    (match hd_catalogStatus d with Some (enabled, _) => enabled | None => false end)
    (match hd_catalogStatus d with Some (_, lastError) => lastError | None => "" end)
    true
    (match hd_jobsStatus d with Some s => jobsEnabled s | None => false end)
    (match hd_jobsStatus d with Some s => unix_if_set (lastRescanAt s) | None => None end)
    (match hd_jobsStatus d with Some s => unix_if_set (lastAnnounceSweepAt s) | None => None end)
    (match hd_jobsStatus d with Some s => deferredAnnouncesCount s | None => 0 end).

(** Encoding a time outside the years 0 to 9999 fails before anything is written. *)
Definition time_encodable (t : Z) : bool := (-62167219200 <=? Unix t) && (Unix t <? 253402300800).

Definition healthHandler (d : health_deps) (now : Z) (w : RW) : RW :=
  let resp := health_response d now in
  let w' := WriteHeader 200 (with_header (hSet "Content-Type" "application/json") w) in
  if time_encodable now then Write (Bytes (Encode (response_fields resp))) w' else w'.

(** ** [readyz.go] *)

Record ReadinessResponse := MkReadiness { rd_Status : string; rd_Reason : string }.

Definition readiness_fields (r : ReadinessResponse) : list (string * scalar_value) :=
  [("status", SString (rd_Status r))] ++ if_nonempty "reason" (rd_Reason r).

(** [checker] is nil, or what it returns for this request. *)
Definition readyHandler (checker : option (result string unit)) (w : RW) : RW :=
  let '(resp, statusCode) :=
    match checker with
    | Some (Err reason) => (MkReadiness "not_ready" reason, 503)
    | _ => (MkReadiness "ready" "", 200)
    end in
  Write (Bytes (Encode (readiness_fields resp)))
    (WriteHeader statusCode (with_header (hSet "Content-Type" "application/json") w)).

(** ** The closures of [main] *)

Section Checks.
Context `{UnicodeLower}.

(** The names [main] passes to the audit. *)
Definition allowlistedAssetName (name : string) : bool :=
  let lower := ToLower name in
  let ext := ToLower (Ext lower) in
  if String.eqb ext ".m3u8" || String.eqb ext ".ts" || String.eqb ext ".m4s" then true
  else if String.eqb ext ".mp4"
       then String.eqb lower "init.mp4" ||
            (HasPrefix lower "init-" && HasSuffix lower ".mp4" && (slen "init-.mp4" <? slen lower)%nat)
  else false.

(** [ping] is the outcome of [PingContext]; the file system may change between the two looks at it. *)
Definition readinessChecker (cfg : Config) (assetsRoot originAuthMode : string) (originAuthReady : bool)
    (ping : result string unit) (s_stat s_audit : fs) : result string unit :=
  match ping with Err _ => Err "db_unavailable" | Ok _ => Ok tt end;;
  info ← match resolve_path s_stat true assetsRoot with
         | Err _ => Err "assets_root_unavailable"
         | Ok n => Ok (info_of n)
         end;
  guard_err (negb (IsDir info)) "assets_root_not_directory";;
  (if EnforceNoSymlinks cfg then
     found ← match AuditNoSymlinks s_audit assetsRoot with
             | Err _ => Err "symlink_audit_failed"
             | Ok b => Ok b
             end;
     guard_err found "symlink_detected"
   else Ok tt);;
  guard_err (String.eqb originAuthMode "hmac" && negb originAuthReady) "origin_auth_not_ready".

(** The three closures for the health report. *)
Definition activeAssetsCounter (d : db) : result repo_err Z * db := CountActive d.
Definition catalogStatus (s : HealthState) : bool * string := Catalog.Snapshot s.
Definition jobsStatus (s : JobStatus) : JobStatus :=
  MkStatus (jobsEnabled s) (lastRescanAt s) (lastAnnounceSweepAt s) (deferredAnnouncesCount s).
End Checks.

(** ** Lemmas *)

Lemma Nano_ascii t : four_digit_year t -> is_ascii (FormatRFC3339Nano t) = true.
Proof.
  intros Ht. pose proof (FormatRFC3339_ascii t Ht) as Hf. unfold FormatRFC3339, FormatRFC3339Nano, is_ascii in *. cbv zeta in *.
  rewrite !sall_app in *. apply andb_true_iff in Hf as [-> Hf]. apply andb_true_iff in Hf as [-> Hf].
  apply andb_true_iff in Hf as [-> ->]. destruct (_ =? 0); [done|]. rewrite sall_app. cbn [andb].
  rewrite andb_true_r. cbn [sall]. apply andb_true_iff. split; [done|].
  assert (Htrim : forall p q s, sall p s = true -> sall p (TrimRightFunc q s) = true).
  { intros p q s. induction s as [|c s IH]; [done|]. cbn. intros [Hc Hs]%andb_true_iff.
    specialize (IH Hs). destruct (TrimRightFunc q s); [destruct (q c)|]; cbn in *; rewrite ?Hc; done. }
  apply Htrim. eapply sall_impl, dig_digits. intros c. unfold is_digit.
  rewrite andb_true_iff, !Z.leb_le. intros. apply Z.ltb_lt. lia.
Qed.

Lemma plain_if_nonempty k s : sall plain_byte k = true -> is_ascii s = true -> Forall plain_scalar (if_nonempty k s).
Proof. intros. unfold if_nonempty. destruct (String.eqb s ""); [constructor|]. by repeat constructor. Qed.

Lemma plain_if_set k o : sall plain_byte k = true -> Forall plain_scalar (if_set k o).
Proof. intros. unfold if_set. destruct o; [|constructor]. by repeat constructor. Qed.

Definition ascii_response (r : Response) : Prop :=
  is_ascii (hr_Status r) = true /\ is_ascii (hr_Service r) = true /\ is_ascii (hr_Version r) = true /\
  is_ascii (hr_Region r) = true /\ is_ascii (hr_PublicBaseURL r) = true /\ is_ascii (hr_ProviderID r) = true /\
  is_ascii (hr_PublicKey r) = true /\ is_ascii (hr_Warning r) = true /\ is_ascii (hr_CatalogLastError r) = true.

Lemma response_plain r : ascii_response r -> four_digit_year (hr_Time r) -> Forall plain_scalar (response_fields r).
Proof.
  intros (H1 & H2 & H3 & H4 & H5 & H6 & H7 & H8 & H9) Ht. unfold response_fields. rewrite !Forall_app.
  split_and!; try (by apply plain_if_nonempty); try (by apply plain_if_set);
    repeat (constructor; [split; [reflexivity|try done; by apply Nano_ascii]|]); constructor.
Qed.

Lemma keys_if_nonempty k s : sublist (fst <$> if_nonempty k s) [k].
Proof. unfold if_nonempty. destruct (String.eqb s ""); [apply sublist_nil_l|done]. Qed.
Lemma keys_if_set k o : sublist (fst <$> if_set k o) [k].
Proof. destruct o; [done|apply sublist_nil_l]. Qed.

Definition response_keys : list string :=
  ["status"; "service"; "version"; "time"] ++ ["region"] ++ ["public_base_url"] ++ ["provider_id"; "public_key"] ++
  ["active_assets_count"] ++ ["warning"] ++ ["catalog_enabled"] ++ ["catalog_last_error"] ++
  ["metrics_enabled"; "jobs_enabled"] ++ ["last_rescan_at"] ++ ["last_announce_sweep_at"] ++ ["deferred_announces_count"].

Lemma response_keys_distinct r : NoDup (fst <$> response_fields r).
Proof.
  eapply sublist_NoDup; [|instantiate (1 := response_keys)].
  - apply (bool_decide_unpack _). vm_compute. done.
  - unfold response_fields, response_keys. rewrite !fmap_app.
    repeat apply sublist_app; first [apply keys_if_nonempty|apply keys_if_set|done].
Qed.

(** The value of a member. *)
Definition member {A} (k : string) (l : list (string * A)) : option A :=
  snd ∘ snd <$> list_find (fun p => p.1 = k) l.

Lemma member_cons {A} k k' (v : A) l : member k ((k', v) :: l) = if String.eqb k' k then Some v else member k l.
Proof.
  unfold member. cbn. destruct (String.eqb_spec k' k) as [->|Hne].
  - by rewrite decide_True.
  - rewrite decide_False by done. by destruct (list_find _ l) as [[? []]|].
Qed.

Lemma member_app {A} k (l1 l2 : list (string * A)) :
  member k (l1 ++ l2) = match member k l1 with Some v => Some v | None => member k l2 end.
Proof.
  induction l1 as [|[k' v] l1 IH]; [done|]. cbn [app]. rewrite !member_cons, IH. by destruct (String.eqb k' k).
Qed.

Lemma member_if_nonempty k k' s : member k (if_nonempty k' s) = if String.eqb k' k && negb (String.eqb s "") then Some (SString s) else None.
Proof. unfold if_nonempty. destruct (String.eqb s ""); cbn [negb]; [by rewrite andb_false_r|]. by rewrite member_cons, andb_true_r. Qed.

Lemma member_if_set k k' o : member k (if_set k' o) = if String.eqb k' k then SInt <$> o else None.
Proof. destruct o; cbn [if_set]; [by rewrite member_cons|]. by destruct (String.eqb k' k). Qed.

Lemma member_fields k fs : member k (scalar_field <$> fs) = scalar_json <$> member k fs.
Proof.
  induction fs as [|[k' v] fs IH]; [done|]. change (scalar_field <$> (k', v) :: fs) with ((k', scalar_json v) :: (scalar_field <$> fs)).
  rewrite !member_cons, IH. by destruct (String.eqb k' k).
Qed.

Lemma response_members r :
  member "status" (response_fields r) = Some (SString (hr_Status r)) /\
  member "provider_id" (response_fields r) = Some (SString (hr_ProviderID r)) /\
  member "active_assets_count" (response_fields r) = SInt <$> hr_ActiveAssetsCount r /\
  member "warning" (response_fields r) = (if String.eqb (hr_Warning r) "" then None else Some (SString (hr_Warning r))) /\
  member "catalog_last_error" (response_fields r) =
    (if String.eqb (hr_CatalogLastError r) "" then None else Some (SString (hr_CatalogLastError r))) /\
  member "last_rescan_at" (response_fields r) = SInt <$> hr_LastRescanAt r /\
  member "last_announce_sweep_at" (response_fields r) = SInt <$> hr_LastAnnounceSweepAt r /\
  member "deferred_announces_count" (response_fields r) = Some (SInt (hr_DeferredAnnouncesCount r)).
Proof.
  unfold response_fields. split_and!; repeat (rewrite ?member_app, ?member_cons, ?member_if_nonempty, ?member_if_set; cbn [String.eqb Ascii.eqb Bool.eqb andb fst]);
    try done; repeat (case_match; try done).
Qed.

(** ** Theorems *)

Lemma time_encodable_spec t : time_encodable t = true <-> four_digit_year t.
Proof. unfold time_encodable, four_digit_year. rewrite andb_true_iff, Z.leb_le, Z.ltb_lt. done. Qed.

(** C28: a health request is answered 200. With the clock outside the years 0 to 9999 the encoder fails
    and the body is empty. Otherwise, if the texts that are reported (service, version, region, public
    URL, provider id, key and the last catalog error) are ASCII, the body is one JSON document that
    decodes to an object: no member occurs twice; it has the number of active assets exactly when
    counting worked, and a warning exactly when it failed; the last catalog error is there exactly when
    there is one; and the times of the last rescan and the last sweep are there exactly when there was
    one. *)
Theorem health_document d now :
  let w := healthHandler d now new_rw in
  rw_status w = Some 200 /\
  (~ four_digit_year now -> rw_body w = []) /\
  (four_digit_year now -> ascii_response (health_response d now) ->
   exists body ms, rw_body w = [Bytes body] /\ Unmarshal body = Some (JObj ms) /\ NoDup ms.*1 /\
    member "status" ms = Some (JStr "ok") /\
    member "provider_id" ms = Some (JStr (hd_providerID d)) /\
    member "active_assets_count" ms = (match hd_counter d with Some (Ok n) => Some (JNum (Itoa n)) | _ => None end) /\
    member "warning" ms =
      (match hd_counter d with Some (Err _) => Some (JStr "active_assets_count_unavailable") | _ => None end) /\
    member "catalog_last_error" ms =
      (match hd_catalogStatus d with Some (_, m) => if String.eqb m "" then None else Some (JStr m) | None => None end) /\
    (forall s, hd_jobsStatus d = Some s ->
       member "last_rescan_at" ms = (if IsZero (lastRescanAt s) then None else Some (JNum (Itoa (Unix (lastRescanAt s))))) /\
       member "last_announce_sweep_at" ms =
         (if IsZero (lastAnnounceSweepAt s) then None else Some (JNum (Itoa (Unix (lastAnnounceSweepAt s))))) /\
       member "deferred_announces_count" ms = Some (JNum (Itoa (deferredAnnouncesCount s))))).
Proof.
  cbv zeta. unfold healthHandler. rewrite <- time_encodable_spec. destruct (time_encodable now) eqn:He; [|done].
  split; [done|]. split; [done|]. intros _ Ha. apply time_encodable_spec in He as Ht.
  set (fs := response_fields (health_response d now)). exists (Encode fs), (scalar_field <$> fs). split; [done|].
  assert (Hkeys : (scalar_field <$> fs).*1 = fs.*1) by (rewrite <- list_fmap_compose; done).
  split; [apply Unmarshal_Encode; [done|by apply response_plain]|]. rewrite Hkeys, !member_fields.
  split; [apply response_keys_distinct|]. unfold fs.
  destruct (response_members (health_response d now)) as (-> & -> & -> & -> & -> & -> & -> & ->).
  split_and!; cbn; try done.
  - by destruct (hd_counter d) as [[]|].
  - by destruct (hd_counter d) as [[]|].
  - destruct (hd_catalogStatus d) as [[b m]|]; cbn; [|done]. by destruct (String.eqb m "").
  - intros s ->. unfold unix_if_set. split_and!; [by destruct (IsZero _)..|done].
Qed.

Lemma AuditNoSymlinks_clean s root : AuditNoSymlinks s root = Ok false <->
  exists n, resolve_path s false root = Ok n /\ forall m, occurs m n -> audit_ok m = true.
Proof.
  unfold AuditNoSymlinks. destruct (resolve_path s false root) as [n|e]; [|naive_solver].
  pose proof (walkDir_None n) as HN. destruct (walkDir n) as [[|e]|].
  - split; [done|]. intros (n' & [= <-] & Hall). by apply HN in Hall.
  - split; [done|]. intros (n' & [= <-] & Hall). by apply HN in Hall.
  - split; [|done]. intros _. exists n. split; [done|]. by apply HN.
Qed.

Lemma ready_status c w : rw_sent w = None ->
  rw_status (readyHandler c w) = Some (if match c with Some (Err _) => true | _ => false end then 503 else 200).
Proof. destruct w as [h sn b cs]. cbn. intros ->. by destruct c as [[[]|]|]. Qed.

Section Readiness.
Context `{UnicodeLower}.

Lemma readinessChecker_Ok cfg root mode ready ping s1 s2 :
  readinessChecker cfg root mode ready ping s1 s2 = Ok tt <->
  ping = Ok tt /\ (exists n, resolve_path s1 true root = Ok n /\ IsDir (info_of n) = true) /\
  (EnforceNoSymlinks cfg = true -> AuditNoSymlinks s2 root = Ok false) /\
  (mode = "hmac" -> ready = true).
Proof.
  unfold readinessChecker. split.
  - intros Hc. inv_ok. destruct ping as [[]|]; [|done].
    destruct (resolve_path s1 true root) as [n|] eqn:Er; [|done].
    match goal with Hi : Ok _ = Ok _ |- _ => injection Hi as Hi end. subst.
    breflect. split; [done|]. split; [by exists n|]. split.
    + intros He. rewrite He in *. inv_ok. by destruct (AuditNoSymlinks s2 root) as [[]|]; inv_ok.
    + intros ->. by destruct ready.
  - intros (-> & (n & -> & Hd) & Ha & Hm). cbn. rewrite Hd. cbn.
    assert ((if EnforceNoSymlinks cfg then
       found ← match AuditNoSymlinks s2 root with Err _ => Err "symlink_audit_failed" | Ok b => Ok b end;
       guard_err found "symlink_detected" else Ok tt) = Ok tt) as ->.
    { destruct (EnforceNoSymlinks cfg); [|done]. by rewrite Ha. }
    cbn. destruct (String.eqb_spec mode "hmac") as [Hh|]; [|done]. by rewrite Hm.
Qed.

(** With the readiness check of [main], a probe is answered 200 or 503, and 200 exactly when the
    database answers, the assets root is a directory, where symbolic links are forbidden there is none
    below it (and all of it can be read), and, when requests to the origin must be signed, the signer
    exists: a provider that reports ready does not have the nil signer with which proxying panics. *)
Theorem readiness_exact cfg root mode rand file kid pid iq ping s1 s2 :
  let '(signer, ready) := loadOriginSigner rand mode file kid pid iq in
  let answer := readyHandler (Some (readinessChecker cfg root mode ready ping s1 s2)) new_rw in
  (rw_status answer = Some 200 \/ rw_status answer = Some 503) /\
  (rw_status answer = Some 200 <->
     ping = Ok tt /\ (exists n, resolve_path s1 true root = Ok n /\ IsDir (info_of n) = true) /\
     (EnforceNoSymlinks cfg = true ->
        exists n, resolve_path s2 false root = Ok n /\ forall m, occurs m n -> audit_ok m = true) /\
     (mode = "hmac" -> exists s, signer = Some s)).
Proof.
  destruct (loadOriginSigner rand mode file kid pid iq) as [sg ready] eqn:El. cbv zeta.
  rewrite ready_status by done. rewrite <- AuditNoSymlinks_clean.
  assert (Hs : mode = "hmac" -> ready = true <-> exists s, sg = Some s).
  { intros ->. unfold loadOriginSigner in El. cbn in El. repeat case_match; simplify_eq; naive_solver. }
  pose proof (readinessChecker_Ok cfg root mode ready ping s1 s2) as Hc.
  destruct (readinessChecker _ _ _ _ _ _ _) as [[]|e]; (split; [auto|]); split; try done.
  - intros _. destruct (proj1 Hc eq_refl) as (H1 & H2 & H3 & H4). split_and!; [done..|]. intros Hm. apply Hs; auto.
  - intros (H1 & H2 & H3 & H4). exfalso. discriminate (proj2 Hc). split_and!; [done..|]. intros Hm. apply Hs; auto.
Qed.

Lemma lower_lower c : lower_char (lower_char c) = lower_char c.
Proof.
  unfold lower_char. destruct ((65 <=? byte_of c) && (byte_of c <=? 90)) eqn:E; [|by rewrite E].
  breflect. rewrite byte_of_char_of by lia. by rewrite (proj2 (Z.leb_gt _ 90)), andb_false_r by lia.
Qed.

Lemma lower_dot c : Ascii.eqb (lower_char c) dot = Ascii.eqb c dot.
Proof. by destruct c as [[] [] [] [] [] [] [] []]. Qed.

Lemma smap_lower_lower s : smap lower_char (smap lower_char s) = smap lower_char s.
Proof. induction s as [|c s IH]; [done|]. cbn. by rewrite lower_lower, IH. Qed.

Lemma last_dot_lower s : last_dot (smap lower_char s) = smap lower_char <$> last_dot s.
Proof.
  induction s as [|c s IH]; [done|]. cbn. rewrite IH. destruct (last_dot s); [done|]. cbn.
  rewrite lower_dot. by destruct (Ascii.eqb c dot).
Qed.

Lemma ascii_suffix s t : is_ascii (s +:+ t) = true -> is_ascii t = true.
Proof. unfold is_ascii. rewrite sall_app. by intros [_ ?]%andb_true_iff. Qed.

(** The names that [main] hands to the audit are the names the scanner counts. *)
Lemma allowlistedAssetName_scanner name : is_ascii name = true -> has_char slash name = false ->
  allowlistedAssetName name = isAllowedFile name (ToLower (Ext name)).
Proof.
  intros Ha Hs. assert (Hlow : is_ascii (smap lower_char name) = true /\ has_char slash (smap lower_char name) = false).
  { clear -Ha Hs. unfold is_ascii, has_char in *. apply negb_false_iff in Hs. induction name as [|c s IH]; [done|].
    cbn in *. breflect. destruct IH as [-> IH]; [done|done|]. rewrite andb_true_r. apply negb_false_iff in IH. rewrite IH, andb_true_r.
    split; [apply Z.ltb_lt; unfold lower_char; case_match; breflect; [rewrite byte_of_char_of by lia; lia|lia]|].
    apply negb_false_iff, negb_true_iff. by destruct c as [[] [] [] [] [] [] [] []]. }
  destruct Hlow as [Hla Hls]. destruct (Ext_suffix name Hs) as [t Ht].
  assert (Hae : is_ascii (Ext name) = true) by (rewrite Ht in Ha; by apply ascii_suffix in Ha).
  assert (He : ToLower (Ext (ToLower name)) = ToLower (Ext name)).
  { rewrite (ToLower_ascii name), (ToLower_ascii (Ext name)) by done. unfold Ext in *. rewrite !last_comp_nosep in * by done.
    rewrite last_dot_lower. destruct (last_dot name) as [e|]; cbn in *; [|done].
    rewrite ToLower_ascii; [apply smap_lower_lower|]. clear -Hae. unfold is_ascii in *. induction e as [|c e IH]; [done|].
    cbn in *. breflect. rewrite IH by done. rewrite andb_true_r. apply Z.ltb_lt. unfold lower_char.
    case_match; breflect; [rewrite byte_of_char_of by lia; lia|lia]. }
  unfold allowlistedAssetName, isAllowedFile, isAllowedInitMP4. rewrite He. destruct (_ || _ || _); [done|].
  destruct (String.eqb _ ".mp4"); [|done]. destruct (String.eqb _ "init.mp4"); [done|]. cbn [orb].
  by destruct (_ && _ && _).
Qed.
End Readiness.

(** ** Witnesses *)

Module HealthDemo.
#[local] Instance demo_lower : UnicodeLower := fun s => s.
Definition deps : health_deps :=
  HealthDeps "audistro-provider" "1.0" "eu" "" "p1" "02ab" (Some (Err "database is locked")) (Some (true, "timeout"))
    (Some (MkStatus true (TimeUnix 1700000000) zero_time 3)).

Lemma health_document_witness :
  exists body ms, rw_body (healthHandler deps (TimeUnix 1700000001 + 500000000) new_rw) = [Bytes body] /\
    Unmarshal body = Some (JObj ms) /\ member "active_assets_count" ms = None /\
    member "last_rescan_at" ms = Some (JNum "1700000000") /\ member "last_announce_sweep_at" ms = None.
Proof.
  destruct (health_document deps (TimeUnix 1700000001 + 500000000)) as (_ & _ & Hdoc).
  destruct Hdoc as (body & ms & Hb & Hu & _ & _ & _ & Hc & _ & _ & Hj).
  - by vm_compute.
  - repeat split; vm_compute; reflexivity.
  - destruct (Hj _ eq_refl) as (H1 & H2 & _). exists body, ms. rewrite Hc, H1, H2. split_and!; try done.
Defined.

Definition root_link : fs := MkFS (NDir 1 true [("data", NDir 2 true [("a.ts", NLink 3 "/etc/passwd")])]) [].

Example not_ready :
  rw_status (readyHandler (Some (readinessChecker (Load ∅) "/data" "none" true (Ok tt) root_link root_link)) new_rw) = Some 503.
Proof. vm_compute. reflexivity. Qed.
End HealthDemo.
