(* ===== verification/ApiDocs.v ===== *)
(** * The API documents: [internal/httpserver/apidocs.go]

    The embedded specification, its one-time loading through the OpenAPI library, and the three
    handlers that serve it. The library is an argument ([parse] and [validate] of the embedded text,
    [marshal] of the result). *)

From S2P Require Import Prelude GoStrings GoHttp AssetHandler Middleware.

Open Scope Z_scope.

Section Docs.
Context {Spec : Type}.

(** [loader.LoadFromData], [spec.Validate] and [json.MarshalIndent]. *)
Variables (parse : string -> result string Spec) (validate : Spec -> option string)
  (marshal : Spec -> result string string).
Variable openAPIYAML : string.

(** The package variables: [None] before the first call of [LoadSpec]. *)
Record spec_state := SpecState {
  loadOpenAPISpecOnce : bool;
  loadedOpenAPISpec : option Spec;
  loadedOpenAPIJSON : string;
  loadOpenAPISpecErr : option string;
}.

Definition spec_init : spec_state := SpecState false None "" None.

Definition load_once (s : spec_state) : spec_state :=
  let failed e := SpecState true (loadedOpenAPISpec s) (loadedOpenAPIJSON s) (Some e) in
  match parse openAPIYAML with
  | Err e => failed e
  | Ok spec =>
      match validate spec with
      | Some e => failed e
      | None =>
          match marshal spec with
          | Err e => failed e
          | Ok jsonSpec => SpecState true (Some spec) jsonSpec (loadOpenAPISpecErr s)
          end
      end
  end.

Definition LoadSpec (s : spec_state) : (option Spec * option string) * spec_state :=
  let s' := if loadOpenAPISpecOnce s then s else load_once s in
  ((loadedOpenAPISpec s', loadOpenAPISpecErr s'), s').

Definition OpenAPIYAMLHandler (w : RW) : RW :=
  Write (Bytes openAPIYAML)
    (WriteHeader 200 (with_header (hSet "Content-Type" "application/yaml; charset=utf-8") w)).

Definition OpenAPIJSONHandler (s : spec_state) (w : RW) : RW * spec_state :=
  let '((_, err), s') := LoadSpec s in
  match err with
  | Some e => (http_Error ("load openapi spec: " +:+ e) 500 w, s')
  | None =>
      (Write (Bytes (loadedOpenAPIJSON s'))
         (WriteHeader 200 (with_header (hSet "Content-Type" "application/json; charset=utf-8") w)), s')
  end.

(** The page is written with tildes in place of its double quotes. *)
Fixpoint dquote (s : string) : string :=
  match s with
  | EmptyString => ""
  | String c s' => String (if Ascii.eqb c "~" then char_of 34 else c) (dquote s')
  end.

Definition lines (l : list string) : string := String.concat newline l.

Definition docs_html (specPath : string) : string :=
  dquote (lines
    ["<!doctype html>"; "<html lang=~en~>"; "<head>"; "  <meta charset=~utf-8~>";
     "  <meta name=~viewport~ content=~width=device-width, initial-scale=1~>";
     "  <title>audistro-provider API Docs</title>"; "  <style>"; "    body { margin: 0; }"; "  </style>"; "</head>";
     "<body>"; "  <script"; "    id=~api-reference~"; "    data-url=~"]) +:+ specPath +:+
  dquote (lines
    ["~"; "    data-configuration='{~theme~:~deepSpace~}'></script>";
     "  <script src=~https://cdn.jsdelivr.net/npm/@scalar/api-reference~></script>"; "</body>"; "</html>"]).

Definition DocsHandler (specPath : string) (w : RW) : RW :=
  let specPath := if String.eqb specPath "" then openAPIJSONPath else specPath in
  Write (Bytes (docs_html specPath)) (WriteHeader 200 (with_header (hSet "Content-Type" "text/html; charset=utf-8") w)).

(** [embeddedOpenAPIYAMLMatchesCanonical]: [canonical] and [compat] are what the two files contain. *)
Definition embeddedOpenAPIYAMLMatchesCanonical (canonical compat : result string string) : result string unit :=
  c ← canonical;
  guard_err (negb (String.eqb c openAPIYAML)) "embedded spec is out of sync with canonical spec";;
  k ← compat;
  guard_err (negb (String.eqb c k)) "compatibility spec is out of sync with canonical spec".

(** ** The specification is loaded once *)

(** The outcome of loading: the JSON text, or the error every request is answered with. *)
Definition load_outcome : result string string :=
  spec ← parse openAPIYAML;
  match validate spec with Some e => Err e | None => Ok tt end;;
  marshal spec.

Definition loaded_ok (s : spec_state) : Prop :=
  match load_outcome with
  | Ok json => loadOpenAPISpecErr s = None /\ loadedOpenAPIJSON s = json /\ is_Some (loadedOpenAPISpec s)
  | Err e => loadOpenAPISpecErr s = Some e /\ loadedOpenAPISpec s = None
  end.

Definition spec_inv (s : spec_state) : Prop := if loadOpenAPISpecOnce s then loaded_ok s else s = spec_init.

Lemma load_once_ok : loaded_ok (load_once spec_init) /\ loadOpenAPISpecOnce (load_once spec_init) = true.
Proof.
  unfold load_once, loaded_ok, load_outcome. destruct (parse openAPIYAML) as [spec|e]; cbn; [|done].
  destruct (validate spec); cbn; [done|]. destruct (marshal spec); cbn; [|done]. by split_and!.
Qed.

Lemma LoadSpec_inv s : spec_inv s -> spec_inv (LoadSpec s).2 /\ loadOpenAPISpecOnce (LoadSpec s).2 = true /\ loaded_ok (LoadSpec s).2.
Proof.
  unfold spec_inv, LoadSpec. cbn. destruct (loadOpenAPISpecOnce s) eqn:E; [rewrite E; done|]. intros ->.
  destruct load_once_ok as [H1 H2]. by rewrite H2.
Qed.

(** The states of the package after any number of requests. *)
Fixpoint requests (n : nat) (s : spec_state) : spec_state :=
  match n with O => s | S n' => requests n' (OpenAPIJSONHandler s new_rw).2 end.

(** Every request for the specification gets the same answer, however many came before: the JSON text, or
    the same error with status 500. *)
Theorem spec_answer_constant n w :
  (OpenAPIJSONHandler (requests n spec_init) w).1 =
  match load_outcome with
  | Ok json => Write (Bytes json) (WriteHeader 200 (with_header (hSet "Content-Type" "application/json; charset=utf-8") w))
  | Err e => http_Error ("load openapi spec: " +:+ e) 500 w
  end.
Proof.
  assert (Hinv : forall m s, spec_inv s -> spec_inv (requests m s)).
  { induction m as [|m IH]; intros s Hs; [done|]. cbn [requests]. apply IH. unfold OpenAPIJSONHandler.
    destruct (LoadSpec_inv s Hs) as [Hi _]. revert Hi. destruct (LoadSpec s) as [[sp [e|]] s']; done. }
  assert (Hs : spec_inv (requests n spec_init)) by (by apply Hinv). generalize dependent (requests n spec_init).
  clear. intros s Hs. unfold OpenAPIJSONHandler. destruct (LoadSpec_inv s Hs) as (_ & _ & Hok).
  destruct (LoadSpec s) as [[sp err] s'] eqn:E. unfold LoadSpec in E. injection E as <- <- Hs'.
  rewrite Hs' in *. cbn in Hok. unfold loaded_ok in Hok. destruct load_outcome as [json|e].
  - by destruct Hok as (-> & -> & _).
  - by destruct Hok as (-> & _).
Qed.
End Docs.
