(* ===== verification/Mux.v ===== *)
(** * The mux: the routes of [NewWithDeps] in [internal/httpserver/server.go]

    The patterns that the server registers, and [http.ServeMux] on them: cleaning of the escaped path,
    the redirect to a trailing slash, matching of unescaped segments, HEAD answered by GET patterns,
    405 with the allowed methods, 404. Then the dispatch to the handlers, with the state they share.
    The theorems: which endpoint, redirect, 404 or 405 answers which method and path, against a table of
    the routes that does not mention patterns; and the database changes through HTTP only on behalf of
    an admitted client of an enabled internal endpoint. *)

From S2P Require Import Prelude GoStrings GoHttp GoTime GoNet Config Sha256 GoJson Catalog Repository FsSecure AssetPath AssetHandler OriginAuth Middleware Scanner Jobs InternalApi Health ApiDocs.

Open Scope Z_scope.

(** ** Patterns *)

Inductive route_name :=
| RMetrics | RDocs | ROpenAPIYAML | ROpenAPIJSON | RHealthz | RReadyz | RRescan | RAnnounce | RAssets.

(** [p_method] is empty for every method; [p_multi] says that the pattern ends in a slash. *)
Record pattern := Pattern { p_method : string; p_segments : list string; p_multi : bool; p_route : route_name }.

(** The calls of [mux.Handle]; the internal handlers may be nil. *)
Definition registered (cfg : Config) (rescan announce : bool) : list pattern :=
  [Pattern "GET" ["metrics"] false RMetrics;
   Pattern "GET" ["docs"] false RDocs;
   Pattern "GET" ["docs"] true RDocs;
   Pattern "GET" ["openapi.yaml"] false ROpenAPIYAML;
   Pattern "GET" ["openapi.json"] false ROpenAPIJSON;
   Pattern "GET" ["healthz"] false RHealthz;
   Pattern "GET" ["readyz"] false RReadyz] ++
  (if InternalEnable cfg then
     (if (rescan : bool) then [Pattern "POST" ["internal"; "rescan"] false RRescan] else []) ++
     (if (announce : bool) then [Pattern "POST" ["internal"; "announce"] false RAnnounce] else [])
   else []) ++
  [Pattern "" ["assets"] true RAssets].

(** ** [http.ServeMux] *)

(** A segment that cannot be unescaped stands for itself. *)
Definition pathUnescape (s : string) : string := default s (unescape s).

Definition first_segment (path : string) : string * string :=
  if String.eqb path "/" then ("/", "")
  else let p := sdrop 1 path in
       match cut slash p with
       | None => (pathUnescape p, "")
       | Some (a, b) => (pathUnescape a, String slash b)
       end.

Fixpoint match_segments (segs : list string) (multi : bool) (path : string) : bool :=
  match segs with
  | [] => if String.eqb path "" then negb multi else multi
  | x :: segs' =>
      if String.eqb path "" then false
      else let '(seg, rest) := first_segment path in String.eqb seg x && match_segments segs' multi rest
  end.

Definition path_matches (path : string) (p : pattern) : bool := match_segments (p_segments p) (p_multi p) path.

(** The pattern for a method, then for GET if the method is HEAD, then for any method. *)
Definition match_method (ps : list pattern) (m path : string) : option pattern :=
  snd <$> list_find (fun p => p_method p = m /\ path_matches path p = true) ps.

Definition tree_match (ps : list pattern) (method path : string) : option pattern :=
  match match_method ps method path with
  | Some p => Some p
  | None =>
      match (if String.eqb method "HEAD" then match_method ps "GET" path else None) with
      | Some p => Some p
      | None => match_method ps "" path
      end
  end.

Fixpoint count_char (c : Ascii.ascii) (s : string) : nat :=
  match s with
  | EmptyString => 0
  | String d s' => (if Ascii.eqb d c then 1 else 0) + count_char c s'
  end.

(** A pattern that ends in a slash counts that as a segment. *)
Definition exactMatch (n : option pattern) (path : string) : bool :=
  match n with
  | None => false
  | Some p =>
      if negb (p_multi p) then true
      else if negb (String.eqb path "") && negb (HasSuffix path "/") then false
      else Nat.eqb (S (length (p_segments p))) (count_char slash path)
  end.

Definition cleanPath (p : string) : string :=
  if String.eqb p "" then "/"
  else
    let p := if HasPrefix p "/" then p else "/" +:+ p in
    let np := Clean p in
    if HasSuffix p "/" && negb (String.eqb np "/")
    then if Nat.eqb (slen p) (S (slen np)) && HasPrefix p np then p else np +:+ "/"
    else np.

(** The match, and whether to redirect to the path with a slash. *)
Definition matchOrRedirect (ps : list pattern) (method path : string) (try_slash : bool) : option pattern * bool :=
  let n := tree_match ps method path in
  if negb (exactMatch n path) && try_slash && negb (HasSuffix path "/") && negb (String.eqb path "") &&
     exactMatch (tree_match ps method (path +:+ "/")) (path +:+ "/")
  then (n, true)
  else (n, false).

(** In byte order; HEAD comes with GET. *)
Definition matching (ps : list pattern) (path : string) : list string :=
  p_method <$> filter (fun p => path_matches path p = true) ps.

Definition matchingMethods (ps : list pattern) (path : string) : list string :=
  let ms := matching ps path ++ (if HasSuffix path "/" then [] else matching ps (path +:+ "/")) in
  merge_sort sle (remove_dups (ms ++ (if bool_decide ("GET" ∈ ms) then ["HEAD"] else []))).

Inductive decision :=
| DRoute (r : route_name)
| DRedirect (path : string)
| DNotAllowed (methods : list string)
| DNotFound
| DBadRequest.

(** [urlPath] is the decoded path, [escapedPath] what [EscapedPath] gives for it, [star] says that the
    request line has an asterisk for its target. *)
Definition findHandler (ps : list pattern) (method urlPath escapedPath : string) : decision :=
  let unmatched path :=
    match matchingMethods ps path with
    | [] => DNotFound
    | ms => DNotAllowed ms
    end in
  if String.eqb method "CONNECT" then
    if (matchOrRedirect ps method escapedPath true).2 then DRedirect (cleanPath urlPath +:+ "/")
    else match (matchOrRedirect ps method escapedPath false).1 with
         | Some p => DRoute (p_route p)
         | None => unmatched escapedPath
         end
  else
    let path := cleanPath escapedPath in
    let '(n, redirect) := matchOrRedirect ps method path true in
    if (redirect : bool) then DRedirect (cleanPath urlPath +:+ "/")
    else if negb (String.eqb path escapedPath) then DRedirect path
    else match n with
         | Some p => DRoute (p_route p)
         | None => unmatched path
         end.

Definition ServeMux (ps : list pattern) (star : bool) (method urlPath escapedPath : string) : decision :=
  if star then DBadRequest else findHandler ps method urlPath escapedPath.

(** ** The handlers behind the routes *)

Section Dispatch.
Context `{UnicodeLower} {K Spec : Type}.

(** What the handlers of one request meet: the scan, the clock, the announce environment, whether there
    is a catalog client, the request's body, the status of the jobs and what the readiness check says. *)
Record world := World {
  wd_scan : result scan_err (ScanResult * Z);
  wd_now : Z;
  wd_announce : announce_env K;
  wd_client : bool;
  wd_body : option decoded;
  wd_jobs : JobStatus;
  wd_ready : result string unit;
}.

(** Third-party or modelled elsewhere: the Prometheus handler, [http.RedirectHandler], the asset endpoint
    ([Server]), which has its own state, and the answer for the OpenAPI document ([ApiDocs]). *)
Variables (metricsHandler : RW -> RW) (redirectTo : string -> Request -> RW -> RW)
  (assetsHandler : Request -> RW -> RW) (yamlHandler jsonHandler : RW -> RW).
Variables (cfg : Config) (version providerID publicKey : string).

Definition healthDeps (wd : world) (count : result repo_err Z) (s : api_state) : health_deps :=
  HealthDeps "audistro-provider" version (Region cfg) (PublicBaseURL cfg) providerID publicKey
    (Some (match count with Ok n => Ok n | Err _ => Err "count active assets" end))
    (Some (catalogStatus (api_health s))) (Some (jobsStatus (wd_jobs wd))).

Definition routeHandler (wd : world) (rt : route_name) : ApiHandler := fun r w s =>
  match rt with
  | RMetrics => (metricsHandler w, s)
  | RDocs => (DocsHandler openAPIJSONPath w, s)
  | ROpenAPIYAML => (yamlHandler w, s)
  | ROpenAPIJSON => (jsonHandler w, s)
  | RHealthz =>
      let '(count, d) := activeAssetsCounter (api_db s) in
      (healthHandler (healthDeps wd count s) (wd_now wd) w, MkApi d (api_health s))
  | RReadyz => (readyHandler (Some (wd_ready wd)) w, s)
  | RRescan => IPAllowlistMiddleware cfg (RescanHandler (wd_scan wd) (wd_now wd)) r w s
  | RAnnounce =>
      IPAllowlistMiddleware cfg (AnnounceHandler (wd_announce wd) (wd_client wd) (wd_body wd) (wd_now wd)) r w s
  | RAssets => (assetsHandler r w, s)
  end.

Definition muxHandler (wd : world) (star : bool) (escapedPath : string) : ApiHandler := fun r w s =>
  match ServeMux (registered cfg true true) star (r_method r) (r_path r) escapedPath with
  | DRoute rt => routeHandler wd rt r w s
  | DRedirect p => (redirectTo p r w, s)
  | DNotAllowed ms =>
      (http_Error "Method Not Allowed" 405 (with_header (hSet "Allow" (String.concat ", " ms)) w), s)
  | DNotFound => (http_Error "404 page not found" 404 w, s)
  | DBadRequest => (WriteHeader 400 w, s)
  end.
End Dispatch.

(** ** Lemmas *)

Definition method_ok (m : string) (p : pattern) : Prop :=
  p_method p = m \/ p_method p = "" \/ (m = "HEAD" /\ p_method p = "GET").

Lemma match_method_Some ps m path p : match_method ps m path = Some p ->
  p ∈ ps /\ p_method p = m /\ path_matches path p = true.
Proof.
  unfold match_method. intros Hf. apply fmap_Some in Hf as ([i q] & E & ->).
  apply list_find_Some in E as (Hi & [Hm Hp] & _). split; [by eapply list_elem_of_lookup_2|done].
Qed.

Lemma match_method_None ps m path : match_method ps m path = None ->
  forall p, p ∈ ps -> p_method p = m -> path_matches path p = false.
Proof.
  unfold match_method. intros E p Hp Hm. apply fmap_None in E. apply list_find_None in E. rewrite Forall_forall in E.
  specialize (E p Hp). destruct (path_matches path p); [|done]. by destruct E.
Qed.

Lemma tree_match_Some ps m path p : tree_match ps m path = Some p ->
  p ∈ ps /\ path_matches path p = true /\ method_ok m p.
Proof.
  unfold tree_match, method_ok. destruct (match_method ps m path) as [q|] eqn:E1.
  - intros [= ->]. apply match_method_Some in E1 as (? & ? & ?). naive_solver.
  - destruct (String.eqb_spec m "HEAD") as [->|_].
    + destruct (match_method ps "GET" path) as [q|] eqn:E2.
      * intros [= ->]. apply match_method_Some in E2 as (? & ? & ?). naive_solver.
      * intros (? & ? & ?)%match_method_Some. naive_solver.
    + intros (? & ? & ?)%match_method_Some. naive_solver.
Qed.

Lemma tree_match_is_Some ps m path p : p ∈ ps -> path_matches path p = true -> method_ok m p ->
  is_Some (tree_match ps m path).
Proof.
  intros Hp Hm Hok. unfold tree_match. destruct (match_method ps m path) eqn:E1; [done|].
  pose proof (match_method_None _ _ _ E1 p Hp) as H1.
  destruct (if String.eqb m "HEAD" then match_method ps "GET" path else None) eqn:E2; [done|].
  destruct (match_method ps "" path) eqn:E3; [done|]. pose proof (match_method_None _ _ _ E3 p Hp) as H3.
  destruct Hok as [Hq|[Hq|[-> Hq]]]; [by rewrite H1 in Hm|by rewrite H3 in Hm|].
  cbn in E2. by rewrite (match_method_None _ _ _ E2 p Hp Hq) in Hm.
Qed.

(** The patterns of the server: literal first segments, all different except for the documents. *)
Lemma match_first segs multi path x : match_segments (x :: segs) multi path = true ->
  (first_segment path).1 = x /\ match_segments segs multi (first_segment path).2 = true.
Proof.
  cbn. destruct (String.eqb path ""); [done|]. destruct (first_segment path) as [seg rest].
  intros [->%String.eqb_eq ?]%andb_true_iff. done.
Qed.

Lemma routes_distinct cfg a b path p q : p ∈ registered cfg a b -> q ∈ registered cfg a b ->
  path_matches path p = true -> path_matches path q = true -> p_route p = p_route q.
Proof.
  unfold registered, path_matches. rewrite !elem_of_app, !elem_of_cons. intros Hp Hq.
  destruct (InternalEnable cfg), a, b; cbn in Hp, Hq; rewrite ?elem_of_cons, ?elem_of_app, ?elem_of_nil in Hp, Hq;
    repeat match goal with Hx : _ \/ _ |- _ => destruct Hx as [Hx|Hx] end; subst; try done;
    cbn [p_segments p_multi p_route]; intros [H1 H1']%match_first [H2 H2']%match_first;
    try (rewrite H1 in H2; discriminate H2); try done;
    apply match_first in H1' as [H1' _]; apply match_first in H2' as [H2' _]; congruence.
Qed.

(** ** Trailing slashes *)

Lemma cut_snoc c s : exists a b, cut c (s +:+ String c "") = Some (a, b) /\
  (String c b = String c "" \/ exists b', String c b = b' +:+ String c "").
Proof.
  induction s as [|d s (a & b & Hc & Hb)].
  - exists "", "". cbn. rewrite Ascii.eqb_refl. auto.
  - cbn. destruct (Ascii.eqb_spec d c) as [->|].
    + exists "", (s +:+ String c ""). split; [done|]. right. by exists (String c s).
    + rewrite Hc. exists (String d a), b. done.
Qed.

Lemma first_segment_slash path : exists seg path', first_segment (path +:+ "/") = (seg, path') /\
  (seg = "/" /\ path' = "" \/ exists q, path' = q +:+ "/").
Proof.
  unfold first_segment. destruct (String.eqb_spec (path +:+ "/") "/") as [E|Hne]; [by eexists _, _; auto|].
  destruct path as [|c path]; [done|]. cbn [String.append sdrop].
  destruct (cut_snoc slash path) as (a & b & Hc & Hb). change (String slash "") with "/" in *. rewrite Hc.
  eexists _, _. split; [done|]. right. destruct Hb as [->|[b' ->]]; [by exists ""|by eexists].
Qed.

Lemma literal_no_slash segs : forall path, "/" ∉ segs -> match_segments segs false (path +:+ "/") = false.
Proof.
  induction segs as [|x segs IH]; intros path Hs; cbn [match_segments].
  - replace (String.eqb (path +:+ "/") "") with false by (by destruct path). done.
  - replace (String.eqb (path +:+ "/") "") with false by (by destruct path).
    destruct (first_segment_slash path) as (seg & path' & -> & [[-> ->]|[q ->]]).
    + destruct (String.eqb_spec "/" x) as [<-|]; [|done]. set_solver.
    + rewrite IH by set_solver. apply andb_false_r.
Qed.

Lemma count_char_app c s t : count_char c (s +:+ t) = (count_char c s + count_char c t)%nat.
Proof. induction s; cbn; [done|]. rewrite IHs. lia. Qed.

Lemma multi_slashes segs : forall path, HasPrefix path "/" = true -> match_segments segs true path = true ->
  (S (length segs) <= count_char slash path)%nat.
Proof.
  induction segs as [|x segs IH]; intros path Hp Hm; apply HasPrefix_spec in Hp as [t ->].
  - cbn. lia.
  - apply match_first in Hm as [_ Hm]. unfold first_segment in Hm. change ("/" +:+ t) with (String slash t) in *.
    destruct (String.eqb (String slash t) "/"); [by destruct segs|]. cbn [sdrop] in Hm.
    destruct (cut slash t) as [[a b]|] eqn:E; [|by destruct segs]. cbn [snd] in Hm.
    apply cut_Some in E as (Ht & _). specialize (IH (String slash b) (proj2 (HasPrefix_spec _ _) (ex_intro _ b eq_refl)) Hm). rewrite Ht.
    cbn [count_char length]. rewrite count_char_app. cbn [count_char] in *.
    change (Ascii.eqb slash slash) with true in *. cbn iota in *. lia.
Qed.

Lemma Clean_rooted t : exists u, Clean (String slash t) = String slash u.
Proof.
  unfold Clean. change (String.eqb (String slash t) "") with false. cbn iota. rewrite rooted_cons.
  change (Ascii.eqb slash slash) with true. unfold render. by eexists.
Qed.

Lemma clean_path_rooted e : cleanPath e = e -> HasPrefix e "/" = true.
Proof.
  unfold cleanPath. destruct (String.eqb e "") eqn:E; [intros <-; done|].
  destruct (HasPrefix e "/") eqn:Hp; [done|]. cbv zeta. change ("/" +:+ e) with (String slash e).
  destruct (Clean_rooted e) as [u ->]. intros H. exfalso.
  assert (exists v, e = String slash v) as [v ->]; [|by destruct v].
  revert H. repeat case_match; intros <-; by eexists.
Qed.

Lemma registered_shape cfg a b p : p ∈ registered cfg a b ->
  "/" ∉ p_segments p /\ (p_multi p = true -> length (p_segments p) = 1%nat).
Proof.
  unfold registered. rewrite !elem_of_app. intros Hp.
  destruct (InternalEnable cfg), a, b; cbn in Hp; rewrite ?elem_of_cons, ?elem_of_app, ?elem_of_nil in Hp;
    repeat match goal with Hx : _ \/ _ |- _ => destruct Hx as [Hx|Hx] end; subst; try done;
    (split; [cbn; set_solver|done]).
Qed.

(** A path that a pattern matches is not redirected. *)
Lemma no_redirect cfg a b m e q : HasPrefix e "/" = true -> tree_match (registered cfg a b) m e = Some q ->
  matchOrRedirect (registered cfg a b) m e true = (Some q, false).
Proof.
  intros Hp Hq. unfold matchOrRedirect. rewrite Hq.
  destruct (exactMatch (Some q) e) eqn:Ee; [done|]. cbn [negb andb].
  destruct (HasSuffix e "/") eqn:Es; [done|]. cbn [negb andb].
  destruct (negb (String.eqb e "")); [|done]. cbn [andb].
  assert (exactMatch (tree_match (registered cfg a b) m (e +:+ "/")) (e +:+ "/") = false) as ->; [|done].
  destruct (tree_match _ m (e +:+ "/")) as [q2|] eqn:E2; [|done].
  apply tree_match_Some in E2 as (Hin2 & Hm2 & _). apply tree_match_Some in Hq as (Hin & Hm & _).
  destruct (registered_shape _ _ _ _ Hin2) as [Hs2 Hl2], (registered_shape _ _ _ _ Hin) as [_ Hl].
  cbn in Ee. destruct (p_multi q) eqn:Emq; [|done]. unfold path_matches in *. rewrite Emq in Hm.
  cbn [exactMatch]. destruct (p_multi q2) eqn:Em2; [|by rewrite literal_no_slash in Hm2].
  pose proof (multi_slashes _ _ Hp Hm) as Hc. rewrite Hl in Hc by done. rewrite Hl2 by done. cbn [negb].
  destruct (negb (String.eqb (e +:+ "/") "") && _); [done|]. apply Nat.eqb_neq.
  rewrite count_char_app. change (count_char slash "/") with 1%nat. lia.
Qed.

Lemma elem_of_matching ps path x : x ∈ matching ps path <-> exists p, p ∈ ps /\ path_matches path p = true /\ p_method p = x.
Proof. unfold matching. rewrite list_elem_of_fmap. setoid_rewrite list_elem_of_filter. naive_solver. Qed.

(** The patterns that match the path or the path with a slash. *)
Definition near (e : string) (p : pattern) : Prop :=
  path_matches e p = true \/ (HasSuffix e "/" = false /\ path_matches (e +:+ "/") p = true).

Lemma elem_of_matchingMethods ps e x : x ∈ matchingMethods ps e <->
  exists p, p ∈ ps /\ near e p /\ (p_method p = x \/ (x = "HEAD" /\ p_method p = "GET")).
Proof.
  unfold matchingMethods, near. rewrite (merge_sort_Permutation sle), elem_of_remove_dups. cbv zeta.
  set (ms := matching ps e ++ _).
  assert (Hms : forall y, y ∈ ms <-> exists p, p ∈ ps /\ near e p /\ p_method p = y).
  { intros y. subst ms. unfold near. rewrite elem_of_app, elem_of_matching. destruct (HasSuffix e "/").
    - rewrite elem_of_nil. naive_solver.
    - rewrite elem_of_matching. naive_solver. }
  rewrite elem_of_app, Hms. unfold near in Hms. destruct (bool_decide_reflect ("GET" ∈ ms)) as [Hg|Hg].
  - rewrite list_elem_of_singleton. apply Hms in Hg. naive_solver.
  - rewrite elem_of_nil. rewrite Hms in Hg. naive_solver.
Qed.

(** A clean path is not redirected for being unclean, and CONNECT is then treated like any method. *)
Lemma ServeMux_clean ps m u e : cleanPath e = e ->
  ServeMux ps false m u e =
  match matchOrRedirect ps m e true with
  | (_, true) => DRedirect (cleanPath u +:+ "/")
  | (Some p, false) => DRoute (p_route p)
  | (None, false) => match matchingMethods ps e with [] => DNotFound | ms => DNotAllowed ms end
  end.
Proof.
  intros Hc. unfold ServeMux, findHandler. rewrite Hc, String.eqb_refl. cbn [negb].
  assert (Hn : (matchOrRedirect ps m e false).1 = (matchOrRedirect ps m e true).1).
  { unfold matchOrRedirect. by repeat case_match. }
  destruct (String.eqb m "CONNECT"); [rewrite Hn|]; destruct (matchOrRedirect ps m e true) as [[p|] []]; done.
Qed.

(** What [ServeMux] does with a clean path, in terms of the registered patterns. *)
Lemma mux_patterns cfg a b m u e :
  cleanPath e = e ->
  let ps := registered cfg a b in
  (forall rt, ServeMux ps false m u e = DRoute rt <->
     exists p, p ∈ ps /\ p_route p = rt /\ path_matches e p = true /\ method_ok m p) /\
  (ServeMux ps false m u e = DNotFound <-> forall p, p ∈ ps -> ~ near e p) /\
  (forall q, ServeMux ps false m u e = DRedirect q <->
     q = cleanPath u +:+ "/" /\ tree_match ps m e = None /\ HasSuffix e "/" = false /\
     exactMatch (tree_match ps m (e +:+ "/")) (e +:+ "/") = true) /\
  (forall ms, ServeMux ps false m u e = DNotAllowed ms ->
     forall x, x ∈ ms <-> exists p, p ∈ ps /\ near e p /\ (p_method p = x \/ (x = "HEAD" /\ p_method p = "GET"))) /\
  ServeMux ps false m u e <> DBadRequest.
Proof.
  intros Hc. cbv zeta. pose proof (clean_path_rooted e Hc) as Hp. rewrite (ServeMux_clean _ _ _ _ Hc).
  destruct (tree_match (registered cfg a b) m e) as [q|] eqn:Eq.
  - rewrite (no_redirect cfg a b m e q Hp Eq). apply tree_match_Some in Eq as (Hin & Hpm & Hok).
    split_and!; [|split; [done|intros H; destruct (H q Hin); by left]|naive_solver|done|done].
    intros rt. split; [intros [= <-]; eauto|]. intros (p & Hi & <- & Hpp & _). f_equal. by eapply routes_distinct.
  - assert (Hno : forall p, p ∈ (registered cfg a b) -> path_matches e p = true -> ~ method_ok m p).
    { intros p Hi Hpm Hok. destruct (tree_match_is_Some (registered cfg a b) m e p Hi Hpm Hok). congruence. }
    assert (Hrt : forall rt, ~ exists p, p ∈ registered cfg a b /\ p_route p = rt /\ path_matches e p = true /\ method_ok m p).
    { intros rt (p & Hi & _ & Hpm & Hok). by destruct (Hno p Hi Hpm). }
    unfold matchOrRedirect. rewrite Eq. cbn [exactMatch negb andb].
    replace (String.eqb e "") with false by (by destruct e). cbn [negb]. rewrite andb_true_r.
    destruct (HasSuffix e "/") eqn:Es; cbn [negb andb]; [|destruct (exactMatch _ _) eqn:Er].
    2: { destruct (tree_match _ m (e +:+ "/")) as [q|] eqn:E2; [|done]. apply tree_match_Some in E2 as (Hin & Hpm & _).
         split_and!; [split; [done|intros H; by destruct (Hrt rt)]|split; [done|]|naive_solver|done|done].
         intros H. destruct (H q Hin). by right. }
    all: pose proof (elem_of_matchingMethods (registered cfg a b) e) as HM;
      destruct (matchingMethods (registered cfg a b) e) as [|x xs];
      (split_and!; [intros rt; split; [done|intros H; by destruct (Hrt rt)]|split; [|try done]|naive_solver| |done]);
      try (intros ms [= <-]; exact HM); try done.
    all: try (intros _ p Hi Hn; apply (not_elem_of_nil (p_method p)); apply HM; eauto).
    all: intros H; exfalso; destruct (proj1 (HM x)) as (p & Hi & Hn & _); [by left|]; by destruct (H p Hi).
Qed.

(** ** The routes of the server, by path *)

(** The decoded segments of a path after its leading slash; a slash at the end leaves an empty one. *)
Definition names (e : string) : list string := pathUnescape <$> Split (sdrop 1 e) slash.

Definition reads (m : string) : Prop := m = "GET" \/ m = "HEAD".

(** The routes: what each endpoint answers, by method and path. *)
Definition serves (cfg : Config) (rescan announce : bool) (m : string) (path : list string) (rt : route_name) : Prop :=
  match rt with
  | RMetrics => reads m /\ path = ["metrics"]
  | RDocs => reads m /\ exists rest, path = "docs" :: rest
  | ROpenAPIYAML => reads m /\ path = ["openapi.yaml"]
  | ROpenAPIJSON => reads m /\ path = ["openapi.json"]
  | RHealthz => reads m /\ path = ["healthz"]
  | RReadyz => reads m /\ path = ["readyz"]
  | RRescan => InternalEnable cfg = true /\ rescan = true /\ m = "POST" /\ path = ["internal"; "rescan"]
  | RAnnounce => InternalEnable cfg = true /\ announce = true /\ m = "POST" /\ path = ["internal"; "announce"]
  | RAssets => exists x rest, path = "assets" :: x :: rest
  end.

Lemma names_cut t :
  names (String slash t) =
  match cut slash t with
  | None => [pathUnescape t]
  | Some (a, b) => pathUnescape a :: names (String slash b)
  end.
Proof.
  unfold names, Split. cbn [sdrop]. destruct (cut slash t) as [[a b]|] eqn:E.
  - apply cut_Some in E as [-> Ha]. by rewrite split_on_app, split_on_nosep.
  - apply cut_None in E. by rewrite split_on_nosep.
Qed.

Lemma names_slash t : names (String slash t +:+ "/") = names (String slash t) ++ [""].
Proof.
  unfold names, Split. cbn [sdrop String.append]. change "/" with (String slash "").
  rewrite split_on_app, fmap_app. done.
Qed.

(** A literal pattern matches the paths whose segments are its own, or begin with them. *)
Lemma match_names segs multi t : "/" ∉ segs -> "" ∉ segs -> segs <> [] ->
  match_segments segs multi (String slash t) = true <->
  if multi then exists x rest, names (String slash t) = segs ++ x :: rest else names (String slash t) = segs.
Proof.
  revert t; induction segs as [|x segs IH]; intros t Hs He Hne; [done|]. clear Hne.
  assert (Hx : x <> "/" /\ x <> "") by set_solver. destruct Hx as [Hx1 Hx2].
  cbn [match_segments]. replace (String.eqb (String slash t) "") with false by done. unfold first_segment. cbn [sdrop].
  destruct (String.eqb_spec (String slash t) "/") as [[= ->]|_].
  { destruct (String.eqb_spec "/" x) as [|_]; [done|]. cbn [andb]. change (names (String slash "")) with [""].
    split; [done|]. destruct multi; [intros (y & rest & [=])|intros [=]]; congruence. }
  rewrite names_cut. destruct (cut slash t) as [[p q]|].
  - rewrite andb_true_iff, String.eqb_eq. destruct segs as [|y segs].
    + cbn [match_segments app]. rewrite names_cut. destruct multi.
      * cbn. split; [intros [<- _]|intros (? & ? & [=])]; [|done].
        destruct (cut slash q) as [[? ?]|]; eauto.
      * cbn. split; [by intros [_ ?]|]. destruct (cut slash q) as [[? ?]|]; congruence.
    + rewrite IH by set_solver. destruct multi; [|naive_solver congruence].
      split; [intros [<- (z & rest & ->)]; by exists z, rest|]. intros (z & rest & [= -> ->]). eauto.
  - rewrite andb_true_iff, String.eqb_eq. destruct segs as [|y segs]; cbn [match_segments app].
    + destruct multi; cbn; [|naive_solver congruence]. split; [by intros [_ ?]|]. by intros (? & ? & [=]).
    + cbn. split; [by intros [_ ?]|]. destruct multi; [by intros (? & ? & [=])|done].
Qed.

(** The registered patterns, by method and path, are the routes. *)
Definition pattern_names (p : pattern) (path : list string) : Prop :=
  if p_multi p then exists x rest, path = p_segments p ++ x :: rest else path = p_segments p.

Lemma path_matches_names cfg a b p t : p ∈ registered cfg a b ->
  path_matches (String slash t) p = true <-> pattern_names p (names (String slash t)).
Proof.
  intros Hp. assert (Hs : "/" ∉ p_segments p /\ "" ∉ p_segments p /\ p_segments p <> []).
  { revert Hp. unfold registered. rewrite !elem_of_app. intros Hp.
    destruct (InternalEnable cfg), a, b; cbn in Hp; rewrite ?elem_of_cons, ?elem_of_app, ?elem_of_nil in Hp;
      repeat match goal with Hx : _ \/ _ |- _ => destruct Hx as [Hx|Hx] end; subst; cbn; set_solver. }
  destruct Hs as (? & ? & ?). by apply match_names.
Qed.

Lemma registered_serves cfg a b m path rt :
  (exists p, p ∈ registered cfg a b /\ p_route p = rt /\ pattern_names p path /\ method_ok m p) <->
  serves cfg a b m path rt.
Proof.
  unfold pattern_names, method_ok, registered. split.
  - intros (p & Hp & <- & Hn & Hm). rewrite !elem_of_app in Hp.
    destruct (InternalEnable cfg) eqn:Ei, a, b; cbn in Hp; rewrite ?elem_of_cons, ?elem_of_app, ?elem_of_nil in Hp;
      repeat match goal with Hx : _ \/ _ |- _ => destruct Hx as [Hx|Hx] end; subst; cbn in *; unfold reads; naive_solver.
  - intros Hs. setoid_rewrite elem_of_app. destruct rt; cbn [serves] in Hs; unfold reads in Hs.
    + exists (Pattern "GET" ["metrics"] false RMetrics). cbn. split; [set_solver|]. naive_solver.
    + destruct Hs as [Hm [[|x rest] ->]];
        [exists (Pattern "GET" ["docs"] false RDocs)|exists (Pattern "GET" ["docs"] true RDocs)]; cbn; (split; [set_solver|]); naive_solver.
    + exists (Pattern "GET" ["openapi.yaml"] false ROpenAPIYAML). cbn. split; [set_solver|]. naive_solver.
    + exists (Pattern "GET" ["openapi.json"] false ROpenAPIJSON). cbn. split; [set_solver|]. naive_solver.
    + exists (Pattern "GET" ["healthz"] false RHealthz). cbn. split; [set_solver|]. naive_solver.
    + exists (Pattern "GET" ["readyz"] false RReadyz). cbn. split; [set_solver|]. naive_solver.
    + destruct Hs as (-> & -> & -> & ->). exists (Pattern "POST" ["internal"; "rescan"] false RRescan). cbn. split; [set_solver|]. auto.
    + destruct Hs as (-> & -> & -> & ->). exists (Pattern "POST" ["internal"; "announce"] false RAnnounce). cbn. split; [set_solver|]. auto.
    + exists (Pattern "" ["assets"] true RAssets). cbn. split; [set_solver|]. naive_solver.
Qed.

Section Routes.
Context (cfg : Config) (a b : bool) (t : string).
Let e : string := String slash t.
Let ps : list pattern := registered cfg a b.

Lemma match_serves m rt :
  (exists p, p ∈ ps /\ p_route p = rt /\ path_matches e p = true /\ method_ok m p) <-> serves cfg a b m (names e) rt.
Proof.
  rewrite <- registered_serves. split; intros (p & Hp & Hr & Hn & Hm); exists p; split_and!; try done;
    by apply (path_matches_names cfg a b).
Qed.

Lemma tree_match_serves m : tree_match ps m e = None <-> forall rt, ~ serves cfg a b m (names e) rt.
Proof.
  split.
  - intros E rt (p & Hp & _ & Hpm & Hok)%match_serves. destruct (tree_match_is_Some _ _ _ _ Hp Hpm Hok) as [q Hq].
    pose proof (eq_trans (eq_sym Hq) E). done.
  - intros Hno. destruct (tree_match ps m e) as [p|] eqn:E; [|done]. apply tree_match_Some in E as (? & ? & ?).
    destruct (Hno (p_route p)). apply match_serves. eauto.
Qed.

(** A pattern that matches with a slash at the end matches without, except for [/assets]. *)
Lemma slash_serves p m : p ∈ ps -> path_matches (e +:+ "/") p = true -> method_ok m p ->
  names e = ["assets"] \/ serves cfg a b m (names e) (p_route p).
Proof.
  intros Hp Hpm Hok. apply (path_matches_names cfg a b p (t +:+ "/") Hp) in Hpm.
  change (String slash (t +:+ "/")) with (String slash t +:+ "/") in Hpm. rewrite names_slash in Hpm. fold e in Hpm.
  assert (Hs : serves cfg a b m (names e ++ [""]) (p_route p)) by (apply registered_serves; eauto).
  destruct (p_route p); cbn [serves] in *.
  all: try (destruct (names e) as [|? [|? [|? ?]]]; naive_solver).
Qed.

Lemma near_serves p m : names e <> ["assets"] -> p ∈ ps -> near e p -> method_ok m p ->
  serves cfg a b m (names e) (p_route p).
Proof.
  intros Hne Hp [Hpm|[_ Hpm]] Hok; [apply match_serves; eauto|]. by destruct (slash_serves p m Hp Hpm Hok).
Qed.

Lemma names_suffix : HasSuffix e "/" = true -> names e <> ["assets"].
Proof.
  intros [r Hr]%HasSuffix_spec. destruct r as [|c r].
  - rewrite Hr. done.
  - unfold e in *. cbn in Hr. injection Hr as <- Hr. rewrite Hr.
    change (String slash (r +:+ "/")) with (String slash r +:+ "/"). rewrite names_slash.
    destruct (names (String slash r)) as [|? [|? ?]]; done.
Qed.

Lemma names_slashes : count_char slash (e +:+ "/") = S (length (names e)).
Proof.
  rewrite count_char_app. unfold e, names, Split. cbn [sdrop count_char]. rewrite Ascii.eqb_refl, length_fmap.
  assert (H : length (split_on slash t) = S (count_char slash t)); [|rewrite H; cbn; lia].
  induction t as [|c s IH]; [done|]. cbn [split_on count_char]. destruct (Ascii.eqb c slash); cbn [length]; [by rewrite IH|].
  destruct (split_on slash s); done.
Qed.

(** The redirect to a slash at the end. *)
Lemma redirect_assets m :
  (tree_match ps m e = None /\ HasSuffix e "/" = false /\ exactMatch (tree_match ps m (e +:+ "/")) (e +:+ "/") = true) <->
  names e = ["assets"].
Proof.
  split.
  - intros (Hno & _ & Hx). destruct (tree_match ps m (e +:+ "/")) as [p|] eqn:E; [|done].
    apply tree_match_Some in E as (Hp & Hpm & Hok). destruct (slash_serves p m Hp Hpm Hok) as [|Hs]; [done|].
    by destruct (proj1 (tree_match_serves m) Hno (p_route p)).
  - intros Hn. split_and!.
    + apply tree_match_serves. intros rt. rewrite Hn. destruct rt; cbn; naive_solver.
    + destruct (HasSuffix e "/") eqn:E; [|done]. by destruct (names_suffix E).
    + assert (Hs : is_Some (tree_match ps m (e +:+ "/"))).
      { apply (tree_match_is_Some ps m _ (Pattern "" ["assets"] true RAssets)).
        - unfold ps, registered. rewrite !elem_of_app. set_solver.
        - apply (match_names ["assets"] true (t +:+ "/")); [set_solver..|].
          change (String slash (t +:+ "/")) with (String slash t +:+ "/"). rewrite names_slash. fold e. rewrite Hn.
          by exists "", [].
        - right; by left. }
      destruct Hs as [p E]. rewrite E. apply tree_match_Some in E as (Hp & Hpm & _).
      destruct (registered_shape _ _ _ _ Hp) as [_ Hl]. unfold exactMatch.
      destruct (p_multi p); cbn [negb]; [|done]. rewrite Hl by done.
      rewrite (proj2 (HasSuffix_spec (e +:+ "/") "/")) by eauto. cbn [negb]. rewrite andb_false_r.
      apply Nat.eqb_eq. rewrite names_slashes, Hn. done.
Qed.
End Routes.

(** C27: the routes of the server, for every method and every request target but the asterisk. A
    path that is in clean form, with [l] its decoded segments, is answered as follows. The endpoint
    that [serves] lists for the method and [l] gets the request: GET and HEAD of [/metrics],
    [/healthz], [/readyz], the OpenAPI documents, and [/docs] with everything below it; POST of
    [/internal/rescan] and [/internal/announce], if the internal endpoints are enabled and the
    handler exists; and every method of everything below [/assets/]. [/assets] itself is redirected to
    the same path with a slash at its end. The answer is 404 exactly when no method of the path is
    served and it is not [/assets]; and a 405 lists exactly the methods that are. A path in any other
    form is redirected, unless the method is CONNECT. *)
Theorem mux_exact cfg a b m u e :
  let answer := ServeMux (registered cfg a b) false m u e in
  let l := names e in
  (cleanPath e = e ->
   (forall rt, answer = DRoute rt <-> serves cfg a b m l rt) /\
   (forall q, answer = DRedirect q <-> l = ["assets"] /\ q = cleanPath u +:+ "/") /\
   (answer = DNotFound <-> l <> ["assets"] /\ forall m' rt, ~ serves cfg a b m' l rt) /\
   (forall ms, answer = DNotAllowed ms -> forall x, x ∈ ms <-> exists rt, serves cfg a b x l rt) /\
   answer <> DBadRequest) /\
  (cleanPath e <> e -> m <> "CONNECT" -> exists q, answer = DRedirect q).
Proof.
  cbv zeta. split.
  2: { intros Hc Hm. unfold ServeMux, findHandler. rewrite (proj2 (String.eqb_neq m "CONNECT") Hm).
       destruct (matchOrRedirect _ m (cleanPath e) true) as [n []]; [eauto|].
       rewrite (proj2 (String.eqb_neq _ _) Hc). cbn. eauto. }
  intros Hc. destruct (mux_patterns cfg a b m u e Hc) as (Hr & Hnf & Hrd & Hna & Hbad).
  apply clean_path_rooted, HasPrefix_spec in Hc as [t ->]. change ("/" +:+ t) with (String slash t) in *.
  assert (Hroute : forall rt, ServeMux (registered cfg a b) false m u (String slash t) = DRoute rt <->
    serves cfg a b m (names (String slash t)) rt) by (intros rt; by rewrite Hr, match_serves).
  assert (Hredir : forall q, ServeMux (registered cfg a b) false m u (String slash t) = DRedirect q <->
    names (String slash t) = ["assets"] /\ q = cleanPath u +:+ "/").
  { intros q. rewrite Hrd, <- (redirect_assets cfg a b t m). tauto. }
  split_and!; [done|done| | |done].
  - rewrite Hnf. split.
    + intros Hno. split; [|intros m' rt (p & Hp & _ & Hpm & _)%match_serves; apply (Hno p Hp); by left].
      intros Hn. assert (E : ServeMux (registered cfg a b) false m u (String slash t) = DRedirect (cleanPath u +:+ "/"))
        by (by apply Hredir). rewrite (proj2 Hnf Hno) in E. done.
    + intros [Hne Hno] p Hp Hnear. apply (Hno (p_method p) (p_route p)). apply near_serves; try done. by left.
  - intros ms E x. rewrite (Hna ms E x).
    assert (Hne : names (String slash t) <> ["assets"]).
    { intros Hn. rewrite (proj2 (Hredir (cleanPath u +:+ "/"))) in E by done. done. }
    split.
    + intros (p & Hp & Hnear & Hx). exists (p_route p). apply near_serves; try done. unfold method_ok. naive_solver.
    + intros [rt (p & Hp & Hrt & Hpm & Hok)%match_serves]. exists p. split; [done|]. split; [by left|].
      destruct Hok as [|[He|]]; [tauto| |tauto]. exfalso. rewrite (proj2 (Hr rt)) in E; [done|].
      exists p. split_and!; try done. right; by left.
Qed.

Lemma registered_internal cfg a b p : p ∈ registered cfg a b -> p_route p = RRescan \/ p_route p = RAnnounce ->
  InternalEnable cfg = true /\ p_method p = "POST" /\
  p_segments p = ["internal"; match p_route p with RRescan => "rescan" | _ => "announce" end] /\ p_multi p = false.
Proof.
  unfold registered. rewrite !elem_of_app. intros Hp Hr.
  destruct (InternalEnable cfg), a, b; cbn in Hp; rewrite ?elem_of_cons, ?elem_of_app, ?elem_of_nil in Hp;
    repeat match goal with Hx : _ \/ _ |- _ => destruct Hx as [Hx|Hx] end; subst; done.
Qed.

Lemma ServeMux_route cfg a b star m u e rt : ServeMux (registered cfg a b) star m u e = DRoute rt ->
  exists p, p ∈ registered cfg a b /\ p_route p = rt /\ path_matches e p = true /\ method_ok m p.
Proof.
  unfold ServeMux, findHandler. destruct star; [done|].
  assert (Hn : forall try path, (matchOrRedirect (registered cfg a b) m path try).1 = tree_match (registered cfg a b) m path).
  { intros try path. unfold matchOrRedirect. by destruct (_ && _). }
  destruct (String.eqb m "CONNECT").
  - destruct (matchOrRedirect _ m e true).2; [done|]. rewrite Hn.
    destruct (tree_match _ m e) as [q|] eqn:E; [|by destruct (matchingMethods _ _)]. intros [= <-].
    apply tree_match_Some in E as (? & ? & ?). eauto.
  - specialize (Hn true (cleanPath e)). destruct (matchOrRedirect _ m (cleanPath e) true) as [n redirect]. cbn in Hn.
    destruct redirect; [done|]. destruct (String.eqb_spec (cleanPath e) e) as [Hc|]; [|done]. rewrite Hc in *. subst n. cbn [negb].
    destruct (tree_match _ m e) as [q|] eqn:E; [|by destruct (matchingMethods _ _)]. intros [= <-].
    apply tree_match_Some in E as (? & ? & ?). eauto.
Qed.

Lemma CountActive_tables d : assets (CountActive d).2 = assets d /\ announcements (CountActive d).2 = announcements d.
Proof. unfold CountActive, call, mbind, db_bind. destruct (faults d) as [|[]]; by cbn. Qed.

Section DispatchTheorems.
Context `{UnicodeLower} {K : Type}.
Variables (metricsHandler : RW -> RW) (redirectTo : string -> Request -> RW -> RW)
  (assetsHandler : Request -> RW -> RW) (yamlHandler jsonHandler : RW -> RW).
Variables (cfg : Config) (version providerID publicKey : string).

Notation mux := (muxHandler (K := K) metricsHandler redirectTo assetsHandler yamlHandler jsonHandler cfg version providerID publicKey).

(** C7: a request changes the tables only if the internal endpoints are enabled, its method is POST, its
    path decodes to one of the two internal endpoints, and its client is in the allowed networks. *)
Theorem http_changes_are_admitted wd star e r w s w' s' :
  mux wd star e r w s = (w', s') ->
  assets (api_db s') <> assets (api_db s) \/ announcements (api_db s') <> announcements (api_db s) ->
  InternalEnable cfg = true /\ r_method r = "POST" /\ admitted cfg r /\
  (match_segments ["internal"; "rescan"] false e = true \/ match_segments ["internal"; "announce"] false e = true).
Proof.
  unfold muxHandler. intros Hmux Hch.
  destruct (ServeMux _ _ _ _ _) as [rt|p|ms| |] eqn:E; try (injection Hmux as <- <-; tauto).
  apply ServeMux_route in E as (p & Hin & Hrt & Hpm & Hok).
  assert (Hint : rt = RRescan \/ rt = RAnnounce -> InternalEnable cfg = true /\ r_method r = "POST" /\
    (match_segments ["internal"; "rescan"] false e = true \/ match_segments ["internal"; "announce"] false e = true)).
  { intros Hr. rewrite <- Hrt in Hr. destruct (registered_internal _ _ _ _ Hin Hr) as (He & Hme & Hseg & Hmu).
    split; [done|]. unfold path_matches in Hpm. rewrite Hseg, Hmu in Hpm. unfold method_ok in Hok. rewrite Hme in Hok.
    split; [naive_solver|]. destruct Hr as [Hr|Hr]; rewrite Hr in Hpm; auto. }
  destruct rt; cbn [routeHandler] in Hmux; try (injection Hmux as <- <-; tauto).
  - unfold activeAssetsCounter in Hmux. pose proof (CountActive_tables (api_db s)) as Hct.
    destruct (CountActive (api_db s)) as [n d]. injection Hmux as <- <-. cbn in *. tauto.
  - destruct Hint as (? & ? & ?); [by left|]. split_and!; [done|done| |done].
    match type of Hmux with IPAllowlistMiddleware _ ?next _ _ _ = _ =>
      destruct (access_cases cfg next r w s) as [Ha|Hno] end; [done|].
    rewrite Hno in Hmux. injection Hmux as <- <-. tauto.
  - destruct Hint as (? & ? & ?); [by right|]. split_and!; [done|done| |done].
    match type of Hmux with IPAllowlistMiddleware _ ?next _ _ _ = _ =>
      destruct (access_cases cfg next r w s) as [Ha|Hno] end; [done|].
    rewrite Hno in Hmux. injection Hmux as <- <-. tauto.
Qed.
End DispatchTheorems.

(** ** Witnesses *)

Module MuxDemo.
#[local] Instance demo_lower : UnicodeLower := fun s => s.
Definition cfg : Config := InternalApiDemo.cfg.
Definition decide_ (m p : string) : decision := ServeMux (registered cfg true true) false m p p.

Example metrics_route : decide_ "HEAD" "/metrics" = DRoute RMetrics. Proof. vm_compute. reflexivity. Qed.
Example metrics_post : decide_ "POST" "/metrics" = DNotAllowed ["GET"; "HEAD"]. Proof. vm_compute. reflexivity. Qed.
Example assets_slash : decide_ "GET" "/assets" = DRedirect "/assets/". Proof. vm_compute. reflexivity. Qed.
Example assets_any : decide_ "DELETE" "/assets/a/b" = DRoute RAssets. Proof. vm_compute. reflexivity. Qed.
Example escaped_route : decide_ "POST" "/internal/%72escan" = DRoute RRescan. Proof. vm_compute. reflexivity. Qed.
Example dirty_path : decide_ "GET" "/docs/../metrics" = DRedirect "/metrics". Proof. vm_compute. reflexivity. Qed.
Example disabled : ServeMux (registered (Load ∅) true true) false "POST" "/internal/rescan" "/internal/rescan" = DNotFound.
Proof. vm_compute. reflexivity. Qed.

Lemma mux_exact_witness :
  serves cfg true true "POST" ["internal"; "rescan"] RRescan /\ ~ serves cfg true true "GET" ["internal"; "rescan"] RRescan /\
  decide_ "GET" "/internal/rescan" = DNotAllowed ["POST"].
Proof.
  assert (Hc : cleanPath "/internal/rescan" = "/internal/rescan") by (vm_compute; reflexivity).
  pose proof (proj1 (proj1 (mux_exact cfg true true "POST" "/internal/rescan" "/internal/rescan") Hc) RRescan) as Hpost.
  pose proof (proj1 (proj1 (mux_exact cfg true true "GET" "/internal/rescan" "/internal/rescan") Hc) RRescan) as Hget.
  split_and!; [apply Hpost; vm_compute; reflexivity|intros H%Hget; vm_compute in H; discriminate H|vm_compute; reflexivity].
Defined.

Definition wd : world :=
  World (Ok (JobsDemo.sr, 0)) RepositoryDemo.now InternalApiDemo.env true None (NewStatus true) (Ok tt).
Definition mux := muxHandler (fun w => w) (fun _ _ w => w) (fun _ w => w) (fun w => w) (fun w => w) cfg "1.0" "p" "02ab" wd false.
Definition req : Request := InternalApiDemo.post "10.1.2.3:999" "".

Lemma http_changes_are_admitted_witness : admitted cfg req.
Proof.
  apply (http_changes_are_admitted (K := Z) (fun w => w) (fun _ _ w => w) (fun _ w => w) (fun w => w) (fun w => w) cfg "1.0"
           "p" "02ab" wd false "/internal/rescan" req new_rw InternalApiDemo.s0
           (mux "/internal/rescan" req new_rw InternalApiDemo.s0).1 (mux "/internal/rescan" req new_rw InternalApiDemo.s0).2).
  - vm_compute. reflexivity.
  - left. apply (bool_decide_unpack _). vm_compute. done.
Defined.
End MuxDemo.
