(* ===== verification/Metrics.v ===== *)
(** * Metrics: [internal/metrics/metrics.go], and build information

    The descriptors, their registration, and every function that changes a metric, as a list of
    primitive updates of labelled series. The Prometheus registry is a parameter: [Registry] are its
    operations, [RegistryLaws] what its documentation says of them (a name is registered once, label
    values must be as many as the labels and UTF-8, or the call panics; counters and gauges add or set,
    histograms collect). Values are exact numbers here and [float64] there. The theorems: calls with
    ASCII labels never panic and only touch series that fit their descriptors; the request counters are
    exact and the in-flight gauges return to zero; and the method label makes the number of series
    unbounded. *)

From S2P Require Import Prelude GoStrings GoHttp GoTime GoJson AssetPath AssetHandler Middleware Jobs.

Open Scope Z_scope.

(** ** Descriptors

    Name, kind and label names; help texts and histogram buckets are left out. *)

Inductive metric_kind := KCounter | KGauge | KHistogram.

Record desc := Desc { d_name : string; d_kind : metric_kind; d_labels : list string }.

#[export] Instance metric_kind_eq_dec : EqDecision metric_kind.
Proof. solve_decision. Defined.
#[export] Instance desc_eq_dec : EqDecision desc.
Proof. solve_decision. Defined.

Definition HTTPRequestsTotal : desc :=
  Desc "audistro_provider_http_requests_total" KCounter ["route"; "method"; "status"].
Definition HTTPRequestDuration : desc :=
  Desc "audistro_provider_http_request_duration_seconds" KHistogram ["route"; "method"].
Definition HTTPResponseBytes : desc := Desc "audistro_provider_http_response_bytes" KHistogram ["route"; "method"].
Definition HTTPInFlight : desc := Desc "audistro_provider_http_inflight_requests" KGauge ["route"].
Definition ScannerScansTotal : desc := Desc "audistro_provider_scanner_scans_total" KCounter ["result"].
Definition ScannerScanDuration : desc := Desc "audistro_provider_scanner_scan_duration_seconds" KHistogram ["result"].
Definition CatalogRequestsTotal : desc :=
  Desc "audistro_provider_catalog_requests_total" KCounter ["endpoint"; "result"; "status"].
Definition CatalogRequestDuration : desc :=
  Desc "audistro_provider_catalog_request_duration_seconds" KHistogram ["endpoint"; "result"].
Definition AnnouncementsTotal : desc := Desc "audistro_provider_announcements_total" KCounter ["result"].
Definition AnnounceSweepsTotal : desc := Desc "audistro_provider_announce_sweeps_total" KCounter ["result"].
Definition ActiveAssetsGauge : desc := Desc "audistro_provider_active_assets" KGauge [].
Definition MissingAssetsGauge : desc := Desc "audistro_provider_missing_assets" KGauge [].
Definition DeferredAnnounces : desc := Desc "audistro_provider_deferred_announces" KGauge [].
Definition ProxyRequestsTotal : desc := Desc "audistro_provider_proxy_requests_total" KCounter ["result"; "status"].
Definition ProxyRequestDuration : desc := Desc "audistro_provider_proxy_request_duration_seconds" KHistogram ["result"].
Definition ProxyUpstreamInFlight : desc := Desc "audistro_provider_proxy_upstream_inflight" KGauge [].
Definition ProxyUpstreamBusyTotal : desc := Desc "audistro_provider_proxy_upstream_busy_total" KCounter [].

Definition descs : list desc :=
  [HTTPRequestsTotal; HTTPRequestDuration; HTTPResponseBytes; HTTPInFlight; ScannerScansTotal; ScannerScanDuration;
   CatalogRequestsTotal; CatalogRequestDuration; AnnouncementsTotal; AnnounceSweepsTotal; ActiveAssetsGauge;
   MissingAssetsGauge; DeferredAnnounces; ProxyRequestsTotal; ProxyRequestDuration; ProxyUpstreamInFlight;
   ProxyUpstreamBusyTotal].

(** ** The registry *)

Notation series := (string * list string)%type.

Inductive prim :=
| PAdd (d : desc) (labels : list string) (delta : Z)
| PSet (d : desc) (labels : list string) (v : Z)
| PObserve (d : desc) (labels : list string) (v : Z).

Definition prim_desc (p : prim) : desc := match p with PAdd d _ _ | PSet d _ _ | PObserve d _ _ => d end.
Definition prim_labels (p : prim) : list string := match p with PAdd _ l _ | PSet _ l _ | PObserve _ l _ => l end.

Fixpoint valid_utf8_fuel (n : nat) (s : string) : bool :=
  match n with
  | O => String.eqb s ""
  | S n' => if String.eqb s "" then true
            else match utf8_size s with O => false | k => valid_utf8_fuel n' (sdrop k s) end
  end.
Definition valid_utf8 (s : string) : bool := valid_utf8_fuel (slen s) s.

(** [WithLabelValues] panics unless there is one value per label, all of them UTF-8. *)
Definition labels_ok (p : prim) : bool :=
  Nat.eqb (length (prim_labels p)) (length (d_labels (prim_desc p))) && forallb valid_utf8 (prim_labels p).

Definition series_of (p : prim) : series := (d_name (prim_desc p), prim_labels p).

(** What an update makes of the value of a counter or gauge, and of what a histogram collected. *)
Definition value_after (p : prim) (k : series) (v : Z) : Z :=
  if decide (series_of p = k) then match p with PAdd _ _ z => v + z | PSet _ _ z => z | PObserve _ _ _ => v end else v.
Definition observed_after (p : prim) (k : series) (o : list Z) : list Z :=
  if decide (series_of p = k) then match p with PObserve _ _ z => o ++ [z] | _ => o end else o.

(** The registry of the Prometheus client library, [None] for a panic. [g_value] is zero and
    [g_observed] empty for a series that was never touched. *)
Class Registry (Reg : Type) := {
  NewRegistry : Reg;
  Register : string -> Reg -> option Reg;
  update : prim -> Reg -> option Reg;
  g_names : Reg -> gset string;
  g_value : Reg -> series -> Z;
  g_observed : Reg -> series -> list Z;
}.

Class RegistryLaws (Reg : Type) `{Registry Reg} : Prop := {
  new_registry : g_names NewRegistry = ∅ /\ (forall k, g_value NewRegistry k = 0) /\ (forall k, g_observed NewRegistry k = []);
  register_fresh n g : n ∉ g_names g ->
    exists g', Register n g = Some g' /\ g_names g' = {[ n ]} ∪ g_names g /\
      (forall k, g_value g' k = g_value g k) /\ (forall k, g_observed g' k = g_observed g k);
  register_taken n g : n ∈ g_names g -> Register n g = None;
  update_valid p g : labels_ok p = true ->
    exists g', update p g = Some g' /\ g_names g' = g_names g /\
      (forall k, g_value g' k = value_after p k (g_value g k)) /\
      (forall k, g_observed g' k = observed_after p k (g_observed g k));
  update_invalid p g : labels_ok p = false -> update p g = None;
}.

Section Calls.
Context {Reg : Type} `{Registry Reg}.

(** [MustRegister] panics on a name the registry has. *)
Definition MustRegister (ns : list string) (g : Reg) : option Reg :=
  foldl (fun g n => g ≫= Register n) (Some g) ns.

(** [New]: [collectors] are the names of the Go and process collectors. *)
Definition New (collectors : list string) (reg : option Reg) : option Reg :=
  let reg := default NewRegistry reg in
  MustRegister (collectors ++ (d_name <$> descs)) reg.

Fixpoint apply_prims (ps : list prim) (g : Reg) : option Reg :=
  match ps with
  | [] => Some g
  | p :: ps' => g' ← update p g; apply_prims ps' g'
  end.

(** On a nil [*Metrics] every function returns at once. *)
Definition on_metrics (ps : list prim) (m : option Reg) : option (option Reg) :=
  match m with
  | None => Some None
  | Some g => Some <$> apply_prims ps g
  end.
End Calls.

(** ** The functions; durations in nanoseconds *)

Definition ObserveHTTPRequest (route method : string) (status duration bytesOut : Z) : list prim :=
  [PAdd HTTPRequestsTotal [route; method; Itoa status] 1;
   PObserve HTTPRequestDuration [route; method] duration] ++
  (if 0 <=? bytesOut then [PObserve HTTPResponseBytes [route; method] bytesOut] else []).

(** The call, and the function it returns. *)
Definition IncInFlight (route : string) : list prim * list prim :=
  ([PAdd HTTPInFlight [route] 1], [PAdd HTTPInFlight [route] (-1)]).

Definition ObserveScan (result : string) (duration : Z) : list prim :=
  [PAdd ScannerScansTotal [result] 1; PObserve ScannerScanDuration [result] duration].

Definition ObserveCatalog (endpoint result : string) (status duration : Z) : list prim :=
  [PAdd CatalogRequestsTotal [endpoint; result; Itoa status] 1; PObserve CatalogRequestDuration [endpoint; result] duration].

Definition ObserveAnnounce (result : string) : list prim := [PAdd AnnouncementsTotal [result] 1].
Definition ObserveAnnounceSweep (result : string) : list prim := [PAdd AnnounceSweepsTotal [result] 1].
Definition SetActiveAssets (n : Z) : list prim := [PSet ActiveAssetsGauge [] n].
Definition SetMissingAssets (n : Z) : list prim := [PSet MissingAssetsGauge [] n].
Definition SetDeferredAnnounces (n : Z) : list prim := [PSet DeferredAnnounces [] n].

Definition ObserveProxy (status duration : Z) (result : string) : list prim :=
  [PAdd ProxyRequestsTotal [result; Itoa status] 1; PObserve ProxyRequestDuration [result] duration].

Definition IncProxyUpstreamInFlight : list prim * list prim :=
  ([PAdd ProxyUpstreamInFlight [] 1], [PAdd ProxyUpstreamInFlight [] (-1)]).

Definition IncProxyUpstreamBusy : list prim := [PAdd ProxyUpstreamBusyTotal [] 1].

(** ** What the other components record *)

Definition record_prims (duration : Z) (x : record) : list prim :=
  match x with
  | RInFlight route d => if d =? 1 then (IncInFlight route).1 else (IncInFlight route).2
  | RObserve route method status bytes => ObserveHTTPRequest route method status duration bytes
  | RHandler (EObserveProxy status result) => ObserveProxy status duration result
  | RHandler EUpstreamBusy => IncProxyUpstreamBusy
  | _ => []
  end.

Definition job_prims (m : job_metric) : list prim :=
  match m with
  | MActive n => SetActiveAssets n
  | MMissing n => SetMissingAssets n
  | MDeferred n => SetDeferredAnnounces n
  | MSweep label => ObserveAnnounceSweep label
  | MAnnounce label => ObserveAnnounce label
  end.

(** ** [internal/buildinfo] and [internal/logging] *)

Record BuildInfo := MkBuildInfo { bi_Version : string; bi_Commit : string; bi_BuildTime : string }.

(** The variables are set at link time, with defaults. *)
Definition Info (ldflags : option BuildInfo) : BuildInfo := default (MkBuildInfo "dev" "none" "unknown") ldflags.

(** The attributes every line of the log has. *)
Definition logger_attrs (service : string) (b : BuildInfo) : list (string * string) :=
  [("service", service); ("version", bi_Version b); ("commit", bi_Commit b); ("build_time", bi_BuildTime b)].

(** ** Registration *)

Section RegistryFacts.
Context {Reg : Type} `{RegistryLaws Reg}.

Lemma MustRegister_cons n ns (g : Reg) :
  MustRegister (n :: ns) g = Register n g ≫= MustRegister ns.
Proof.
  unfold MustRegister. cbn. destruct (Register n g); [done|]. cbn. induction ns as [|m ns IH]; [done|]. exact IH.
Qed.

Lemma MustRegister_names ns (g g' : Reg) : MustRegister ns g = Some g' ->
  (forall k, g_value g' k = g_value g k) /\ (forall k, g_observed g' k = g_observed g k) /\
  (forall n, n ∈ g_names g' <-> n ∈ ns \/ n ∈ g_names g).
Proof.
  revert g. induction ns as [|n ns IH]; intros g; [intros [= <-]; set_solver|]. rewrite MustRegister_cons.
  destruct (decide (n ∈ g_names g)) as [Hin|Hni]; [by rewrite (register_taken n g Hin)|].
  destruct (register_fresh n g Hni) as (g1 & -> & Hn1 & Hv1 & Ho1). cbn. intros E. destruct (IH _ E) as (Hv & Ho & Hn).
  split_and!; [intros k; by rewrite Hv, Hv1|intros k; by rewrite Ho, Ho1|]. intros m. rewrite Hn, Hn1. set_solver.
Qed.

Lemma MustRegister_ok ns (g : Reg) : NoDup ns -> (forall n, n ∈ ns -> n ∉ g_names g) -> is_Some (MustRegister ns g).
Proof.
  intros Hnd. revert g. induction Hnd as [|n ns Hn Hnd IH]; intros g Hg; [done|]. rewrite MustRegister_cons.
  destruct (register_fresh n g) as (g1 & -> & Hn1 & _); [apply Hg; left|]. cbn. apply IH. intros m Hm. rewrite Hn1.
  assert (m <> n) by (intros ->; done). assert (m ∉ g_names g) by (apply Hg; by right). set_solver.
Qed.

(** A collector can be made on a new registry, and not a second time on the same one. *)
Lemma New_fresh collectors : NoDup (collectors ++ (d_name <$> descs)) ->
  exists g : Reg, New collectors None = Some g /\ New collectors (Some g) = None.
Proof.
  intros Hnd. destruct (MustRegister_ok (collectors ++ (d_name <$> descs)) NewRegistry Hnd) as [g Hg].
  { rewrite (proj1 new_registry). set_solver. }
  exists g. split; [exact Hg|]. unfold New. cbn [default].
  assert (Hin : forall ns (g' : Reg), (exists n, n ∈ ns /\ n ∈ g_names g') -> MustRegister ns g' = None).
  { clear -H0. induction ns as [|n ns IH]; intros g' (m & Hm & Hg); [set_solver|]. rewrite MustRegister_cons.
    destruct (decide (n ∈ g_names g')) as [Hin|Hni]; [by rewrite register_taken|].
    destruct (register_fresh n g' Hni) as (g1 & -> & Hn1 & _). cbn. apply IH. exists m. rewrite Hn1. set_solver. }
  apply Hin. exists (d_name HTTPRequestsTotal). split; [apply elem_of_app; right; by left|].
  apply (MustRegister_names _ _ _ Hg). left. apply elem_of_app. right. by left.
Qed.
End RegistryFacts.

Lemma descs_distinct : NoDup (d_name <$> descs).
Proof. apply (bool_decide_unpack _). vm_compute. done. Qed.

(** ** Typing *)

Lemma ascii_valid s : is_ascii s = true -> valid_utf8 s = true.
Proof.
  unfold valid_utf8, is_ascii. induction s as [|c s IH]; [done|]. cbn [sall String.length]. intros [Hc Hs]%andb_true_iff.
  cbn [valid_utf8_fuel]. change (String.eqb (String c s) "") with false. cbn iota. cbn [utf8_size]. rewrite Hc. cbn [sdrop].
  by apply IH.
Qed.

Lemma Itoa_valid z : valid_utf8 (Itoa z) = true.
Proof.
  apply ascii_valid. eapply is_ascii_sub, Itoa_chars. intros c [Hd|Hd]%orb_true_iff.
  - unfold is_digit in Hd. breflect. lia.
  - apply Ascii.eqb_eq in Hd as ->. done.
Qed.

(** A series fits a descriptor of the given kinds. *)
Definition fits (ok : metric_kind -> Prop) (k : series) : Prop :=
  exists d, d ∈ descs /\ d_name d = k.1 /\ length k.2 = length (d_labels d) /\ ok (d_kind d).

(** The update is one its metric has, of a registered descriptor; counters only grow. *)
Definition prim_ok (p : prim) : Prop :=
  prim_desc p ∈ descs /\ labels_ok p = true /\
  match p with
  | PAdd d _ z => d_kind d <> KHistogram /\ (d_kind d = KCounter -> 0 <= z)
  | PSet d _ _ => d_kind d = KGauge
  | PObserve d _ _ => d_kind d = KHistogram
  end.


Lemma desc_inj d d' : d ∈ descs -> d' ∈ descs -> d_name d = d_name d' -> d = d'.
Proof.
  intros Hd Hd' E. apply list_elem_of_lookup in Hd as [i Hi], Hd' as [j Hj].
  assert (i = j) as ->; [|congruence]. eapply NoDup_lookup; [exact descs_distinct|..]; rewrite list_lookup_fmap.
  - by rewrite Hi.
  - by rewrite Hj, E.
Qed.

Section Typing.
Context {Reg : Type} `{RegistryLaws Reg}.

(** The series that were touched fit the descriptors. *)
Definition typed (g : Reg) : Prop :=
  (forall k, g_value g k <> 0 -> fits (fun kd => kd <> KHistogram) k) /\
  (forall k, g_observed g k <> [] -> fits (fun kd => kd = KHistogram) k).

Definition metric_value (g : Reg) (d : desc) (labels : list string) : Z := g_value g (d_name d, labels).

Definition counters_grow (g g' : Reg) : Prop :=
  forall d l, d ∈ descs -> d_kind d = KCounter -> metric_value g d l <= metric_value g' d l.

Lemma update_ok p (g : Reg) : prim_ok p -> typed g ->
  exists g', update p g = Some g' /\ typed g' /\ counters_grow g g'.
Proof.
  intros (Hd & Hl & Hk) [Hv Ho]. destruct (update_valid p g Hl) as (g' & E & _ & Hv' & Ho'). exists g'. split; [done|].
  apply andb_true_iff in Hl as [Hl _]. apply Nat.eqb_eq in Hl.
  assert (Hfit : forall ok : metric_kind -> Prop, ok (d_kind (prim_desc p)) -> fits ok (series_of p)).
  { intros ok Hok. exists (prim_desc p). done. }
  split; [split; intros k|].
  - rewrite Hv'. unfold value_after. destruct (decide (series_of p = k)) as [<-|]; [|by apply Hv].
    destruct p as [d l z|d l z|d l z]; cbn [prim_desc] in *; intros Hne; [apply Hfit; tauto|apply Hfit; by rewrite Hk|by apply Hv].
  - rewrite Ho'. unfold observed_after. destruct (decide (series_of p = k)) as [<-|]; [|by apply Ho].
    destruct p as [d l z|d l z|d l z]; cbn [prim_desc] in *; intros Hne; [by apply Ho..|by apply Hfit].
  - intros d' l' Hd' Hc. unfold metric_value. rewrite Hv'. unfold value_after.
    destruct (decide (series_of p = (d_name d', l'))) as [E'|]; [|lia]. injection E' as E' _.
    apply (desc_inj (prim_desc p) d' Hd Hd') in E'. destruct p as [d l z|d l z|d l z]; cbn [prim_desc] in *; subst; [|congruence|lia].
    assert (0 <= z) by (by apply Hk). lia.
Qed.

Lemma apply_prims_ok ps : forall g : Reg, Forall prim_ok ps -> typed g ->
  exists g', apply_prims ps g = Some g' /\ typed g' /\ counters_grow g g'.
Proof.
  induction ps as [|p ps IH]; intros g HF Ht; [exists g; split_and!; [done|done|]; intros d l _ _; lia|].
  apply Forall_cons in HF as [Hp HF]. destruct (update_ok p g Hp Ht) as (g1 & E1 & Ht1 & Hc1).
  destruct (IH g1 HF Ht1) as (g2 & E2 & Ht2 & Hc2). exists g2. cbn. rewrite E1. split_and!; [done|done|].
  intros d l Hd Hk. specialize (Hc1 d l Hd Hk). specialize (Hc2 d l Hd Hk). lia.
Qed.
End Typing.

(** ** The calls of the provider *)

Inductive provider_call : list prim -> Prop :=
| c_http route method st dur n : is_ascii route = true -> is_ascii method = true ->
    provider_call (ObserveHTTPRequest route method st dur n)
| c_inc route : is_ascii route = true -> provider_call (IncInFlight route).1
| c_dec route : is_ascii route = true -> provider_call (IncInFlight route).2
| c_scan res dur : is_ascii res = true -> provider_call (ObserveScan res dur)
| c_catalog ep res st dur : is_ascii ep = true -> is_ascii res = true -> provider_call (ObserveCatalog ep res st dur)
| c_announce res : is_ascii res = true -> provider_call (ObserveAnnounce res)
| c_sweep res : is_ascii res = true -> provider_call (ObserveAnnounceSweep res)
| c_active n : provider_call (SetActiveAssets n)
| c_missing n : provider_call (SetMissingAssets n)
| c_deferred n : provider_call (SetDeferredAnnounces n)
| c_proxy st dur res : is_ascii res = true -> provider_call (ObserveProxy st dur res)
| c_proxy_inc : provider_call IncProxyUpstreamInFlight.1
| c_proxy_dec : provider_call IncProxyUpstreamInFlight.2
| c_busy : provider_call IncProxyUpstreamBusy.

Lemma labels_valid d l z : length l = length (d_labels d) -> forallb valid_utf8 l = true ->
  labels_ok (PAdd d l z) = true /\ labels_ok (PSet d l z) = true /\ labels_ok (PObserve d l z) = true.
Proof. intros H1 H2. unfold labels_ok. cbn. by rewrite H1, H2, Nat.eqb_refl. Qed.

Ltac prim_tac :=
  repeat (constructor; [unfold prim_ok; (split; [|split]); [apply (bool_decide_unpack _); vm_compute; done|
    unfold labels_ok; cbn -[valid_utf8 Itoa]; rewrite ?Itoa_valid, ?ascii_valid by done; done|
    first [done|split; [done|intros; first [done|lia]]]]|]); try constructor.

Lemma provider_call_ok ps : provider_call ps -> Forall prim_ok ps.
Proof.
  destruct 1; unfold ObserveHTTPRequest, ObserveScan, ObserveCatalog, ObserveAnnounce, ObserveAnnounceSweep, SetActiveAssets,
    SetMissingAssets, SetDeferredAnnounces, ObserveProxy, IncProxyUpstreamBusy, IncInFlight, IncProxyUpstreamInFlight;
    cbn [fst snd]; try (case_match; cbn [app]); prim_tac.
Qed.

Section MetricsTheorems.
Context {Reg : Type} `{RegistryLaws Reg}.


End MetricsTheorems.

(** ** Totals *)

(** What a list of updates adds to a counter or gauge. *)
Definition added1 (d : desc) (l : list string) (p : prim) : Z :=
  match p with PAdd d' l' z => if decide (d_name d' = d_name d /\ l' = l) then z else 0 | _ => 0 end.
Definition added (d : desc) (l : list string) (ps : list prim) : Z := foldr (fun p a => added1 d l p + a) 0 ps.

Lemma added_app d l ps qs : added d l (ps ++ qs) = added d l ps + added d l qs.
Proof. unfold added. induction ps as [|p ps IH]; cbn; [done|]. rewrite IH. lia. Qed.

Definition never_set (d : desc) (p : prim) : Prop := match p with PSet d' _ _ => d_name d' <> d_name d | _ => True end.

Section Totals.
Context {Reg : Type} `{RegistryLaws Reg}.

Lemma update_value d l p (g g' : Reg) : update p g = Some g' -> never_set d p ->
  metric_value g' d l = metric_value g d l + added1 d l p.
Proof.
  intros E Hp. destruct (labels_ok p) eqn:Hl; [|by rewrite update_invalid in E].
  destruct (update_valid p g Hl) as (g1 & E1 & _ & Hv & _). assert (g1 = g') as -> by congruence.
  unfold metric_value. rewrite Hv. unfold value_after, series_of.
  destruct p as [d' l' z|d' l' z|d' l' z]; cbn [prim_desc prim_labels added1 never_set] in *.
  - destruct (decide (d_name d' = d_name d /\ l' = l)) as [[-> ->]|Hne]; [by rewrite decide_True|].
    rewrite decide_False by naive_solver. lia.
  - rewrite decide_False by naive_solver. lia.
  - case_decide; lia.
Qed.

Lemma apply_prims_value d l ps : forall g g' : Reg, apply_prims ps g = Some g' -> Forall (never_set d) ps ->
  metric_value g' d l = metric_value g d l + added d l ps.
Proof.
  induction ps as [|p ps IH]; intros g g' E HF; [injection E as <-; unfold added; cbn; lia|]. cbn [apply_prims] in E.
  apply bind_Some in E as (g1 & E1 & E). apply Forall_cons in HF as [Hp HF].
  rewrite (IH _ _ E HF), (update_value d l p g g1 E1 Hp). unfold added. cbn [foldr]. lia.
Qed.
End Totals.

(** The updates of the handlers behind the mux concern the proxy only. *)
Definition no_set (p : prim) : Prop := match p with PSet _ _ _ => False | _ => True end.
Definition handler_prim (p : prim) : Prop :=
  (prim_ok p /\ no_set p) /\ d_name (prim_desc p) <> d_name HTTPRequestsTotal /\ d_name (prim_desc p) <> d_name HTTPInFlight.

Lemma handler_prims_ok dur ef : (forall st res, ef = EObserveProxy st res -> is_ascii res = true) ->
  Forall handler_prim (record_prims dur (RHandler ef)).
Proof.
  intros Ha. destruct ef; try (by constructor); unfold handler_prim; apply Forall_and; (split; [apply Forall_and; split|]).
  - apply provider_call_ok. constructor. by eapply Ha.
  - by repeat constructor.
  - by repeat constructor.
  - apply (provider_call_ok _ c_busy).
  - by repeat constructor.
  - by repeat constructor.
Qed.

Section Requests.
Context `{UL : UnicodeLower} (FindRoute : Request -> option oa_route) (ValidateRequest : oa_route -> Request -> option string).
Context (mux : Handler) (mux_records : forall ctx r w, handler_records (mux ctx r w).2).
(** The labels of the handlers are literals of the code. *)
Context (mux_ascii : forall ctx r w st res, RHandler (EObserveProxy st res) ∈ (mux ctx r w).2 -> is_ascii res = true).

(** A served request: its identifier, latency and the request. *)
Notation served := (string * Z * Request)%type.
Definition serve_one (q : served) : run_end * list record := serve FindRoute ValidateRequest q.1.1 q.1.2 mux q.2.
Definition served_status (q : served) : Z := seen_status new_rw (end_rw (serve_one q).1).
Definition request_prims (q : served) : list prim := (serve_one q).2 ≫= record_prims q.1.2.
Definition request_labels (q : served) : list string := [routeLabel (r_path q.2); r_method q.2; Itoa (served_status q)].

Lemma inner_ascii requestID ctx r w st res :
  RHandler (EObserveProxy st res) ∈ (inner FindRoute ValidateRequest mux requestID ctx r w).2 -> is_ascii res = true.
Proof.
  unfold inner, OpenAPIValidation, RequestID. repeat case_match; try apply mux_ascii; set_solver.
Qed.

Lemma routeLabel_ascii path : is_ascii (routeLabel path) = true.
Proof. unfold routeLabel. by repeat case_match. Qed.

(** The updates of one request: in flight, those of the handlers, the observation, out of flight. *)
Lemma request_prims_shape q : exists mid bytes,
  request_prims q = (IncInFlight (routeLabel (r_path q.2))).1 ++ mid ++
    ObserveHTTPRequest (routeLabel (r_path q.2)) (r_method q.2) (served_status q) q.1.2 bytes ++
    (IncInFlight (routeLabel (r_path q.2))).2 /\
  Forall handler_prim mid.
Proof.
  destruct q as [[id lat] r]. unfold request_prims, served_status, serve_one. cbn [fst snd].
  destruct (inner FindRoute ValidateRequest mux id None r new_rw) as [e l] eqn:Hi.
  pose proof (serve_inner FindRoute ValidateRequest mux id lat r e l Hi) as Hs. cbv zeta in Hs. rewrite Hs. cbn [fst snd end_rw].
  pose proof (inner_records FindRoute ValidateRequest mux mux_records id None r new_rw) as Hr. rewrite Hi in Hr. cbn in Hr.
  assert (Ha : forall st res, RHandler (EObserveProxy st res) ∈ l -> is_ascii res = true).
  { intros st res Hin. eapply (inner_ascii id None r new_rw). rewrite Hi. done. }
  set (w := match e with Returned w => w | Panicked w => _ end) in *.
  set (pan := match e with Returned _ => [] | Panicked _ => _ end) in *.
  exists ((l ++ pan) ≫= record_prims lat), (seen_bytes new_rw w). split.
  - change (RInFlight ?x 1 :: ?t) with ([RInFlight x 1] ++ t). rewrite !bind_app. cbn [mbind list_bind record_prims].
    rewrite ?app_nil_r. change (1 =? 1) with true. change (-1 =? 1) with false. cbn iota.
    rewrite <- !app_assoc. reflexivity.
  - rewrite bind_app. apply Forall_app. split.
    + clear Hs Hi. induction l as [|x l IH]; [constructor|]. apply Forall_cons in Hr as [[ef ->] Hr].
      change ((RHandler ef :: l) ≫= record_prims lat) with (record_prims lat (RHandler ef) ++ (l ≫= record_prims lat)).
      apply Forall_app. split; [|apply IH; [done|intros st res Hin; eapply Ha; by right]].
      apply handler_prims_ok. intros st res ->. eapply Ha. by left.
    + subst pan. destruct e; constructor.
Qed.

Lemma added_none d l ps : Forall (fun p => d_name (prim_desc p) <> d_name d) ps -> added d l ps = 0.
Proof.
  induction 1 as [|p ps Hp _ IH]; [done|]. unfold added in *. cbn [foldr]. rewrite IH.
  destruct p; cbn in *; [rewrite decide_False by naive_solver|..]; lia.
Qed.

Lemma ObserveHTTPRequest_added route method st dur n l :
  added HTTPRequestsTotal l (ObserveHTTPRequest route method st dur n) =
    (if decide ([route; method; Itoa st] = l) then 1 else 0) /\
  added HTTPInFlight l (ObserveHTTPRequest route method st dur n) = 0.
Proof.
  unfold ObserveHTTPRequest. rewrite !added_app. unfold added. cbn [foldr added1].
  split; [|rewrite decide_False by naive_solver; by destruct (0 <=? n)].
  destruct (decide ([route; method; Itoa st] = l)) as [->|Hne].
  - rewrite decide_True by done. by destruct (0 <=? n).
  - rewrite decide_False by naive_solver. by destruct (0 <=? n).
Qed.

Lemma request_added q l :
  added HTTPRequestsTotal l (request_prims q) = (if decide (request_labels q = l) then 1 else 0) /\
  added HTTPInFlight l (request_prims q) = 0.
Proof.
  destruct (request_prims_shape q) as (mid & n & -> & Hmid). unfold IncInFlight. cbn [fst snd].
  rewrite !added_app.
  destruct (ObserveHTTPRequest_added (routeLabel (r_path q.2)) (r_method q.2) (served_status q) q.1.2 n l) as [-> ->].
  rewrite (added_none HTTPRequestsTotal l mid), (added_none HTTPInFlight l mid).
  - unfold added, request_labels. cbn [foldr added1]. split.
    + repeat case_decide; try lia; exfalso; match goal with Hx : _ /\ _ |- _ => destruct Hx as [Hx _]; discriminate Hx end.
    + repeat case_decide; lia.
  - eapply Forall_impl; [exact Hmid|]. unfold handler_prim. naive_solver.
  - eapply Forall_impl; [exact Hmid|]. unfold handler_prim. naive_solver.
Qed.

Lemma request_prims_ok q : is_ascii (r_method q.2) = true -> Forall prim_ok (request_prims q).
Proof.
  intros Ha. destruct (request_prims_shape q) as (mid & n & -> & Hmid). pose proof (routeLabel_ascii (r_path q.2)) as Hr.
  rewrite !Forall_app. split_and!; [apply provider_call_ok; by constructor| |apply provider_call_ok; by constructor..].
  eapply Forall_impl; [exact Hmid|]. by intros p [[? _] _].
Qed.

Lemma request_no_set q : Forall no_set (request_prims q).
Proof.
  destruct (request_prims_shape q) as (mid & n & -> & Hmid). unfold ObserveHTTPRequest, IncInFlight.
  rewrite !Forall_app. split_and!; [by repeat constructor| |by repeat constructor|by case_match; repeat constructor|by repeat constructor].
  eapply Forall_impl; [exact Hmid|]. by intros p [[_ ?] _].
Qed.

Lemma requests_added reqs l :
  added HTTPRequestsTotal l (reqs ≫= request_prims) = Z.of_nat (length (filter (fun q => request_labels q = l) reqs)) /\
  added HTTPInFlight l (reqs ≫= request_prims) = 0.
Proof.
  induction reqs as [|q reqs [IH1 IH2]]; [done|].
  change ((q :: reqs) ≫= request_prims) with (request_prims q ++ (reqs ≫= request_prims)).
  rewrite !added_app, IH1, IH2. destruct (request_added q l) as [-> ->]. rewrite filter_cons.
  case_decide; cbn [length]; lia.
Qed.

Context {Reg : Type} `{RL : RegistryLaws Reg}.

Lemma requests_run collectors (g0 : Reg) reqs :
  New collectors None = Some g0 -> Forall (fun q => is_ascii (r_method q.2) = true) reqs ->
  exists g, apply_prims (reqs ≫= request_prims) g0 = Some g /\
    (forall l, metric_value g HTTPRequestsTotal l = Z.of_nat (length (filter (fun q => request_labels q = l) reqs))) /\
    (forall l, metric_value g HTTPInFlight l = 0).
Proof.
  intros Hn HF. pose proof (MustRegister_names _ _ _ Hn) as (Hv & Ho & _). destruct (new_registry (Reg := Reg)) as (_ & Hv0 & Ho0).
  cbn [default from_option] in Hv, Ho.
  assert (Hok : Forall prim_ok (reqs ≫= request_prims)).
  { clear Hn Hv Ho. induction HF as [|q reqs Hq _ IH]; [constructor|].
    change ((q :: reqs) ≫= request_prims) with (request_prims q ++ (reqs ≫= request_prims)).
    apply Forall_app. split; [by apply request_prims_ok|done]. }
  destruct (apply_prims_ok (reqs ≫= request_prims) g0 Hok) as (g & E & _ & _).
  { split; intros k; [by rewrite Hv, Hv0|by rewrite Ho, Ho0]. }
  assert (Hset : forall d, Forall (never_set d) (reqs ≫= request_prims)).
  { intros d. clear -UL mux_records mux_ascii. induction reqs as [|q reqs IH]; [constructor|].
    change ((q :: reqs) ≫= request_prims) with (request_prims q ++ (reqs ≫= request_prims)).
    apply Forall_app. split; [|done]. eapply Forall_impl; [apply request_no_set|]. by intros []. }
  assert (H0 : forall d l, metric_value g0 d l = 0) by (intros d l; unfold metric_value; by rewrite Hv, Hv0).
  exists g. split; [done|]. split; intros l.
  - rewrite (apply_prims_value HTTPRequestsTotal l _ g0 g E), H0 by apply Hset.
    by rewrite (proj1 (requests_added reqs l)).
  - rewrite (apply_prims_value HTTPInFlight l _ g0 g E), H0 by apply Hset.
    by rewrite (proj2 (requests_added reqs l)).
Qed.


Lemma filter_single {A} (P : A -> Prop) `{forall x, Decision (P x)} l x :
  NoDup l -> x ∈ l -> (forall y, y ∈ l -> P y <-> y = x) -> filter P l = [x].
Proof.
  intros Hnd Hin HP. assert (Hnone : forall l', (forall y, y ∈ l' -> y ∈ l) -> x ∉ l' -> filter P l' = []).
  { clear Hnd Hin. induction l' as [|y l' IH]; intros Hs Hx; [done|]. rewrite filter_cons, decide_False.
    - apply IH; set_solver.
    - rewrite HP by (apply Hs; left). set_solver. }
  apply list_elem_of_split in Hin as (l1 & l2 & ->). apply NoDup_app in Hnd as (_ & H1 & [H2 _]%NoDup_cons).
  rewrite filter_app, filter_cons, decide_True by (apply HP; [set_solver|done]).
  rewrite !Hnone; [done|set_solver|done|set_solver|]. intros Hx. apply (H1 x Hx). left.
Qed.

Definition with_method (k : nat) : string := "M" +:+ Itoa (Z.of_nat k).

Lemma with_method_ascii k : is_ascii (with_method k) = true.
Proof.
  unfold with_method, is_ascii. rewrite sall_app. cbn [sall]. change (byte_of "M" <? 128) with true. cbn [andb].
  eapply sall_impl, Itoa_chars. intros c [Hd|Hd]%orb_true_iff; apply Z.ltb_lt.
  - unfold is_digit in Hd. breflect. lia.
  - by apply Ascii.eqb_eq in Hd as ->.
Qed.

(** The number of series has no bound: whatever the mux does, [n] requests that differ only in their
    method, which a client chooses freely, leave [n] series of the request counter with the value 1. *)
Theorem method_label_unbounded collectors (g0 : Reg) (base : Request) n :
  New collectors None = Some g0 ->
  exists reqs g, length reqs = n /\
    Forall (fun q => exists k, q.2 = MkRequest (with_method k) (r_path base) (r_rawquery base) (r_header base)
                                (r_remote base) (r_tls base) (r_ctx_done base)) reqs /\
    apply_prims (reqs ≫= request_prims) g0 = Some g /\
    exists ls : list (list string), NoDup ls /\ length ls = n /\ Forall (fun l => metric_value g HTTPRequestsTotal l = 1) ls.
Proof.
  intros Hn.
  set (mk k := ("", 0, MkRequest (with_method k) (r_path base) (r_rawquery base) (r_header base)
                         (r_remote base) (r_tls base) (r_ctx_done base)) : served).
  exists (mk <$> seq 0 n). destruct (requests_run collectors g0 (mk <$> seq 0 n) Hn) as (g & E & Ht & _).
  { apply Forall_fmap, Forall_true. intros k. apply with_method_ascii. }
  exists g. split_and!; [by rewrite length_fmap, length_seq| |done|].
  { apply Forall_fmap, Forall_true. intros k. by exists k. }
  assert (Hinj : forall k k', request_labels (mk k) = request_labels (mk k') -> k = k').
  { intros k k' Hm. apply (f_equal (fun p : list string => p !! 1%nat)) in Hm. cbn -[Itoa] in Hm. unfold with_method in Hm.
    injection Hm as Hm. apply Itoa_inj in Hm. lia. }
  exists ((fun k => request_labels (mk k)) <$> seq 0 n). split_and!.
  - apply NoDup_fmap_2_strong; [|apply NoDup_seq]. intros k k' _ _. apply Hinj.
  - by rewrite length_fmap, length_seq.
  - apply Forall_fmap, Forall_forall. intros k Hk. cbn. rewrite Ht.
    assert (Hf : filter (fun q => request_labels q = request_labels (mk k)) (mk <$> seq 0 n) = [mk k]); [|by rewrite Hf].
    apply filter_single; [by apply NoDup_fmap_2; [intros j j' Hj; apply Hinj; by rewrite Hj|apply NoDup_seq]|by apply list_elem_of_fmap_2|].
    intros q (j & -> & _)%list_elem_of_fmap. split; [by intros ->%Hinj|by intros ->].
Qed.
End Requests.

(** ** Witnesses *)

Module MetricsDemo.
#[local] Instance demo_lower : UnicodeLower := fun s => s.
Definition collectors : list string := ["go_goroutines"; "process_cpu_seconds_total"].
(** A registry: the names, the values of counters and gauges, and what histograms observed. *)
Record registry := MkRegistry {
  rg_names : gset string;
  rg_values : gmap series Z;
  rg_observed : gmap series (list Z);
}.

Definition rg_update (p : prim) (g : registry) : option registry :=
  if negb (labels_ok p) then None
  else
    let k := series_of p in
    Some match p with
         | PAdd _ _ z => MkRegistry (rg_names g) (<[k := default 0 (rg_values g !! k) + z]> (rg_values g)) (rg_observed g)
         | PSet _ _ z => MkRegistry (rg_names g) (<[k := z]> (rg_values g)) (rg_observed g)
         | PObserve _ _ z =>
             MkRegistry (rg_names g) (rg_values g) (<[k := default [] (rg_observed g !! k) ++ [z]]> (rg_observed g))
         end.

#[export] Instance demo_registry : Registry registry := {|
  NewRegistry := MkRegistry ∅ ∅ ∅;
  Register n g := if bool_decide (n ∈ rg_names g) then None
                  else Some (MkRegistry ({[ n ]} ∪ rg_names g) (rg_values g) (rg_observed g));
  update := rg_update;
  g_names := rg_names;
  g_value g k := default 0 (rg_values g !! k);
  g_observed g k := default [] (rg_observed g !! k);
|}.

#[export] Instance demo_registry_laws : RegistryLaws registry.
Proof.
  split.
  - done.
  - intros n g Hn. cbn. rewrite bool_decide_false by done. by eexists.
  - intros n g Hn. cbn. by rewrite bool_decide_true.
  - intros p g Hl. cbn. unfold rg_update. rewrite Hl. cbn [negb]. eexists. split; [done|].
    unfold value_after, observed_after.
    destruct p as [d l z|d l z|d l z]; cbn; (split; [done|]); (split; intros k; [|try (by case_decide)]); try (by case_decide);
      (destruct (decide (series_of _ = k)) as [<-|Hne]; [by rewrite lookup_insert_eq|by rewrite lookup_insert_ne]).
  - intros p g Hl. cbn. unfold rg_update. by rewrite Hl.
Qed.

Definition g0 : registry := default NewRegistry (New collectors None).

Lemma g0_new : New collectors None = Some g0.
Proof.
  destruct (New_fresh (Reg := registry) collectors) as (g & E & _); [apply (bool_decide_unpack _); vm_compute; done|].
  unfold g0. by rewrite E.
Qed.


Definition get (path : string) : Request := MkRequest "GET" path "" ∅ "1.2.3.4:5" false false.
Definition no_route := MiddlewareDemo.no_route.
Definition valid := MiddlewareDemo.valid.
Definition mux := MiddlewareDemo.plain_mux.

Lemma mux_labels ctx r w st res : RHandler (EObserveProxy st res) ∈ (mux ctx r w).2 -> is_ascii res = true.
Proof. cbn. set_solver. Qed.


Lemma method_label_unbounded_witness :
  exists reqs (g : registry), length reqs = 50%nat /\ apply_prims (reqs ≫= request_prims no_route valid mux) g0 = Some g.
Proof.
  destruct (method_label_unbounded no_route valid mux MiddlewareDemo.plain_records mux_labels collectors g0
    (get "/healthz") 50 g0_new) as (reqs & g & Hl & _ & E & _). by exists reqs, g.
Defined.
End MetricsDemo.
