(* ===== verification/Main.v ===== *)
(** * The program

    [cmd/audistro-provider/main.go]: start-up, in the order in which the components are brought
    up, and shut-down. Start-up threads the file system, the database and the gauges; it ends in
    an exit with code 1 or with what the server is built from. The theorems: whatever the program
    serves, it serves with a validated configuration, a well-formed identity, a migrated database
    and, unless the start-up scan is off, an asset table that mirrors the disk; a catalog that
    cannot be reached never keeps the provider down and is reported; and the order of shut-down
    with the exit codes. *)

From S2P Require Import Prelude GoStrings GoHttp GoTime Config Sha256 EnvCheck Catalog Identity FileStore Repository Migrate.
From S2P Require Import FsSecure OriginAuth Scanner Jobs InternalApi Health Runner.
Open Scope Z_scope.

Inductive exit_reason :=
| XEnvironment (e : env_err)
| XConfig (e : config_err)
| XDataPath (e : id_err)
| XAssetsPath (e : id_err)
| XIdentity (e : id_err)
| XOpenDB (e : string)
| XMigrate (e : mig_err)
| XStartupScan (e : job_err).

Inductive gauge := GDeferred (n : Z) | GActive (n : Z) | GMissing (n : Z).

(** What start-up changes: the file system, the database's schema and its rows, the gauges and the
    observations of the catalog client. *)
Record boot_state := Boot_State {
  bt_os : osst;
  bt_schema : schema;
  bt_db : db;
  bt_gauges : list gauge;
  bt_catalog : list cat_obs;
}.

Definition Boot (A : Type) : Type := boot_state -> result exit_reason A * boot_state.

#[export] Instance Boot_ret : MRet Boot := fun A a s => (Ok a, s).
#[export] Instance Boot_bind : MBind Boot := fun A B f m s =>
  match m s with
  | (Ok a, s') => f a s'
  | (Err x, s') => (Err x, s')
  end.

(** An error on which [main] exits. *)
Definition or_exit {E A} (k : E -> exit_reason) (r : result E A) : Boot A := fun s =>
  (match r with Ok a => Ok a | Err e => Err (k e) end, s).

Definition on_files {A} (k : id_err -> exit_reason) (m : OS A) : Boot A := fun s =>
  let '(r, o) := m (bt_os s) in
  (match r with Ok a => Ok a | Err e => Err (k e) end,
   Boot_State o (bt_schema s) (bt_db s) (bt_gauges s) (bt_catalog s)).

Definition set_gauge (g : gauge) : Boot unit := fun s =>
  (Ok tt, Boot_State (bt_os s) (bt_schema s) (bt_db s) (bt_gauges s ++ [g]) (bt_catalog s)).

Definition observe (obs : list cat_obs) : Boot unit := fun s =>
  (Ok tt, Boot_State (bt_os s) (bt_schema s) (bt_db s) (bt_gauges s) (bt_catalog s ++ obs)).

(** A query whose error is ignored. *)
Definition query {A} (m : DB A) : Boot (result repo_err A) := fun s =>
  let '(r, d) := m (bt_db s) in (Ok r, Boot_State (bt_os s) (bt_schema s) d (bt_gauges s) (bt_catalog s)).

Section Main.
Context `{UnicodeLower} `{RegexpMatch} `{UuidOps} `{BtcecOps} `{TimeParseLenient}.
Context {N : Type}.

(** What one start meets outside: the environment variables, the file that may hold the environment's
    schema, the checks of the configuration, the system calls on the file system, the random sources
    and the clock, the faults of the database, the scan and the catalog. The file with the origin's
    secret is read twice, by the configuration's check ([readFile] of [bw_validate]) and later through
    [bw_secret]; [bw_faults] are the faults of the repository's calls, and [bw_enforced] says whether
    foreign keys are enforced on the connection. *)
Record boot_world := BootWorld {
  bw_env : environ;
  bw_executable : result string string;
  bw_readFile : string -> result string string;
  bw_validate : validate_env N;
  bw_mkdir_data : os_env;
  bw_mkdir_assets : os_env;
  bw_identity : os_env;
  bw_fresh : fresh;
  bw_secret : string -> result string string;
  bw_rand : Z -> result string (list Z);
  bw_open : db_call -> option string;
  bw_migrate : list (option string);
  bw_faults : list (option string);
  bw_enforced : bool;
  bw_scan : result scan_err (ScanResult * Z);
  bw_now : Z;
  bw_post : URL -> payload -> result string catalog_resp;
}.

(** The outcome of start-up before the catalog is asked. *)
Record local_parts := Local {
  lo_cfg : Config;
  lo_identity : FullIdentity;
  lo_created : bool;
  lo_originAuthMode : string;
  lo_signer : option HMACSigner;
  lo_originAuthReady : bool;
}.

(** What the server and the jobs are built from. *)
Record booted := Booted {
  bo_local : local_parts;
  bo_client : option URL;
  bo_health : HealthState;
}.

Definition startup_scan (w : boot_world) (cfg : Config) : Boot unit :=
  if ScanOnStartup cfg then
    res ← (fun s => let '(r, d) := RunRescan (bw_scan w) (bw_now w) (bt_db s) in
                    (match r with Ok a => Ok a | Err e => Err (XStartupScan e) end,
                     Boot_State (bt_os s) (bt_schema s) d (bt_gauges s) (bt_catalog s)));
    set_gauge (GActive (rr_ActiveAssets res));;
    missing ← query CountMissing;
    match missing with Ok n => set_gauge (GMissing n) | Err _ => mret tt end
  else mret tt.

Definition catalog_startup (w : boot_world) (cfg : Config) (id : FullIdentity) : Boot (option URL * HealthState) :=
  let configured := negb (String.eqb (TrimSpace (CatalogBaseURL cfg)) "") in
  let health := NewHealthState configured in
  if configured then
    match NewClient (url_parse (bw_validate w)) (CatalogBaseURL cfg) (durationOf (CatalogTimeoutSeconds cfg) Second) with
    | Err e => mret (None, Set_ (Some (catalog_err_text e)) health)
    | Ok (base, _) =>
        let '(r, obs) := EnsureProvider (bw_post w) base (catalog_view id) cfg in
        observe obs;;
        mret (Some base, Set_ (match r with Ok _ => None | Err e => Some (catalog_err_text e) end) health)
    end
  else mret (None, health).

(** From here on the repository works on the rows of the migrated tables. *)
Definition run_migration (w : boot_world) : Boot unit := fun s =>
  let '(r, sc) := Migrate (bw_migrate w) (bt_schema s) in
  (match r with Ok u => Ok u | Err e => Err (XMigrate e) end,
   Boot_State (bt_os s) sc (tables_of sc (bw_faults w) (bw_enforced w)) (bt_gauges s) (bt_catalog s)).

(** [main] up to the start-up scan. The audit for symbolic links only logs. *)
Definition bring_up (w : boot_world) : Boot local_parts :=
  or_exit XEnvironment (ValidateEnvironment (bw_env w) (bw_executable w) (bw_readFile w));;
  let cfg := Load (bw_env w) in
  or_exit XConfig (Config.Validate (bw_validate w) cfg);;
  set_gauge (GDeferred 0);;
  on_files XDataPath (MkdirAll (bw_mkdir_data w) (DataPath cfg));;
  on_files XAssetsPath (MkdirAll (bw_mkdir_assets w) (Join [DataPath cfg; AssetsSubdir cfg]));;
  idc ← on_files XIdentity (LoadOrCreate (Store := FileStore (IdentityPath cfg)) (false, bw_identity w) (bw_fresh w));
  let originAuthMode := ToLower (TrimSpace (OriginAuthMode cfg)) in
  let secret := match bw_secret w (OriginHMACSecretPath cfg) with
                | Ok text => Ok (bytes_of text)
                | Err m => Err m
                end in
  let '(signer, ready) := loadOriginSigner (bw_rand w) originAuthMode secret (OriginHMACKeyID cfg)
                            (uuid_String (id_ProviderID idc.1)) (OriginAuthIncludeQuery cfg) in
  or_exit XOpenDB (Open (bw_open w) cfg).1;;
  run_migration w;;
  startup_scan w cfg;;
  mret (Local cfg idc.1 idc.2 originAuthMode signer ready).

(** Up to the construction of the server. *)
Definition boot (w : boot_world) : Boot booted :=
  l ← bring_up w;
  ch ← catalog_startup w (lo_cfg l) (lo_identity l);
  mret (Booted l ch.1 ch.2).

(** After the server and the jobs have been started: the gauges, when there was no scan. *)
Definition late_gauges (cfg : Config) : Boot unit :=
  if negb (ScanOnStartup cfg) then
    active ← query CountActive;
    match active with Ok n => set_gauge (GActive n) | Err _ => mret tt end;;
    missing ← query CountMissing;
    match missing with Ok n => set_gauge (GMissing n) | Err _ => mret tt end
  else mret tt.

(** ** Lemmas *)

Lemma boot_bind_Ok {A B} (m : Boot A) (f : A -> Boot B) s b s' :
  (m ≫= f) s = (Ok b, s') -> exists a s1, m s = (Ok a, s1) /\ f a s1 = (Ok b, s').
Proof. unfold mbind, Boot_bind. destruct (m s) as [[a|x] s1]; [|done]. eauto. Qed.

Lemma or_exit_Ok {E A} (k : E -> exit_reason) (r : result E A) s a s' :
  or_exit k r s = (Ok a, s') -> r = Ok a /\ s' = s.
Proof. unfold or_exit. destruct r; [|done]. by intros [= -> ->]. Qed.

Lemma on_files_Ok {A} (k : id_err -> exit_reason) (m : OS A) s a s' :
  on_files k m s = (Ok a, s') -> exists o, m (bt_os s) = (Ok a, o) /\ 
    s' = Boot_State o (bt_schema s) (bt_db s) (bt_gauges s) (bt_catalog s).
Proof. unfold on_files. destruct (m (bt_os s)) as [[x|e] o]; [|done]. intros [= -> <-]. eauto. Qed.

Lemma run_migration_Ok w s u s' :
  run_migration w s = (Ok u, s') -> Migrate (bw_migrate w) (bt_schema s) = (Ok u, bt_schema s') /\
    bt_db s' = tables_of (bt_schema s') (bw_faults w) (bw_enforced w) /\ bt_os s' = bt_os s.
Proof. unfold run_migration. destruct (Migrate _ _) as [[x|e] sc]; [|done]. by intros [= -> <-]. Qed.

Lemma startup_scan_Ok w cfg s u s' :
  startup_scan w cfg s = (Ok u, s') ->
  bt_os s' = bt_os s /\ bt_schema s' = bt_schema s /\
  (ScanOnStartup cfg = false -> bt_db s' = bt_db s) /\
  (ScanOnStartup cfg = true -> exists sr dur res d, bw_scan w = Ok (sr, dur) /\
     store_scan sr (bw_now w) (bt_db s) = (Ok res, d) /\ assets (bt_db s') = assets d).
Proof.
  unfold startup_scan. destruct (ScanOnStartup cfg); [|by intros [= _ <-]].
  intros Hs. apply boot_bind_Ok in Hs as (res & s1 & Hr & Hs).
  destruct (bw_scan w) as [[sr dur]|e]; [|done]. rewrite RunRescan_store in Hr.
  destruct (store_scan sr (bw_now w) (bt_db s)) as [[r|e] d] eqn:Est; [|done]. injection Hr as _ <-.
  apply boot_bind_Ok in Hs as (x & s2 & [= _ <-] & Hs).
  apply boot_bind_Ok in Hs as (m & s3 & Hq & Hs). unfold query in Hq. cbn [bt_db] in Hq.
  destruct (CountMissing d) as [m' d'] eqn:Ec. apply CountMissing_inv in Ec as [[Ed _] _]. injection Hq as -> <-.
  destruct m; injection Hs as _ <-; cbn; (split_and!; [done|done|done|eauto 10]).
Qed.

Lemma drop_eol_app l b :
  drop_eol (l ++ [b]) = match drop_eol l with [] => drop_eol [b] | l' => l' ++ [b] end.
Proof. induction l as [|c l IH]; [done|]. cbn [app drop_eol]. by destruct (eol_byte c). Qed.

(** The check and [main] trim the secret in the same way. *)
Lemma trim_eol_secret t : bytes_of (trim_eol t) = trimSecret (bytes_of t).
Proof.
  unfold trimSecret, trim_eol. induction t as [|c t IH]; [done|].
  change (bytes_of (String c t)) with (byte_of c :: bytes_of t). cbn [rev TrimRightFunc].
  rewrite drop_eol_app. destruct (drop_eol (rev (bytes_of t))) as [|b l].
  - apply (bytes_of_inj _ "") in IH. rewrite IH. cbn [String.eqb andb drop_eol]. unfold eol_byte.
    by destruct ((byte_of c =? 13) || (byte_of c =? 10)).
  - destruct (TrimRightFunc _ t) as [|d u] eqn:E.
    + cbn in IH. apply (f_equal length) in IH. rewrite length_app in IH. cbn in IH. lia.
    + cbn [String.eqb andb]. rewrite rev_app_distr. cbn [rev app]. 
      change (bytes_of (String c (String d u))) with (byte_of c :: bytes_of (String d u)). by rewrite IH.
Qed.

(** What a successful start has done before it asks the catalog. *)
Lemma bring_up_Ok w s l s' :
  bring_up w s = (Ok l, s') ->
  let cfg := Load (bw_env w) in
  lo_cfg l = cfg /\ ValidateEnvironment (bw_env w) (bw_executable w) (bw_readFile w) = Ok tt /\
  Config.Validate (bw_validate w) cfg = Ok tt /\
  (exists o, LoadOrCreate (Store := FileStore (IdentityPath cfg)) (false, bw_identity w) (bw_fresh w) o =
     (Ok (lo_identity l, lo_created l), bt_os s')) /\
  lo_originAuthMode l = ToLower (TrimSpace (OriginAuthMode cfg)) /\
  loadOriginSigner (bw_rand w) (lo_originAuthMode l)
    (match bw_secret w (OriginHMACSecretPath cfg) with Ok t => Ok (bytes_of t) | Err m => Err m end)
    (OriginHMACKeyID cfg) (uuid_String (id_ProviderID (lo_identity l))) (OriginAuthIncludeQuery cfg) =
  (lo_signer l, lo_originAuthReady l) /\
  exists s1 s2, bt_schema s1 = bt_schema s /\ run_migration w s1 = (Ok tt, s2) /\ startup_scan w cfg s2 = (Ok tt, s').
Proof.
  intros Hb cfg. unfold bring_up in Hb. fold cfg in Hb.
  apply boot_bind_Ok in Hb as ([] & s1 & [He ->]%or_exit_Ok & Hb).
  apply boot_bind_Ok in Hb as ([] & s2 & [Hv ->]%or_exit_Ok & Hb).
  apply boot_bind_Ok in Hb as ([] & s3 & [= <-] & Hb).
  apply boot_bind_Ok in Hb as ([] & s4 & (? & _ & ->)%on_files_Ok & Hb).
  apply boot_bind_Ok in Hb as ([] & s5 & (? & _ & ->)%on_files_Ok & Hb).
  apply boot_bind_Ok in Hb as ([i c] & s6 & (o & Hi & ->)%on_files_Ok & Hb). cbn [fst snd] in Hb.
  destruct (loadOriginSigner _ _ _ _ _ _) as [sg rd] eqn:Es.
  apply boot_bind_Ok in Hb as ([] & s7 & [_ ->]%or_exit_Ok & Hb).
  apply boot_bind_Ok in Hb as ([] & s8 & Hm & Hb).
  apply boot_bind_Ok in Hb as ([] & s9 & Hs & Hb). injection Hb as <- <-. cbn.
  pose proof (run_migration_Ok _ _ _ _ Hm) as (_ & _ & Ho).
  destruct (startup_scan_Ok _ _ _ _ _ Hs) as (Ho' & _). split_and!; try done.
  - eexists. rewrite Hi. by rewrite Ho', Ho.
  - eexists _, _. split; [|by split]. done.
Qed.

Lemma length_bytes_of t : length (bytes_of t) = slen t.
Proof. unfold bytes_of. rewrite length_map. induction t as [|c t IH]; [done|]. cbn. by f_equal. Qed.

(** The path of the secret has been trimmed when the configuration was loaded. *)
Lemma trimmed_path w cfg : cfg = Load (bw_env w) -> TrimSpace (OriginHMACSecretPath cfg) = OriginHMACSecretPath cfg.
Proof.
  intros ->. unfold Load. destruct (getenvBoolWithExplicit _ _ _), (getenvWithExplicit _ _). apply TrimSpace_idem.
Qed.

Lemma validated_secret (ve : validate_env N) c :
  Config.Validate ve c = Ok tt -> ToLower (TrimSpace (OriginAuthMode c)) = "hmac" ->
  exists t, readFile ve (TrimSpace (OriginHMACSecretPath c)) = Ok t /\ (16 <= slen (trim_eol t))%nat.
Proof.
  intros (mode & pub & _ & _ & _ & _ & _ & Ha & _)%Validate_Ok Hm. unfold validate_auth in Ha. rewrite Hm in Ha. cbn in Ha.
  inv_ok. destruct (readFile _ _) as [t|m]; [|done]. cbn [lift_io] in *. inv_ok. eexists. split; [done|].
  match goal with Hlt : Nat.ltb _ _ = false |- _ => by apply Nat.ltb_ge in Hlt end.
Qed.

Lemma boot_Ok w s b s' :
  boot w s = (Ok b, s') -> exists s1, bring_up w s = (Ok (bo_local b), s1) /\
    catalog_startup w (lo_cfg (bo_local b)) (lo_identity (bo_local b)) s1 = (Ok (bo_client b, bo_health b), s').
Proof.
  unfold boot. intros Hb. apply boot_bind_Ok in Hb as (l & s1 & Hl & Hb).
  apply boot_bind_Ok in Hb as ([c h] & s2 & Hc & Hb). injection Hb as <- <-. cbn. eauto.
Qed.

(** The catalog's part of the start-up never ends the program and changes nothing but its own
    observations. *)
Lemma catalog_startup_frame w cfg id s :
  exists c h obs, catalog_startup w cfg id s =
    (Ok (c, h), Boot_State (bt_os s) (bt_schema s) (bt_db s) (bt_gauges s) obs).
Proof.
  unfold catalog_startup. destruct (negb _); [|by destruct s; repeat eexists].
  destruct (NewClient _ _ _) as [[base t]|e]; [|by destruct s; repeat eexists].
  destruct (EnsureProvider _ _ _ _) as [r obs]. by repeat eexists.
Qed.

(** After validation the client's initialisation cannot fail. *)
Lemma validated_client w cfg id s c h s' :
  Config.Validate (bw_validate w) cfg = Ok tt -> catalog_startup w cfg id s = (Ok (c, h), s') ->
  hs_enabled h = negb (String.eqb (TrimSpace (CatalogBaseURL cfg)) "") /\
  match c with
  | None => TrimSpace (CatalogBaseURL cfg) = "" /\ hs_lastErr h = ""
  | Some base => TrimSpace (CatalogBaseURL cfg) <> "" /\
      hs_lastErr h = match (EnsureProvider (bw_post w) base (catalog_view id) cfg).1 with
                     | Ok _ => "" | Err e => catalog_err_text e end
  end.
Proof.
  intros (mode & pub & _ & _ & _ & _ & _ & _ & Hcat & _)%Validate_Ok. unfold catalog_startup.
  destruct (String.eqb_spec (TrimSpace (CatalogBaseURL cfg)) "") as [He|He]; [by intros [= <- <- <-]|].
  unfold validate_catalog in Hcat. apply String.eqb_neq in He as Hf. rewrite Hf in Hcat. inv_ok.
  match goal with Hu : validateURL _ _ _ = Ok ?u |- _ => rename u into base; apply validateURL_Ok in Hu as (Hp & Hh & Hs) end.
  unfold NewClient. rewrite Hf, Hp. cbn [negb].
  apply String.eqb_neq in Hh. rewrite Hh.
  destruct (String.eqb_spec (u_scheme base) "") as [Hz|_]; [rewrite Hz in Hs; by destruct Hs|]. cbn [orb].
  destruct (EnsureProvider _ _ _ _) as [r obs] eqn:Ee. intros [= <- <- _]. cbn. rewrite Ee. cbn. by destruct r.
Qed.

Definition with_post (post : URL -> payload -> result string catalog_resp) (w : boot_world) : boot_world :=
  BootWorld (bw_env w) (bw_executable w) (bw_readFile w) (bw_validate w) (bw_mkdir_data w) (bw_mkdir_assets w)
    (bw_identity w) (bw_fresh w) (bw_secret w) (bw_rand w) (bw_open w) (bw_migrate w) (bw_faults w) (bw_enforced w) (bw_scan w)
    (bw_now w) post.

(** C25: the catalog cannot keep the provider down. Whatever it answers, and if it does not answer at
    all, start-up ends in the same way, with the same exit reason or the same configuration,
    identity, signer, files and database; there is a client exactly when a catalog is configured; and
    the health state holds the error of the registration, or none if it succeeded. *)
Theorem catalog_never_blocks w s post :
  let w' := with_post post w in
  match boot w s, boot w' s with
  | (Ok b, t), (Ok b', t') =>
      bo_local b' = bo_local b /\ bt_os t' = bt_os t /\ bt_schema t' = bt_schema t /\ bt_db t' = bt_db t /\
      bt_gauges t' = bt_gauges t /\
      match bo_client b with
      | None => TrimSpace (CatalogBaseURL (lo_cfg (bo_local b))) = "" /\ bo_health b = NewHealthState false
      | Some base => TrimSpace (CatalogBaseURL (lo_cfg (bo_local b))) <> "" /\
          bo_health b = MkHealth true
            match (EnsureProvider (bw_post w) base (catalog_view (lo_identity (bo_local b))) (lo_cfg (bo_local b))).1 with
            | Ok _ => "" | Err e => catalog_err_text e end
      end
  | (Err x, t), (Err x', t') => x' = x /\ t' = t
  | _, _ => False
  end.
Proof.
  intros w'. unfold boot. change (bring_up w') with (bring_up w). unfold mbind, Boot_bind.
  destruct (bring_up w s) as [[l|x] s1] eqn:Hl; [|done]. pose proof (bring_up_Ok _ _ _ _ Hl) as (Ec & _ & Hv & _).
  rewrite <- Ec in Hv.
  destruct (catalog_startup_frame w (lo_cfg l) (lo_identity l) s1) as (c & h & obs & Hc).
  destruct (catalog_startup_frame w' (lo_cfg l) (lo_identity l) s1) as (c' & h' & obs' & Hc').
  rewrite Hc, Hc'. cbn. split_and!; [done..|].
  destruct (validated_client _ _ _ _ _ _ _ Hv Hc) as [Hen Hh]. destruct h as [en err]. cbn in *. subst en.
  destruct c as [base|]; destruct Hh as [Hne ->].
  - split; [done|]. apply String.eqb_neq in Hne. by rewrite Hne.
  - split; [done|]. by rewrite Hne.
Qed.

(** C24: origin authentication after start-up. If the program starts in mode hmac and the file of the
    secret still holds what the configuration's check read, there is a signer and the check for
    readiness does not complain about it; if the file has become unreadable or too short in between,
    the program starts without a signer and never reports itself ready. *)
Theorem origin_auth_start w s b s' :
  boot w s = (Ok b, s') -> lo_originAuthMode (bo_local b) = "hmac" ->
  let cfg := lo_cfg (bo_local b) in
  let path := OriginHMACSecretPath cfg in
  (bw_secret w path = readFile (bw_validate w) path ->
   lo_originAuthReady (bo_local b) = true /\
   exists sg, lo_signer (bo_local b) = Some sg /\ (16 <= length (secret sg))%nat) /\
  ((forall t, bw_secret w path = Ok t -> (slen (trim_eol t) < 16)%nat) ->
   lo_signer (bo_local b) = None /\
   forall root ping s_stat s_audit,
     readinessChecker cfg root (lo_originAuthMode (bo_local b)) (lo_originAuthReady (bo_local b)) ping s_stat s_audit <> Ok tt).
Proof.
  intros (s1 & Hl & _)%boot_Ok Hm cfg path. destruct (bring_up_Ok _ _ _ _ Hl) as (Ec & _ & Hv & _ & Em & Hs & _).
  fold cfg in Ec. rewrite <- Ec in Hv, Hs, Em. fold path in Hs. rewrite Hm in *. unfold loadOriginSigner in Hs. cbn [String.eqb] in Hs.
  change (String.eqb "hmac" "hmac") with true in Hs. cbv iota in Hs. split.
  - intros Hsame. rewrite Hsame in Hs. destruct (validated_secret _ _ Hv (eq_sym Em)) as (t & Ht & Hlen).
    rewrite (trimmed_path w cfg Ec) in Ht. fold path in Ht. rewrite Ht in Hs.
    rewrite <- trim_eol_secret, length_bytes_of in Hs. destruct (Nat.ltb_spec (slen (trim_eol t)) 16); [lia|].
    injection Hs as <- <-. split; [done|]. eexists. split; [done|]. cbn. by rewrite length_bytes_of.
  - intros Hbad. assert (E : lo_signer (bo_local b) = None /\ lo_originAuthReady (bo_local b) = false).
    { destruct (bw_secret w path) as [t|m]; [|by injection Hs as <- <-].
      rewrite <- trim_eol_secret, length_bytes_of in Hs. specialize (Hbad t eq_refl).
      destruct (Nat.ltb_spec (slen (trim_eol t)) 16); [by injection Hs as <- <-|lia]. }
    destruct E as [-> ->]. split; [done|]. intros root ping s_stat s_audit.
    unfold readinessChecker. intros Hr. by inv_ok.
Qed.
End Main.

Section Sound.
Context `{UnicodeLower} `{RegexpMatch} `{UL : UuidLaws} `{BL : BtcecLaws} `{TP : TimeParseLenient}.
Context {N : Type}.

(** C10: what the program serves, it serves in order. When start-up gets as far as the server, the
    environment and the configuration have passed their checks; the identity is well formed, and every
    later start that can read its file will present the same provider to the catalog; the migration has
    been applied to the database; the asset table is consistent; and, if the start-up scan is on, the
    scan succeeded and the active assets of the database are exactly those found on disk. For a
    Unix-like system with sound random keys, an identity path that does not look like a temporary file,
    and a database whose asset rows were consistent before. *)
Theorem serves_only_in_order (w : boot_world (N := N)) s b s' :
  boot w s = (Ok b, s') ->
  HasPrefix (GoStrings.Base (IdentityPath (Load (bw_env w)))) tempPrefix = false ->
  unix_system (false, bw_identity w) -> fresh_ok (bw_fresh w) ->
  table_wf (rows_of read_asset "assets" (bt_schema s)) ->
  let cfg := lo_cfg (bo_local b) in
  let id := lo_identity (bo_local b) in
  ValidateEnvironment (bw_env w) (bw_executable w) (bw_readFile w) = Ok tt /\
  cfg = Load (bw_env w) /\ Config.Validate (bw_validate w) cfg = Ok tt /\
  (well_formed id /\ exists j, catalog_view j = catalog_view id /\
     forall env, can_read env -> st_Load (IdentityStore := FileStore (IdentityPath cfg)) env (bt_os s') = Ok j) /\
  Migrate (bw_migrate w) (bt_schema s) = (Ok tt, bt_schema s') /\
  table_wf (assets (bt_db s')) /\
  (ScanOnStartup cfg = true -> exists sr dur, bw_scan w = Ok (sr, dur) /\
     forall a, (exists r, assets (bt_db s') !! a = Some r /\ a_status r = "active") <-> a ∈ map as_AssetID (sr_Assets sr)).
Proof.
  intros (s1 & Hl & Hc)%boot_Ok HB Hu Hf Hw cfg id.
  destruct (bring_up_Ok _ _ _ _ Hl) as (Ec & He & Hv & (o & Hi) & _ & _ & s2 & s3 & Hsc0 & Hm & Hs). fold cfg id in Ec, Hi.
  rewrite <- Ec in Hi, Hs, Hv. rewrite <- Ec in HB.
  destruct (catalog_startup_frame w cfg id s1) as (c & h & obs & Hc'). fold cfg id in Hc. rewrite Hc' in Hc.
  injection Hc as _ _ <-. cbn [bt_os bt_schema bt_db].
  destruct (startup_scan_Ok _ _ _ _ _ Hs) as (Eo & Es & Hoff & Hon).
  destruct (run_migration_Ok _ _ _ _ Hm) as (Hmig & Hdb & _). rewrite Hsc0 in Hmig.
  assert (Hw3 : table_wf (assets (bt_db s3))) by (rewrite Hdb; cbn; by rewrite (Migrate_assets _ _ _ Hmig)).
  clear Hw. rename Hw3 into Hw.
  pose proof (FileStore_laws _ HB) as Hlaws. split; [done|]. split; [done|]. split; [done|]. split.
  { by apply (LoadOrCreate_stored (readable := can_read) (sound := unix_system) _ _ _ _ _ _ Hu Hf Hi). }
  split; [by rewrite Es|]. destruct (ScanOnStartup cfg).
  - destruct (Hon eq_refl) as (sr & dur & res & d & Hsc & Hst & Ed). rewrite Ed. split.
    + pose proof (store_scan_wf sr (bw_now w) (bt_db s3) Hw) as [Hd _]. by rewrite Hst in Hd.
    + intros _. exists sr, dur. split; [done|]. intros a. apply store_scan_inv in Hst as (_ & -> & _). by apply rescanned_active.
  - rewrite Hoff by done. done.
Qed.
End Sound.

(** ** Serving and shutting down

    The main goroutine from the moment the server runs: it waits for a signal or for the server's
    error, cancels the jobs, waits for them, lets the server drain its connections, and returns,
    which closes the database. Next to it run the goroutines of the jobs ([Runner]) and of the
    requests. *)

Inductive wake := Signalled | ServerFailed.

Inductive main_pc :=
| Serving                   (* at the select *)
| Awaiting (wk : wake)      (* jobsCancel() called, in jobRunner.Wait() *)
| Draining (wk : wake)      (* in srv.Shutdown *)
| Returning                 (* the deferred sqlDB.Close() has run *)
| Ended (code : Z).         (* the process is gone *)

Record program := Program {
  pg_jobs : state;
  pg_pc : main_pc;
  pg_listening : bool;   (* new requests are accepted *)
  pg_inflight : nat;     (* requests whose handler runs *)
  pg_db_open : bool;
}.

Inductive shutdown_result := ShutdownOk | ShutdownFailed.

Inductive main_label (K : Type) :=
| JobMoves (a : label K)
| RequestStarts
| RequestEnds
| ListenerFails
| Wakes (wk : wake)
| JobsAwaited
| Drained (r : shutdown_result)
| MainReturns.
Arguments JobMoves {K} _.
Arguments RequestStarts {K}.
Arguments RequestEnds {K}.
Arguments ListenerFails {K}.
Arguments Wakes {K} _.
Arguments JobsAwaited {K}.
Arguments Drained {K} _.
Arguments MainReturns {K}.

Section Machine.
Context {K : Type} `{TimeParseLenient}.

Definition with_jobs (j : state) (pc : main_pc) (p : program) : program :=
  Program j pc (pg_listening p) (pg_inflight p) (pg_db_open p).

(** A step of the job goroutines; the cancellation and the return of [Wait] belong to [main]. *)
Definition goroutine_label (a : label K) : bool := match a with Cancel | WaitReturns => false | _ => true end.

(** [Shutdown] closes the listener at once and returns without an error when no request runs any
    more; otherwise the time-out passes, [Close] is called and the program exits with code 1. [main]
    returns, so that the deferred calls run, only when nothing failed. *)
Definition main_step (a : main_label K) (p : program) : option program :=
  match a, pg_pc p with
  | _, Ended _ => None
  | JobMoves j, pc =>
      if goroutine_label j then (fun j' => with_jobs j' pc p) <$> step j (pg_jobs p) else None
  | RequestStarts, pc =>
      if pg_listening p then Some (Program (pg_jobs p) pc true (S (pg_inflight p)) (pg_db_open p)) else None
  | RequestEnds, pc =>
      match pg_inflight p with
      | O => None
      | S n => Some (Program (pg_jobs p) pc (pg_listening p) n (pg_db_open p))
      end
  | ListenerFails, pc => Some (Program (pg_jobs p) pc false (pg_inflight p) (pg_db_open p))
  | Wakes wk, Serving =>
      match wk, pg_listening p with
      | ServerFailed, true => None
      | _, _ => (fun j' => with_jobs j' (Awaiting wk) p) <$> step (Cancel (K := K)) (pg_jobs p)
      end
  | JobsAwaited, Awaiting wk =>
      (fun j' => Program j' (Draining wk) false (pg_inflight p) (pg_db_open p)) <$> step (WaitReturns (K := K)) (pg_jobs p)
  | Drained ShutdownFailed, Draining wk => Some (with_jobs (pg_jobs p) (Ended 1) p)
  | Drained ShutdownOk, Draining wk =>
      match pg_inflight p, wk with
      | O, Signalled => Some (Program (pg_jobs p) Returning (pg_listening p) 0 false)
      | O, ServerFailed => Some (with_jobs (pg_jobs p) (Ended 1) p)
      | S _, _ => None
      end
  | MainReturns, Returning => Some (with_jobs (pg_jobs p) (Ended 0) p)
  | _, _ => None
  end.

Definition serving (r : Runner) : program := Program (started r) Serving true 0 true.

Inductive reachable (p0 : program) : program -> Prop :=
| reach_refl : reachable p0 p0
| reach_step p a p' : reachable p0 p -> main_step a p = Some p' -> reachable p0 p'.

(** The invariant of the whole program. *)
Record main_inv (p : program) : Prop := {
  mi_jobs : inv (pg_jobs p);
  mi_stopped : match pg_pc p with
               | Draining _ | Returning | Ended _ => st_waited (pg_jobs p) = true /\ pg_listening p = false
               | _ => True
               end;
  mi_db : pg_db_open p = match pg_pc p with Returning | Ended 0 => false | _ => true end;
  mi_requests : pg_db_open p = false -> pg_inflight p = 0%nat;
}.

Lemma step_waited a (s s' : state) : inv s -> step (K := K) a s = Some s' -> st_waited s = true -> st_waited s' = true.
Proof.
  intros Hi Hs Hw. destruct (steps_waited s [a] s') as (_ & _ & ?); [|done..]. by eapply steps_cons, steps_nil.
Qed.

Lemma stuck_when_exited a (s : state) :
  (forall i l p, st_loops s !! i = Some (l, p) -> p = Exited) -> goroutine_label a = true -> step (K := K) a s = None.
Proof.
  intros Hex Hg. destruct a as [i|i w|i|i|i| |]; try done; cbn;
    (destruct (st_loops s !! i) as [[l p]|] eqn:E; [|done]); by rewrite (Hex i l p E).
Qed.

Lemma wait_returns_waited (s s' : state) : step (K := K) WaitReturns s = Some s' -> st_waited s' = true.
Proof. cbn. destruct (_ && _); [|done]. by intros [= <-]. Qed.

Lemma main_step_inv a p p' : main_inv p -> main_step a p = Some p' -> main_inv p'.
Proof.
  intros [Hj Hst Hdb Hrq] Hs. destruct p as [j pc ls n db]. cbn in *.
  destruct a as [a| | | |wk| |r|]; destruct pc as [|wk'|wk'| |code]; cbn -[step] in Hs; try done;
    try (destruct r; done).
  1-4: destruct (goroutine_label a); [|done]; apply fmap_Some in Hs as (j' & Hs & ->);
    split; cbn; [by eapply step_inv| |done|done]; try done; destruct Hst as [? ?]; eauto using step_waited.
  1-4: destruct ls; [|done]; injection Hs as <-; split; cbn; try done; naive_solver.
  1-4: destruct n as [|n]; [done|]; injection Hs as <-; split; cbn; try done; intros Hd; by apply Hrq in Hd.
  1-4: injection Hs as <-; split; cbn; try done; naive_solver.
  - assert (He : exists j', step (K := K) Cancel j = Some j' /\ p' = Program j' (Awaiting wk) ls n db).
    { destruct wk, ls; try done; apply fmap_Some in Hs as (j' & Hs & ->); eauto. }
    destruct He as (j' & Hs' & ->). split; cbn; try done. by eapply step_inv.
  - apply fmap_Some in Hs as (j' & Hs & ->). split; cbn; try done; [by eapply step_inv|].
    split; [by eapply wait_returns_waited|done].
  - destruct r; [|injection Hs as <-; by split]. destruct n as [|n], wk'; try done; injection Hs as <-; by split.
  - injection Hs as <-. by split.
Qed.

Lemma reachable_inv r p : r_wg r = 0 -> reachable (serving r) p -> main_inv p.
Proof.
  intros Hr. induction 1 as [|p a p' _ IH Hs]; [|by eapply main_step_inv].
  split; cbn; try done. by apply started_inv.
Qed.

(** C11: the database is closed last. In every state the program can reach, with requests arriving at any
    time, the listener failing and the jobs running as they like: when the database has been closed,
    every goroutine of the jobs has ended, no handler runs, no request is accepted, and no step of a
    job or a request is possible any more; and the program exits either with code 0 after closing the
    database or with code 1, which skips the deferred calls and leaves it to the operating system. *)
Theorem database_closed_last cfg d announcer status p :
  reachable (serving (NewRunner cfg d announcer status)) p ->
  (pg_db_open p = false ->
   (forall i l ph, st_loops (pg_jobs p) !! i = Some (l, ph) -> ph = Exited) /\
   pg_inflight p = 0%nat /\ pg_listening p = false /\
   (forall a, main_step (JobMoves a) p = None) /\
   main_step RequestStarts p = None /\ main_step RequestEnds p = None) /\
  (forall code, pg_pc p = Ended code -> pg_db_open p = negb (code =? 0)).
Proof.
  intros Hr. destruct (reachable_inv _ _ (eq_refl : r_wg (NewRunner cfg d announcer status) = 0) Hr) as [Hj Hst Hdb Hrq].
  split.
  - intros Hd. specialize (Hrq Hd). rewrite Hd in Hdb.
    assert (Hs : st_waited (pg_jobs p) = true /\ pg_listening p = false) by (destruct (pg_pc p); done).
    destruct Hs as [Hw Hl]. destruct (inv_waited _ Hj Hw) as [Hc Hz]. pose proof (proj1 (lives_0 _) Hz) as Hex. split_and!; try done.
    + intros a. unfold main_step. destruct (pg_pc p); try done. destruct (goroutine_label a) eqn:Hg; [|done].
      by rewrite (stuck_when_exited _ _ Hex Hg).
    + unfold main_step. rewrite Hl. by destruct (pg_pc p).
    + unfold main_step. rewrite Hrq. by destruct (pg_pc p).
  - intros code Hp. rewrite Hp in Hdb. rewrite Hdb. by destruct code.
Qed.
End Machine.

(** ** Witnesses *)

Module MainDemo.
#[local] Instance demo_lower : UnicodeLower := fun s => s.
#[local] Instance demo_times : TimeParseLenient := fun _ => None.
#[local] Instance demo_regexp : RegexpMatch := fun _ _ => None.
#[local] Existing Instance FileStoreDemo.uuid_ops.
#[local] Existing Instance FileStoreDemo.btcec_ops.
#[local] Existing Instance FileStoreDemo.uuid_laws.
#[local] Existing Instance FileStoreDemo.btcec_laws.

Definition vars : environ :=
  {[ "PROVIDER_PUBLIC_BASE_URL" := "https://p.example"; "PROVIDER_CATALOG_BASE_URL" := "https://catalog.example";
     "PROVIDER_ORIGIN_AUTH_MODE" := "hmac"; "PROVIDER_ORIGIN_HMAC_SECRET_PATH" := " /run/secret " ]}.

Definition world (secret : string -> result string string) (status : Z) : boot_world (N := string) :=
  BootWorld vars (Err "none") (fun _ => Err "none") ConfigDemo.demo_ve
    FileStoreDemo.system.2 FileStoreDemo.system.2 FileStoreDemo.system.2 FileStoreDemo.keys
    secret (fun n => Ok []) (fun _ => None) [] [] true
    (Ok (JobsDemo.sr, 5000000)) RepositoryDemo.now (fun _ _ => Ok (MkCatResp status DecEOF)).

Definition same (_ : string) : result string string := Ok "0123456789abcdef".
Definition gone (_ : string) : result string string := Err "no such file".
Definition s0 : boot_state := Boot_State FileStoreDemo.empty empty_schema RepositoryDemo.d0 [] [].
Definition lost : booted := Booted (Local (Load vars) FileStoreDemo.created true "hmac" None false)
  (Some (MkURL "https" "https://catalog.example" "")) (MkHealth true "catalog server error").

Example starts_degraded : (boot (world gone 503) s0).1 = Ok lost.
Proof. vm_compute. reflexivity. Qed.

(** The secret vanishes between the check and its use. *)
Lemma origin_auth_start_witness :
  lo_signer (bo_local lost) = None /\
  forall root ping s_stat s_audit, readinessChecker (Load vars) root "hmac" false ping s_stat s_audit <> Ok tt.
Proof.
  apply (origin_auth_start (world gone 503) s0 lost (boot (world gone 503) s0).2).
  - vm_compute. reflexivity.
  - reflexivity.
  - intros t [=].
Defined.

Definition fine := boot (world same 200) s0.

Lemma serves_only_in_order_witness :
  match fine with
  | (Ok b, s') => hs_lastErr (bo_health b) = "" /\
      (exists r, assets (bt_db s') !! "c" = Some r /\ a_status r = "active") /\ well_formed (lo_identity (bo_local b))
  | _ => False
  end.
Proof.
  unfold fine. destruct (boot (world same 200) s0) as [[b|x] s'] eqn:E; [|vm_compute in E; discriminate E].
  destruct (serves_only_in_order (UL := FileStoreDemo.uuid_laws) (BL := FileStoreDemo.btcec_laws)
    (world same 200) s0 b s' E) as (_ & Hc & _ & [Hid _] & _ & _ & Hscan).
  - vm_compute. reflexivity.
  - exact FileStoreDemo.unix_ok.
  - exact FileStoreDemo.keys_ok.
  - apply map_Forall_empty.
  - split; [vm_compute in E; injection E as <- _; reflexivity|]. split; [|exact Hid].
    destruct (Hscan ltac:(by rewrite Hc)) as (sr & dur & Hs & Ha). injection Hs as <- _. apply Ha. right. left.
Defined.

(** A request is being answered when the signal comes; the jobs stop first, then the request ends. *)
Definition stop_labels : list (main_label Z) :=
  RequestStarts :: map JobMoves (take 5 RunnerDemo.shutdown) ++ [Wakes Signalled] ++
  map JobMoves (take 9 (drop 6 RunnerDemo.shutdown)) ++ [RequestStarts; JobsAwaited; RequestEnds; RequestEnds; Drained ShutdownOk].

Fixpoint run_main (l : list (main_label Z)) (p : program) : option program :=
  match l with
  | [] => Some p
  | a :: l' => match main_step a p with Some p' => run_main l' p' | None => None end
  end.

Lemma run_main_reachable l p0 p p' : reachable (K := Z) p0 p -> run_main l p = Some p' -> reachable (K := Z) p0 p'.
Proof.
  revert p; induction l as [|a l IH]; intros p Hp; cbn; [by intros [= <-]|].
  destruct (main_step a p) as [q|] eqn:E; [|done]. apply IH. by eapply reach_step.
Qed.

Definition stopping : option program := run_main stop_labels (serving RunnerDemo.r0).

Lemma database_closed_last_witness :
  match stopping with
  | Some p => pg_db_open p = false /\ pg_pc p = Returning /\ (forall i l ph, st_loops (pg_jobs p) !! i = Some (l, ph) -> ph = Exited)
  | None => False
  end.
Proof.
  destruct stopping as [p|] eqn:E; [|vm_compute in E; discriminate E].
  destruct (database_closed_last (K := Z) RunnerDemo.cfg_on RepositoryDemo.d1 (NewCatalogAnnouncer true) None p) as [Hc _].
  - eapply run_main_reachable; [constructor|exact E].
  - assert (Hp : pg_db_open p = false /\ pg_pc p = Returning) by (vm_compute in E; injection E as <-; done).
    destruct Hp as [Hd Hp]. split; [exact Hd|]. split; [exact Hp|]. by apply Hc.
Defined.
End MainDemo.
